(* ===== verification/_CoqProject ===== *)
-Q . S2P
Prelude.v
JsString.v
JsNumber.v
JsObject.v
Json.v
Serializer.v
Parser.v
Codec.v
Ui.v
TsTypes.v
ConfigEditor.v
Services.v
ClientApp.v
InstallForm.v
WifiSetup.v
Installer.v
InstallerTypes.v
