(* ===== verification/Prelude.v ===== *)
(** * A verification library for the YoLab frontends

    This is a shallow embedding of the two React frontends of the YoLab
    homelab. The client UI ([src/homelab/client-ui/frontend/src]) edits
    the homelab's configuration and manages its services; the installer
    ([src/homelab/installer/frontend/src]) sets up WiFi and installs
    NixOS on a disk. Their one piece of algorithmic content is the
    configuration codec of [components/ConfigTab.tsx]: [toToml] turns
    the JSON object fetched from [GET /config] into a TOML-like text, the
    operator edits it, and [parseToml] turns the text back into the
    object that [saveConfig] posts to [POST /config]. Everything else is
    components whose asynchronous handlers call [fetch] and update React
    state.

    ** How the program is modelled, file by file

    The codec:
    - [Prelude] (this file): the result type [js_result] of a JavaScript
      computation (a value, a thrown exception, or a behaviour the model
      does not cover), its monad notation in [yolab_scope], the tactics,
      the hint databases [yolab] and [yolab_rw], and generic lemmas.
    - [JsString]: the [String.prototype] methods the code calls ([trim],
      [split], [startsWith], [endsWith], [includes], [slice],
      [Array.prototype.join]) on strings of 8-bit code units.
    - [JsNumber]: numbers restricted to the safe integers, their printing
      and the value of a JSON number literal.
    - [JsObject]: the property order of ordinary objects (array-index
      keys first, ascending, then the others in creation order), the
      built-in member names, and define/lookup.
    - [Json]: JSON values, [JSON.stringify], [JSON.parse] and the round
      trip [JSON.parse (JSON.stringify v) = v].
    - [Serializer]: [toToml] (ConfigTab.tsx lines 16-55), its totality
      and its independence from the fuel, and where it departs from the
      specification.
    - [Parser]: [parseToml] (lines 57-101): the in-memory value [jsval],
      the cursor [currentSection] as a path from the root, the per-line
      step, and the invariant that the parsed object keeps its keys in
      JavaScript's order.
    - [Codec]: the round trip [parseToml (toToml t)] on the shapes the
      serializer can represent: the object comes back with its entries
      regrouped as scalars, tables and table arrays; and, outside that
      domain, what the round trip does to the shapes the specification
      leaves open or gets wrong.

    The components ([Ui] and the files after it): a component is a
    record of [Ui.component]: its state after mounting with the effects
    of its [useEffect], which user events its render offers, and the
    step of a handler on a user event or when an awaited request
    settles. Each [useState] variable is a field of the state record;
    each handler is cut at its [await]s, the part before the [await]
    sending the request with the continuation it suspends, the part after
    it running when the request settles. A [world] adds the requests in
    flight; [Ui.step] is one user event or one settling, in any order,
    and [Ui.reachable] is the step relation's closure from the mount,
    with the rule-induction principle [Ui.reachable_invariant] and the
    executable [Ui.run].
    - [Ui]: messages and the timers of [showMessage] over an explicit
      clock, requests and responses, errors and their texts, property
      reads on the JSON the server sends, the lifting of a child's
      requests into its parent's, and the lemmas on the banner's timers
      and on flags raised while a request is in flight.
    - [TsTypes]: the TypeScript types the code gives the server's JSON
      ([interface Disk], [Status], [Network], [AvailableService],
      [DownloadedService], declared in the component files) as open
      interface types with a boolean conformance check [has_type], and
      the runs restricted to answers of those types
      ([TsTypes.reachable_typed], with [TsTypes.typed_state_invariant]).
    - [ConfigEditor]: the [ConfigTab] component ([loadConfig],
      [saveConfig], its render), built on [toToml] and [parseToml].
    - [Services]: [ServicesTab]: [loadServices] with its [Promise.all]
      as a cell of a store, [handleDownload], [handleDelete], the render.
    - [ClientApp]: the client [App.tsx]: tabs, banner, [handleRebuild],
      and both tabs as children, whose steps run inside the App's with
      their requests tagged ([with_config], [with_services]).
    - [InstallForm], [WifiSetup]: the two installer children, with the
      browser's form validation from the [required] and [type="url"]
      attributes. The hostname's [pattern] is left out on purpose:
      browsers compile it with the [v] flag, where its unescaped [-] is
      a syntax error, and ignore it; [InstallForm.form_valid_required]
      states what the validation promises, and the installer's
      theorems are proved against that promise.
    - [Installer]: the installer [App.tsx]: [fetchStatus], the choice of
      child, and React's unmounting and mounting of child instances,
      kept in a store indexed by mount order so that a request of an
      unmounted child still reaches [showMessage] and the callbacks.
    - [InstallerTypes]: the installer under answers of its declared
      types ([interface Status]): the invariant of its state over typed
      runs and the type safety of its render.

    ** What the theorems show

    The codec round-trips on its domain ([Codec.toToml_parseToml]) and
    [toToml] terminates, with a [TypeError] on a [null] array item as
    its one failure ([Serializer.toToml_null_item_throws]). For the
    components: end to end, loading and saving an unedited
    configuration posts it back regrouped, but a failed load makes Save
    post [{}]; whatever is typed, Save posts a JSON object with its keys
    in JavaScript's order, or nothing ([ConfigEditor.save_posts_object]);
    invariants over every run: one load, one save, one
    rebuild, one WiFi scan and one connect in flight at most, each
    exactly while its flag is set (all instances of the rule-induction
    lemma [Ui.flag_count_invariant]); the form never selects a disk
    listed as mounted; every install request carries a disk, a key, a
    hostname, a timezone and a remote URL. Type safety: when the
    servers answer with the types the TypeScript declares, no render
    throws: WifiSetup, ServicesTab, and the installer App with
    whichever children its status changes mount
    ([InstallerTypes.installer_render_safe]); the renders then show a
    string for every name the cards print. Progress: the services
    spinner always waits on a request in flight, and every message is
    cleared within five seconds, in the client App and in the
    installer, whose children call [showMessage] even once unmounted.
    The behaviours the code gets wrong are theorems over every world
    too: the reload of the services lists that settles last wins,
    whichever was started last ([Services.last_reload_wins]); an older
    [showMessage] timer clears a newer message
    ([ClientApp.older_timer_clears]); a status refresh keeps the form's
    selected disk whatever the new disk list says
    ([Installer.status_keeps_selection]); an error body crashes the
    services render; a failed first status request leaves the
    installer with nothing to click. The same holds for the codec's
    departures from the specification, each over all its inputs: a
    header on a key that holds a scalar makes [parseToml] throw
    ([Codec.parseToml_scalar_section]); strings are read back as JSON
    string literals, so backslash sequences are decoded
    ([Codec.string_escapes_decoded]); the parsed object lists
    integer-like keys first ([Parser.parseToml_canonical]); a table in
    a table comes back at the root ([Codec.nested_table_hoisted]); a
    key with [=] is split at it ([Codec.key_with_equals]); a
    [__proto__] entry is never printed
    ([Serializer.toToml_proto_dropped]); and the string items of a
    table array are printed as tables of their characters
    ([Codec.string_items_as_tables]).

    ** Errors and what is not modelled

    Every operation returns a [js_result]: [Ok v], [Throw e] for a
    JavaScript exception, or [Unmodelled u] when the program leaves the
    fragment this model covers: a number that is not a safe integer, a
    [\u] escape above U+00FF, an access reaching a built-in prototype,
    or an assignment that changes an object's prototype. Theorems that
    claim a result rule [Unmodelled] out. A [fetch] followed by
    [response.json()] is one step (the two [await]s are not
    interleaved with other events). The texts the engine gives its own
    errors and the browser's URL check are parameters. The servers are
    not in the repository: their answers are arbitrary [http_result]s.
    The JSX markup is modelled as far as it decides which events exist
    and what a claim reads; styling and React's development-mode double
    effects are not modelled. Two behaviours of React are left out: a
    render does not throw when an object is rendered as a text child
    (it cannot happen under the typed answers of the type-safety
    theorems), and after a render throws the model keeps stepping where
    React would unmount the whole tree. The model therefore has more
    runs than the program; the theorems over every run hold for the
    program's runs too, and no witness goes through a render that
    throws. The [...Props] interfaces are not
    definitions of their own: a parent passes its callbacks, and the
    model gives the child's [showMessage] calls and callback calls to
    the parent as outputs ([Ui.outputs]). [API_BASE] is the empty
    string, so the URLs are written out as the code builds them. The
    two [Message] types are [Ui.message].

    ** Fuel and bounds

    [toToml] recurses through nested tables with fuel equal to the depth
    of its argument plus one; [Serializer.toToml_total] shows that it
    never runs out and the lemma [Serializer.toToml_fuel_stable] that
    any larger fuel gives the same result. [JSON.parse] gets twice the
    length of its input plus one: the lemma [Json.json_parse_total]
    shows that this never runs out on any text, since each level of its
    recursion starts after a character of its parent. These two lemmas
    justify the bounds; they are not claims about the program. The clock of the components counts
    milliseconds in [nat]. *)

From Stdlib Require Import String Ascii List ZArith Lia Bool.
Import ListNotations.

Declare Scope yolab_scope.
Delimit Scope yolab_scope with yolab.
Open Scope string_scope.

(** ** Results of JavaScript computations *)

(** The exceptions the modelled code can throw. *)
Inductive js_error : Type :=
| TypeError
| SyntaxError
| RangeError.

(** The behaviours that fall outside the modelled fragment. *)
Inductive unmodelled : Type :=
| UFuel          (* fuel exhausted: shown never to happen *)
| UNumber        (* a number that is not a safe integer *)
| UWideChar      (* a code unit above 0xFF *)
| UBuiltin       (* a property found on a built-in prototype *)
| UPrototype     (* an assignment to [__proto__] that changes a prototype *)
| UArrayLength   (* an assignment to the [length] of an array *)
| UStale.        (* a cursor that no longer designates a value *)

Inductive js_result (A : Type) : Type :=
| Ok (a : A)
| Throw (e : js_error)
| Unmodelled (u : unmodelled).

Arguments Ok {A} a.
Arguments Throw {A} e.
Arguments Unmodelled {A} u.

Definition bind {A B : Type} (m : js_result A) (k : A -> js_result B) : js_result B :=
  match m with
  | Ok a => k a
  | Throw e => Throw e
  | Unmodelled u => Unmodelled u
  end.

Definition fmap {A B : Type} (f : A -> B) (m : js_result A) : js_result B :=
  bind m (fun a => Ok (f a)).

Notation "x <- m ;; k" := (bind m (fun x => k))
  (at level 61, m at next level, right associativity) : yolab_scope.
Notation "' p <- m ;; k" := (bind m (fun x => match x with p => k end))
  (at level 61, p pattern, m at next level, right associativity) : yolab_scope.

Open Scope yolab_scope.

(** [is_ok r] holds when [r] is a value. *)
Definition is_ok {A : Type} (r : js_result A) : bool :=
  match r with Ok _ => true | _ => false end.

(** ** Characters *)

Definition dq : ascii := "034"%char.        (* the double quote *)
Definition bslash : ascii := "092"%char.    (* the backslash *)
Definition lf : ascii := "010"%char.        (* the line feed *)

(** The one-character string. *)
Definition str1 (c : ascii) : string := String c EmptyString.

(** Membership of a character in a string. *)
Fixpoint has_char (c : ascii) (s : string) : bool :=
  match s with
  | EmptyString => false
  | String d s' => Ascii.eqb c d || has_char c s'
  end.

(** ** Tactics and hints *)

Create HintDb yolab discriminated.
Create Rewrite HintDb yolab_rw.

Ltac inv H := inversion H; subst; clear H.

(** Reduce binds whose first argument is a known result. *)
Ltac simpl_bind :=
  repeat match goal with
    | |- context [bind (Ok ?a) ?k] => change (bind (Ok a) k) with (k a); cbv beta
    | H : context [bind (Ok ?a) ?k] |- _ => change (bind (Ok a) k) with (k a) in H; cbv beta in H
    end.

(** Case analysis on the first bind of the goal. *)
Ltac case_bind :=
  match goal with
  | |- context [bind ?m _] =>
      let E := fresh "E" in destruct m eqn:E; simpl bind
  end.

(** Break every boolean conjunction among the hypotheses. *)
Ltac split_andb :=
  repeat match goal with
         | H : (_ && _)%bool = true |- _ =>
             let H' := fresh H in apply andb_true_iff in H as [H H']
         end.

(** ** Generic lemmas on results *)

Lemma bind_ok_inv {A B : Type} (m : js_result A) (k : A -> js_result B) (b : B) :
  bind m k = Ok b -> exists a, m = Ok a /\ k a = Ok b.
Proof. destruct m; simpl; intros H; [eauto | discriminate | discriminate]. Qed.

Lemma bind_assoc {A B C : Type} (m : js_result A) (k : A -> js_result B)
  (h : B -> js_result C) :
  bind (bind m k) h = bind m (fun a => bind (k a) h).
Proof. destruct m; reflexivity. Qed.

Lemma bind_ret {A : Type} (m : js_result A) : bind m Ok = m.
Proof. destruct m; reflexivity. Qed.

(** ** Generic lemmas on strings *)

Lemma sapp_nil_r (s : string) : s ++ "" = s.
Proof. induction s as [|c s IH]; simpl; [reflexivity | now rewrite IH]. Qed.

Lemma sapp_nil_l (s : string) : "" ++ s = s.
Proof. reflexivity. Qed.

Lemma sapp_assoc (a b c : string) : (a ++ b) ++ c = a ++ (b ++ c).
Proof. induction a as [|x a IH]; simpl; [reflexivity | now rewrite IH]. Qed.

Lemma sapp_length (a b : string) :
  String.length (a ++ b) = String.length a + String.length b.
Proof. induction a as [|x a IH]; simpl; [reflexivity | now rewrite IH]. Qed.

Lemma has_char_app (c : ascii) (a b : string) :
  has_char c (a ++ b) = has_char c a || has_char c b.
Proof.
  induction a as [|x a IH]; simpl; [reflexivity | now rewrite IH, orb_assoc].
Qed.

Lemma str1_app (c : ascii) (s : string) : str1 c ++ s = String c s.
Proof. reflexivity. Qed.

(** ** Generic lemmas on lists *)

(** Replacing the element at [i] (or appending, past the end) keeps a
    property every element has. *)
Lemma filter_all {X : Type} (f : X -> bool) (l : list X) :
  (forall x, In x l -> f x = true) -> filter f l = l.
Proof.
  induction l as [|x l IH]; intros H; cbn; [reflexivity|].
  rewrite (H x (or_introl eq_refl)), IH; [reflexivity|]. intros y Hy. apply H. now right.
Qed.

Lemma filter_none_all {X : Type} (f : X -> bool) (l : list X) :
  (forall x, In x l -> f x = false) -> filter f l = [].
Proof.
  induction l as [|x l IH]; intros H; cbn; [reflexivity|].
  rewrite (H x (or_introl eq_refl)). apply IH. intros y Hy. apply H. now right.
Qed.

Lemma forallb_splice {A : Type} (f : A -> bool) (l : list A) (i : nat) (x : A) :
  forallb f l = true -> f x = true -> forallb f (firstn i l ++ [x] ++ skipn (S i) l) = true.
Proof.
  revert i. induction l as [|a l IH]; intros [|i] Hl Hx;
    cbn [firstn skipn app forallb] in *; rewrite ?Hx; cbn; [reflexivity | reflexivity | |];
    apply andb_true_iff in Hl as [Ha Hl]; [exact Hl | rewrite Ha; exact (IH i Hl Hx)].
Qed.

Lemma forallb_nth_error {A : Type} (f : A -> bool) (l : list A) (i : nat) (x : A) :
  forallb f l = true -> nth_error l i = Some x -> f x = true.
Proof.
  intros Hl Hn. apply nth_error_In in Hn. exact (proj1 (forallb_forall f l) Hl x Hn).
Qed.

#[export] Hint Rewrite sapp_nil_l sapp_nil_r sapp_assoc sapp_length has_char_app : yolab_rw.
#[export] Hint Rewrite @bind_assoc @bind_ret : yolab_rw.
