(* ===== verification/JsString.v ===== *)
(** * JavaScript string operations used by the codec

    Strings are Rocq [string]s, read as sequences of UTF-16 code units
    restricted to the range 0-255 (Latin-1); wider code units are outside
    the model. This file models the [String.prototype] methods that
    [toToml] and [parseToml] call ([trim], [startsWith], [endsWith],
    [includes], [slice], [split] with a one-character separator) and
    [Array.prototype.join], together with the lemmas that describe how
    they act on concatenations. *)

From Stdlib Require Import String Ascii List ZArith Lia Bool.
From S2P Require Import Prelude.
Import ListNotations.
Open Scope string_scope.
Open Scope yolab_scope.

(** ** Whitespace and [trim] *)

(** The WhiteSpace and LineTerminator code points of ECMA-262 that
    [String.prototype.trim] removes, within 0-255: TAB, LF, VT, FF, CR,
    SPACE and NO-BREAK SPACE. *)
Definition is_js_space (c : ascii) : bool :=
  let n := nat_of_ascii c in
  (((9 <=? n) && (n <=? 13)) || (n =? 32) || (n =? 160))%nat.

Arguments is_js_space : simpl never.

Fixpoint trim_start (s : string) : string :=
  match s with
  | EmptyString => EmptyString
  | String c s' => if is_js_space c then trim_start s' else s
  end.

Fixpoint trim_end (s : string) : string :=
  match s with
  | EmptyString => EmptyString
  | String c s' =>
      let r := trim_end s' in
      match r with
      | EmptyString => if is_js_space c then EmptyString else str1 c
      | _ => String c r
      end
  end.

(** [s.trim()] *)
Definition trim (s : string) : string := trim_end (trim_start s).

(** ** Prefixes, suffixes, search *)

(** [s.startsWith(p)] *)
Definition starts_with (p s : string) : bool := String.prefix p s.

(** [s.endsWith(p)]: compare the last [length p] code units. *)
Definition ends_with (p s : string) : bool :=
  let n := String.length s in
  let m := String.length p in
  Nat.leb m n && String.eqb (substring (n - m) m s) p.

(** [s.includes(p)] *)
Fixpoint includes (p s : string) : bool :=
  String.prefix p s ||
  match s with
  | EmptyString => false
  | String _ s' => includes p s'
  end.

(** [s.slice(start, end)] with the relative-index rules of ECMA-262:
    a negative index counts from the end, both are clamped to the
    string, and an empty range gives the empty string. *)
Definition rel_index (len : Z) (i : Z) : Z :=
  if (i <? 0)%Z then Z.max (len + i) 0 else Z.min i len.

Definition slice (s : string) (start stop : Z) : string :=
  let len := Z.of_nat (String.length s) in
  let from := rel_index len start in
  let to := rel_index len stop in
  substring (Z.to_nat from) (Z.to_nat (Z.max (to - from) 0)) s.

(** ** [split] and [join] *)

(** [s.split(sep)] for a one-character separator: the maximal pieces
    between separators, in order; the empty string splits into [[""]]. *)
Fixpoint split (sep : ascii) (s : string) : list string :=
  match s with
  | EmptyString => [EmptyString]
  | String c s' =>
      let rest := split sep s' in
      if Ascii.eqb c sep then EmptyString :: rest
      else match rest with
           | r :: rs => String c r :: rs
           | [] => [str1 c]
           end
  end.

(** [parts.join(sep)] *)
Fixpoint join (sep : string) (parts : list string) : string :=
  match parts with
  | [] => EmptyString
  | [p] => p
  | p :: ps => p ++ sep ++ join sep ps
  end.

(** ** Lemmas on [split] and [join] *)

Lemma split_not_nil (sep : ascii) (s : string) : split sep s <> [].
Proof.
  induction s as [|c s IH]; simpl; [discriminate|].
  destruct (Ascii.eqb c sep); [discriminate|].
  destruct (split sep s); discriminate.
Qed.

(** The head piece grows by the leading character when it is not the
    separator. *)
Lemma split_cons_other (sep c : ascii) (s : string) :
  Ascii.eqb c sep = false ->
  exists r rs, split sep s = r :: rs /\ split sep (String c s) = String c r :: rs.
Proof.
  intros Hc. simpl. rewrite Hc.
  destruct (split sep s) as [|r rs] eqn:E; [now destruct (split_not_nil sep s)|].
  eauto.
Qed.

Lemma split_no_sep (sep : ascii) (s : string) :
  has_char sep s = false -> split sep s = [s].
Proof.
  induction s as [|c s IH]; simpl; [reflexivity|].
  intros H. apply orb_false_iff in H as [Hc Hs].
  rewrite Ascii.eqb_sym, Hc, (IH Hs). reflexivity.
Qed.

(** Splitting [a ++ sep ++ b], where [a] has no separator, gives [a]
    followed by the pieces of [b]. *)
Lemma split_app_sep (sep : ascii) (a b : string) :
  has_char sep a = false -> split sep (a ++ String sep b) = a :: split sep b.
Proof.
  induction a as [|c a IH]; simpl; intros H.
  - now rewrite Ascii.eqb_refl.
  - apply orb_false_iff in H as [Hc Ha].
    rewrite Ascii.eqb_sym, Hc, (IH Ha). reflexivity.
Qed.

Lemma join_split (sep : ascii) (s : string) : join (str1 sep) (split sep s) = s.
Proof.
  induction s as [|c s IH]; simpl; [reflexivity|].
  destruct (Ascii.eqb c sep) eqn:Hc.
  - apply Ascii.eqb_eq in Hc; subst c.
    destruct (split sep s) as [|r rs] eqn:E; [now destruct (split_not_nil sep s)|].
    simpl in *. now rewrite IH.
  - destruct (split sep s) as [|r [|r' rs]] eqn:E; simpl in *;
      [now destruct (split_not_nil sep s) | now rewrite IH | now rewrite IH].
Qed.

(** ** Lemmas on [trim] *)

Lemma trim_start_nonspace (c : ascii) (s : string) :
  is_js_space c = false -> trim_start (String c s) = String c s.
Proof. simpl. now intros ->. Qed.

Lemma trim_start_app_l (a b : string) :
  trim_start a <> EmptyString -> trim_start (a ++ b) = trim_start a ++ b.
Proof.
  induction a as [|c a IH]; simpl; [congruence|].
  destruct (is_js_space c); [exact IH | reflexivity].
Qed.

Lemma trim_start_spaces_app (a b : string) :
  trim_start a = EmptyString -> trim_start (a ++ b) = trim_start b.
Proof.
  induction a as [|c a IH]; simpl; [reflexivity|].
  destruct (is_js_space c); [exact IH | discriminate].
Qed.

Lemma trim_end_app_r (a b : string) :
  trim_end b <> EmptyString -> trim_end (a ++ b) = a ++ trim_end b.
Proof.
  induction a as [|c a IH]; simpl; intros H; [reflexivity|].
  rewrite (IH H).
  destruct (a ++ trim_end b) eqn:E; [|reflexivity].
  destruct (trim_end b); [contradiction | destruct a; discriminate].
Qed.

Lemma trim_end_spaces_app (a b : string) :
  trim_end b = EmptyString -> trim_end (a ++ b) = trim_end a.
Proof.
  induction a as [|c a IH]; simpl; intros H; [exact H|].
  now rewrite (IH H).
Qed.

(** A string whose last character is not a space is its own [trim_end]. *)
Lemma trim_end_last_nonspace (a : string) (c : ascii) :
  is_js_space c = false -> trim_end (a ++ str1 c) = a ++ str1 c.
Proof.
  intros Hc. rewrite trim_end_app_r; simpl; rewrite ?Hc; [reflexivity | discriminate].
Qed.

Lemma trim_start_idem (s : string) : trim_start (trim_start s) = trim_start s.
Proof.
  induction s as [|c s IH]; simpl; [reflexivity|].
  destruct (is_js_space c) eqn:Hc; [exact IH | simpl; now rewrite Hc].
Qed.

#[export] Hint Rewrite split_app_sep join_split trim_start_idem : yolab_rw.

Lemma length_trim_start (s : string) : String.length (trim_start s) <= String.length s.
Proof.
  induction s as [|c s IH]; simpl; [lia|]. destruct (is_js_space c); simpl; lia.
Qed.

Lemma length_trim_end (s : string) : String.length (trim_end s) <= String.length s.
Proof.
  induction s as [|c s IH]; simpl; [lia|].
  destruct (trim_end s); [destruct (is_js_space c)|]; simpl in *; lia.
Qed.

(** A string that [trim] leaves alone does not start with a space. *)
Lemma trim_fixed_head (c : ascii) (r : string) :
  trim (String c r) = String c r -> is_js_space c = false.
Proof.
  unfold trim. simpl. destruct (is_js_space c); [|reflexivity]. intros H.
  apply (f_equal String.length) in H. simpl in H.
  pose proof (length_trim_end (trim_start r)). pose proof (length_trim_start r). lia.
Qed.

Lemma trim_end_cons (c : ascii) (s : string) :
  is_js_space c = false -> trim_end s = s -> trim_end (String c s) = String c s.
Proof. intros Hc Hs. simpl. rewrite Hs. destruct s; [now rewrite Hc | reflexivity]. Qed.

(** A line that starts and ends with a non-space is its own [trim]. *)
Lemma trim_wrapped (c d : ascii) (a : string) :
  is_js_space c = false -> is_js_space d = false ->
  trim (String c (a ++ str1 d)) = String c (a ++ str1 d).
Proof.
  intros Hc Hd. unfold trim. rewrite trim_start_nonspace by exact Hc.
  change (String c (a ++ str1 d)) with (String c a ++ str1 d).
  now rewrite trim_end_last_nonspace.
Qed.

(** ** Lemmas on [substring], [ends_with] and [slice] *)

Lemma substring_app_skip (a s : string) (n m : nat) :
  substring (String.length a + n) m (a ++ s) = substring n m s.
Proof. induction a as [|c a IH]; simpl; [reflexivity | exact IH]. Qed.

Lemma substring_prefix (a s : string) : substring 0 (String.length a) (a ++ s) = a.
Proof. induction a as [|c a IH]; simpl; [now destruct s | now rewrite IH]. Qed.

Lemma substring_split (s : string) (n : nat) :
  n <= String.length s -> substring 0 n s ++ substring n (String.length s - n) s = s.
Proof.
  revert n. induction s as [|c s IH]; intros n Hn; simpl in *.
  - destruct n; [reflexivity | lia].
  - destruct n as [|n]; simpl.
    + f_equal. pose proof (substring_prefix s "") as H. now rewrite sapp_nil_r in H.
    + f_equal. apply IH. lia.
Qed.

Lemma sapp_cancel_r (a b p : string) : a ++ p = b ++ p -> a = b.
Proof.
  intros H. assert (Hl : String.length a = String.length b).
  { apply (f_equal String.length) in H. rewrite !sapp_length in H. lia. }
  rewrite <- (substring_prefix a p), <- (substring_prefix b p), H, Hl. reflexivity.
Qed.

(** [s.endsWith(p)] holds exactly when [s] is some [u] followed by [p]. *)
Lemma ends_with_spec (p s : string) : ends_with p s = true <-> exists u, s = u ++ p.
Proof.
  unfold ends_with. rewrite andb_true_iff, Nat.leb_le, String.eqb_eq. split.
  - intros [Hle Hs]. exists (substring 0 (String.length s - String.length p) s).
    pose proof (substring_split s (String.length s - String.length p)) as E.
    replace (String.length s - (String.length s - String.length p)) with
      (String.length p) in E by lia.
    rewrite Hs in E. symmetry. apply E. lia.
  - intros [u ->]. rewrite sapp_length. split; [lia|].
    replace (String.length u + String.length p - String.length p)
      with (String.length u + 0) by lia.
    rewrite substring_app_skip. pose proof (substring_prefix p "") as H.
    now rewrite sapp_nil_r in H.
Qed.

Lemma ends_with_app (p s : string) : ends_with p (s ++ p) = true.
Proof. apply ends_with_spec. eauto. Qed.

(** The line [[k]] ends with [\]\]] exactly when [k] ends with [\]]. *)
Lemma ends_with_bracket (k : string) :
  ends_with "]]" ("[" ++ k ++ "]") = ends_with "]" k.
Proof.
  apply eq_true_iff_eq. rewrite !ends_with_spec. split.
  - intros [u Hu]. change "]]" with ("]" ++ "]") in Hu.
    rewrite <- sapp_assoc, <- sapp_assoc in Hu. apply sapp_cancel_r in Hu.
    destruct u as [|c u]; simpl in Hu; inversion Hu; eauto.
  - intros [u ->]. exists ("[" ++ u). simpl. now rewrite sapp_assoc.
Qed.

(** [s.slice(|a|, -|b|)] of [a ++ k ++ b] is [k]. *)
Lemma slice_inner (a k b : string) :
  0 < String.length b ->
  slice (a ++ k ++ b) (Z.of_nat (String.length a)) (- Z.of_nat (String.length b)) = k.
Proof.
  intros Hb. unfold slice, rel_index. rewrite !sapp_length.
  replace (Z.of_nat (String.length a) <? 0)%Z with false by (symmetry; apply Z.ltb_ge; lia).
  replace (- Z.of_nat (String.length b) <? 0)%Z with true by (symmetry; apply Z.ltb_lt; lia).
  lazymatch goal with
  | |- substring ?x ?y _ = _ =>
      replace x with (String.length a + 0)%nat by lia; replace y with (String.length k) by lia
  end.
  rewrite substring_app_skip. apply substring_prefix.
Qed.

Lemma prefix_app (p s : string) : String.prefix p (p ++ s) = true.
Proof.
  induction p as [|c p IH]; simpl; [now destruct s|].
  destruct (ascii_dec c c); [exact IH | contradiction].
Qed.

(** [s.includes(p)] holds when [p] occurs in [s]. *)
Lemma includes_app (p a b : string) : includes p (a ++ p ++ b) = true.
Proof.
  induction a as [|c a IH]; simpl.
  - destruct p; simpl; [now destruct b|]. destruct (ascii_dec a a); [|contradiction].
    now rewrite prefix_app.
  - rewrite IH. apply orb_true_r.
Qed.

(** The line [[k]] starts with [\[\[] exactly when [k] starts with [\[]. *)
Lemma starts_with_bracket (k : string) :
  starts_with "[[" ("[" ++ k ++ "]") = starts_with "[" k.
Proof.
  destruct k as [|a k]; [reflexivity|]. unfold starts_with. cbn [String.prefix append].
  destruct (ascii_dec "[" "["); [|contradiction].
  destruct (ascii_dec "[" a); [now destruct k | reflexivity].
Qed.

Lemma starts_with_head (d c : ascii) (p x : string) :
  Ascii.eqb d c = false -> starts_with (String d p) (String c x) = false.
Proof.
  intros H. unfold starts_with. simpl. destruct (ascii_dec d c) as [->|]; [|reflexivity].
  now rewrite Ascii.eqb_refl in H.
Qed.

Lemma starts_with_char (d c : ascii) (x : string) :
  starts_with (str1 d) (String c x) = Ascii.eqb d c.
Proof.
  destruct (Ascii.eqb d c) eqn:E; [|now apply starts_with_head].
  apply Ascii.eqb_eq in E. subst c. exact (prefix_app (str1 d) x).
Qed.
