(* ===== verification/JsNumber.v ===== *)
(** * JavaScript numbers: safe integers, printing, JSON literals

    The codec handles numbers in three places: [${value}] in [toToml]
    (ConfigTab.tsx line 38) prints a number with [Number::toString],
    [JSON.stringify] prints the numbers of an inline array, and
    [JSON.parse] reads the numbers of an assignment's value. The model
    keeps the integers of magnitude at most 2^53, which binary64 holds
    exactly; a literal whose value is not such an integer (a fraction,
    a huge exponent, an inexact integer) is [Unmodelled UNumber]. Negative
    zero is read as [0]: the code only ever prints numbers, and
    [Number::toString] prints both zeros as ["0"]. *)

From Stdlib Require Import String Ascii List ZArith Lia Bool.
From Stdlib Require Import DecimalString DecimalPos DecimalFacts.
From S2P Require Import Prelude.
Import ListNotations.
Open Scope string_scope.
Open Scope yolab_scope.

(** ** Safe integers *)

Definition two53 : Z := 9007199254740992.

(** The integers that binary64 represents exactly and that the model
    keeps as numbers. *)
Definition safe_int (z : Z) : bool := (Z.abs z <=? two53)%Z.

(** ** Printing: [Number::toString] on safe integers *)

(** The decimal digits of a positive number, most significant first. *)
Definition pos_digits (p : positive) : string :=
  NilEmpty.string_of_uint (Pos.to_uint p).

(** [Number::toString(z)]: below 10^21 in magnitude, which holds for every
    safe integer, the decimal digits with a leading minus sign. *)
Definition number_to_string (z : Z) : string :=
  match z with
  | Z0 => "0"
  | Zpos p => pos_digits p
  | Zneg p => "-" ++ pos_digits p
  end.

(** ** JSON number literals *)

Definition is_digit (c : ascii) : bool :=
  let n := nat_of_ascii c in (Nat.leb 48 n && Nat.leb n 57).

Definition is_digit19 (c : ascii) : bool :=
  let n := nat_of_ascii c in (Nat.leb 49 n && Nat.leb n 57).

Arguments is_digit : simpl never.
Arguments is_digit19 : simpl never.

(** The longest prefix of digits and the rest. *)
Fixpoint span_digits (s : string) : string * string :=
  match s with
  | EmptyString => (EmptyString, EmptyString)
  | String c s' =>
      if is_digit c then let '(d, r) := span_digits s' in (String c d, r)
      else (EmptyString, s)
  end.

(** A lexed literal [-? int (. frac)? ((e|E) (+|-)? exp)?]. *)
Record numlit : Type := {
  nl_neg : bool;
  nl_int : string;
  nl_frac : string;
  nl_exp_neg : bool;
  nl_exp : string
}.

(** The value of a string of decimal digits. *)
Definition digits_value (ds : string) : Z :=
  match NilEmpty.uint_of_string ds with
  | Some u => Z.of_uint u
  | None => 0
  end.

(** An optional leading character [c]: whether it was there, and the rest. *)
Definition lex_opt (c : ascii) (s : string) : bool * string :=
  match s with
  | String d r => if Ascii.eqb d c then (true, r) else (false, s)
  | EmptyString => (false, EmptyString)
  end.

(** The exponent part [(e|E) (+|-)? digits], when present. *)
Definition lex_exponent (s : string) : option (bool * string * string) :=
  match s with
  | String c r =>
      if (Ascii.eqb c "e" || Ascii.eqb c "E")%char then
        let '(neg, r') :=
          match lex_opt "+" r with
          | (true, r') => (false, r')
          | (false, _) => lex_opt "-" r
          end in
        match span_digits r' with
        | (EmptyString, _) => None
        | (ds, rest) => Some (neg, ds, rest)
        end
      else Some (false, EmptyString, s)
  | EmptyString => Some (false, EmptyString, EmptyString)
  end.

(** The fraction part [. digits], when present. *)
Definition lex_fraction (s : string) : option (string * string) :=
  match lex_opt "." s with
  | (true, r) =>
      match span_digits r with
      | (EmptyString, _) => None
      | (ds, rest) => Some (ds, rest)
      end
  | (false, _) => Some (EmptyString, s)
  end.

(** The integer part [0 | [1-9][0-9]*]. *)
Definition lex_int (s : string) : option (string * string) :=
  match s with
  | String c r =>
      if Ascii.eqb c "0" then Some ("0", r)
      else if is_digit19 c then let '(ds, r') := span_digits r in Some (String c ds, r')
      else None
  | EmptyString => None
  end.

(** The number production of the JSON grammar (ECMA-404): [None] when
    the text does not start with a number. *)
Definition lex_number (s : string) : option (numlit * string) :=
  let '(neg, s1) := lex_opt "-" s in
  match lex_int s1 with
  | None => None
  | Some (ip, r1) =>
      match lex_fraction r1 with
      | None => None
      | Some (fp, r2) =>
          match lex_exponent r2 with
          | None => None
          | Some (eneg, ep, r3) =>
              Some ({| nl_neg := neg; nl_int := ip; nl_frac := fp;
                       nl_exp_neg := eneg; nl_exp := ep |}, r3)
          end
      end
  end.

(** The value of a literal, when it is a safe integer. The mantissa
    [m] is the integer of all digits and the value is [m * 10^scale];
    the checks on the size of [scale] keep the computation small (a
    nonzero [m] times [10^16] already exceeds 2^53, and a nonzero [m]
    is not divisible by a power of ten longer than its digits). *)
Definition numlit_value (l : numlit) : js_result Z :=
  let m := digits_value (nl_int l ++ nl_frac l) in
  let e := digits_value (nl_exp l) in
  let scale := ((if nl_exp_neg l then - e else e) - Z.of_nat (String.length (nl_frac l)))%Z in
  let sgn (v : Z) := if nl_neg l then (- v)%Z else v in
  if (m =? 0)%Z then Ok 0%Z
  else if (scale >=? 0)%Z then
    if (scale >? 16)%Z then Unmodelled UNumber
    else let v := (m * 10 ^ scale)%Z in
         if safe_int v then Ok (sgn v) else Unmodelled UNumber
  else if (- scale >? Z.of_nat (String.length (nl_int l ++ nl_frac l)))%Z then Unmodelled UNumber
  else let d := (10 ^ (- scale))%Z in
       if (m mod d =? 0)%Z then
         let v := (m / d)%Z in if safe_int v then Ok (sgn v) else Unmodelled UNumber
       else Unmodelled UNumber.

(** ** Lemmas *)

Lemma uint_of_string_digits (p : positive) :
  NilEmpty.uint_of_string (pos_digits p) = Some (Pos.to_uint p).
Proof. apply NilEmpty.usu. Qed.

Lemma digits_value_pos (p : positive) : digits_value (pos_digits p) = Zpos p.
Proof.
  unfold digits_value. rewrite uint_of_string_digits.
  unfold Z.of_uint. now rewrite DecimalPos.Unsigned.of_to.
Qed.

(** The digits of a positive number start with a nonzero digit. *)
Lemma pos_digits_head (p : positive) :
  exists c r, pos_digits p = String c r /\ is_digit19 c = true.
Proof.
  assert (Hn : Decimal.unorm (Pos.to_uint p) = Pos.to_uint p).
  { rewrite <- DecimalPos.Unsigned.to_of, DecimalPos.Unsigned.of_to. reflexivity. }
  unfold pos_digits.
  destruct (Pos.to_uint p) as [| d | d | d | d | d | d | d | d | d | d] eqn:E;
    try (eexists _, _; split; reflexivity).
  - exfalso. exact (DecimalPos.Unsigned.to_uint_nonnil p E).
  - exfalso. rewrite unorm_D0 in Hn.
    destruct d; [exact (DecimalPos.Unsigned.to_uint_nonzero p E) | ..];
    match type of Hn with
    | Decimal.unorm ?u = _ =>
        pose proof (nb_digits_unorm u ltac:(discriminate)) as Hl;
        rewrite Hn in Hl; simpl in Hl; lia
    end.
Qed.

(** A character that can follow a number literal without extending it. *)
Definition stops_number (rest : string) : bool :=
  match rest with
  | String c _ =>
      negb (is_digit c || Ascii.eqb c "." || Ascii.eqb c "e" || Ascii.eqb c "E")
  | EmptyString => true
  end.

Fixpoint all_digits (s : string) : bool :=
  match s with
  | EmptyString => true
  | String c s' => is_digit c && all_digits s'
  end.

Lemma all_digits_pos (p : positive) : all_digits (pos_digits p) = true.
Proof. unfold pos_digits. induction (Pos.to_uint p); simpl; auto. Qed.

Lemma span_digits_app (ds rest : string) :
  all_digits ds = true ->
  (forall c r, rest = String c r -> is_digit c = false) ->
  span_digits (ds ++ rest) = (ds, rest).
Proof.
  intros Hd Hr. induction ds as [|c ds IH]; simpl in *.
  - destruct rest as [|c r]; [reflexivity|]. simpl. now rewrite (Hr c r eq_refl).
  - apply andb_true_iff in Hd as [Hc Hds]. rewrite Hc, (IH Hds). reflexivity.
Qed.

Lemma stops_number_digit (rest : string) :
  stops_number rest = true -> forall c r, rest = String c r -> is_digit c = false.
Proof.
  intros H c r ->. unfold stops_number in H.
  destruct (is_digit c); [discriminate | reflexivity].
Qed.

Lemma stops_number_frac (rest : string) :
  stops_number rest = true -> lex_fraction rest = Some (EmptyString, rest).
Proof.
  destruct rest as [|c r]; [reflexivity|]. unfold lex_fraction, lex_opt. simpl. intros H.
  destruct (Ascii.eqb c "."); [|reflexivity].
  now rewrite orb_true_r in H.
Qed.

Lemma stops_number_exp (rest : string) :
  stops_number rest = true -> lex_exponent rest = Some (false, EmptyString, rest).
Proof.
  destruct rest as [|c r]; [reflexivity|]. unfold lex_exponent. simpl. intros H.
  destruct (Ascii.eqb c "e"), (Ascii.eqb c "E"); try reflexivity;
    now rewrite ?orb_true_r in H.
Qed.

Lemma lex_int_pos (p : positive) (rest : string) :
  stops_number rest = true ->
  lex_int (pos_digits p ++ rest) = Some (pos_digits p, rest).
Proof.
  intros Hs. destruct (pos_digits_head p) as (c & r & Hp & H19).
  pose proof (all_digits_pos p) as Hd. rewrite Hp in *. simpl in Hd |- *.
  destruct (Ascii.eqb c "0") eqn:E0.
  - apply Ascii.eqb_eq in E0. subst. discriminate.
  - rewrite H19. apply andb_true_iff in Hd as [_ Hr].
    rewrite (span_digits_app r rest Hr (stops_number_digit rest Hs)). reflexivity.
Qed.

(** Printing a safe integer and lexing it back gives the integer, when
    the text that follows cannot extend the literal. *)
Lemma lex_number_to_string (z : Z) (rest : string) :
  stops_number rest = true ->
  exists l, lex_number (number_to_string z ++ rest) = Some (l, rest) /\
            (safe_int z = true -> numlit_value l = Ok z).
Proof.
  intros Hs. unfold lex_number.
  destruct z as [|p|p]; simpl.
  - rewrite (stops_number_frac rest Hs), (stops_number_exp rest Hs).
    eexists; split; [reflexivity | intros; reflexivity].
  - destruct (pos_digits_head p) as (c & r & Hp & H19).
    assert (Hneg : lex_opt "-" (pos_digits p ++ rest) = (false, pos_digits p ++ rest)).
    { rewrite Hp. simpl. destruct (Ascii.eqb c "-") eqn:E; [|reflexivity].
      apply Ascii.eqb_eq in E. now subst. }
    rewrite Hneg, (lex_int_pos p rest Hs),
      (stops_number_frac rest Hs), (stops_number_exp rest Hs).
    eexists; split; [reflexivity|]. intros Hsafe.
    unfold numlit_value; simpl. rewrite sapp_nil_r, digits_value_pos.
    simpl. now rewrite Pos.mul_1_r, Hsafe.
  - rewrite (lex_int_pos p rest Hs), (stops_number_frac rest Hs), (stops_number_exp rest Hs).
    eexists; split; [reflexivity|]. intros Hsafe.
    unfold numlit_value; simpl. rewrite sapp_nil_r, digits_value_pos.
    simpl. rewrite Pos.mul_1_r.
    assert (E : safe_int (Z.pos p) = safe_int (Z.neg p))
      by (unfold safe_int; rewrite <- Pos2Z.opp_pos, Z.abs_opp; reflexivity).
    rewrite E, Hsafe. reflexivity.
Qed.

(** ** The lexers consume their input

    The text a lexer leaves is never longer than its input; this bounds
    the fuel of [JSON.parse] ([Json.parse_value_fuel]). *)

Lemma span_digits_le (s : string) : String.length (snd (span_digits s)) <= String.length s.
Proof.
  induction s as [|c s IH]; cbn; [lia|].
  destruct (is_digit c); [destruct (span_digits s) as [d r]; cbn in *; lia | cbn; lia].
Qed.

Lemma lex_opt_le (c : ascii) (s : string) : String.length (snd (lex_opt c s)) <= String.length s.
Proof. destruct s as [|d r]; cbn; [lia|]. destruct (Ascii.eqb d c); cbn; lia. Qed.

Lemma lex_exponent_le (s rest ds : string) (neg : bool) :
  lex_exponent s = Some (neg, ds, rest) -> String.length rest <= String.length s.
Proof.
  destruct s as [|c r]; cbn; [intros Heq; inv Heq; cbn; lia|].
  destruct (Ascii.eqb c "e" || Ascii.eqb c "E")%char; [|intros Heq; inv Heq; cbn; lia].
  assert (Hr : String.length (snd (match lex_opt "+" r with
                                   | (true, r') => (false, r')
                                   | (false, _) => lex_opt "-" r
                                   end)) <= String.length r).
  { pose proof (lex_opt_le "+" r). pose proof (lex_opt_le "-" r).
    destruct (lex_opt "+" r) as [[] r']; cbn in *; lia. }
  destruct (match lex_opt "+" r with
            | (true, r') => (false, r')
            | (false, _) => lex_opt "-" r
            end) as [n r'].
  pose proof (span_digits_le r'). cbn in Hr.
  destruct (span_digits r') as [[|d ds'] rest']; intros Heq; inv Heq; cbn in *; lia.
Qed.

Lemma lex_fraction_le (s ds rest : string) :
  lex_fraction s = Some (ds, rest) -> String.length rest <= String.length s.
Proof.
  unfold lex_fraction. pose proof (lex_opt_le "." s).
  destruct (lex_opt "." s) as [[] r]; cbn in *; [|intros Heq; inv Heq; lia].
  pose proof (span_digits_le r).
  destruct (span_digits r) as [[|d ds'] rest']; intros Heq; inv Heq; cbn in *; lia.
Qed.

Lemma lex_int_le (s ds rest : string) :
  lex_int s = Some (ds, rest) -> String.length rest < String.length s.
Proof.
  destruct s as [|c r]; cbn; [discriminate|].
  destruct (Ascii.eqb c "0"); [intros Heq; inv Heq; lia|].
  destruct (is_digit19 c); [|discriminate].
  pose proof (span_digits_le r). destruct (span_digits r) as [d r']; cbn in *.
  intros Heq; inv Heq. lia.
Qed.

Lemma lex_number_le (s rest : string) (l : numlit) :
  lex_number s = Some (l, rest) -> String.length rest < String.length s.
Proof.
  unfold lex_number. pose proof (lex_opt_le "-" s).
  destruct (lex_opt "-" s) as [neg s1]; cbn in *.
  destruct (lex_int s1) as [[ip r1]|] eqn:Hi; [|discriminate].
  destruct (lex_fraction r1) as [[fp r2]|] eqn:Hf; [|discriminate].
  destruct (lex_exponent r2) as [[[eneg ep] r3]|] eqn:He; [|discriminate].
  intros Heq; inv Heq.
  pose proof (lex_int_le _ _ _ Hi). pose proof (lex_fraction_le _ _ _ Hf).
  pose proof (lex_exponent_le _ _ _ _ He). lia.
Qed.
