(* ===== verification/JsObject.v ===== *)
(** * Ordinary JavaScript objects: own properties in their order

    An object's own string-keyed properties are a list of key/value
    pairs in the order [Object.entries] reports them. ECMA-262
    (OrdinaryOwnPropertyKeys) fixes that order: the keys that are
    array indices (canonical decimal numerals below 2^32 - 1) first, in
    ascending numeric order, then the other keys in the order they were
    created. [define] is what an assignment to a fresh or existing own
    data property does to this list ([obj[key] = v] without a setter on
    the prototype chain, and CreateDataProperty in [JSON.parse]).

    The file also lists the property names of [Object.prototype] and
    [Array.prototype], which the [in] operator finds on every object and
    array ([parseToml] uses [in] to walk a section path). *)

From Stdlib Require Import String Ascii List ZArith Lia Bool.
From Stdlib Require Import DecimalString DecimalPos DecimalFacts.
From S2P Require Import Prelude JsNumber.
Import ListNotations.
Open Scope string_scope.
Open Scope yolab_scope.

Abbreviation props A := (list (string * A)).

(** ** Array indices *)

Definition max_index : Z := 4294967295.

(** [Some i] when [k] is the canonical numeral of an array index [i]. *)
Definition array_index (k : string) : option Z :=
  match k with
  | EmptyString => None
  | String c r =>
      if Ascii.eqb c "0" then
        match r with EmptyString => Some 0%Z | _ => None end
      else if is_digit19 c && all_digits r then
        let v := digits_value k in
        if (v <? max_index)%Z then Some v else None
      else None
  end.

Definition is_index (k : string) : bool :=
  match array_index k with Some _ => true | None => false end.

(** ** Lookup, update and define *)

Section Props.
Context {A : Type}.

Fixpoint lookup (k : string) (ps : props A) : option A :=
  match ps with
  | [] => None
  | (k', v) :: ps' => if String.eqb k k' then Some v else lookup k ps'
  end.

Definition has_own (k : string) (ps : props A) : bool :=
  match lookup k ps with Some _ => true | None => false end.

(** Replace the value of an existing key, in place. *)
Fixpoint update (k : string) (v : A) (ps : props A) : props A :=
  match ps with
  | [] => []
  | (k', v') :: ps' =>
      if String.eqb k k' then (k', v) :: ps' else (k', v') :: update k v ps'
  end.

(** Insert a new index key [k] of value [i] before the first key that
    is a larger index or not an index. *)
Fixpoint insert_index (i : Z) (k : string) (v : A) (ps : props A) : props A :=
  match ps with
  | [] => [(k, v)]
  | (k', v') :: ps' =>
      match array_index k' with
      | Some j => if (i <? j)%Z then (k, v) :: ps else (k', v') :: insert_index i k v ps'
      | None => (k, v) :: ps
      end
  end.

(** Create or overwrite the own data property [k]. *)
Definition define (k : string) (v : A) (ps : props A) : props A :=
  if has_own k ps then update k v ps
  else match array_index k with
       | Some i => insert_index i k v ps
       | None => ps ++ [(k, v)]
       end.

(** The object built by defining the entries one after the other,
    starting from [{}]. *)
Definition define_all (es : props A) (ps : props A) : props A :=
  fold_left (fun acc kv => define (fst kv) (snd kv) acc) es ps.

(** ** The canonical order *)

(** [ordered_from last named ks]: the keys [ks] may follow a prefix
    whose last index key is [last] and which contained a non-index key
    when [named] is set. *)
Fixpoint ordered_from (last : option Z) (named : bool) (ks : list string) : bool :=
  match ks with
  | [] => true
  | k :: ks' =>
      match array_index k with
      | Some i =>
          negb named
          && match last with Some j => (j <? i)%Z | None => true end
          && ordered_from (Some i) false ks'
      | None => ordered_from last true ks'
      end
  end.

Fixpoint nodup_keys (ks : list string) : bool :=
  match ks with
  | [] => true
  | k :: ks' => negb (existsb (String.eqb k) ks') && nodup_keys ks'
  end.

(** The own-property lists that an object can have. *)
Definition canonical (ps : props A) : bool :=
  ordered_from None false (map fst ps) && nodup_keys (map fst ps).

End Props.

Arguments array_index : simpl never.

(** ** Built-in prototype members *)

(** The string-keyed properties of [Object.prototype] (ES2023). *)
Definition object_proto_names : list string :=
  ["constructor"; "__defineGetter__"; "__defineSetter__"; "hasOwnProperty";
   "__lookupGetter__"; "__lookupSetter__"; "isPrototypeOf";
   "propertyIsEnumerable"; "toString"; "valueOf"; "__proto__";
   "toLocaleString"].

(** The string-keyed properties of [Array.prototype] (ES2023). *)
Definition array_proto_names : list string :=
  ["length"; "constructor"; "at"; "concat"; "copyWithin"; "fill"; "find";
   "findIndex"; "findLast"; "findLastIndex"; "lastIndexOf"; "pop"; "push";
   "reverse"; "shift"; "unshift"; "slice"; "sort"; "splice"; "includes";
   "indexOf"; "join"; "keys"; "entries"; "values"; "forEach"; "filter";
   "flat"; "flatMap"; "map"; "every"; "some"; "reduce"; "reduceRight";
   "toLocaleString"; "toString"; "toReversed"; "toSorted"; "toSpliced";
   "with"].

Definition is_object_proto_name (k : string) : bool :=
  existsb (String.eqb k) object_proto_names.

Definition is_array_proto_name (k : string) : bool :=
  existsb (String.eqb k) array_proto_names || is_object_proto_name k.

Definition proto_key : string := "__proto__".

(** ** Array indices are canonical numerals *)

Lemma uint_of_string_digits_some (s : string) :
  all_digits s = true -> exists u, NilEmpty.uint_of_string s = Some u.
Proof.
  induction s as [|c s IH]; simpl; [eauto|].
  intros H. apply andb_true_iff in H as [Hc Hs]. destruct (IH Hs) as [u Hu].
  rewrite Hu. unfold is_digit in Hc.
  destruct c as [[] [] [] [] [] [] [] []]; simpl in Hc; try discriminate;
    eexists; reflexivity.
Qed.

Lemma uint_of_string_head19 (c : ascii) (r : string) (u : Decimal.uint) :
  is_digit19 c = true -> NilEmpty.uint_of_string (String c r) = Some u ->
  Decimal.unorm u = u.
Proof.
  intros Hc Hu. simpl in Hu.
  destruct (NilEmpty.uint_of_string r) as [d|]; [|discriminate].
  apply uint_of_char_spec in Hu.
  repeat (destruct Hu as [[-> ->] | Hu]; [try discriminate; reflexivity|]).
  destruct Hu as [-> ->]. reflexivity.
Qed.

Lemma digit19_digit (c : ascii) : is_digit19 c = true -> is_digit c = true.
Proof.
  unfold is_digit19, is_digit; cbv zeta. intros H.
  apply andb_true_iff in H as [Ha Hb]. apply Nat.leb_le in Ha.
  rewrite (proj2 (Nat.leb_le 48%nat (nat_of_ascii c)) ltac:(lia)). exact Hb.
Qed.

Lemma digits_value_inj19 (c c' : ascii) (r r' : string) :
  is_digit19 c = true -> is_digit19 c' = true ->
  all_digits r = true -> all_digits r' = true ->
  digits_value (String c r) = digits_value (String c' r') ->
  String c r = String c' r'.
Proof.
  intros H1 H1' Hr Hr' Hv.
  destruct (uint_of_string_digits_some (String c r)) as [u Hu];
    [simpl; now rewrite Hr, digit19_digit|].
  destruct (uint_of_string_digits_some (String c' r')) as [u' Hu'];
    [simpl; now rewrite Hr', digit19_digit|].
  unfold digits_value in Hv. rewrite Hu, Hu' in Hv.
  unfold Z.of_uint in Hv. apply N2Z.inj in Hv.
  apply DecimalPos.Unsigned.of_inj in Hv.
  rewrite (uint_of_string_head19 c r u H1 Hu), (uint_of_string_head19 c' r' u' H1' Hu') in Hv.
  subst u'. apply NilEmpty.sus in Hu, Hu'. congruence.
Qed.

Lemma digits_value_pos19 (c : ascii) (r : string) :
  is_digit19 c = true -> all_digits r = true -> digits_value (String c r) <> 0%Z.
Proof.
  intros H1 Hr Hv.
  destruct (uint_of_string_digits_some (String c r)) as [u Hu];
    [simpl; now rewrite Hr, digit19_digit|].
  pose proof (uint_of_string_head19 c r u H1 Hu) as Hn.
  unfold digits_value in Hv. rewrite Hu in Hv. unfold Z.of_uint in Hv.
  assert (H0 : Pos.of_uint u = Pos.of_uint Decimal.zero) by (simpl; lia).
  apply DecimalPos.Unsigned.of_inj in H0. rewrite Hn in H0.
  simpl in Hu. destruct (NilEmpty.uint_of_string r) as [d|]; [|discriminate].
  apply uint_of_char_spec in Hu.
  repeat (destruct Hu as [[-> ->] | Hu]; [try discriminate|]).
  destruct Hu as [-> ->]. discriminate.
Qed.

(** Two keys with the same array index are the same key. *)
Lemma array_index_inj (k k' : string) (i : Z) :
  array_index k = Some i -> array_index k' = Some i -> k = k'.
Proof.
  unfold array_index.
  destruct k as [|c r]; [discriminate|]; destruct k' as [|c' r']; [discriminate|].
  destruct (Ascii.eqb c "0") eqn:E; destruct (Ascii.eqb c' "0") eqn:E';
    apply Ascii.eqb_eq in E || apply Ascii.eqb_neq in E;
    apply Ascii.eqb_eq in E' || apply Ascii.eqb_neq in E'.
  - destruct r, r'; try discriminate. congruence.
  - destruct r; [|discriminate]. intros [= <-].
    destruct (is_digit19 c' && all_digits r') eqn:H; [|discriminate].
    apply andb_true_iff in H as [H1 Hr].
    destruct (digits_value (String c' r') <? max_index)%Z; [|discriminate].
    intros [= Hv]. exfalso. exact (digits_value_pos19 c' r' H1 Hr Hv).
  - destruct r'; [|discriminate].
    destruct (is_digit19 c && all_digits r) eqn:H; [|discriminate].
    apply andb_true_iff in H as [H1 Hr].
    destruct (digits_value (String c r) <? max_index)%Z; [|discriminate].
    intros [= Hv] [= <-]. exfalso. exact (digits_value_pos19 c r H1 Hr Hv).
  - destruct (is_digit19 c && all_digits r) eqn:H; [|discriminate].
    destruct (is_digit19 c' && all_digits r') eqn:H'; [|discriminate].
    apply andb_true_iff in H as [H1 Hr]. apply andb_true_iff in H' as [H1' Hr'].
    destruct (digits_value (String c r) <? max_index)%Z; [|discriminate].
    destruct (digits_value (String c' r') <? max_index)%Z; [|discriminate].
    intros [= Hv] [= Hv']. apply digits_value_inj19; congruence.
Qed.

(** ** Properties of [define] *)

Definition opt_lt (last : option Z) (i : Z) : Prop :=
  match last with Some j => (j < i)%Z | None => True end.

Section PropsLemmas.
Context {A : Type}.
Implicit Types (ps : props A) (ks : list string).

Lemma has_own_keys k ps : has_own k ps = existsb (String.eqb k) (map fst ps).
Proof.
  unfold has_own. induction ps as [|[k' v'] ps IH]; simpl; [reflexivity|].
  destruct (String.eqb k k'); [reflexivity | exact IH].
Qed.

Lemma define_nil k (v : A) : define k v [] = [(k, v)].
Proof. unfold define. cbn. now destruct (array_index k). Qed.

Lemma map_fst_update k v ps : map fst (update k v ps) = map fst ps.
Proof.
  induction ps as [|[k' v'] ps IH]; simpl; [reflexivity|].
  destruct (String.eqb k k'); simpl; [reflexivity | now rewrite IH].
Qed.

Lemma ordered_from_app_l l n ks ks' :
  ordered_from l n (ks ++ ks') = true -> ordered_from l n ks = true.
Proof.
  revert l n. induction ks as [|k ks IH]; intros l n; simpl; [reflexivity|].
  destruct (array_index k); [|apply IH].
  intros H. apply andb_true_iff in H as [H1 H2]. rewrite H1. exact (IH _ _ H2).
Qed.

Lemma nodup_keys_app_l ks ks' : nodup_keys (ks ++ ks') = true -> nodup_keys ks = true.
Proof.
  induction ks as [|k ks IH]; simpl; [reflexivity|].
  intros H. apply andb_true_iff in H as [H1 H2].
  rewrite existsb_app, negb_orb in H1. apply andb_true_iff in H1 as [H1 _].
  now rewrite H1, (IH H2).
Qed.

Lemma canonical_app_l ps qs : canonical (ps ++ qs) = true -> canonical ps = true.
Proof.
  unfold canonical. rewrite map_app. intros H. apply andb_true_iff in H as [H1 H2].
  now rewrite (ordered_from_app_l _ _ _ _ H1), (nodup_keys_app_l _ _ H2).
Qed.

Lemma nodup_keys_last ks k :
  nodup_keys (ks ++ [k]) = true -> existsb (String.eqb k) ks = false.
Proof.
  induction ks as [|k0 ks IH]; simpl; [reflexivity|].
  intros H. apply andb_true_iff in H as [H1 H2].
  rewrite existsb_app in H1. simpl in H1. rewrite String.eqb_sym, (IH H2).
  destruct (String.eqb k0 k); simpl in *; [|reflexivity].
  now rewrite orb_true_r in H1.
Qed.

(** In a canonical list that ends with an index key, every earlier key
    is a smaller index. *)
Lemma ordered_last_index l n ks k i :
  ordered_from l n (ks ++ [k]) = true -> array_index k = Some i ->
  n = false /\ opt_lt l i /\
  Forall (fun k' => exists j, array_index k' = Some j /\ (j < i)%Z) ks.
Proof.
  revert l n. induction ks as [|k0 ks IH]; intros l n; simpl.
  - intros H Hi. rewrite Hi in H. rewrite andb_true_r in H.
    apply andb_true_iff in H as [Hn Hl]. destruct n; [discriminate|].
    repeat split; [|constructor].
    destruct l; simpl; [now apply Z.ltb_lt | exact I].
  - intros H Hi. destruct (array_index k0) as [j|] eqn:Ej.
    + apply andb_true_iff in H as [H H3]. apply andb_true_iff in H as [Hn Hl].
      destruct (IH _ _ H3 Hi) as (_ & Hji & HF). simpl in Hji.
      destruct n; [discriminate|]. repeat split; [| constructor; eauto].
      destruct l; simpl; [apply Z.ltb_lt in Hl; lia | exact I].
    + destruct (IH _ _ H Hi) as [Hf _]. discriminate.
Qed.

Lemma insert_index_end i k v ps :
  Forall (fun k' => exists j, array_index k' = Some j /\ (j < i)%Z) (map fst ps) ->
  insert_index i k v ps = (ps ++ [(k, v)])%list.
Proof.
  induction ps as [|[k' v'] ps IH]; simpl; [reflexivity|].
  intros HF. inversion HF as [|? ? [j [Hj Hlt]] HF']; subst.
  rewrite Hj. destruct (i <? j)%Z eqn:E; [apply Z.ltb_lt in E; lia|].
  now rewrite (IH HF').
Qed.

(** Assigning the entries of a canonical list one by one to a fresh
    object rebuilds the same list. *)
Theorem define_all_canonical ps : canonical ps = true -> define_all ps [] = ps.
Proof.
  induction ps as [|[k v] ps IH] using rev_ind; [reflexivity|].
  intros Hc. unfold define_all. rewrite fold_left_app. simpl.
  fold (define_all ps []). rewrite (IH (canonical_app_l _ _ Hc)).
  unfold canonical in Hc. rewrite map_app in Hc. simpl in Hc.
  apply andb_true_iff in Hc as [Ho Hn].
  unfold define. rewrite has_own_keys, (nodup_keys_last _ _ Hn).
  destruct (array_index k) as [i|] eqn:Ei; [|reflexivity].
  apply insert_index_end. now destruct (ordered_last_index _ _ _ _ _ Ho Ei) as (_ & _ & HF).
Qed.

Lemma ordered_named_any l l' ks : ordered_from l true ks = ordered_from l' true ks.
Proof.
  revert l l'. induction ks as [|k ks IH]; intros l l'; simpl; [reflexivity|].
  destruct (array_index k); [reflexivity | apply IH].
Qed.

Lemma ordered_app_named l n ks k :
  array_index k = None -> ordered_from l n ks = true -> ordered_from l n (ks ++ [k]) = true.
Proof.
  intros Hk. revert l n. induction ks as [|k0 ks IH]; intros l n; simpl.
  - now rewrite Hk.
  - destruct (array_index k0); [|apply IH].
    intros H. apply andb_true_iff in H as [H1 H2]. now rewrite H1, (IH _ _ H2).
Qed.

Lemma nodup_keys_app_new ks k :
  existsb (String.eqb k) ks = false -> nodup_keys ks = true -> nodup_keys (ks ++ [k]) = true.
Proof.
  induction ks as [|k0 ks IH]; simpl; [reflexivity|].
  intros Hk H. apply orb_false_iff in Hk as [Hk0 Hk].
  apply andb_true_iff in H as [H1 H2]. rewrite (IH Hk H2), existsb_app. simpl.
  rewrite String.eqb_sym, Hk0. now rewrite orb_false_r, H1.
Qed.

Lemma ordered_insert l ks i k :
  ordered_from l false ks = true -> opt_lt l i -> array_index k = Some i ->
  existsb (String.eqb k) ks = false ->
  forall (v : A) ps, map fst ps = ks ->
  ordered_from l false (map fst (insert_index i k v ps)) = true.
Proof.
  revert l. induction ks as [|k0 ks IH]; intros l Ho Hl Hi Hk v ps Hps.
  - destruct ps; [|discriminate]. simpl. rewrite Hi, andb_true_r.
    destruct l; simpl in *; [now apply Z.ltb_lt | reflexivity].
  - destruct ps as [|[k' v'] ps]; [discriminate|]. injection Hps as E0 Hps. subst k0 ks.
    simpl in Hk. apply orb_false_iff in Hk as [Hk0 Hk].
    simpl in Ho |- *. destruct (array_index k') as [j|] eqn:Ej.
    + apply andb_true_iff in Ho as [Hlj Ho2].
      destruct (i <? j)%Z eqn:Eij; simpl.
      * rewrite Hi, Ej, Eij, Ho2. destruct l; simpl in *; [|reflexivity].
        first [now rewrite Hl | now rewrite (proj2 (Z.ltb_lt _ _) Hl)].
      * rewrite Ej, Hlj. simpl. apply (IH (Some j)); auto.
        simpl. apply Z.ltb_ge in Eij. destruct (Z.eq_dec j i) as [->|]; [|lia].
        rewrite (array_index_inj k k' i Hi Ej), String.eqb_refl in Hk0. discriminate.
    + simpl. rewrite Hi, Ej. rewrite (ordered_named_any _ l).
      destruct l; simpl in *; [now rewrite (proj2 (Z.ltb_lt _ _) Hl) | exact Ho].
Qed.

Lemma insert_index_keys i k v ps :
  exists a b, ps = (a ++ b)%list /\ insert_index i k v ps = (a ++ (k, v) :: b)%list.
Proof.
  induction ps as [|[k' v'] ps IH]; simpl.
  - now exists [], [].
  - destruct (array_index k') as [j|].
    + destruct (i <? j)%Z; [now exists [], ((k', v') :: ps)|].
      destruct IH as (a & b & -> & ->). now exists ((k', v') :: a), b.
    + now exists [], ((k', v') :: ps).
Qed.

Lemma nodup_keys_middle a b k :
  existsb (String.eqb k) (a ++ b) = false -> nodup_keys (a ++ b) = true ->
  nodup_keys (a ++ k :: b) = true.
Proof.
  induction a as [|x a IH]; simpl; intros Hk H.
  - now rewrite Hk, H.
  - apply orb_false_iff in Hk as [Hx Hk]. apply andb_true_iff in H as [H1 H2].
    rewrite (IH Hk H2), existsb_app. simpl. rewrite existsb_app in H1.
    rewrite (String.eqb_sym x k), Hx, andb_true_r. exact H1.
Qed.

(** Assignment keeps an object's own properties in the canonical
    order. *)
Theorem canonical_define k v ps :
  canonical ps = true -> canonical (define k v ps) = true.
Proof.
  unfold canonical, define. intros H. apply andb_true_iff in H as [Ho Hn].
  rewrite has_own_keys. destruct (existsb (String.eqb k) (map fst ps)) eqn:Hk.
  - now rewrite map_fst_update, Ho, Hn.
  - destruct (array_index k) as [i|] eqn:Ei.
    + rewrite (ordered_insert None (map fst ps) i k Ho I Ei Hk v ps eq_refl).
      destruct (insert_index_keys i k v ps) as (a & b & -> & ->).
      rewrite !map_app in *. simpl. now rewrite nodup_keys_middle.
    + rewrite map_app. simpl.
      now rewrite (ordered_app_named _ _ _ _ Ei Ho), (nodup_keys_app_new _ _ Hk Hn).
Qed.

Lemma lookup_update k k' v ps :
  lookup k' (update k v ps) =
  if String.eqb k' k then (if has_own k ps then Some v else None) else lookup k' ps.
Proof.
  unfold has_own. induction ps as [|[k0 v0] ps IH]; simpl.
  - now destruct (String.eqb k' k).
  - destruct (String.eqb k k0) eqn:E0; simpl.
    + apply String.eqb_eq in E0. subst k0. now destruct (String.eqb k' k).
    + rewrite IH. destruct (String.eqb k' k) eqn:E1; [|reflexivity].
      apply String.eqb_eq in E1. subst k'. now rewrite E0.
Qed.

Lemma lookup_insert_index i k k' v ps :
  lookup k ps = None ->
  lookup k' (insert_index i k v ps) = if String.eqb k' k then Some v else lookup k' ps.
Proof.
  destruct (insert_index_keys i k v ps) as (a & b & -> & ->).
  induction a as [|[k0 v0] a IH]; simpl; intros H; [reflexivity|].
  destruct (String.eqb k k0) eqn:E; [discriminate|]. rewrite (IH H).
  destruct (String.eqb_spec k' k0), (String.eqb_spec k' k); subst; try reflexivity.
  now rewrite String.eqb_refl in E.
Qed.

(** After [obj[k] = v], reading [k] gives [v] and the other keys are
    unchanged. *)
Theorem lookup_define k k' v ps :
  lookup k' (define k v ps) = if String.eqb k' k then Some v else lookup k' ps.
Proof.
  unfold define. destruct (has_own k ps) eqn:Hk.
  - now rewrite lookup_update, Hk.
  - destruct (array_index k).
    + apply lookup_insert_index. unfold has_own in Hk. now destruct (lookup k ps).
    + induction ps as [|[k0 v0] ps IH]; simpl; [now destruct (String.eqb k' k)|].
      unfold has_own in Hk. simpl in Hk. destruct (String.eqb k k0) eqn:E; [discriminate|].
      rewrite (IH Hk).
      destruct (String.eqb_spec k' k0), (String.eqb_spec k' k); subst; try reflexivity.
      now rewrite String.eqb_refl in E.
Qed.
Lemma has_own_define k k' v ps :
  has_own k' (define k v ps) = String.eqb k' k || has_own k' ps.
Proof. unfold has_own at 1. rewrite lookup_define. now destruct (String.eqb k' k). Qed.

Lemma has_own_lookup_none k ps : has_own k ps = false -> lookup k ps = None.
Proof. unfold has_own. now destruct (lookup k ps). Qed.

Lemma update_update k a b ps : update k a (update k b ps) = update k a ps.
Proof.
  induction ps as [|[k0 v0] ps IH]; simpl; [reflexivity|].
  destruct (String.eqb k k0) eqn:E; simpl; rewrite E; [reflexivity | now rewrite IH].
Qed.

Lemma update_insert_index i k a b ps :
  lookup k ps = None -> update k a (insert_index i k b ps) = insert_index i k a ps.
Proof.
  induction ps as [|[k0 v0] ps IH]; simpl; intros H; [now rewrite String.eqb_refl|].
  destruct (String.eqb k k0) eqn:E; [discriminate|].
  destruct (array_index k0) as [j|]; [destruct (i <? j)%Z|]; simpl;
    rewrite ?String.eqb_refl, ?E; [reflexivity | now rewrite IH | reflexivity].
Qed.

Lemma update_app_new k a b ps :
  lookup k ps = None -> update k a (ps ++ [(k, b)])%list = (ps ++ [(k, a)])%list.
Proof.
  induction ps as [|[k0 v0] ps IH]; simpl; intros H; [now rewrite String.eqb_refl|].
  destruct (String.eqb k k0); [discriminate | now rewrite IH].
Qed.

(** Two assignments to the same key: the second one wins, in the
    position of the first. *)
Lemma define_define k a b ps : define k a (define k b ps) = define k a ps.
Proof.
  unfold define at 1. rewrite has_own_define, String.eqb_refl. simpl.
  unfold define. destruct (has_own k ps) eqn:Hk; [apply update_update|].
  apply has_own_lookup_none in Hk.
  destruct (array_index k); [now apply update_insert_index | now apply update_app_new].
Qed.

Lemma has_own_define_all k es ps :
  has_own k (define_all es ps) = existsb (String.eqb k) (map fst es) || has_own k ps.
Proof.
  unfold define_all. revert ps.
  induction es as [|[k0 v0] es IH]; intros ps; simpl; [reflexivity|].
  rewrite IH, has_own_define.
  destruct (String.eqb k k0), (existsb (String.eqb k) (map fst es)), (has_own k ps);
    reflexivity.
Qed.

Lemma lookup_define_all k es ps :
  nodup_keys (map fst es) = true ->
  lookup k (define_all es ps) =
  match lookup k es with Some v => Some v | None => lookup k ps end.
Proof.
  unfold define_all. revert ps.
  induction es as [|[k0 v0] es IH]; intros ps; simpl; [reflexivity|].
  intros H. apply andb_true_iff in H as [H1 H2]. rewrite (IH _ H2), lookup_define.
  destruct (String.eqb_spec k k0) as [->|_]; [|reflexivity].
  apply negb_true_iff in H1. rewrite <- has_own_keys in H1.
  now rewrite (has_own_lookup_none _ _ H1).
Qed.

Lemma In_define kv k v ps : In kv (define k v ps) -> kv = (k, v) \/ In kv ps.
Proof.
  unfold define. destruct (has_own k ps).
  - induction ps as [|[k0 v0] ps IH]; simpl; [tauto|].
    destruct (String.eqb_spec k k0) as [->|_]; simpl; intros [<-|H]; auto.
    destruct (IH H); auto.
  - destruct (array_index k) as [i|].
    + destruct (insert_index_keys i k v ps) as (a & b & -> & ->).
      rewrite !in_app_iff. simpl. intros [H|[<-|H]]; auto.
    + rewrite in_app_iff. simpl. intros [H|[<-|[]]]; auto.
Qed.

Lemma In_define_all kv es ps : In kv (define_all es ps) -> In kv es \/ In kv ps.
Proof.
  unfold define_all. revert ps.
  induction es as [|[k0 v0] es IH]; intros ps; simpl; [tauto|].
  intros H. destruct (IH _ H) as [H'|H']; [tauto|].
  destruct (In_define _ _ _ _ H') as [->|]; auto.
Qed.

Lemma existsb_filter_keys (p : string * A -> bool) k ps :
  existsb (String.eqb k) (map fst (filter p ps)) = true ->
  existsb (String.eqb k) (map fst ps) = true.
Proof.
  induction ps as [|[k0 v0] ps IH]; simpl; [easy|].
  destruct (p (k0, v0)); simpl; [|intros H; now rewrite IH, orb_true_r].
  intros H. apply orb_true_iff in H as [H|H]; [now rewrite H | now rewrite IH, orb_true_r].
Qed.

Lemma nodup_keys_filter (p : string * A -> bool) ps :
  nodup_keys (map fst ps) = true -> nodup_keys (map fst (filter p ps)) = true.
Proof.
  induction ps as [|[k0 v0] ps IH]; simpl; [easy|].
  intros H. apply andb_true_iff in H as [H1 H2].
  destruct (p (k0, v0)); simpl; rewrite (IH H2); [|reflexivity].
  destruct (existsb (String.eqb k0) (map fst (filter p ps))) eqn:E; [|reflexivity].
  now rewrite (existsb_filter_keys _ _ _ E) in H1.
Qed.

(** With distinct keys, two filters by disjoint conditions have no key
    in common. *)
Lemma filter_disjoint_keys (p q : string * A -> bool) ps k :
  nodup_keys (map fst ps) = true -> (forall kv, p kv = true -> q kv = false) ->
  existsb (String.eqb k) (map fst (filter p ps)) = true ->
  existsb (String.eqb k) (map fst (filter q ps)) = false.
Proof.
  intros Hn Hpq. induction ps as [|[k0 v0] ps IH]; simpl; [easy|].
  simpl in Hn. apply andb_true_iff in Hn as [H1 H2]. apply negb_true_iff in H1.
  assert (Hout : forall r, existsb (String.eqb k0) (map fst (filter r ps)) = false).
  { intros r. destruct (existsb _ (map fst (filter r ps))) eqn:E; [|reflexivity].
    now rewrite (existsb_filter_keys _ _ _ E) in H1. }
  destruct (p (k0, v0)) eqn:Hp; [rewrite (Hpq _ Hp)|destruct (q (k0, v0))]; simpl.
  - intros H. apply orb_true_iff in H as [H|H]; [|now apply IH].
    apply String.eqb_eq in H. subst k0. apply Hout.
  - intros H. rewrite (IH H2 H), orb_false_r.
    destruct (String.eqb_spec k k0) as [->|]; [|reflexivity].
    now rewrite Hout in H.
  - now apply IH.
Qed.
Lemma define_all_app (es1 es2 ps : props A) :
  define_all (es1 ++ es2)%list ps = define_all es2 (define_all es1 ps).
Proof. unfold define_all. apply fold_left_app. Qed.

Lemma keys_define_all k (es : props A) :
  existsb (String.eqb k) (map fst (define_all es [])) = existsb (String.eqb k) (map fst es).
Proof. rewrite <- has_own_keys, has_own_define_all. apply orb_false_r. Qed.

Lemma canonical_define_all (es : props A) : canonical (define_all es []) = true.
Proof.
  unfold define_all. generalize (@nil (string * A)) (eq_refl : canonical (@nil (string * A)) = true).
  induction es as [|[k v] es IH]; intros ps Hps; [exact Hps|]. apply IH. now apply canonical_define.
Qed.
End PropsLemmas.

(** ** Mapping the values of a property list *)

Section PropsMap.
Context {A B : Type} (f : A -> B).

Definition map_snd (ps : props A) : props B := map (fun kv => (fst kv, f (snd kv))) ps.

Lemma map_snd_app (ps qs : props A) : map_snd (ps ++ qs)%list = (map_snd ps ++ map_snd qs)%list.
Proof. apply map_app. Qed.

Lemma map_fst_map_snd ps : map fst (map_snd ps) = map fst ps.
Proof. unfold map_snd. rewrite map_map. reflexivity. Qed.

Lemma lookup_map_snd k ps : lookup k (map_snd ps) = option_map f (lookup k ps).
Proof.
  induction ps as [|[k0 v0] ps IH]; simpl; [reflexivity|].
  destruct (String.eqb k k0); [reflexivity | exact IH].
Qed.

Lemma has_own_map_snd k ps : has_own k (map_snd ps) = has_own k ps.
Proof. unfold has_own. rewrite lookup_map_snd. now destruct (lookup k ps). Qed.

Lemma define_map_snd k v ps : map_snd (define k v ps) = define k (f v) (map_snd ps).
Proof.
  unfold define. rewrite has_own_map_snd. destruct (has_own k ps).
  - induction ps as [|[k0 v0] ps IH]; simpl; [reflexivity|].
    destruct (String.eqb k k0); simpl; [reflexivity | now rewrite IH].
  - destruct (array_index k) as [i|].
    + induction ps as [|[k0 v0] ps IH]; simpl; [reflexivity|].
      destruct (array_index k0) as [j|]; [destruct (i <? j)%Z|]; simpl;
        [reflexivity | now rewrite IH | reflexivity].
    + unfold map_snd. now rewrite map_app.
Qed.

Lemma define_all_map_snd es ps :
  map_snd (define_all es ps) = define_all (map_snd es) (map_snd ps).
Proof.
  unfold define_all. revert ps.
  induction es as [|[k0 v0] es IH]; intros ps; simpl; [reflexivity|].
  now rewrite IH, define_map_snd.
Qed.
End PropsMap.

#[export] Hint Resolve canonical_define canonical_app_l : yolab.
