(* ===== verification/Json.v ===== *)
(** * JSON values, [JSON.stringify] and [JSON.parse]

    The codec calls the host's JSON functions in three places:
    [JSON.stringify(value)] prints an inline array (ConfigTab.tsx line
    34), [JSON.parse(value)] reads the value of an assignment line
    (line 93), and [JSON.stringify(parsed)] is the request body of
    [saveConfig] (line 137). [response.json()] in [loadConfig] (line 120)
    is [JSON.parse] of the server's answer.

    [json] is the value space of JSON texts. [json_stringify] follows
    SerializeJSONProperty of ECMA-262 without replacer or indentation;
    [json_parse] is a recursive-descent parser of the JSON grammar of
    ECMA-404 whose objects are built with CreateDataProperty (so a
    duplicate key keeps its first position and takes its last value).
    Both are the host's built-ins, modelled from the standards. *)

From Stdlib Require Import String Ascii List ZArith Lia Bool.
From S2P Require Import Prelude JsString JsNumber JsObject.
Import ListNotations.
Open Scope string_scope.
Open Scope yolab_scope.

(** ** Values *)

#[warnings="-register-all"]
Inductive json : Type :=
| JNull
| JBool (b : bool)
| JNum (n : Z)
| JStr (s : string)
| JArr (xs : list json)
| JObj (ps : list (string * json)).

(** The induction principle that sees through the lists of elements
    and members. *)
Section JsonInd.
Variable P : json -> Prop.
Hypothesis HNull : P JNull.
Hypothesis HBool : forall b, P (JBool b).
Hypothesis HNum : forall n, P (JNum n).
Hypothesis HStr : forall s, P (JStr s).
Hypothesis HArr : forall xs, Forall P xs -> P (JArr xs).
Hypothesis HObj : forall ps, Forall (fun kv => P (snd kv)) ps -> P (JObj ps).

Fixpoint json_nested_ind (v : json) : P v :=
  match v with
  | JNull => HNull
  | JBool b => HBool b
  | JNum n => HNum n
  | JStr s => HStr s
  | JArr xs =>
      HArr xs ((fix go (l : list json) : Forall P l :=
                  match l with
                  | [] => Forall_nil _
                  | x :: l' => Forall_cons _ (json_nested_ind x) (go l')
                  end) xs)
  | JObj ps =>
      HObj ps ((fix go (l : list (string * json)) : Forall (fun kv => P (snd kv)) l :=
                  match l with
                  | [] => Forall_nil _
                  | kv :: l' => Forall_cons _ (json_nested_ind (snd kv)) (go l')
                  end) ps)
  end.
End JsonInd.

(** The values a JSON text can denote: every number a safe integer and
    every object's members in the canonical order without duplicates. *)
Fixpoint json_wf (v : json) : bool :=
  match v with
  | JNum z => safe_int z
  | JArr xs => forallb json_wf xs
  | JObj ps => canonical ps && forallb (fun kv => json_wf (snd kv)) ps
  | _ => true
  end.

(** ** [JSON.stringify] *)

Definition hex_char (n : nat) : ascii :=
  if Nat.ltb n 10 then ascii_of_nat (48 + n) else ascii_of_nat (87 + n).

(** UnicodeEscape: [\u] and four lowercase hexadecimal digits. *)
Definition unicode_escape (n : nat) : string :=
  String bslash (String "u" (String "0" (String "0"
    (String (hex_char (n / 16)) (str1 (hex_char (n mod 16))))))).

(** The escape of one code unit in QuoteJSONString. *)
Definition escape_char (c : ascii) : string :=
  let n := nat_of_ascii c in
  if Nat.eqb n 8 then String bslash "b"
  else if Nat.eqb n 9 then String bslash "t"
  else if Nat.eqb n 10 then String bslash "n"
  else if Nat.eqb n 12 then String bslash "f"
  else if Nat.eqb n 13 then String bslash "r"
  else if Nat.eqb n 34 then String bslash (str1 dq)
  else if Nat.eqb n 92 then String bslash (str1 bslash)
  else if Nat.ltb n 32 then unicode_escape n
  else str1 c.

Fixpoint escape_string (s : string) : string :=
  match s with
  | EmptyString => EmptyString
  | String c s' => escape_char c ++ escape_string s'
  end.

(** QuoteJSONString *)
Definition quote_json_string (s : string) : string :=
  str1 dq ++ escape_string s ++ str1 dq.

Fixpoint json_stringify (v : json) : string :=
  match v with
  | JNull => "null"
  | JBool true => "true"
  | JBool false => "false"
  | JNum z => number_to_string z
  | JStr s => quote_json_string s
  | JArr xs => "[" ++ join "," (map json_stringify xs) ++ "]"
  | JObj ps =>
      "{" ++ join "," (map (fun kv => quote_json_string (fst kv) ++ ":" ++
                                      json_stringify (snd kv)) ps) ++ "}"
  end.

(** ** [JSON.parse] *)

(** The whitespace of the JSON grammar: TAB, LF, CR and SPACE. *)
Definition is_json_ws (c : ascii) : bool :=
  let n := nat_of_ascii c in
  (Nat.eqb n 9 || Nat.eqb n 10 || Nat.eqb n 13 || Nat.eqb n 32).

Fixpoint skip_ws (s : string) : string :=
  match s with
  | String c s' => if is_json_ws c then skip_ws s' else s
  | EmptyString => EmptyString
  end.

Definition hex_value (c : ascii) : option nat :=
  let n := nat_of_ascii c in
  if Nat.leb 48 n && Nat.leb n 57 then Some (n - 48)
  else if Nat.leb 97 n && Nat.leb n 102 then Some (n - 87)
  else if Nat.leb 65 n && Nat.leb n 70 then Some (n - 55)
  else None.

(** The code unit of [\uXXXX]; above 0xFF it is outside the model. *)
Definition decode_u (h1 h2 h3 h4 : ascii) : js_result ascii :=
  match hex_value h1, hex_value h2, hex_value h3, hex_value h4 with
  | Some a, Some b, Some c, Some d =>
      let n := ((a * 16 + b) * 16 + c) * 16 + d in
      if Nat.ltb n 256 then Ok (ascii_of_nat n) else Unmodelled UWideChar
  | _, _, _, _ => Throw SyntaxError
  end.

(** The character of a one-letter escape [\e]. *)
Definition simple_escape (e : ascii) : option ascii :=
  if Ascii.eqb e dq then Some dq
  else if Ascii.eqb e bslash then Some bslash
  else if Ascii.eqb e "/" then Some "/"%char
  else if Ascii.eqb e "b" then Some (ascii_of_nat 8)
  else if Ascii.eqb e "f" then Some (ascii_of_nat 12)
  else if Ascii.eqb e "n" then Some (ascii_of_nat 10)
  else if Ascii.eqb e "r" then Some (ascii_of_nat 13)
  else if Ascii.eqb e "t" then Some (ascii_of_nat 9)
  else None.

Definition cons_fst (c : ascii) (r : js_result (string * string)) :
  js_result (string * string) :=
  '(d, rest) <- r ;; Ok (String c d, rest).

(** The characters of a string literal after its opening quote: the
    decoded string and the text after the closing quote. *)
Fixpoint lex_string_body (s : string) : js_result (string * string) :=
  match s with
  | EmptyString => Throw SyntaxError
  | String c s' =>
      if Ascii.eqb c dq then Ok (EmptyString, s')
      else if Ascii.eqb c bslash then
        match s' with
        | String e s'' =>
            if Ascii.eqb e "u" then
              match s'' with
              | String h1 (String h2 (String h3 (String h4 s5))) =>
                  d <- decode_u h1 h2 h3 h4 ;; cons_fst d (lex_string_body s5)
              | _ => Throw SyntaxError
              end
            else match simple_escape e with
                 | Some d => cons_fst d (lex_string_body s'')
                 | None => Throw SyntaxError
                 end
        | EmptyString => Throw SyntaxError
        end
      else if Nat.ltb (nat_of_ascii c) 32 then Throw SyntaxError
      else cons_fst c (lex_string_body s')
  end.

(** The text after the character [c], when [c] comes next after
    whitespace. *)
Definition peek (c : ascii) (s : string) : option string :=
  match skip_ws s with
  | String d r => if Ascii.eqb d c then Some r else None
  | EmptyString => None
  end.

(** The literal [w] at the start of [s]: the rest after it. *)
Definition expect (w s : string) : js_result string :=
  if String.prefix w s then Ok (substring (String.length w) (String.length s - String.length w) s)
  else Throw SyntaxError.

Arguments expect : simpl never.

Fixpoint parse_value (fuel : nat) (s : string) : js_result (json * string) :=
  match fuel with
  | O => Unmodelled UFuel
  | S f =>
      match skip_ws s with
      | EmptyString => Throw SyntaxError
      | String c r as t =>
          if Ascii.eqb c "n" then rest <- expect "ull" r ;; Ok (JNull, rest)
          else if Ascii.eqb c "t" then rest <- expect "rue" r ;; Ok (JBool true, rest)
          else if Ascii.eqb c "f" then rest <- expect "alse" r ;; Ok (JBool false, rest)
          else if Ascii.eqb c dq then '(str, rest) <- lex_string_body r ;; Ok (JStr str, rest)
          else if Ascii.eqb c "[" then
            match peek "]" r with
            | Some r' => Ok (JArr [], r')
            | None => parse_elements f r []
            end
          else if Ascii.eqb c "{" then
            match peek "}" r with
            | Some r' => Ok (JObj [], r')
            | None => parse_members f r []
            end
          else if Ascii.eqb c "-" || is_digit c then
            match lex_number t with
            | Some (l, rest) => z <- numlit_value l ;; Ok (JNum z, rest)
            | None => Throw SyntaxError
            end
          else Throw SyntaxError
      end
  end
(** The elements of a non-empty array, after [\[] or [,]. *)
with parse_elements (fuel : nat) (s : string) (acc : list json) : js_result (json * string) :=
  match fuel with
  | O => Unmodelled UFuel
  | S f =>
      '(v, r) <- parse_value f s ;;
      match skip_ws r with
      | String c r' =>
          if Ascii.eqb c "," then parse_elements f r' (acc ++ [v])
          else if Ascii.eqb c "]" then Ok (JArr (acc ++ [v]), r')
          else Throw SyntaxError
      | EmptyString => Throw SyntaxError
      end
  end
(** The members of a non-empty object, after [{] or [,]. *)
with parse_members (fuel : nat) (s : string) (acc : list (string * json)) :
  js_result (json * string) :=
  match fuel with
  | O => Unmodelled UFuel
  | S f =>
      match skip_ws s with
      | String c r =>
          if Ascii.eqb c dq then
            '(k, r1) <- lex_string_body r ;;
            match peek ":" r1 with
            | Some r2 =>
                '(v, r3) <- parse_value f r2 ;;
                match skip_ws r3 with
                | String c' r4 =>
                    if Ascii.eqb c' "," then parse_members f r4 (define k v acc)
                    else if Ascii.eqb c' "}" then Ok (JObj (define k v acc), r4)
                    else Throw SyntaxError
                | EmptyString => Throw SyntaxError
                end
            | None => Throw SyntaxError
            end
          else Throw SyntaxError
      | EmptyString => Throw SyntaxError
      end
  end.

(** [JSON.parse(text)]: one value, surrounded by whitespace only. The
    fuel [2 * length + 1] is enough ([parse_value_fuel] below). *)
Definition json_parse (text : string) : js_result json :=
  '(v, rest) <- parse_value (2 * String.length text + 1) text ;;
  match skip_ws rest with
  | EmptyString => Ok v
  | _ => Throw SyntaxError
  end.

Arguments is_json_ws : simpl never.

(** ** Lemmas on the lexer *)

(** Each escaped code unit lexes back to itself (by computation over the
    256 code units). *)
Lemma lex_escape_char (c : ascii) (rest : string) :
  lex_string_body (escape_char c ++ rest) = cons_fst c (lex_string_body rest).
Proof. destruct c as [[] [] [] [] [] [] [] []]; reflexivity. Qed.

Lemma lex_escape_string (s rest : string) :
  lex_string_body (escape_string s ++ String dq rest) = Ok (s, rest).
Proof.
  induction s as [|c s IH]; [reflexivity|].
  cbn [escape_string]. rewrite sapp_assoc, lex_escape_char, IH. reflexivity.
Qed.

Lemma expect_app (w rest : string) : expect w (w ++ rest) = Ok rest.
Proof.
  unfold expect. rewrite (proj2 (prefix_correct w (w ++ rest))).
  - f_equal. rewrite sapp_length. replace (String.length w + String.length rest - String.length w)
      with (String.length rest) by lia.
    induction w as [|c w IH]; simpl; [|exact IH].
    induction rest as [|d rest IHr]; simpl; [reflexivity | now rewrite IHr].
  - induction w as [|c w IH]; simpl; [now destruct rest | now rewrite IH].
Qed.

Lemma expect_app' (w rest s : string) : s = w ++ rest -> expect w s = Ok rest.
Proof. intros ->. apply expect_app. Qed.

Lemma skip_ws_nonws (c : ascii) (r : string) :
  is_json_ws c = false -> skip_ws (String c r) = String c r.
Proof. simpl. now intros ->. Qed.



(** ** [JSON.parse] inverts [JSON.stringify] *)

(** The fuel that parsing the text of [v] needs. *)
Fixpoint json_size (v : json) : nat :=
  match v with
  | JArr xs => 2 + list_sum (map (fun x => S (json_size x)) xs)
  | JObj ps => 2 + list_sum (map (fun kv => S (json_size (snd kv))) ps)
  | _ => 1
  end.

(** What [parse_value] does on a text that starts with a digit or a
    minus sign. *)
Lemma parse_value_numeric (f : nat) (c : ascii) (r : string) :
  is_digit c = true \/ c = "-"%char ->
  parse_value (S f) (String c r) =
  match lex_number (String c r) with
  | Some (l, rest) => z <- numlit_value l ;; Ok (JNum z, rest)
  | None => Throw SyntaxError
  end.
Proof.
  intros [H | ->]; [|reflexivity].
  destruct c as [[] [] [] [] [] [] [] []]; try discriminate; reflexivity.
Qed.

Lemma number_to_string_start (z : Z) :
  exists c r, number_to_string z = String c r /\ (is_digit c = true \/ c = "-"%char).
Proof.
  destruct z as [|p|p]; simpl.
  - eexists _, _. split; [reflexivity | now left].
  - destruct (pos_digits_head p) as (c & r & -> & H).
    eexists _, _. split; [reflexivity | left; now apply digit19_digit].
  - eexists _, _. split; [reflexivity | now right].
Qed.

(** The round trip for one value, when the text after it cannot extend
    it. *)
Definition parses_back (v : json) : Prop :=
  forall f rest, json_size v <= f -> stops_number rest = true ->
  parse_value f (json_stringify v ++ rest) = Ok (v, rest).

Lemma stops_number_comma (r : string) : stops_number ("," ++ r) = true.
Proof. reflexivity. Qed.

Lemma stops_number_bracket (r : string) : stops_number ("]" ++ r) = true.
Proof. reflexivity. Qed.

Lemma stops_number_brace (r : string) : stops_number ("}" ++ r) = true.
Proof. reflexivity. Qed.

#[local] Hint Resolve stops_number_comma stops_number_bracket stops_number_brace : yolab.

(** The two ways an element can end. *)
Lemma parse_elements_comma f s acc v r :
  parse_value f s = Ok (v, "," ++ r) ->
  parse_elements (S f) s acc = parse_elements f r (acc ++ [v]).
Proof. intros H. simpl. now rewrite H. Qed.

Lemma parse_elements_close f s acc v r :
  parse_value f s = Ok (v, "]" ++ r) ->
  parse_elements (S f) s acc = Ok (JArr (acc ++ [v]), r).
Proof. intros H. simpl. now rewrite H. Qed.

Lemma parse_elements_stringify (xs : list json) :
  Forall parses_back xs -> xs <> [] ->
  forall f acc rest, list_sum (map (fun x => S (json_size x)) xs) <= f ->
  parse_elements f (join "," (map json_stringify xs) ++ "]" ++ rest) acc =
  Ok (JArr (acc ++ xs), rest).
Proof.
  induction 1 as [|x xs Hx HF IH]; [congruence|]. intros _ f acc rest Hf.
  destruct f as [|f]; simpl in Hf; [lia|].
  destruct xs as [|y ys].
  - apply parse_elements_close. apply Hx; [lia | reflexivity].
  - change (join "," (map json_stringify (x :: y :: ys)))
      with (json_stringify x ++ "," ++ join "," (map json_stringify (y :: ys))).
    rewrite !sapp_assoc, (parse_elements_comma f _ acc x _
      (Hx f ("," ++ join "," (map json_stringify (y :: ys)) ++ "]" ++ rest) ltac:(lia) eq_refl)).
    rewrite (IH ltac:(discriminate) f (acc ++ [x])%list rest) by (simpl in Hf |- *; lia).
    now rewrite <- app_assoc.
Qed.

(** The two ways a member can end. *)
Lemma parse_members_comma f k s acc v r :
  parse_value f s = Ok (v, "," ++ r) ->
  parse_members (S f) (quote_json_string k ++ ":" ++ s) acc = parse_members f r (define k v acc).
Proof.
  intros H. unfold quote_json_string. rewrite !sapp_assoc. simpl.
  rewrite lex_escape_string. simpl. now rewrite H.
Qed.

Lemma parse_members_close f k s acc v r :
  parse_value f s = Ok (v, "}" ++ r) ->
  parse_members (S f) (quote_json_string k ++ ":" ++ s) acc = Ok (JObj (define k v acc), r).
Proof.
  intros H. unfold quote_json_string. rewrite !sapp_assoc. simpl.
  rewrite lex_escape_string. simpl. now rewrite H.
Qed.

Definition member_text (kv : string * json) : string :=
  quote_json_string (fst kv) ++ ":" ++ json_stringify (snd kv).

Lemma parse_members_stringify (ps : list (string * json)) :
  Forall (fun kv => parses_back (snd kv)) ps -> ps <> [] ->
  forall f acc rest, list_sum (map (fun kv => S (json_size (snd kv))) ps) <= f ->
  parse_members f (join "," (map member_text ps) ++ "}" ++ rest) acc =
  Ok (JObj (define_all ps acc), rest).
Proof.
  induction 1 as [|[k v] ps Hx HF IH]; [congruence|]. intros _ f acc rest Hf.
  simpl in Hx. destruct f as [|f]; simpl in Hf; [lia|].
  destruct ps as [|kv' ps].
  - cbn [map join]. unfold member_text. cbn [fst snd]. rewrite !sapp_assoc.
    apply parse_members_close. apply Hx; [simpl; lia | reflexivity].
  - change (join "," (map member_text ((k, v) :: kv' :: ps)))
      with (member_text (k, v) ++ "," ++ join "," (map member_text (kv' :: ps))).
    unfold member_text at 1. cbn [fst snd]. rewrite !sapp_assoc.
    rewrite (parse_members_comma f k _ acc v _
      (Hx f ("," ++ join "," (map member_text (kv' :: ps)) ++ "}" ++ rest) ltac:(simpl; lia) eq_refl)).
    rewrite (IH ltac:(discriminate) f (define k v acc) rest) by (simpl in Hf |- *; lia).
    reflexivity.
Qed.

Lemma json_stringify_head (v : json) :
  exists c r, json_stringify v = String c r /\
              is_json_ws c = false /\ Ascii.eqb c "]" = false.
Proof.
  destruct v as [| [] | z | s | xs | ps]; try (eexists _, _; repeat split; reflexivity).
  simpl. destruct (number_to_string_start z) as (c & r & -> & [Hc | ->]).
  - exists c, r. split; [reflexivity|].
    destruct c as [[] [] [] [] [] [] [] []]; try discriminate; split; reflexivity.
  - exists "-"%char, r. repeat split.
Qed.

Lemma peek_other (d c : ascii) (r : string) :
  is_json_ws c = false -> Ascii.eqb c d = false -> peek d (String c r) = None.
Proof. intros H1 H2. unfold peek. simpl. now rewrite H1, H2. Qed.

Lemma parse_value_array f r :
  peek "]" r = None -> parse_value (S f) ("[" ++ r) = parse_elements f r [].
Proof. intros H. simpl. now rewrite H. Qed.

Lemma parse_value_object f r :
  peek "}" r = None -> parse_value (S f) ("{" ++ r) = parse_members f r [].
Proof. intros H. simpl. now rewrite H. Qed.

Lemma Forall_impl_forallb {X : Type} (P : X -> Prop) (b : X -> bool) (l : list X) :
  Forall (fun x => b x = true -> P x) l -> forallb b l = true -> Forall P l.
Proof.
  intros HF Hb. rewrite Forall_forall in *. rewrite forallb_forall in Hb. auto.
Qed.

(** The text of every well-formed value parses back to it. *)
Theorem parse_value_stringify (v : json) :
  json_wf v = true -> parses_back v.
Proof.
  induction v as [| b | z | s | xs IH | ps IH] using json_nested_ind;
    intros Hwf f rest Hf Hs; (destruct f as [|f]; [simpl in Hf; lia|]).
  - simpl. now rewrite (expect_app' "ull" rest).
  - destruct b; simpl; [now rewrite (expect_app' "rue" rest) | now rewrite (expect_app' "alse" rest)].
  - simpl json_stringify. destruct (number_to_string_start z) as (c & r & Hz & Hc).
    destruct (lex_number_to_string z rest Hs) as (l & Hl & Hv).
    rewrite Hz in *. cbn [append] in *. rewrite parse_value_numeric by exact Hc.
    rewrite Hl, (Hv Hwf). reflexivity.
  - unfold json_stringify, quote_json_string. rewrite !sapp_assoc. simpl.
    rewrite lex_escape_string. reflexivity.
  - destruct xs as [|x xs]; [reflexivity|].
    change (json_stringify (JArr (x :: xs)))
      with ("[" ++ join "," (map json_stringify (x :: xs)) ++ "]").
    rewrite !sapp_assoc.
    destruct (json_stringify_head x) as (c & r & Hx & Hws & Hb).
    rewrite parse_value_array.
    + rewrite (parse_elements_stringify (x :: xs)) by
        (try apply (Forall_impl_forallb _ json_wf); auto; try discriminate; simpl in Hf |- *; lia).
      reflexivity.
    + destruct xs; cbn [map join]; rewrite ?sapp_assoc, Hx; cbn [append]; now apply peek_other.
  - destruct ps as [|kv ps]; [reflexivity|]. simpl in Hwf.
    apply andb_true_iff in Hwf as [Hc Hwf].
    change (json_stringify (JObj (kv :: ps)))
      with ("{" ++ join "," (map member_text (kv :: ps)) ++ "}").
    rewrite !sapp_assoc.
    rewrite parse_value_object.
    + rewrite (parse_members_stringify (kv :: ps)) by
        (try apply (Forall_impl_forallb _ (fun kv => json_wf (snd kv))); auto;
         try discriminate; simpl in Hf |- *; lia).
      now rewrite (define_all_canonical _ Hc).
    + destruct ps; reflexivity.
Qed.

(** ** The fuel of [json_parse] is enough for the text of a value *)

Lemma length_join_comma (l : list string) :
  list_sum (map (fun p => S (String.length p)) l) <= S (String.length (join "," l)).
Proof.
  induction l as [|p [|q l] IH]; simpl in *; [lia | lia|].
  rewrite sapp_length. simpl. lia.
Qed.

Lemma list_sum_map_le {X : Type} (g h : X -> nat) (l : list X) :
  Forall (fun x => g x <= h x) l -> list_sum (map g l) <= list_sum (map h l).
Proof. induction 1; simpl; lia. Qed.

Lemma list_sum_map_double {X : Type} (h : X -> nat) (l : list X) :
  list_sum (map (fun x => 2 * h x) l) = 2 * list_sum (map h l).
Proof. unfold list_sum. induction l as [|a l IH]; cbn [map fold_right]; lia. Qed.

Lemma number_to_string_length (z : Z) : 1 <= String.length (number_to_string z).
Proof. destruct (number_to_string_start z) as (c & r & -> & _). simpl. lia. Qed.

Lemma json_size_le (v : json) : json_size v <= 2 * String.length (json_stringify v).
Proof.
  induction v as [| b | z | s | xs IH | ps IH] using json_nested_ind.
  - simpl. lia.
  - destruct b; simpl; lia.
  - simpl. pose proof (number_to_string_length z). lia.
  - simpl. unfold quote_json_string. rewrite !sapp_length. simpl. lia.
  - cbn [json_size json_stringify]. rewrite !sapp_length. cbn [String.length].
    pose proof (length_join_comma (map json_stringify xs)) as Hj. rewrite map_map in Hj.
    assert (H : list_sum (map (fun x => S (json_size x)) xs) <=
                list_sum (map (fun x => 2 * S (String.length (json_stringify x))) xs)).
    { apply list_sum_map_le. eapply Forall_impl; [|exact IH]. simpl. intros x Hx. lia. }
    rewrite list_sum_map_double in H. lia.
  - cbn [json_size json_stringify]. rewrite !sapp_length. cbn [String.length].
    pose proof (length_join_comma (map member_text ps)) as Hj. rewrite map_map in Hj.
    assert (H : list_sum (map (fun kv => S (json_size (snd kv))) ps) <=
                list_sum (map (fun kv => 2 * S (String.length (member_text kv))) ps)).
    { apply list_sum_map_le. eapply Forall_impl; [|exact IH]. simpl. intros kv Hx.
      unfold member_text, quote_json_string. rewrite !sapp_length. simpl. lia. }
    rewrite list_sum_map_double in H. unfold member_text in H, Hj. lia.
Qed.

(** [JSON.parse(JSON.stringify(v))] is [v] for every well-formed [v]. *)
Theorem json_parse_stringify (v : json) :
  json_wf v = true -> json_parse (json_stringify v) = Ok v.
Proof.
  intros Hwf. unfold json_parse.
  rewrite <- (sapp_nil_r (json_stringify v)) at 2.
  rewrite (parse_value_stringify v Hwf); [reflexivity | | reflexivity].
  pose proof (json_size_le v). lia.
Qed.

(** The characters a JSON text can start with, after white space. *)
Definition json_start (c : ascii) : bool :=
  is_json_ws c || Ascii.eqb c "n" || Ascii.eqb c "t" || Ascii.eqb c "f" || Ascii.eqb c dq ||
  Ascii.eqb c "[" || Ascii.eqb c "{" || Ascii.eqb c "-" || is_digit c.

(** A text that starts with any other character is a [SyntaxError]. *)
Lemma json_parse_bad_start (c : ascii) (r : string) :
  json_start c = false -> json_parse (String c r) = Throw SyntaxError.
Proof.
  unfold json_start. intros H.
  repeat match goal with Ho : _ || _ = false |- _ => apply orb_false_iff in Ho as [? ?] end.
  unfold json_parse. replace (2 * String.length (String c r) + 1)
    with (S (2 * String.length (String c r))) by lia.
  cbn [parse_value]. rewrite skip_ws_nonws by assumption.
  repeat match goal with Hx : ?x = false |- context [?x] => rewrite Hx end.
  reflexivity.
Qed.

(** ** Quoted text and the ends of printed values *)

Lemma skip_ws_snoc (b : string) (d : ascii) :
  is_json_ws d = false -> skip_ws (b ++ str1 d) <> EmptyString.
Proof.
  intros Hd. induction b as [|c b IH]; simpl; [now rewrite Hd|].
  destruct (is_json_ws c); [exact IH | discriminate].
Qed.

#[local] Arguments Ascii.eqb : simpl never.

(** The string lexer on a text without backslash followed by a quote:
    the whole text, a [SyntaxError] (a control character), or a shorter
    literal ended by a quote of the text. *)
Lemma lex_string_plain (s : string) :
  has_char bslash s = false ->
  lex_string_body (s ++ str1 dq) = Ok (s, EmptyString) \/
  lex_string_body (s ++ str1 dq) = Throw SyntaxError \/
  (exists a b, lex_string_body (s ++ str1 dq) = Ok (a, b ++ str1 dq)).
Proof.
  induction s as [|c s IH]; simpl; intros H; [now left|].
  apply orb_false_iff in H as [Hc Hs].
  destruct (Ascii.eqb c dq); [right; right; eauto|].
  rewrite Ascii.eqb_sym, Hc.
  destruct (Nat.ltb (nat_of_ascii c) 32); [now (right; left)|].
  destruct (IH Hs) as [E | [E | (a & b & E)]]; rewrite E; simpl; eauto 6.
Qed.

Lemma parse_value_quote (f : nat) (r : string) :
  parse_value (S f) (String dq r) = '(str, rest) <- lex_string_body r ;; Ok (JStr str, rest).
Proof. reflexivity. Qed.

(** [JSON.parse] of a double-quoted text without backslash gives the
    text between the quotes or throws a [SyntaxError]. *)
Lemma json_parse_quoted (s : string) :
  has_char bslash s = false ->
  json_parse (str1 dq ++ s ++ str1 dq) = Ok (JStr s) \/
  json_parse (str1 dq ++ s ++ str1 dq) = Throw SyntaxError.
Proof.
  intros H. unfold json_parse. rewrite Nat.add_1_r.
  change (str1 dq ++ s ++ str1 dq) with (String dq (s ++ str1 dq)).
  rewrite parse_value_quote.
  destruct (lex_string_plain s H) as [E | [E | (a & b & E)]]; rewrite E; simpl; auto.
  destruct (skip_ws (b ++ str1 dq)) eqn:Es; [|auto].
  exfalso. exact (skip_ws_snoc b dq eq_refl Es).
Qed.

Lemma digit_not_space (c : ascii) : is_digit c = true -> is_js_space c = false.
Proof. destruct c as [[] [] [] [] [] [] [] []]; try discriminate; reflexivity. Qed.

Lemma all_digits_trim_end (s : string) : all_digits s = true -> trim_end s = s.
Proof.
  induction s as [|c s IH]; simpl; [reflexivity|].
  intros H. apply andb_true_iff in H as [Hc Hs].
  apply (trim_end_cons c s (digit_not_space c Hc) (IH Hs)).
Qed.

(** The text of a value ends with a non-space. *)
Lemma json_stringify_trim_end (v : json) : trim_end (json_stringify v) = json_stringify v.
Proof.
  destruct v as [| [] | [|p|p] | s | xs | ps]; cbn [json_stringify number_to_string];
    try reflexivity.
  - apply all_digits_trim_end, all_digits_pos.
  - apply trim_end_cons; [reflexivity | apply all_digits_trim_end, all_digits_pos].
  - unfold quote_json_string. rewrite <- sapp_assoc. now apply trim_end_last_nonspace.
  - rewrite <- sapp_assoc. now apply trim_end_last_nonspace.
  - rewrite <- sapp_assoc. now apply trim_end_last_nonspace.
Qed.

(** The text of a value starts with a non-space. *)
Lemma json_stringify_head_nonspace (v : json) :
  exists c r, json_stringify v = String c r /\ is_js_space c = false.
Proof.
  destruct v as [| [] | z | s | xs | ps]; try (eexists _, _; split; reflexivity).
  simpl. destruct (number_to_string_start z) as (c & r & -> & [Hc | ->]).
  - exists c, r. split; [reflexivity | now apply digit_not_space].
  - exists "-"%char, r. split; reflexivity.
Qed.

(** ** Printed values stay on one line *)

Lemma escape_char_no_lf (c : ascii) : has_char lf (escape_char c) = false.
Proof. destruct c as [[] [] [] [] [] [] [] []]; reflexivity. Qed.

Lemma escape_string_no_lf (s : string) : has_char lf (escape_string s) = false.
Proof.
  induction s as [|c s IH]; simpl; [reflexivity|].
  now rewrite has_char_app, escape_char_no_lf, IH.
Qed.

Lemma has_char_join (c : ascii) (sep : string) (l : list string) :
  has_char c sep = false -> forallb (fun x => negb (has_char c x)) l = true ->
  has_char c (join sep l) = false.
Proof.
  intros Hs. induction l as [|x [|y l] IH]; simpl; [reflexivity | now rewrite andb_true_r, negb_true_iff|].
  intros H. apply andb_true_iff in H as [Hx Hl]. apply negb_true_iff in Hx.
  rewrite !has_char_app, Hx, Hs. exact (IH Hl).
Qed.

Lemma all_digits_no_lf (s : string) : all_digits s = true -> has_char lf s = false.
Proof.
  induction s as [|c s IH]; simpl; [reflexivity|].
  intros H. apply andb_true_iff in H as [Hc Hs]. rewrite (IH Hs), orb_false_r.
  destruct c as [[] [] [] [] [] [] [] []]; try discriminate; reflexivity.
Qed.

(** [JSON.stringify] escapes line feeds: its text is one line. *)
Lemma json_stringify_no_lf (v : json) : has_char lf (json_stringify v) = false.
Proof.
  induction v as [| b | z | s | xs IH | ps IH] using json_nested_ind; cbn [json_stringify].
  - reflexivity.
  - now destruct b.
  - destruct z as [|p|p]; cbn [number_to_string]; [reflexivity | |].
    + apply all_digits_no_lf, all_digits_pos.
    + apply (all_digits_no_lf (pos_digits p)), all_digits_pos.
  - unfold quote_json_string. now rewrite !has_char_app, escape_string_no_lf.
  - rewrite !has_char_app, has_char_join; [reflexivity | reflexivity |].
    rewrite forallb_forall. intros x Hx. apply in_map_iff in Hx as (y & <- & Hy).
    rewrite Forall_forall in IH. now rewrite (IH y Hy).
  - rewrite !has_char_app, has_char_join; [reflexivity | reflexivity |].
    rewrite forallb_forall. intros x Hx. apply in_map_iff in Hx as (kv & <- & Hkv).
    rewrite Forall_forall in IH.
    unfold quote_json_string. now rewrite !has_char_app, escape_string_no_lf, (IH kv Hkv).
Qed.

(** ** The fuel of [JSON.parse]

    Each level of [parse_value], [parse_elements] and [parse_members]
    takes one unit of fuel, and a nested value starts after a character
    of its parent: fuel [2 * length + 1] is enough for every text. The
    lexers leave a text no longer than their input. *)

Lemma skip_ws_le (s : string) : String.length (skip_ws s) <= String.length s.
Proof. induction s as [|c s IH]; cbn; [lia|]. destruct (is_json_ws c); cbn; lia. Qed.

Lemma substring_le (n m : nat) (s : string) : String.length (substring n m s) <= String.length s.
Proof.
  revert n m. induction s as [|c s IH]; intros n m; destruct n, m; cbn; try lia;
    first [specialize (IH 0 m); lia | specialize (IH n 0); lia | specialize (IH n (S m)); lia].
Qed.

Lemma expect_le (w s r : string) : expect w s = Ok r -> String.length r <= String.length s.
Proof.
  unfold expect. destruct (String.prefix w s); [|discriminate].
  intros Heq; inv Heq. apply substring_le.
Qed.

Lemma expect_not_fuel (w s : string) : expect w s <> Unmodelled UFuel.
Proof. unfold expect. destruct (String.prefix w s); discriminate. Qed.

Lemma peek_le (c : ascii) (s r : string) : peek c s = Some r -> String.length r < String.length s.
Proof.
  unfold peek. pose proof (skip_ws_le s). destruct (skip_ws s) as [|d r']; [discriminate|].
  destruct (Ascii.eqb d c); [|discriminate]. intros Heq; inv Heq. cbn in *. lia.
Qed.

Lemma numlit_value_not_fuel (l : numlit) : numlit_value l <> Unmodelled UFuel.
Proof.
  unfold numlit_value. cbv zeta.
  repeat match goal with |- context [if ?b then _ else _] => destruct b end; discriminate.
Qed.

Lemma cons_fst_inv (c : ascii) (r : js_result (string * string)) :
  (r <> Unmodelled UFuel -> cons_fst c r <> Unmodelled UFuel) /\
  (forall d rest, cons_fst c r = Ok (d, rest) -> exists d', r = Ok (d', rest)).
Proof.
  destruct r as [[d' r']| |]; cbn; split; try discriminate; try (intros; discriminate); auto.
  intros d rest Heq. inv Heq. eauto.
Qed.

(** A string literal ends before the end of its input. *)
Lemma lex_string_body_le (s : string) :
  lex_string_body s <> Unmodelled UFuel /\
  forall d rest, lex_string_body s = Ok (d, rest) -> String.length rest < String.length s.
Proof.
  remember (String.length s) as n eqn:Hn. revert s Hn.
  induction n as [n IH] using lt_wf_ind. intros [|c s'] Hn; cbn; [split; discriminate|].
  assert (Hc : forall s0 c0, String.length s0 < n ->
            cons_fst c0 (lex_string_body s0) <> Unmodelled UFuel /\
            forall d rest, cons_fst c0 (lex_string_body s0) = Ok (d, rest) -> String.length rest < n).
  { intros s0 c0 Hlt. destruct (IH _ Hlt s0 eq_refl) as [Hf Hl].
    destruct (cons_fst_inv c0 (lex_string_body s0)) as [Hf' Hl'].
    split; [exact (Hf' Hf)|]. intros d rest Heq. destruct (Hl' _ _ Heq) as [d' Hd].
    specialize (Hl _ _ Hd). lia. }
  cbn in Hn. subst n.
  destruct (Ascii.eqb c dq); [split; [discriminate | intros d rest Heq; inv Heq; lia]|].
  destruct (Ascii.eqb c bslash).
  - destruct s' as [|e s'']; [split; discriminate|].
    destruct (Ascii.eqb e "u").
    + destruct s'' as [|h1 [|h2 [|h3 [|h4 s5]]]]; try (split; discriminate).
      unfold decode_u.
      destruct (hex_value h1), (hex_value h2), (hex_value h3), (hex_value h4);
        cbn; try (split; discriminate).
      match goal with |- context [if ?b then _ else _] => destruct b end; cbn; [|split; discriminate].
      apply Hc. cbn. lia.
    + destruct (simple_escape e); [|split; discriminate]. apply Hc. cbn. lia.
  - match goal with |- context [if ?b then Throw _ else _] => destruct b end; [split; discriminate|]. apply Hc. lia.
Qed.

Definition fuel_ok (r : js_result (json * string)) (s : string) : Prop :=
  r <> Unmodelled UFuel /\
  forall v rest, r = Ok (v, rest) -> String.length rest <= String.length s.

(** The three parsers with fuel [n] on a text short enough for it. *)
Definition fuel_enough (n : nat) : Prop :=
  forall s,
    (2 * String.length s + 1 <= n -> fuel_ok (parse_value n s) s) /\
    (forall acc, 2 * String.length s + 2 <= n -> fuel_ok (parse_elements n s acc) s) /\
    (forall acc, 2 * String.length s + 2 <= n -> fuel_ok (parse_members n s acc) s).

Lemma fuel_ok_bind {A : Type} (m : js_result A) (k : A -> js_result (json * string)) (s : string) :
  m <> Unmodelled UFuel -> (forall a, m = Ok a -> fuel_ok (k a) s) -> fuel_ok (bind m k) s.
Proof.
  destruct m as [a|e|u]; cbn; intros Hm Hk; [exact (Hk a eq_refl)| |];
    (split; [intros Heq; inv Heq; apply Hm; reflexivity | intros v rest Heq; discriminate]).
Qed.

Lemma fuel_ok_throw (s : string) : fuel_ok (Throw SyntaxError) s.
Proof. split; [discriminate | intros v rest Heq; discriminate]. Qed.

Lemma fuel_ok_ret (v : json) (r s : string) :
  String.length r <= String.length s -> fuel_ok (Ok (v, r)) s.
Proof. intros H. split; [discriminate | intros v' r' Heq; inv Heq; exact H]. Qed.

Lemma fuel_ok_weaken (r : js_result (json * string)) (s s' : string) :
  String.length s <= String.length s' -> fuel_ok r s -> fuel_ok r s'.
Proof. intros Hl [Hf Hr]. split; [exact Hf|]. intros v rest Heq. specialize (Hr _ _ Heq). lia. Qed.

Lemma parse_value_step (f : nat) (s : string) :
  fuel_enough f -> 2 * String.length s + 1 <= S f -> fuel_ok (parse_value (S f) s) s.
Proof.
  intros IH Hf. cbn [parse_value]. pose proof (skip_ws_le s) as Hs.
  destruct (skip_ws s) as [|c r] eqn:Hsk; [apply fuel_ok_throw|]. cbn in Hs.
  repeat match goal with
         | |- fuel_ok (if ?b then _ else _) _ => destruct b
         end.
  1-3: apply fuel_ok_bind; [apply expect_not_fuel|];
    intros rest Hr; apply fuel_ok_ret; pose proof (expect_le _ _ _ Hr); lia.
  - apply fuel_ok_bind; [apply (proj1 (lex_string_body_le r))|]. intros [str rest] Hr.
    apply fuel_ok_ret. pose proof (proj2 (lex_string_body_le r) _ _ Hr). lia.
  - destruct (peek "]" r) eqn:Hp; [apply fuel_ok_ret; pose proof (peek_le _ _ _ Hp); lia|].
    apply (fuel_ok_weaken _ r); [lia|]. apply (proj1 (proj2 (IH r))). lia.
  - destruct (peek "}" r) eqn:Hp; [apply fuel_ok_ret; pose proof (peek_le _ _ _ Hp); lia|].
    apply (fuel_ok_weaken _ r); [lia|]. apply (proj2 (proj2 (IH r))). lia.
  - destruct (lex_number (String c r)) as [[l rest]|] eqn:Hl; [|apply fuel_ok_throw].
    apply fuel_ok_bind; [apply numlit_value_not_fuel|]. intros z _.
    apply fuel_ok_ret. pose proof (lex_number_le _ _ _ Hl). cbn in *. lia.
  - apply fuel_ok_throw.
Qed.

Lemma parse_elements_step (f : nat) (s : string) (acc : list json) :
  fuel_enough f -> 2 * String.length s + 2 <= S f -> fuel_ok (parse_elements (S f) s acc) s.
Proof.
  intros IH Hf. cbn [parse_elements]. destruct (proj1 (IH s) ltac:(lia)) as [Hv Hl].
  apply fuel_ok_bind; [exact Hv|]. intros [v r] Heq. specialize (Hl _ _ Heq).
  pose proof (skip_ws_le r) as Hs. destruct (skip_ws r) as [|c r'] eqn:Hsk; [apply fuel_ok_throw|].
  cbn in Hs. destruct (Ascii.eqb c ",").
  - apply (fuel_ok_weaken _ r'); [lia|]. apply (proj1 (proj2 (IH r'))). lia.
  - destruct (Ascii.eqb c "]"); [apply fuel_ok_ret; lia | apply fuel_ok_throw].
Qed.

Lemma parse_members_step (f : nat) (s : string) (acc : list (string * json)) :
  fuel_enough f -> 2 * String.length s + 2 <= S f -> fuel_ok (parse_members (S f) s acc) s.
Proof.
  intros IH Hf. cbn [parse_members]. pose proof (skip_ws_le s) as Hs.
  destruct (skip_ws s) as [|c r] eqn:Hsk; [apply fuel_ok_throw|]. cbn in Hs.
  destruct (Ascii.eqb c dq); [|apply fuel_ok_throw].
  apply fuel_ok_bind; [apply (proj1 (lex_string_body_le r))|]. intros [k r1] Hk.
  pose proof (proj2 (lex_string_body_le r) _ _ Hk) as Hr1.
  destruct (peek ":" r1) as [r2|] eqn:Hp; [|apply fuel_ok_throw].
  pose proof (peek_le _ _ _ Hp) as Hr2.
  destruct (proj1 (IH r2) ltac:(lia)) as [Hv Hl].
  apply fuel_ok_bind; [exact Hv|]. intros [v r3] Heq. specialize (Hl _ _ Heq).
  pose proof (skip_ws_le r3) as Hs3. destruct (skip_ws r3) as [|c' r4] eqn:Hsk3; [apply fuel_ok_throw|].
  cbn in Hs3. destruct (Ascii.eqb c' ",").
  - apply (fuel_ok_weaken _ r4); [lia|]. apply (proj2 (proj2 (IH r4))). lia.
  - destruct (Ascii.eqb c' "}"); [apply fuel_ok_ret; lia | apply fuel_ok_throw].
Qed.

Lemma parse_value_fuel (n : nat) : fuel_enough n.
Proof.
  induction n as [|f IH]; intros s; [split; [|split]; intros; lia|].
  split; [|split]; intros; [apply parse_value_step | apply parse_elements_step
                           | apply parse_members_step]; assumption.
Qed.

(** [JSON.parse] as modelled never runs out of fuel: on every text
    it returns a value, a [SyntaxError], or leaves the modelled fragment
    through a wide [\u] escape or a number that is not a safe integer.
    The fuel [2 * length + 1] bounds the depth of its recursion. *)
Lemma json_parse_total (text : string) : json_parse text <> Unmodelled UFuel.
Proof.
  unfold json_parse. destruct (proj1 (parse_value_fuel _ text) (le_n _)) as [Hf _].
  destruct (parse_value _ text) as [[v rest]| |]; cbn; [|discriminate|intros Heq; inv Heq; apply Hf; reflexivity].
  destruct (skip_ws rest); discriminate.
Qed.
