(* ===== verification/Serializer.v ===== *)
(** * [toToml]: from a configuration object to text

    A translation of [toToml] in
    [src/homelab/client-ui/frontend/src/components/ConfigTab.tsx]
    (lines 16-55). The function walks [Object.entries(obj)] once and
    sorts each entry into one of three buckets by the shape of its value
    (lines 22-30): [arrays] when the value is a non-empty array whose
    first element has [typeof] ["object"] (an object, an array or
    [null]), [tables] when the value is a plain object, [simple]
    otherwise. It then prints the simple entries as [key = value] lines
    (lines 32-40), each table as a blank line, a [[key]] header and the
    recursive output (lines 42-45), and each element of each table array
    as a blank line, a [[[key]]] header and the recursive output
    (lines 47-52).

    [simple] and [tables] are fresh objects filled by assignment, so an
    entry named [__proto__] goes through the [__proto__] setter and is
    not an own property afterwards ([assign_fresh]). [Object.entries] of
    [null] throws a [TypeError] and [Object.entries] of a string lists its
    characters under index keys ([object_entries]); both happen when an
    array's first element is an object but a later one is not. The
    recursion is written with fuel; [toToml] gives it the nesting depth
    of its argument plus one. *)

From Stdlib Require Import String Ascii List ZArith Lia Bool.
From S2P Require Import Prelude JsString JsNumber JsObject Json.
Import ListNotations.
Open Scope string_scope.
Open Scope yolab_scope.

(** ** Entries and buckets *)

(** [typeof v === 'object'] *)
Definition typeof_object (v : json) : bool :=
  match v with
  | JNull | JArr _ | JObj _ => true
  | _ => false
  end.

(** [Array.isArray(v) && v.length > 0 && typeof v[0] === 'object'] (line 23) *)
Definition is_table_array (v : json) : bool :=
  match v with
  | JArr (v0 :: _) => typeof_object v0
  | _ => false
  end.

(** [typeof v === 'object' && !Array.isArray(v) && v !== null] (line 25) *)
Definition is_table (v : json) : bool :=
  match v with
  | JObj _ => true
  | _ => false
  end.

(** The key of an array index or of a string position. *)
Definition index_key (i : nat) : string := number_to_string (Z.of_nat i).

Fixpoint indexed {X : Type} (i : nat) (l : list X) : list (string * X) :=
  match l with
  | [] => []
  | x :: l' => (index_key i, x) :: indexed (S i) l'
  end.

Fixpoint string_chars (s : string) : list json :=
  match s with
  | EmptyString => []
  | String c s' => JStr (str1 c) :: string_chars s'
  end.

(** [Object.entries(v)]: the own enumerable string-keyed properties of
    [ToObject(v)]. *)
Definition object_entries (v : json) : js_result (list (string * json)) :=
  match v with
  | JNull => Throw TypeError
  | JBool _ | JNum _ => Ok []
  | JStr s => Ok (indexed 0 (string_chars s))
  | JArr xs => Ok (indexed 0 xs)
  | JObj ps => Ok ps
  end.

(** [o[key] = value] on a fresh object: [__proto__] is the inherited
    setter, which never creates an own property. *)
Definition assign_fresh (key : string) (value : json) (o : list (string * json)) :
  list (string * json) :=
  if String.eqb key proto_key then o else define key value o.

(** [interface TomlArray { key: string; value: TomlObject[] }] (lines 11-14) *)
Record TomlArray : Type := { ta_key : string; ta_value : list json }.

Record buckets : Type := {
  b_simple : list (string * json);
  b_tables : list (string * json);
  b_arrays : list TomlArray
}.

Definition empty_buckets : buckets := {| b_simple := []; b_tables := []; b_arrays := [] |}.

(** One turn of the loop of lines 22-30. *)
Definition bucket_entry (b : buckets) (e : string * json) : buckets :=
  let '(key, value) := e in
  if is_table_array value then
    {| b_simple := b_simple b; b_tables := b_tables b;
       b_arrays := b_arrays b ++ [{| ta_key := key; ta_value :=
                                     match value with JArr xs => xs | _ => [] end |}] |}
  else if is_table value then
    {| b_simple := b_simple b; b_tables := assign_fresh key value (b_tables b);
       b_arrays := b_arrays b |}
  else
    {| b_simple := assign_fresh key value (b_simple b); b_tables := b_tables b;
       b_arrays := b_arrays b |}.

Definition partition (es : list (string * json)) : buckets :=
  fold_left bucket_entry es empty_buckets.

(** ** Printing *)

Definition nl : string := str1 lf.

(** [${value}] for the values that reach the last branch of line 38. *)
Definition js_to_string (v : json) : string :=
  match v with
  | JNull => "null"
  | JBool true => "true"
  | JBool false => "false"
  | JNum z => number_to_string z
  | JStr s => s
  | JArr _ | JObj _ => "[object Object]"
  end.

(** One line of lines 33-39. *)
Definition simple_line (key : string) (value : json) : string :=
  match value with
  | JArr _ => key ++ " = " ++ json_stringify value ++ nl
  | JStr s => key ++ " = " ++ str1 dq ++ s ++ str1 dq ++ nl
  | _ => key ++ " = " ++ js_to_string value ++ nl
  end.

Fixpoint simple_lines (es : list (string * json)) : string :=
  match es with
  | [] => ""
  | (k, v) :: es' => simple_line k v ++ simple_lines es'
  end.

(** Lines 42-45, with [rec] the recursive call. *)
Fixpoint emit_tables (rec : json -> js_result string) (ts : list (string * json)) :
  js_result string :=
  match ts with
  | [] => Ok ""
  | (k, v) :: ts' =>
      body <- rec v ;;
      rest <- emit_tables rec ts' ;;
      Ok (nl ++ "[" ++ k ++ "]" ++ nl ++ body ++ rest)
  end.

(** The inner loop of lines 48-51. *)
Fixpoint emit_items (rec : json -> js_result string) (key : string) (items : list json) :
  js_result string :=
  match items with
  | [] => Ok ""
  | item :: items' =>
      body <- rec item ;;
      rest <- emit_items rec key items' ;;
      Ok (nl ++ "[[" ++ key ++ "]]" ++ nl ++ body ++ rest)
  end.

(** The outer loop of lines 47-52. *)
Fixpoint emit_arrays (rec : json -> js_result string) (arrays : list TomlArray) :
  js_result string :=
  match arrays with
  | [] => Ok ""
  | a :: arrays' =>
      s <- emit_items rec (ta_key a) (ta_value a) ;;
      rest <- emit_arrays rec arrays' ;;
      Ok (s ++ rest)
  end.

Fixpoint toToml_fuel (fuel : nat) (obj : json) (indent : string) : js_result string :=
  match fuel with
  | O => Unmodelled UFuel
  | S f =>
      entries <- object_entries obj ;;
      let b := partition entries in
      let rec := fun v => toToml_fuel f v (indent ++ "  ") in
      tables <- emit_tables rec (b_tables b) ;;
      arrays <- emit_arrays rec (b_arrays b) ;;
      Ok (simple_lines (b_simple b) ++ tables ++ arrays)
  end.

(** The nesting depth of a value. *)
Fixpoint json_depth (v : json) : nat :=
  match v with
  | JArr xs => S (list_max (map json_depth xs))
  | JObj ps => S (list_max (map (fun kv => json_depth (snd kv)) ps))
  | _ => 0
  end.

(** [toToml(obj, indent)] *)
Definition toToml (obj : json) (indent : string) : js_result string :=
  toToml_fuel (S (json_depth obj)) obj indent.

(** One step of the recursion, with the recursive call left folded. *)
Lemma toToml_fuel_S (f : nat) (obj : json) (indent : string) :
  toToml_fuel (S f) obj indent =
  (entries <- object_entries obj ;;
   let b := partition entries in
   tables <- emit_tables (fun v => toToml_fuel f v (indent ++ "  ")) (b_tables b) ;;
   arrays <- emit_arrays (fun v => toToml_fuel f v (indent ++ "  ")) (b_arrays b) ;;
   Ok (simple_lines (b_simple b) ++ tables ++ arrays)).
Proof. reflexivity. Qed.

(** ** Termination *)

(** The values the recursion visits are shallower than the object. *)
Lemma list_max_in (n : nat) (l : list nat) : In n l -> n <= list_max l.
Proof.
  intros H. pose proof (proj1 (list_max_le l (list_max l)) (le_n _)) as HF.
  rewrite Forall_forall in HF. exact (HF n H).
Qed.

Lemma indexed_values {X : Type} (i : nat) (l : list X) (kv : string * X) :
  In kv (indexed i l) -> In (snd kv) l.
Proof.
  revert i. induction l as [|x l IH]; intros i; cbn; [easy|].
  intros [<- | H]; [now left | right; exact (IH _ H)].
Qed.

Lemma string_chars_shallow (s : string) (v : json) : In v (string_chars s) -> exists c, v = JStr c.
Proof.
  induction s as [|c s IH]; cbn; [easy|]. intros [<- | H]; [eauto | exact (IH H)].
Qed.

(** An entry of [Object.entries(obj)] that holds a table or an array is
    shallower than [obj]. *)
Lemma object_entries_depth (obj : json) (es : list (string * json)) (kv : string * json) :
  object_entries obj = Ok es -> In kv es -> typeof_object (snd kv) = true ->
  snd kv <> JNull -> json_depth (snd kv) < json_depth obj.
Proof.
  intros He Hin Ht Hn.
  destruct obj as [| | | s | xs | ps]; cbn in He; inversion He; subst es; clear He;
    try contradiction.
  - apply indexed_values in Hin. apply string_chars_shallow in Hin as [c Hc].
    now rewrite Hc in Ht.
  - apply indexed_values in Hin. cbn [json_depth].
    apply (in_map json_depth), list_max_in in Hin. lia.
  - cbn [json_depth]. apply (in_map (fun kv => json_depth (snd kv))), list_max_in in Hin. lia.
Qed.

Lemma bucket_entry_members (b : buckets) (e : string * json) :
  (forall kv, In kv (b_tables (bucket_entry b e)) -> In kv (b_tables b) \/ (kv = e /\ is_table (snd e) = true)) /\
  (forall a, In a (b_arrays (bucket_entry b e)) -> In a (b_arrays b) \/
     (is_table_array (snd e) = true /\ ta_value a = match snd e with JArr xs => xs | _ => [] end)).
Proof.
  destruct e as [key value]. unfold bucket_entry, assign_fresh. cbn [fst snd].
  destruct (is_table_array value) eqn:Ea; [|destruct (is_table value) eqn:Et]; cbn; split; auto.
  - intros a Ha. apply in_app_iff in Ha as [Ha | [<- | []]]; auto.
  - intros kv Hkv. destruct (String.eqb key proto_key); auto.
    destruct (In_define _ _ _ _ Hkv) as [-> | H]; auto.
Qed.

Lemma partition_members (es : list (string * json)) :
  (forall kv, In kv (b_tables (partition es)) -> In kv es /\ is_table (snd kv) = true) /\
  (forall a, In a (b_arrays (partition es)) ->
     exists kv, In kv es /\ is_table_array (snd kv) = true /\
                ta_value a = match snd kv with JArr xs => xs | _ => [] end).
Proof.
  unfold partition.
  assert (G : forall b, (forall kv, In kv (b_tables b) -> In kv es /\ is_table (snd kv) = true) ->
            (forall a, In a (b_arrays b) -> exists kv, In kv es /\ is_table_array (snd kv) = true /\
                        ta_value a = match snd kv with JArr xs => xs | _ => [] end) ->
            forall es', incl es' es ->
            (forall kv, In kv (b_tables (fold_left bucket_entry es' b)) ->
                        In kv es /\ is_table (snd kv) = true) /\
            (forall a, In a (b_arrays (fold_left bucket_entry es' b)) ->
               exists kv, In kv es /\ is_table_array (snd kv) = true /\
                          ta_value a = match snd kv with JArr xs => xs | _ => [] end)).
  { intros b Ht Ha es'. revert b Ht Ha. induction es' as [|e es' IH]; intros b Ht Ha Hincl;
      [split; assumption|].
    cbn [fold_left]. apply IH; [| | intros x Hx; apply Hincl; now right].
    - intros kv Hkv. destruct (proj1 (bucket_entry_members b e) kv Hkv) as [H | [-> H]]; auto.
      split; [apply Hincl; now left | exact H].
    - intros a Hin. destruct (proj2 (bucket_entry_members b e) a Hin) as [H | [H1 H2]]; auto.
      exists e. split; [apply Hincl; now left | auto]. }
  apply G; cbn; [easy | easy | apply incl_refl].
Qed.

(** A JavaScript computation that returns, or throws a [TypeError]. *)
Definition ok_or_type {A : Type} (r : js_result A) : Prop :=
  (exists a, r = Ok a) \/ r = Throw TypeError.

Lemma emit_tables_total (rec : json -> js_result string) (ts : list (string * json)) :
  (forall kv, In kv ts -> ok_or_type (rec (snd kv))) -> ok_or_type (emit_tables rec ts).
Proof.
  induction ts as [|[k v] ts IH]; intros H; cbn [emit_tables]; [left; eexists; reflexivity|].
  pose proof (H (k, v) (or_introl eq_refl)) as Hkv. cbn [snd] in Hkv.
  destruct Hkv as [[body ->] | ->]; cbn [bind]; [|now right].
  destruct IH as [[rest ->] | ->];
    [intros kv Hin; apply H; now right | left; eexists; reflexivity | now right].
Qed.

Lemma emit_items_total (rec : json -> js_result string) (key : string) (items : list json) :
  (forall x, In x items -> ok_or_type (rec x)) -> ok_or_type (emit_items rec key items).
Proof.
  induction items as [|x items IH]; intros H; cbn [emit_items]; [left; eexists; reflexivity|].
  destruct (H x (or_introl eq_refl)) as [[body ->] | ->]; cbn [bind]; [|now right].
  destruct IH as [[rest ->] | ->];
    [intros y Hy; apply H; now right | left; eexists; reflexivity | now right].
Qed.

Lemma emit_arrays_total (rec : json -> js_result string) (arrays : list TomlArray) :
  (forall a x, In a arrays -> In x (ta_value a) -> ok_or_type (rec x)) ->
  ok_or_type (emit_arrays rec arrays).
Proof.
  induction arrays as [|a arrays IH]; intros H; cbn [emit_arrays]; [left; eexists; reflexivity|].
  destruct (emit_items_total rec (ta_key a) (ta_value a)) as [[s' ->] | ->];
    [intros x Hx; exact (H a x (or_introl eq_refl) Hx) | cbn [bind] | now right].
  destruct IH as [[rest ->] | ->];
    [intros b y Hb Hy; apply (H b y); [now right | exact Hy] | left; eexists; reflexivity
    | now right].
Qed.

Lemma object_entries_result (obj : json) :
  (exists es, object_entries obj = Ok es) \/ object_entries obj = Throw TypeError.
Proof. destruct obj; cbn; eauto. Qed.

(** The values [toToml] recurses into, from an entry list of [obj]. *)
Lemma recursion_depth (obj : json) (es : list (string * json)) :
  object_entries obj = Ok es ->
  (forall kv, In kv (b_tables (partition es)) -> json_depth (snd kv) < json_depth obj) /\
  (forall a x, In a (b_arrays (partition es)) -> In x (ta_value a) ->
               S (json_depth x) < json_depth obj).
Proof.
  intros He. destruct (partition_members es) as [Ht Ha]. split.
  - intros kv Hkv. destruct (Ht kv Hkv) as [Hin Hk].
    apply (object_entries_depth obj es kv He Hin); destruct (snd kv); easy.
  - intros a x Hin Hx. destruct (Ha a Hin) as ([k v] & Hkv & Hta & Hv). rewrite Hv in Hx.
    pose proof (object_entries_depth obj es (k, v) He Hkv) as Hd. cbn [snd] in *.
    destruct v as [| | | | xs |]; try discriminate. cbn [json_depth] in Hd.
    assert (Hx' : json_depth x <= list_max (map json_depth xs))
      by (apply list_max_in, in_map, Hx).
    assert (Ht' : typeof_object (JArr xs) = true) by reflexivity.
    specialize (Hd Ht' ltac:(discriminate)). lia.
Qed.

Lemma toToml_fuel_total (f : nat) :
  forall obj ind, json_depth obj < f -> ok_or_type (toToml_fuel f obj ind).
Proof.
  induction f as [|f IH]; intros obj ind Hf; [lia|]. rewrite toToml_fuel_S.
  destruct (object_entries_result obj) as [[es He] | ->]; [|now right].
  rewrite He. cbn [bind]. cbv zeta. destruct (recursion_depth obj es He) as [Dt Da].
  destruct (emit_tables_total (fun v => toToml_fuel f v (ind ++ "  ")) (b_tables (partition es)))
    as [[t ->] | ->]; [intros kv Hkv; apply IH; specialize (Dt kv Hkv); lia | cbn [bind] | now right].
  destruct (emit_arrays_total (fun v => toToml_fuel f v (ind ++ "  ")) (b_arrays (partition es)))
    as [[t' ->] | ->]; [intros a x Ha Hx; apply IH; specialize (Da a x Ha Hx); lia
                       | left; eexists; reflexivity | now right].
Qed.

(** C10: [toToml] always returns: with a text, or by throwing a [TypeError]
    ([Object.entries(null)]); its fuel never runs out. *)
Theorem toToml_total (obj : json) (ind : string) :
  (exists text, toToml obj ind = Ok text) \/ toToml obj ind = Throw TypeError.
Proof. exact (toToml_fuel_total (S (json_depth obj)) obj ind (Nat.lt_succ_diag_r _)). Qed.

Lemma emit_tables_ext (rec1 rec2 : json -> js_result string) (ts : list (string * json)) :
  (forall kv, In kv ts -> rec1 (snd kv) = rec2 (snd kv)) -> emit_tables rec1 ts = emit_tables rec2 ts.
Proof.
  induction ts as [|[k v] ts IH]; intros H; cbn [emit_tables]; [reflexivity|].
  pose proof (H (k, v) (or_introl eq_refl)) as Hkv. cbn [snd] in Hkv.
  rewrite Hkv, IH; [reflexivity|]. intros kv Hin. apply H. now right.
Qed.

Lemma emit_items_ext (rec1 rec2 : json -> js_result string) (key : string) (items : list json) :
  (forall x, In x items -> rec1 x = rec2 x) -> emit_items rec1 key items = emit_items rec2 key items.
Proof.
  induction items as [|x items IH]; intros H; cbn [emit_items]; [reflexivity|].
  rewrite (H x (or_introl eq_refl)), IH; [reflexivity|]. intros y Hy. apply H. now right.
Qed.

Lemma emit_arrays_ext (rec1 rec2 : json -> js_result string) (arrays : list TomlArray) :
  (forall a x, In a arrays -> In x (ta_value a) -> rec1 x = rec2 x) ->
  emit_arrays rec1 arrays = emit_arrays rec2 arrays.
Proof.
  induction arrays as [|a arrays IH]; intros H; cbn [emit_arrays]; [reflexivity|].
  rewrite (emit_items_ext rec1 rec2 (ta_key a) (ta_value a)), IH; [reflexivity | |].
  - intros b y Hb Hy. apply (H b y); [now right | exact Hy].
  - intros x Hx. exact (H a x (or_introl eq_refl) Hx).
Qed.

Lemma toToml_fuel_indep (n : nat) :
  forall f1 f2 obj ind, json_depth obj < f1 -> json_depth obj < f2 -> f1 <= n -> f2 <= n ->
  toToml_fuel f1 obj ind = toToml_fuel f2 obj ind.
Proof.
  induction n as [|n IH]; intros [|g1] [|g2] obj ind H1 H2 H1n H2n; try lia.
  rewrite !toToml_fuel_S. destruct (object_entries obj) as [es|e|u] eqn:He; cbn [bind];
    [|reflexivity|reflexivity].
  cbv zeta. destruct (recursion_depth obj es He) as [Dt Da].
  rewrite (emit_tables_ext (fun v => toToml_fuel g1 v (ind ++ "  "))
                           (fun v => toToml_fuel g2 v (ind ++ "  ")))
    by (intros kv Hkv; apply IH; specialize (Dt kv Hkv); lia).
  rewrite (emit_arrays_ext (fun v => toToml_fuel g1 v (ind ++ "  "))
                           (fun v => toToml_fuel g2 v (ind ++ "  ")))
    by (intros a x Ha Hx; apply IH; specialize (Da a x Ha Hx); lia).
  reflexivity.
Qed.

(** Any fuel above the nesting depth gives the result of [toToml]: the
    fuel is a bound, not a parameter of the behaviour. *)
Lemma toToml_fuel_stable (f : nat) (obj : json) (ind : string) :
  json_depth obj < f -> toToml_fuel f obj ind = toToml obj ind.
Proof. intros H. apply (toToml_fuel_indep f); lia. Qed.

(** ** Where [toToml] departs from the specification

    The specification says the serializer never fails and prints every
    entry; these theorems show otherwise. *)

(** C14: [toToml] is said never to fail, but a table array whose first
    element is [null] reaches [Object.entries(null)], which throws. *)
Theorem toToml_null_item_throws (k : string) (rest : list json) (ind : string) :
  toToml (JObj [(k, JArr (JNull :: rest))]) ind = Throw TypeError.
Proof.
  unfold toToml. cbn [json_depth]. rewrite toToml_fuel_S. cbn [object_entries bind].
  cbv zeta. unfold partition. cbn. reflexivity.
Qed.

Lemma bucket_entry_proto (b : buckets) (v : json) :
  is_table_array v = false -> bucket_entry b (proto_key, v) = b.
Proof.
  intros H. unfold bucket_entry, assign_fresh. rewrite H, String.eqb_refl.
  destruct (is_table v); destruct b; reflexivity.
Qed.

Lemma partition_proto (es1 es2 : list (string * json)) (v : json) :
  is_table_array v = false -> partition (es1 ++ (proto_key, v) :: es2) = partition (es1 ++ es2).
Proof.
  intros H. unfold partition. rewrite !fold_left_app. cbn [fold_left].
  now rewrite bucket_entry_proto.
Qed.

(** C20: an entry named [__proto__] is never printed unless its value is
    a table array: [simple[key] = value] and [tables[key] = value] on
    the fresh bucket objects go through the inherited [__proto__]
    setter, which creates no property, so [toToml] prints the object
    exactly as if the entry were not there, wherever it stands. *)
Theorem toToml_proto_dropped (es1 es2 : list (string * json)) (v : json) (ind : string) :
  is_table_array v = false ->
  toToml (JObj (es1 ++ (proto_key, v) :: es2)) ind = toToml (JObj (es1 ++ es2)) ind.
Proof.
  intros H. set (o1 := JObj (es1 ++ (proto_key, v) :: es2)). set (o2 := JObj (es1 ++ es2)).
  rewrite <- (toToml_fuel_stable (S (json_depth o1 + json_depth o2)) o1 ind) by lia.
  rewrite <- (toToml_fuel_stable (S (json_depth o1 + json_depth o2)) o2 ind) by lia.
  rewrite !toToml_fuel_S. cbn [object_entries bind o1 o2]. now rewrite partition_proto.
Qed.

(** [{__proto__: 1, a: 2}] prints as [{a: 2}]. *)
Lemma toToml_proto_dropped_witness :
  toToml (JObj ([] ++ (proto_key, JNum 1) :: [("a", JNum 2)])) "" = Ok ("a = 2" ++ nl).
Proof.
  rewrite (toToml_proto_dropped [] [("a", JNum 2)] (JNum 1) "" eq_refl).
  vm_compute. reflexivity.
Defined.
