(* ===== verification/Parser.v ===== *)
(** * [parseToml]: from text to a configuration object

    A translation of [parseToml] in
    [src/homelab/client-ui/frontend/src/components/ConfigTab.tsx]
    (lines 57-101). The function splits the text at line feeds and
    treats each trimmed line in turn; the state between lines is the
    record [parse_state] of its four locals ([result], [currentSection],
    [currentPath], [currentArray]).

    [currentSection] is a reference into [result]. Every object it can
    designate is reached from [result] by own properties, so the model
    represents it by the path of keys from [result]; [update_path]
    writes through the path the way a mutation through the reference is
    seen from [result]. The in-memory values [jsval] are richer than
    JSON: an array can have holes (after [[a.5]] on a short array) and
    named properties (after [[a.x]] on an array), both of which
    [JSON.stringify] drops or prints as [null] ([to_json]).

    The [in] operator of line 83 also sees inherited properties; when
    it finds a member of [Object.prototype] or [Array.prototype], the
    code goes on with a built-in object (and mutates it), which the
    model reports as [Unmodelled UBuiltin]. Assignments follow strict
    mode (the file is an ES module): a write to a property of a
    primitive throws a [TypeError], and [in] on a primitive throws too. *)

From Stdlib Require Import String Ascii List ZArith Lia Bool.
From S2P Require Import Prelude JsString JsNumber JsObject Json Serializer.
Import ListNotations.
Open Scope string_scope.
Open Scope yolab_scope.

(** ** In-memory values *)

#[warnings="-register-all"]
Inductive jsval : Type :=
| VNull
| VBool (b : bool)
| VNum (n : Z)
| VStr (s : string)
| VObj (ps : list (string * jsval))
| VArr (elems : list (option jsval)) (extra : list (string * jsval)).

(** The value [JSON.parse] returns for a JSON value. *)
Fixpoint of_json (v : json) : jsval :=
  match v with
  | JNull => VNull
  | JBool b => VBool b
  | JNum n => VNum n
  | JStr s => VStr s
  | JArr xs => VArr (map (fun x => Some (of_json x)) xs) []
  | JObj ps => VObj (map (fun kv => (fst kv, of_json (snd kv))) ps)
  end.

(** The JSON value [JSON.stringify] prints for an in-memory value:
    holes print as [null] and the named properties of arrays are
    dropped. *)
Fixpoint to_json (v : jsval) : json :=
  match v with
  | VNull => JNull
  | VBool b => JBool b
  | VNum n => JNum n
  | VStr s => JStr s
  | VObj ps => JObj (map (fun kv => (fst kv, to_json (snd kv))) ps)
  | VArr es _ =>
      JArr (map (fun e => match e with Some x => to_json x | None => JNull end) es)
  end.

(** ** Property access *)

(** The own property [k] of [v]. *)
Definition get_own (v : jsval) (k : string) : option jsval :=
  match v with
  | VObj ps => lookup k ps
  | VArr es extra =>
      if String.eqb k "length" then Some (VNum (Z.of_nat (length es)))
      else match array_index k with
           | Some i => match nth_error es (Z.to_nat i) with
                       | Some (Some x) => Some x
                       | _ => None
                       end
           | None => lookup k extra
           end
  | _ => None
  end.

Fixpoint get_path (v : jsval) (p : list string) : option jsval :=
  match p with
  | [] => Some v
  | k :: p' => match get_own v k with Some c => get_path c p' | None => None end
  end.

(** What [k in v] finds. *)
Inductive found : Type :=
| FOwn (x : jsval)
| FInherited
| FAbsent.

(** [k in v] (line 83): the own property, or a member of the
    prototype, or nothing; a primitive throws. *)
Definition js_in (k : string) (v : jsval) : js_result found :=
  match v with
  | VObj _ =>
      match get_own v k with
      | Some x => Ok (FOwn x)
      | None => if is_object_proto_name k then Ok FInherited else Ok FAbsent
      end
  | VArr _ _ =>
      match get_own v k with
      | Some x => Ok (FOwn x)
      | None => if is_array_proto_name k then Ok FInherited else Ok FAbsent
      end
  | _ => Throw TypeError
  end.

(** [a[i] = x] on the elements of an array: past the end, the array
    grows and the new positions in between are holes. *)
Definition set_elem (es : list (option jsval)) (i : nat) (x : jsval) : list (option jsval) :=
  if Nat.ltb i (length es) then firstn i es ++ [Some x] ++ skipn (S i) es
  else es ++ repeat None (i - length es) ++ [Some x].

(** [o[k] = x] on named properties: an own property is overwritten; a
    missing [__proto__] is the inherited setter, which changes the
    prototype when [x] is an object or [null] and does nothing
    otherwise. *)
Definition set_named (ps : list (string * jsval)) (k : string) (x : jsval) :
  js_result (list (string * jsval)) :=
  if has_own k ps then Ok (define k x ps)
  else if String.eqb k proto_key then
    match x with
    | VObj _ | VArr _ _ | VNull => Unmodelled UPrototype
    | _ => Ok ps
    end
  else Ok (define k x ps).

(** [v[k] = x] in strict mode. *)
Definition js_set (v : jsval) (k : string) (x : jsval) : js_result jsval :=
  match v with
  | VObj ps => ps' <- set_named ps k x ;; Ok (VObj ps')
  | VArr es extra =>
      if String.eqb k "length" then Unmodelled UArrayLength
      else match array_index k with
           | Some i => Ok (VArr (set_elem es (Z.to_nat i) x) extra)
           | None => extra' <- set_named extra k x ;; Ok (VArr es extra')
           end
  | _ => Throw TypeError
  end.

(** A mutation [f] of the object at path [p], seen from the root. *)
Fixpoint update_path (v : jsval) (p : list string) (f : jsval -> js_result jsval) :
  js_result jsval :=
  match p with
  | [] => f v
  | k :: p' =>
      match get_own v k with
      | Some c => c' <- update_path c p' f ;; js_set v k c'
      | None => Unmodelled UStale
      end
  end.

(** ** The state of [parseToml] *)

Record parse_state : Type := mkState {
  result : jsval;                       (* const result: TomlObject = {} *)
  currentSection : list string;         (* let currentSection = result *)
  currentPath : list string;            (* let currentPath: string[] = [] *)
  currentArray : option (list string)   (* let currentArray = null *)
}.

Definition initial_state : parse_state :=
  {| result := VObj []; currentSection := []; currentPath := [];
     currentArray := None |}.

(** [value.replace(/^"|"$/g, '')]: one leading and one trailing double
    quote, the second only when it is not the first. *)
Definition strip_quotes (v : string) : string :=
  let v1 := match v with
            | String c r => if Ascii.eqb c dq then r else v
            | EmptyString => EmptyString
            end in
  if ends_with (str1 dq) v1 then substring 0 (String.length v1 - 1) v1 else v1.

(** Lines 68-75: [[[arrayName]]]. *)
Definition array_header (st : parse_state) (arrayName : string) : js_result parse_state :=
  r1 <- match get_own (result st) arrayName with
        | Some (VArr _ _) => Ok (result st)
        | _ => js_set (result st) arrayName (VArr [] [])
        end ;;
  match get_own r1 arrayName with
  | Some (VArr es extra) =>
      let here := [arrayName; index_key (length es)] in
      r2 <- js_set r1 arrayName (VArr (es ++ [Some (VObj [])]) extra) ;;
      Ok {| result := r2; currentSection := here; currentPath := currentPath st;
            currentArray := Some here |}
  | _ => Unmodelled UStale
  end.

(** Lines 82-87: walk [parts] from the object at [cur], creating empty
    objects for missing keys. *)
Fixpoint walk (root : jsval) (cur : list string) (parts : list string) :
  js_result (jsval * list string) :=
  match parts with
  | [] => Ok (root, cur)
  | part :: parts' =>
      match get_path root cur with
      | None => Unmodelled UStale
      | Some c =>
          h <- js_in part c ;;
          match h with
          | FOwn _ => walk root (cur ++ [part]) parts'
          | FInherited => Unmodelled UBuiltin
          | FAbsent =>
              root' <- update_path root cur (fun o => js_set o part (VObj [])) ;;
              walk root' (cur ++ [part]) parts'
          end
      end
  end.

(** Lines 76-87: [[section]]. *)
Definition table_header (st : parse_state) (section : string) : js_result parse_state :=
  let path := split "." section in
  '(r, cur) <- walk (result st) [] path ;;
  Ok {| result := r; currentSection := cur; currentPath := path; currentArray := None |}.

(** The state after an assignment: only [result] changes. *)
Definition set_result (st : parse_state) (r : jsval) : parse_state :=
  {| result := r; currentSection := currentSection st; currentPath := currentPath st;
     currentArray := currentArray st |}.

(** Lines 88-96: [key = value]. *)
Definition assignment (st : parse_state) (line : string) : js_result parse_state :=
  let parts := split "=" line in
  let key := trim (hd EmptyString parts) in
  let value := trim (join "=" (tl parts)) in
  let assign (x : jsval) :=
    update_path (result st) (currentSection st) (fun o => js_set o key x) in
  r <- match (j <- json_parse value ;; assign (of_json j)) with
       | Throw _ => assign (VStr (strip_quotes value))
       | other => other
       end ;;
  Ok (set_result st r).

(** The body of the loop (lines 65-97). *)
Definition parse_line (st : parse_state) (raw : string) : js_result parse_state :=
  let line := trim raw in
  if String.eqb line "" || starts_with "#" line then Ok st
  else if starts_with "[[" line && ends_with "]]" line then
    array_header st (slice line 2 (-2))
  else if starts_with "[" line && ends_with "]" line then
    table_header st (slice line 1 (-1))
  else if includes "=" line then assignment st line
  else Ok st.

Fixpoint parse_lines (st : parse_state) (lines : list string) : js_result parse_state :=
  match lines with
  | [] => Ok st
  | l :: ls => st' <- parse_line st l ;; parse_lines st' ls
  end.

(** [parseToml(text)] *)
Definition parseToml (text : string) : js_result jsval :=
  st <- parse_lines initial_state (split lf text) ;;
  Ok (result st).

(** ** Lemmas *)

Lemma parse_lines_app (st : parse_state) (l1 l2 : list string) :
  parse_lines st (l1 ++ l2) = (st' <- parse_lines st l1 ;; parse_lines st' l2).
Proof.
  revert st. induction l1 as [|l l1 IH]; intros st; simpl; [reflexivity|].
  destruct (parse_line st l); simpl; [apply IH | reflexivity | reflexivity].
Qed.

Lemma set_result_twice (st : parse_state) (r r' : jsval) :
  set_result (set_result st r) r' = set_result st r'.
Proof. reflexivity. Qed.

(** Assignment to a plain object, for any key but [__proto__]. *)
Lemma js_set_obj (ps : list (string * jsval)) (k : string) (x : jsval) :
  String.eqb k proto_key = false -> js_set (VObj ps) k x = Ok (VObj (define k x ps)).
Proof. intros H. simpl. unfold set_named. now destruct (has_own k ps); rewrite ?H. Qed.

Lemma js_set_own (ps : list (string * jsval)) (k : string) (x : jsval) :
  has_own k ps = true -> js_set (VObj ps) k x = Ok (VObj (define k x ps)).
Proof. intros H. simpl. unfold set_named. now rewrite H. Qed.

Lemma proto_name_not_proto (k : string) :
  is_object_proto_name k = false -> String.eqb k proto_key = false.
Proof.
  unfold is_object_proto_name. intros H.
  destruct (String.eqb_spec k proto_key) as [->|]; [discriminate | reflexivity].
Qed.

(** [currentSection] designates the object [c] in [plug c]: a mutation
    through the path is the mutation of [c], seen from the root. *)
Definition focus (cur : list string) (plug : jsval -> jsval) : Prop :=
  forall c f, update_path (plug c) cur f = (c' <- f c ;; Ok (plug c')).

Lemma focus_root : focus [] (fun c => c).
Proof. intros c f. simpl. symmetry. apply bind_ret. Qed.

Lemma focus_table (k : string) (P : list (string * jsval)) :
  focus [k] (fun c => VObj (define k c P)).
Proof.
  intros c f. cbn [update_path get_own]. rewrite lookup_define, String.eqb_refl.
  destruct (f c) as [c'|e|u]; cbn [bind]; [|reflexivity|reflexivity].
  rewrite js_set_own by (now rewrite has_own_define, String.eqb_refl).
  now rewrite define_define.
Qed.

Lemma index_key_not_length (n : nat) : String.eqb (index_key n) "length" = false.
Proof.
  unfold index_key. destruct (number_to_string_start (Z.of_nat n)) as (c & r & -> & [H | ->]);
    [|reflexivity].
  destruct c as [[] [] [] [] [] [] [] []]; try discriminate; reflexivity.
Qed.

Lemma array_index_key (n : nat) :
  (Z.of_nat n < max_index)%Z -> array_index (index_key n) = Some (Z.of_nat n).
Proof.
  intros Hn. unfold index_key. destruct n as [|n]; [reflexivity|].
  set (p := Pos.of_succ_nat n). change (Z.of_nat (S n)) with (Zpos p) in *.
  cbn [number_to_string].
  destruct (pos_digits_head p) as (c & r & E & Hc).
  pose proof (all_digits_pos p) as Ha. pose proof (digits_value_pos p) as Hv.
  rewrite E in *. simpl in Ha. apply andb_true_iff in Ha as [_ Ha].
  unfold array_index. rewrite Hc, Ha, Hv.
  replace (Ascii.eqb c "0") with false
    by (destruct c as [[] [] [] [] [] [] [] []]; try discriminate; reflexivity).
  apply Z.ltb_lt in Hn. simpl. now rewrite Hn.
Qed.

Lemma set_elem_last (es : list (option jsval)) (x : option jsval) (y : jsval) :
  set_elem (es ++ [x])%list (length es) y = (es ++ [Some y])%list.
Proof.
  unfold set_elem. rewrite length_app. cbn [length].
  replace (Nat.ltb (length es) (length es + 1)) with true by (symmetry; apply Nat.ltb_lt; lia).
  rewrite firstn_app, Nat.sub_diag, firstn_all, firstn_O,
    skipn_all2 by (rewrite length_app; cbn [length]; lia).
  now rewrite !app_nil_r.
Qed.

(** The element pushed last on a table array. *)
Lemma focus_item (k : string) (es : list (option jsval)) (P : list (string * jsval)) :
  (Z.of_nat (length es) < max_index)%Z ->
  focus [k; index_key (length es)] (fun c => VObj (define k (VArr (es ++ [Some c])%list []) P)).
Proof.
  intros Hn c f. cbn [update_path get_own].
  rewrite lookup_define, String.eqb_refl. unfold get_own.
  rewrite index_key_not_length, (array_index_key _ Hn),
    Nat2Z.id, nth_error_app2, Nat.sub_diag by lia. cbn [nth_error update_path].
  destruct (f c) as [c'|e|u]; cbn [bind]; [|reflexivity|reflexivity].
  unfold js_set at 1.
  rewrite index_key_not_length, (array_index_key _ Hn), Nat2Z.id, set_elem_last.
  cbn [bind].
  rewrite js_set_own by (now rewrite has_own_define, String.eqb_refl).
  now rewrite define_define.
Qed.

(** A [[k]] line, for a key [k] that is not of the form [[...]], is
    the header of the table [k]. *)
Lemma parse_line_header (st : parse_state) (k : string) :
  (starts_with "[" k && ends_with "]" k) = false ->
  parse_line st ("[" ++ k ++ "]") = table_header st k.
Proof.
  intros Hb. unfold parse_line. cbv zeta.
  assert (Ht : trim ("[" ++ k ++ "]") = "[" ++ k ++ "]")
    by (apply (trim_wrapped "[" "]" k); reflexivity).
  rewrite Ht.
  rewrite starts_with_bracket, ends_with_bracket, Hb.
  replace (ends_with "]" ("[" ++ k ++ "]")) with true
    by (symmetry; exact (ends_with_app "]" ("[" ++ k))).
  replace (slice ("[" ++ k ++ "]") 1 (-1)) with k
    by (symmetry; apply (slice_inner "[" k "]"); simpl; lia).
  replace (starts_with "[" ("[" ++ k ++ "]")) with true
    by (symmetry; exact (prefix_app "[" (k ++ "]"))). reflexivity.
Qed.

(** A [[k]] line, for a key [k] without dot that is not yet in the root
    and not a member of [Object.prototype], creates the table [k] and
    moves the cursor into it. *)
Lemma parse_line_table (st : parse_state) (P : list (string * jsval)) (k : string) :
  result st = VObj P -> has_own k P = false ->
  has_char "." k = false -> is_object_proto_name k = false ->
  (starts_with "[" k && ends_with "]" k) = false ->
  parse_line st ("[" ++ k ++ "]") =
  Ok {| result := VObj (define k (VObj []) P); currentSection := [k];
        currentPath := [k]; currentArray := None |}.
Proof.
  intros Hr Hk Hd Hp Hb. rewrite (parse_line_header st k Hb).
  unfold table_header. rewrite (split_no_sep "." k Hd), Hr. cbn [walk get_path].
  unfold js_in, get_own. rewrite (has_own_lookup_none _ _ Hk), Hp. cbn [bind update_path].
  rewrite (js_set_obj _ _ _ (proto_name_not_proto k Hp)). reflexivity.
Qed.

(** A [[k]] line on a key [k] the root already has moves the cursor to
    the value of [k], whatever it is, and changes nothing else. *)
Lemma parse_line_table_own (st : parse_state) (P : list (string * jsval)) (k : string)
    (c : jsval) :
  result st = VObj P -> lookup k P = Some c -> has_char "." k = false ->
  (starts_with "[" k && ends_with "]" k) = false ->
  parse_line st ("[" ++ k ++ "]") =
  Ok {| result := VObj P; currentSection := [k]; currentPath := [k]; currentArray := None |}.
Proof.
  intros Hr Hk Hd Hb. rewrite (parse_line_header st k Hb).
  unfold table_header. rewrite (split_no_sep "." k Hd), Hr. cbn [walk get_path].
  unfold js_in, get_own. rewrite Hk. reflexivity.
Qed.

(** The root before the first [[[k]]] line and after the others. *)
Definition with_array (k : string) (es : list (option jsval)) (P : list (string * jsval)) :
  list (string * jsval) :=
  match es with [] => P | _ => define k (VArr es []) P end.

(** A [[[k]]] line appends an empty table to the array [k] of the root,
    creating the array first, and moves the cursor into the new table. *)
Lemma parse_line_array (st : parse_state) (P : list (string * jsval)) (k : string)
  (es : list (option jsval)) :
  result st = VObj (with_array k es P) -> has_own k P = false ->
  String.eqb k proto_key = false ->
  parse_line st ("[[" ++ k ++ "]]") =
  Ok {| result := VObj (define k (VArr (es ++ [Some (VObj [])])%list []) P);
        currentSection := [k; index_key (length es)]; currentPath := currentPath st;
        currentArray := Some [k; index_key (length es)] |}.
Proof.
  intros Hr Hk Hp. unfold parse_line. cbv zeta.
  assert (El : "[[" ++ k ++ "]]" = String "[" (("[" ++ k ++ "]") ++ str1 "]"))
    by (simpl; now rewrite sapp_assoc).
  assert (Ht : trim ("[[" ++ k ++ "]]") = "[[" ++ k ++ "]]")
    by (rewrite El; apply trim_wrapped; reflexivity).
  rewrite Ht.
  replace (ends_with "]]" ("[[" ++ k ++ "]]")) with true
    by (symmetry; exact (ends_with_app "]]" ("[[" ++ k))).
  replace (slice ("[[" ++ k ++ "]]") 2 (-2)) with k
    by (symmetry; apply (slice_inner "[[" k "]]"); simpl; lia).
  replace (starts_with "[[" ("[[" ++ k ++ "]]")) with true
    by (symmetry; exact (prefix_app "[[" (k ++ "]]"))). cbn -[array_header].
  unfold array_header. rewrite Hr.
  destruct es as [|e es]; cbn [with_array get_own].
  - rewrite (has_own_lookup_none _ _ Hk). cbn [bind]. rewrite (js_set_obj _ _ _ Hp).
    cbn [bind get_own]. rewrite lookup_define, String.eqb_refl. cbn [bind].
    rewrite js_set_own by (now rewrite has_own_define, String.eqb_refl).
    now rewrite define_define.
  - rewrite lookup_define, String.eqb_refl. cbn [bind get_own].
    rewrite lookup_define, String.eqb_refl. cbn [bind].
    rewrite js_set_own by (now rewrite has_own_define, String.eqb_refl).
    now rewrite define_define.
Qed.

(** A [key = value] line assigns to the current section: the parsed
    value when [JSON.parse] accepts the text, the text without its
    quotes when it throws. *)
Lemma assignment_focus (st : parse_state) (cur : list string) (plug : jsval -> jsval)
  (Q : list (string * jsval)) (line key value : string) (x : jsval) :
  focus cur plug -> currentSection st = cur -> result st = plug (VObj Q) ->
  trim (hd EmptyString (split "=" line)) = key ->
  trim (join "=" (tl (split "=" line))) = value ->
  String.eqb key proto_key = false ->
  match json_parse value with
  | Ok j => of_json j = x
  | Throw _ => VStr (strip_quotes value) = x
  | Unmodelled _ => False
  end ->
  assignment st line = Ok (set_result st (plug (VObj (define key x Q)))).
Proof.
  intros Hf Hc Hr Hk Hv Hp Hx. unfold assignment. cbv zeta.
  rewrite Hk, Hv, Hc, Hr.
  destruct (json_parse value) as [j|e|u]; [| |contradiction]; cbn [bind];
    rewrite Hf, (js_set_obj _ _ _ Hp); cbn [bind]; now subst x.
Qed.

(** The values a write to a property of throws on, in strict mode. *)
Definition primitive (c : jsval) : bool :=
  match c with VObj _ | VArr _ _ => false | _ => true end.

(** A write through the table [k] of the root throws when [k] holds a
    primitive. *)
Lemma update_path_primitive (P : list (string * jsval)) (k key : string) (c x : jsval) :
  lookup k P = Some c -> primitive c = true ->
  update_path (VObj P) [k] (fun o => js_set o key x) = Throw TypeError.
Proof. intros Hk Hc. cbn. rewrite Hk. destruct c; try discriminate; reflexivity. Qed.

(** An assignment whose every write throws throws, through the fallback
    of the [catch] too, unless [JSON.parse] leaves the model. *)
Lemma assignment_throws (st : parse_state) (line : string) :
  (forall x, update_path (result st) (currentSection st)
               (fun o => js_set o (trim (hd EmptyString (split "=" line))) x) = Throw TypeError) ->
  (forall u, json_parse (trim (join "=" (tl (split "=" line)))) <> Unmodelled u) ->
  assignment st line = Throw TypeError.
Proof.
  intros Hw Hj. unfold assignment. cbv zeta.
  destruct (json_parse _) as [j|e|u] eqn:E; [| |exfalso; exact (Hj u eq_refl)];
    cbn [bind]; rewrite !Hw; reflexivity.
Qed.

(** A line whose trimmed text starts with neither [#] nor [\[] and
    contains [=] is an assignment. *)
Lemma parse_line_assignment (st : parse_state) (raw line : string) :
  trim raw = line ->
  (exists c x, line = String c x /\ Ascii.eqb "#" c = false /\ Ascii.eqb "[" c = false) ->
  includes "=" line = true ->
  parse_line st raw = assignment st line.
Proof.
  intros Ht (c & x & -> & H1 & H2) Hi. unfold parse_line. cbv zeta. rewrite Ht.
  rewrite !starts_with_head by assumption. rewrite Hi. reflexivity.
Qed.

(** The fallback of line 95 on a quoted text: the text between the
    quotes. *)
Lemma strip_quotes_quoted (s : string) : strip_quotes (str1 dq ++ s ++ str1 dq) = s.
Proof.
  unfold strip_quotes. cbn [append str1]. rewrite Ascii.eqb_refl.
  change (String dq EmptyString) with (str1 dq). rewrite ends_with_app, sapp_length.
  replace (String.length s + String.length (str1 dq) - 1) with (String.length s)
    by (cbn [String.length str1]; lia).
  apply substring_prefix.
Qed.

Lemma set_result_self (st : parse_state) : set_result st (result st) = st.
Proof. now destruct st. Qed.

Lemma parse_line_blank (st : parse_state) : parse_line st "" = Ok st.
Proof. reflexivity. Qed.

Lemma with_array_snoc (k : string) (es : list (option jsval)) (x : option jsval)
  (P : list (string * jsval)) :
  with_array k (es ++ [x])%list P = define k (VArr (es ++ [x])%list []) P.
Proof. now destruct es. Qed.

(** [JSON.stringify] gives back the value [JSON.parse] built. *)
Lemma to_json_of_json (v : json) : to_json (of_json v) = v.
Proof.
  induction v using json_nested_ind; cbn; try reflexivity.
  - f_equal. rewrite map_map. induction H as [|x xs Hx _ IH]; cbn; [reflexivity|].
    now rewrite Hx, IH.
  - f_equal. rewrite map_map.
    induction H as [|[k x] ps Hx _ IH]; cbn in *; [reflexivity|]. now rewrite Hx, IH.
Qed.

(** ** The order of the keys of the result

    JavaScript lists the own properties of an object with the array
    indices first, in ascending order, then the other keys in the order
    they were created ([JsObject.canonical]). Every write of the parser
    to the root either defines a key there or replaces the value of a
    key it has, so the root stays an object in that order. *)

Definition canon_obj (v : jsval) : Prop := exists ps, v = VObj ps /\ canonical ps = true.

Lemma set_named_canonical (ps ps' : list (string * jsval)) (k : string) (x : jsval) :
  canonical ps = true -> set_named ps k x = Ok ps' -> canonical ps' = true.
Proof.
  unfold set_named. intros Hc.
  destruct (has_own k ps); [intros H; inv H; now apply canonical_define|].
  destruct (String.eqb k proto_key); [|intros H; inv H; now apply canonical_define].
  destruct x; intros H; inv H; exact Hc.
Qed.

Lemma js_set_canon (k : string) (x v r : jsval) :
  canon_obj v -> js_set v k x = Ok r -> canon_obj r.
Proof.
  intros (ps & -> & Hc) H. cbn in H. apply bind_ok_inv in H as (ps' & Hs & H). inv H.
  exists ps'. split; [reflexivity | exact (set_named_canonical _ _ _ _ Hc Hs)].
Qed.

(** A write through a path keeps the root in order when the write at
    the root itself does. *)
Lemma update_path_canon (v r : jsval) (p : list string) (f : jsval -> js_result jsval) :
  (forall u r', canon_obj u -> f u = Ok r' -> canon_obj r') ->
  canon_obj v -> update_path v p f = Ok r -> canon_obj r.
Proof.
  intros Hf Hv. destruct p as [|k p]; cbn; [exact (Hf _ _ Hv)|].
  destruct (get_own v k); [|discriminate]. intros H.
  apply bind_ok_inv in H as (c' & _ & H). exact (js_set_canon _ _ _ _ Hv H).
Qed.

Lemma walk_canon (parts : list string) :
  forall root cur r cur', canon_obj root -> walk root cur parts = Ok (r, cur') -> canon_obj r.
Proof.
  induction parts as [|part parts IH]; intros root cur r cur' Hr; cbn.
  - intros H. inv H. exact Hr.
  - destruct (get_path root cur) as [c|]; [|discriminate]. intros H.
    apply bind_ok_inv in H as ([x| |] & _ & H); [exact (IH _ _ _ _ Hr H) | discriminate|].
    apply bind_ok_inv in H as (root' & Hu & H).
    exact (IH _ _ _ _ (update_path_canon _ _ _ _ (js_set_canon part (VObj [])) Hr Hu) H).
Qed.

Lemma parse_line_canon (st st' : parse_state) (raw : string) :
  canon_obj (result st) -> parse_line st raw = Ok st' -> canon_obj (result st').
Proof.
  intros Hr. unfold parse_line.
  destruct (_ || _); [intros H; inv H; exact Hr|].
  destruct (starts_with "[[" _ && _).
  - unfold array_header. intros H. apply bind_ok_inv in H as (r1 & H1 & H).
    assert (Hr1 : canon_obj r1)
      by (destruct (get_own (result st) _) as [[| | | | |es ex]|];
          first [injection H1 as <-; exact Hr | exact (js_set_canon _ _ _ _ Hr H1)]).
    destruct (get_own r1 _) as [[| | | | |es ex]|]; try discriminate.
    apply bind_ok_inv in H as (r2 & H2 & H). inv H. exact (js_set_canon _ _ _ _ Hr1 H2).
  - destruct (starts_with "[" _ && _).
    + unfold table_header. intros H. apply bind_ok_inv in H as ([r cur] & Hw & H). inv H.
      exact (walk_canon _ _ _ _ _ Hr Hw).
    + destruct (includes "=" _); [|intros H; inv H; exact Hr].
      unfold assignment. intros H. apply bind_ok_inv in H as (r & Hu & H). inv H.
      assert (Ha : forall x r', update_path (result st) (currentSection st)
                                  (fun o => js_set o (trim (hd EmptyString (split "=" (trim raw)))) x)
                                = Ok r' -> canon_obj r')
        by (intros x r'; apply update_path_canon; [apply js_set_canon | exact Hr]).
      destruct (json_parse _) as [j| |]; cbn in Hu; [|exact (Ha _ _ Hu) | discriminate].
      destruct (update_path _ _ _) eqn:E; inv Hu; eapply Ha; eassumption.
Qed.

Lemma parse_lines_canon (ls : list string) :
  forall st st', canon_obj (result st) -> parse_lines st ls = Ok st' -> canon_obj (result st').
Proof.
  induction ls as [|l ls IH]; intros st st' Hr; cbn; [intros H; inv H; exact Hr|].
  destruct (parse_line st l) as [st1| |] eqn:E; cbn; try discriminate.
  exact (IH _ _ (parse_line_canon _ _ _ Hr E)).
Qed.


