(* ===== verification/Codec.v ===== *)
(** * The codec: [parseToml] after [toToml]

    What the configuration tab does with a configuration object: it shows
    [toToml(obj)] in the text area and, on save, sends
    [JSON.stringify(parseToml(text))]. This file states when the text
    reads back to the object, and what comes back.

    The round trip holds for the objects the format can express
    ([toml_ok]): scalars, inline arrays, tables of scalars and table
    arrays of tables of scalars, with keys and strings that do not break
    the line structure. The parser then returns the entries regrouped
    in the order of the text: scalars first, then tables, then table
    arrays ([regroup]). The last sections state, over all their inputs,
    what the round trip does to shapes outside that domain: a header on
    a scalar, escapes in strings, a key with [=], a table in a table,
    and the items of a table array. *)

From Stdlib Require Import String Ascii List ZArith Lia Bool.
From S2P Require Import Prelude JsString JsNumber JsObject Json Serializer Parser.
Import ListNotations.
Open Scope string_scope.
Open Scope yolab_scope.

(** ** The domain of the round trip *)

(** A key of a [key = value] line: no [=] (the parser splits at the first
    one), no line feed, no space at either end (the parser trims), not
    read as a comment or a header, and not [__proto__] (which assignment
    does not create). *)
Definition key_ok (k : string) : bool :=
  negb (has_char "=" k) && negb (has_char lf k) && String.eqb (trim k) k &&
  negb (starts_with "#" k) && negb (starts_with "[" k) && negb (String.eqb k proto_key).

(** A string value: no line feed and no backslash (JSON.parse would read
    an escape). *)
Definition string_ok (s : string) : bool := negb (has_char lf s) && negb (has_char bslash s).

(** A value of a [key = value] line. *)
Definition scalar_ok (v : json) : bool :=
  match v with
  | JStr s => string_ok s
  | JObj _ => false
  | _ => negb (is_table_array v)
  end.

(** A table body: scalar entries only. *)
Definition flat_ok (ps : list (string * json)) : bool :=
  forallb (fun kv => key_ok (fst kv) && scalar_ok (snd kv)) ps.

(** The key of a [[k]] header: no dot (the parser splits the path), no
    line feed, no member of [Object.prototype] (found by [in]), and not
    of the form [[...]] (which would make the line an array header). *)
Definition header_ok (k : string) : bool :=
  negb (has_char "." k) && negb (has_char lf k) && negb (is_object_proto_name k) &&
  negb (starts_with "[" k && ends_with "]" k).

(** The key of a [[[k]]] header. *)
Definition array_key_ok (k : string) : bool :=
  negb (has_char lf k) && negb (String.eqb k proto_key).

Definition body_of (v : json) : list (string * json) :=
  match v with JObj ps => ps | _ => [] end.

Definition item_ok (v : json) : bool :=
  match v with JObj ps => flat_ok ps | _ => false end.

Definition entry_ok (kv : string * json) : bool :=
  let '(k, v) := kv in
  match v with
  | JObj ps => header_ok k && flat_ok ps
  | JArr items =>
      if is_table_array v then
        array_key_ok k && forallb item_ok items &&
        (Z.of_nat (length items) <? max_index)%Z
      else key_ok k
  | _ => key_ok k && scalar_ok v
  end.

(** The objects the format round-trips. *)
Definition toml_ok (ps : list (string * json)) : bool :=
  json_wf (JObj ps) && forallb entry_ok ps.

(** ** The text as lines *)

(** The value text of a [key = value] line (lines 33-39). *)
Definition value_text (v : json) : string :=
  match v with
  | JArr _ => json_stringify v
  | JStr s => str1 dq ++ s ++ str1 dq
  | _ => js_to_string v
  end.

Definition entry_text (kv : string * json) : string :=
  fst kv ++ " = " ++ value_text (snd kv).

Definition table_lines (ts : list (string * json)) : list string :=
  flat_map (fun kv => "" :: ("[" ++ fst kv ++ "]") :: map entry_text (body_of (snd kv))) ts.

Definition item_lines (key : string) (items : list json) : list string :=
  flat_map (fun it => "" :: ("[[" ++ key ++ "]]") :: map entry_text (body_of it)) items.

Definition array_lines (arrays : list TomlArray) : list string :=
  flat_map (fun a => item_lines (ta_key a) (ta_value a)) arrays.

Definition toml_lines (ps : list (string * json)) : list string :=
  let b := partition ps in
  (map entry_text (b_simple b) ++ table_lines (b_tables b) ++ array_lines (b_arrays b))%list.

Fixpoint unlines (ls : list string) : string :=
  match ls with
  | [] => ""
  | l :: ls' => l ++ nl ++ unlines ls'
  end.

(** The object the parser builds: the entries in the order of the text. *)
Definition array_entry (a : TomlArray) : string * json := (ta_key a, JArr (ta_value a)).

Definition regroup (ps : list (string * json)) : list (string * json) :=
  let b := partition ps in
  define_all (b_simple b ++ b_tables b ++ map array_entry (b_arrays b))%list [].

(** ** Lines *)

Lemma unlines_app (l1 l2 : list string) :
  unlines (l1 ++ l2) = unlines l1 ++ unlines l2.
Proof.
  induction l1 as [|l l1 IH]; simpl; [reflexivity|]. now rewrite IH, !sapp_assoc.
Qed.

Lemma split_unlines (ls : list string) :
  forallb (fun l => negb (has_char lf l)) ls = true ->
  split lf (unlines ls) = (ls ++ [""])%list.
Proof.
  induction ls as [|l ls IH]; cbn [unlines forallb]; [reflexivity|].
  intros H. apply andb_true_iff in H as [H1 H2]. apply negb_true_iff in H1.
  unfold nl. rewrite str1_app, split_app_sep by exact H1. now rewrite IH.
Qed.

Lemma simple_line_text (k : string) (v : json) :
  simple_line k v = entry_text (k, v) ++ nl.
Proof.
  unfold entry_text, value_text. cbn [fst snd].
  destruct v; unfold simple_line; rewrite ?sapp_assoc; reflexivity.
Qed.

Lemma simple_lines_unlines (es : list (string * json)) :
  simple_lines es = unlines (map entry_text es).
Proof.
  induction es as [|[k v] es IH]; simpl; [reflexivity|].
  now rewrite simple_line_text, IH, sapp_assoc.
Qed.

(** ** The buckets of [toToml] as filters *)

Definition is_simple (kv : string * json) : bool :=
  negb (is_table_array (snd kv)) && negb (is_table (snd kv)).

Definition is_tbl (kv : string * json) : bool :=
  negb (is_table_array (snd kv)) && is_table (snd kv).

Definition is_arr (kv : string * json) : bool := is_table_array (snd kv).

Definition to_toml_array (kv : string * json) : TomlArray :=
  {| ta_key := fst kv; ta_value := match snd kv with JArr xs => xs | _ => [] end |}.

Definition no_proto (es : list (string * json)) : bool :=
  forallb (fun kv => negb (String.eqb (fst kv) proto_key)) es.

Lemma partition_fold (es : list (string * json)) (b : buckets) :
  no_proto es = true ->
  fold_left bucket_entry es b =
  {| b_simple := define_all (filter is_simple es) (b_simple b);
     b_tables := define_all (filter is_tbl es) (b_tables b);
     b_arrays := (b_arrays b ++ map to_toml_array (filter is_arr es))%list |}.
Proof.
  revert b. induction es as [|[k v] es IH]; intros b H.
  - destruct b. cbn. now rewrite app_nil_r.
  - cbn in H. apply andb_true_iff in H as [Hk Hes]. apply negb_true_iff in Hk.
    cbn [fold_left]. rewrite (IH _ Hes).
    unfold bucket_entry, is_simple, is_tbl, is_arr, assign_fresh. cbn [fst snd filter].
    rewrite Hk. destruct (is_table_array v), (is_table v); cbn;
      rewrite <- ?app_assoc; reflexivity.
Qed.

Lemma partition_spec (ps : list (string * json)) :
  no_proto ps = true ->
  partition ps =
  {| b_simple := define_all (filter is_simple ps) [];
     b_tables := define_all (filter is_tbl ps) [];
     b_arrays := map to_toml_array (filter is_arr ps) |}.
Proof. intros H. unfold partition. now rewrite partition_fold. Qed.

(** ** What [toToml] prints for the domain *)

Definition good (kv : string * json) : bool := entry_ok kv && json_wf (snd kv).

Definition line_entry (kv : string * json) : bool :=
  key_ok (fst kv) && scalar_ok (snd kv) && json_wf (snd kv).

Definition item_cond (v : json) : bool :=
  match v with JObj qs => forallb line_entry qs && canonical qs | _ => false end.

Lemma key_ok_not_proto (k : string) : key_ok k = true -> String.eqb k proto_key = false.
Proof. unfold key_ok. intros H. repeat (apply andb_true_iff in H as [H ?]). now apply negb_true_iff. Qed.

Lemma scalar_ok_shape (v : json) :
  scalar_ok v = true -> is_table_array v = false /\ is_table v = false.
Proof.
  destruct v as [| | | |xs|]; cbn; try discriminate; try (intros; split; reflexivity).
  intros H. apply negb_true_iff in H. now split.
Qed.

Lemma flat_filters (qs : list (string * json)) :
  forallb line_entry qs = true ->
  no_proto qs = true /\ filter is_simple qs = qs /\ filter is_tbl qs = [] /\ filter is_arr qs = [].
Proof.
  unfold no_proto. induction qs as [|[k v] qs IH]; [easy|]. cbn. intros H.
  apply andb_true_iff in H as [Hkv Hqs]. unfold line_entry in Hkv. cbn [fst snd] in Hkv.
  apply andb_true_iff in Hkv as [Hkv _]. apply andb_true_iff in Hkv as [Hk Hv].
  destruct (IH Hqs) as (H1 & H2 & H3 & H4).
  destruct (scalar_ok_shape v Hv) as [Ha Ht].
  assert (Es : is_simple (k, v) = true) by (unfold is_simple; cbn; now rewrite Ha, Ht).
  assert (Et : is_tbl (k, v) = false) by (unfold is_tbl; cbn; now rewrite Ha, Ht).
  assert (Ea : is_arr (k, v) = false) by exact Ha.
  rewrite Es, Et, Ea, (key_ok_not_proto k Hk). cbn. now rewrite H1, H2, H3, H4.
Qed.

Lemma toToml_flat (f : nat) (qs : list (string * json)) (ind : string) :
  item_cond (JObj qs) = true -> toToml_fuel (S f) (JObj qs) ind = Ok (simple_lines qs).
Proof.
  cbn [item_cond]. intros H. apply andb_true_iff in H as [Hl Hc].
  destruct (flat_filters qs Hl) as (H1 & H2 & H3 & H4).
  cbn [toToml_fuel object_entries bind]. rewrite (partition_spec qs H1), H2, H3, H4.
  cbn. now rewrite (define_all_canonical qs Hc), !sapp_nil_r.
Qed.

Lemma emit_tables_flat (f : nat) (ind : string) (ts : list (string * json)) :
  forallb (fun kv => item_cond (snd kv)) ts = true ->
  emit_tables (fun v => toToml_fuel (S f) v ind) ts = Ok (unlines (table_lines ts)).
Proof.
  induction ts as [|[k v] ts IH]; [reflexivity|]. cbn [forallb snd].
  intros H. apply andb_true_iff in H as [Hv Hts].
  destruct v; try discriminate. cbn [emit_tables].
  rewrite (toToml_flat _ _ _ Hv), (IH Hts). cbn [bind].
  unfold table_lines. cbn [flat_map fst snd body_of].
  rewrite unlines_app. cbn [unlines]. rewrite simple_lines_unlines, !sapp_assoc. reflexivity.
Qed.

Lemma emit_items_flat (f : nat) (ind key : string) (items : list json) :
  forallb item_cond items = true ->
  emit_items (fun v => toToml_fuel (S f) v ind) key items = Ok (unlines (item_lines key items)).
Proof.
  induction items as [|v items IH]; [reflexivity|]. cbn [forallb].
  intros H. apply andb_true_iff in H as [Hv Hitems].
  destruct v; try discriminate. cbn [emit_items].
  rewrite (toToml_flat _ _ _ Hv), (IH Hitems). cbn [bind].
  unfold item_lines. cbn [flat_map body_of].
  rewrite unlines_app. cbn [unlines]. rewrite simple_lines_unlines, !sapp_assoc. reflexivity.
Qed.

Lemma emit_arrays_flat (f : nat) (ind : string) (arrays : list TomlArray) :
  forallb (fun a => forallb item_cond (ta_value a)) arrays = true ->
  emit_arrays (fun v => toToml_fuel (S f) v ind) arrays = Ok (unlines (array_lines arrays)).
Proof.
  induction arrays as [|a arrays IH]; [reflexivity|]. cbn [forallb].
  intros H. apply andb_true_iff in H as [Ha Has]. cbn [emit_arrays].
  rewrite (emit_items_flat _ _ _ _ Ha), (IH Has). cbn [bind].
  unfold array_lines. cbn [flat_map]. now rewrite unlines_app.
Qed.

Lemma forallb_define_all (p : string * json -> bool) (es : list (string * json)) :
  forallb p es = true -> forallb p (define_all es []) = true.
Proof.
  rewrite !forallb_forall. intros H kv Hkv.
  destruct (In_define_all _ _ _ Hkv) as [Hin | []]. now apply H.
Qed.

Lemma forallb_filter (p q : string * json -> bool) (es : list (string * json)) :
  forallb p es = true -> forallb p (filter q es) = true.
Proof.
  rewrite !forallb_forall. intros H kv Hkv. apply filter_In in Hkv as [Hkv _]. now apply H.
Qed.

Lemma good_simple (kv : string * json) :
  good kv = true -> is_simple kv = true -> line_entry kv = true.
Proof.
  destruct kv as [k [| b | z | s | xs | qs]]; unfold good, line_entry, is_simple; cbn;
    rewrite ?andb_true_r; try easy.
  destruct xs as [|x xs]; cbn; [now rewrite !andb_true_r|].
  destruct (typeof_object x); cbn; [discriminate|]. now rewrite !andb_true_r.
Qed.

Lemma forallb_andb {X : Type} (p q : X -> bool) (l : list X) :
  forallb (fun x => p x && q x) l = forallb p l && forallb q l.
Proof.
  induction l as [|x l IH]; cbn; [reflexivity|]. rewrite IH.
  destruct (p x), (q x), (forallb p l), (forallb q l); reflexivity.
Qed.

Lemma flat_item (qs : list (string * json)) :
  flat_ok qs = true -> json_wf (JObj qs) = true -> item_cond (JObj qs) = true.
Proof.
  cbn [item_cond json_wf]. unfold flat_ok, line_entry. intros H1 H2.
  apply andb_true_iff in H2 as [Hc Hw]. now rewrite forallb_andb, H1, Hw, Hc.
Qed.

Lemma good_tbl (kv : string * json) :
  good kv = true -> is_tbl kv = true -> item_cond (snd kv) = true.
Proof.
  destruct kv as [k [| | | | xs | qs]]; unfold good, is_tbl; cbn [snd is_table];
    rewrite ?andb_false_r; try discriminate.
  cbn [entry_ok]. intros H _. apply andb_true_iff in H as [H Hw].
  apply andb_true_iff in H as [_ Hf]. now apply flat_item.
Qed.

Lemma good_arr (kv : string * json) :
  good kv = true -> is_arr kv = true -> forallb item_cond (ta_value (to_toml_array kv)) = true.
Proof.
  destruct kv as [k v]. unfold good, is_arr. cbn [snd]. intros H Ha.
  destruct v as [| | | | xs | qs]; try (cbn in Ha; discriminate).
  cbn [entry_ok ta_value to_toml_array snd json_wf fst] in *. rewrite Ha in H.
  split_andb. rewrite forallb_forall in *. intros it Hit.
  match goal with Hi : forall x, In x xs -> item_ok x = true |- _ => specialize (Hi it Hit) end.
  match goal with Hw : forall x, In x xs -> json_wf x = true |- _ => specialize (Hw it Hit) end.
  destruct it; try discriminate. now apply flat_item.
Qed.

Lemma toml_ok_good (ps : list (string * json)) :
  toml_ok ps = true -> canonical ps = true /\ forallb good ps = true.
Proof.
  unfold toml_ok, good. cbn [json_wf]. intros H.
  apply andb_true_iff in H as [Hw He]. apply andb_true_iff in Hw as [Hc Hw].
  now rewrite forallb_andb, He, Hw.
Qed.

Lemma entry_ok_not_proto (k : string) (v : json) :
  entry_ok (k, v) = true -> String.eqb k proto_key = false.
Proof.
  destruct v as [| b | z | s | xs | qs]; cbn [entry_ok]; intros H;
    [..| destruct (is_table_array (JArr xs)) | ]; unfold header_ok, array_key_ok in H;
    split_andb; try (now apply key_ok_not_proto).
  - now apply negb_true_iff.
  - apply proto_name_not_proto. now apply negb_true_iff.
Qed.

Lemma good_no_proto (ps : list (string * json)) : forallb good ps = true -> no_proto ps = true.
Proof.
  unfold no_proto. rewrite !forallb_forall. intros H [k v] Hkv. specialize (H _ Hkv).
  unfold good in H. split_andb. apply negb_true_iff. now apply (entry_ok_not_proto k v).
Qed.

(** The text [toToml] prints for an object of the domain: its lines,
    each ended by a line feed. *)
Lemma toToml_lines (ps : list (string * json)) (ind : string) :
  toml_ok ps = true -> toToml (JObj ps) ind = Ok (unlines (toml_lines ps)).
Proof.
  intros H. destruct (toml_ok_good ps H) as [Hc Hg]. pose proof (good_no_proto ps Hg) as Hp.
  rewrite forallb_forall in Hg.
  unfold toToml. cbn [json_depth]. rewrite toToml_fuel_S. cbn [object_entries bind].
  unfold toml_lines. cbv zeta. rewrite (partition_spec ps Hp). cbn [b_simple b_tables b_arrays].
  rewrite emit_tables_flat, emit_arrays_flat; cbn [bind].
  - now rewrite simple_lines_unlines, !unlines_app.
  - rewrite forallb_forall. intros a Ha. apply in_map_iff in Ha as (kv & <- & Hkv).
    apply filter_In in Hkv as [Hin Ha]. exact (good_arr kv (Hg kv Hin) Ha).
  - apply forallb_define_all. rewrite forallb_forall. intros kv Hkv.
    apply filter_In in Hkv as [Hin Ht]. exact (good_tbl kv (Hg kv Hin) Ht).
Qed.

(** ** Reading a [key = value] line back *)

Lemma value_text_cases (v : json) :
  scalar_ok v = true -> json_wf v = true ->
  (exists s, v = JStr s /\ string_ok s = true /\ value_text v = str1 dq ++ s ++ str1 dq) \/
  (value_text v = json_stringify v /\ json_parse (value_text v) = Ok v).
Proof.
  intros Hs Hw.
  assert (Hj : value_text v = json_stringify v -> json_parse (value_text v) = Ok v)
    by (intros ->; now apply json_parse_stringify).
  destruct v as [| [] | z | s | xs | qs]; cbn in Hs; try discriminate;
    [right..| left; eauto | right]; split; auto.
Qed.

Lemma value_text_no_lf (v : json) :
  scalar_ok v = true -> json_wf v = true -> has_char lf (value_text v) = false.
Proof.
  intros Hs Hw. destruct (value_text_cases v Hs Hw) as [(s & -> & Hok & ->) | [-> _]].
  - unfold string_ok in Hok. split_andb. apply negb_true_iff in Hok.
    now rewrite !has_char_app, Hok.
  - apply json_stringify_no_lf.
Qed.

(** The value text starts and ends with a non-space. *)
Lemma value_text_ends (v : json) :
  scalar_ok v = true -> json_wf v = true ->
  (exists c r, value_text v = String c r /\ is_js_space c = false) /\
  trim_end (value_text v) = value_text v.
Proof.
  intros Hs Hw. destruct (value_text_cases v Hs Hw) as [(s & -> & _ & ->) | [-> _]].
  - split; [eexists _, _; split; reflexivity|].
    change (str1 dq ++ s ++ str1 dq) with (String dq s ++ str1 dq).
    now apply trim_end_last_nonspace.
  - split; [apply json_stringify_head_nonspace | apply json_stringify_trim_end].
Qed.

(** [JSON.parse] of the value text, with the fallback of line 95, gives
    the value back. *)
Lemma value_text_parses (v : json) :
  scalar_ok v = true -> json_wf v = true ->
  match json_parse (value_text v) with
  | Ok j => of_json j = of_json v
  | Throw _ => VStr (strip_quotes (value_text v)) = of_json v
  | Unmodelled _ => False
  end.
Proof.
  intros Hs Hw. destruct (value_text_cases v Hs Hw) as [(s & -> & Hok & E) | [_ ->]];
    [|reflexivity].
  rewrite E. unfold string_ok in Hok. split_andb. apply negb_true_iff in Hok0.
  destruct (json_parse_quoted s Hok0) as [-> | ->]; [reflexivity|].
  now rewrite strip_quotes_quoted.
Qed.

Lemma key_ok_spec (k : string) :
  key_ok k = true ->
  has_char "=" k = false /\ has_char lf k = false /\ trim k = k /\
  starts_with "#" k = false /\ starts_with "[" k = false /\ String.eqb k proto_key = false.
Proof. unfold key_ok. intros H. rewrite !andb_true_iff, !negb_true_iff, String.eqb_eq in H. tauto. Qed.

(** What precedes [=] on the trimmed line. *)
Definition key_prefix (k : string) : string :=
  match k with EmptyString => EmptyString | _ => k ++ " " end.

Lemma key_prefix_trim (k : string) : key_ok k = true -> trim (key_prefix k) = k.
Proof.
  intros H. destruct (key_ok_spec k H) as (_ & _ & Ht & _).
  destruct k as [|c r]; [reflexivity|]. cbn [key_prefix].
  pose proof (trim_fixed_head c r Ht) as Hc. unfold trim in *.
  change (String c r ++ " ") with (String c (r ++ " ")).
  rewrite trim_start_nonspace in * by exact Hc.
  change (String c (r ++ " ")) with (String c r ++ " "). now rewrite trim_end_spaces_app.
Qed.

Lemma split_entry (k r : string) :
  key_ok k = true -> split "=" (key_prefix k ++ "= " ++ r) = key_prefix k :: split "=" (" " ++ r).
Proof.
  intros H. destruct (key_ok_spec k H) as (He & _). apply (split_app_sep "=" (key_prefix k)).
  destruct k; [reflexivity|]. cbn [key_prefix]. now rewrite has_char_app, He.
Qed.

Lemma trim_app_value (a r : string) :
  trim_start a = a -> a <> EmptyString -> trim_end r = r -> r <> EmptyString ->
  trim (a ++ r) = a ++ r.
Proof.
  intros Ha Ha' Hr Hr'. unfold trim.
  rewrite trim_start_app_l by congruence. rewrite Ha, trim_end_app_r by congruence.
  now rewrite Hr.
Qed.

(** The trimmed entry line: [=] comes right after the key (and its space). *)
Lemma entry_line_trim (k r : string) :
  key_ok k = true -> trim_end r = r -> r <> EmptyString ->
  trim (k ++ " = " ++ r) = key_prefix k ++ "= " ++ r.
Proof.
  intros H Hr Hr'. destruct (key_ok_spec k H) as (_ & _ & Ht & _).
  destruct k as [|c s]; cbn [key_prefix].
  - transitivity (trim ("= " ++ r)).
    + reflexivity.
    + exact (trim_app_value "= " r eq_refl ltac:(discriminate) Hr Hr').
  - pose proof (trim_fixed_head c s Ht) as Hc.
    replace ((String c s ++ " ") ++ "= " ++ r) with ((String c s ++ " = ") ++ r)
      by (now rewrite !sapp_assoc).
    replace (String c s ++ " = " ++ r) with ((String c s ++ " = ") ++ r)
      by (now rewrite sapp_assoc).
    apply trim_app_value; try easy. cbn [append]. now rewrite trim_start_nonspace.
Qed.

(** A value text the parser keeps whole: it starts with a character
    that is not a space and [trim] leaves its end alone. *)
Definition text_trimmed (t : string) : Prop :=
  (exists c r, t = String c r /\ is_js_space c = false) /\ trim_end t = t.

(** A line [k = t], for a key of the domain and a trimmed value text,
    is an assignment whose key is [k] and whose value text is [t]. *)
Lemma assign_line_parts (k t : string) (st : parse_state) :
  key_ok k = true -> text_trimmed t ->
  let line := key_prefix k ++ "= " ++ t in
  parse_line st (k ++ " = " ++ t) = assignment st line /\
  trim (hd EmptyString (split "=" line)) = k /\
  trim (join "=" (tl (split "=" line))) = t.
Proof.
  intros Hk [(c & r & Hv & Hsp) Hve].
  destruct (key_ok_spec k Hk) as (_ & _ & Ht & Hh & Hb & Hp).
  assert (Hne : t <> EmptyString) by now rewrite Hv.
  split; [|split].
  - apply parse_line_assignment; [now apply entry_line_trim| |].
    + destruct k as [|c0 r0]; cbn [key_prefix]; [now exists "="%char, (" " ++ t)|].
      exists c0, (r0 ++ " " ++ "= " ++ t).
      split; [now rewrite sapp_assoc|].
      split; [rewrite <- (starts_with_char "#" c0 r0); exact Hh|].
      rewrite <- (starts_with_char "[" c0 r0); exact Hb.
    + exact (includes_app "=" (key_prefix k) (" " ++ t)).
  - rewrite split_entry by exact Hk. cbn [hd]. now apply key_prefix_trim.
  - rewrite split_entry by exact Hk. cbn [tl].
    replace (join "=" (split "=" (" " ++ t))) with (" " ++ t) by (symmetry; apply join_split).
    unfold trim. rewrite (trim_start_spaces_app " " _ eq_refl), Hv, trim_start_nonspace by exact Hsp.
    now rewrite <- Hv.
Qed.

(** A [key = value] line printed by [toToml] is such a line. *)
Lemma entry_line_parts (kv : string * json) (st : parse_state) :
  line_entry kv = true ->
  let line := key_prefix (fst kv) ++ "= " ++ value_text (snd kv) in
  parse_line st (entry_text kv) = assignment st line /\
  trim (hd EmptyString (split "=" line)) = fst kv /\
  trim (join "=" (tl (split "=" line))) = value_text (snd kv).
Proof.
  destruct kv as [k v]. unfold line_entry, entry_text. cbn [fst snd]. intros H.
  apply andb_true_iff in H as [H Hw]. apply andb_true_iff in H as [Hk Hs].
  exact (assign_line_parts k (value_text v) st Hk (value_text_ends v Hs Hw)).
Qed.

(** A [key = value] line printed by [toToml] assigns the value to the key
    in the current section. *)
Lemma parse_entry_line (st : parse_state) (cur : list string) (plug : jsval -> jsval)
  (Q : list (string * jsval)) (kv : string * json) :
  focus cur plug -> currentSection st = cur -> result st = plug (VObj Q) ->
  line_entry kv = true ->
  parse_line st (entry_text kv) =
  Ok (set_result st (plug (VObj (define (fst kv) (of_json (snd kv)) Q)))).
Proof.
  intros Hf Hc Hr H. destruct (entry_line_parts kv st H) as (-> & Hk & Hv).
  destruct kv as [k v]. unfold line_entry in H. cbn [fst snd] in *. split_andb.
  apply (assignment_focus st cur plug Q _ k (value_text v) (of_json v) Hf Hc Hr Hk Hv);
    [exact (key_ok_not_proto k H) | exact (value_text_parses v H1 H0)].
Qed.

(** ** The parse of the printed text, section by section *)

Lemma object_of_flat (qs : list (string * json)) :
  canonical qs = true -> define_all (map_snd of_json qs) [] = map_snd of_json qs.
Proof.
  intros Hc. change (@nil (string * jsval)) with (map_snd of_json []).
  now rewrite <- define_all_map_snd, define_all_canonical.
Qed.

Lemma parse_entries (es : list (string * json)) :
  forall st cur plug Q,
  focus cur plug -> currentSection st = cur -> result st = plug (VObj Q) ->
  forallb line_entry es = true ->
  parse_lines st (map entry_text es) =
  Ok (set_result st (plug (VObj (define_all (map_snd of_json es) Q)))).
Proof.
  induction es as [|kv es IH]; intros st cur plug Q Hf Hc Hr H; cbn [map parse_lines].
  - cbn. now rewrite <- Hr, set_result_self.
  - cbn [forallb] in H. apply andb_true_iff in H as [Hkv Hes].
    rewrite (parse_entry_line st cur plug Q kv Hf Hc Hr Hkv). cbn [bind].
    rewrite (IH (set_result st (plug (VObj (define (fst kv) (of_json (snd kv)) Q))))
               cur plug _ Hf Hc eq_refl Hes).
    reflexivity.
Qed.

Definition table_cond (kv : string * json) : bool := header_ok (fst kv) && item_cond (snd kv).

Definition fresh_in (P : list (string * jsval)) (keys : list string) : bool :=
  nodup_keys keys && forallb (fun k => negb (has_own k P)) keys.

Lemma fresh_in_cons (P : list (string * jsval)) (k : string) (keys : list string) (x : jsval) :
  fresh_in P (k :: keys) = true ->
  has_own k P = false /\ fresh_in (define k x P) keys = true.
Proof.
  unfold fresh_in. cbn [nodup_keys forallb]. intros H.
  apply andb_true_iff in H as [H1 H2]. apply andb_true_iff in H1 as [Hn Hnd].
  apply andb_true_iff in H2 as [Hk Hks]. apply negb_true_iff in Hn, Hk.
  split; [exact Hk|]. rewrite Hnd. cbn. rewrite forallb_forall in *. intros k' Hk'.
  rewrite has_own_define. specialize (Hks k' Hk'). apply negb_true_iff in Hks. rewrite Hks.
  destruct (String.eqb_spec k' k) as [->|]; [|reflexivity].
  exfalso. assert (E : existsb (String.eqb k) keys = true)
    by (apply existsb_exists; exists k; now rewrite String.eqb_refl).
  congruence.
Qed.

Lemma parse_tables (ts : list (string * json)) :
  forall st P, result st = VObj P ->
  forallb table_cond ts = true -> fresh_in P (map fst ts) = true ->
  exists st', parse_lines st (table_lines ts) = Ok st' /\
              result st' = VObj (define_all (map_snd of_json ts) P).
Proof.
  induction ts as [|[k v] ts IH]; intros st P Hr Hc Hf; [now exists st|].
  cbn [forallb] in Hc. apply andb_true_iff in Hc as [Hkv Hts].
  unfold table_cond in Hkv. cbn [fst snd] in Hkv. apply andb_true_iff in Hkv as [Hh Hi].
  destruct v as [| | | | | qs]; try discriminate.
  destruct (fresh_in_cons P k (map fst ts) (of_json (JObj qs)) Hf) as [Hk Hf'].
  unfold header_ok in Hh. split_andb. apply negb_true_iff in Hh, Hh0, Hh1, Hh2.
  cbn [item_cond] in Hi. apply andb_true_iff in Hi as [Hl Hcan].
  unfold table_lines. cbn [flat_map fst snd body_of]. fold (table_lines ts).
  rewrite parse_lines_app. cbn [parse_lines]. rewrite parse_line_blank. cbn [bind].
  rewrite (parse_line_table st P k Hr Hk Hh Hh1 Hh0). cbn [bind].
  erewrite (parse_entries qs _ [k] (fun c => VObj (define k c P)) []);
    [|apply focus_table | reflexivity | reflexivity | exact Hl]. cbn [bind].
  rewrite object_of_flat by exact Hcan.
  apply (IH _ (define k (of_json (JObj qs)) P)); [reflexivity | exact Hts | exact Hf'].
Qed.

Lemma parse_items (k : string) (P : list (string * jsval)) (items : list json) :
  forall st es, result st = VObj (with_array k es P) -> has_own k P = false ->
  String.eqb k proto_key = false -> forallb item_cond items = true ->
  (Z.of_nat (length es + length items) <= max_index)%Z ->
  exists st', parse_lines st (item_lines k items) = Ok st' /\
              result st' = VObj (with_array k (es ++ map (fun it => Some (of_json it)) items) P).
Proof.
  induction items as [|it items IH]; intros st es Hr Hk Hp Hi Hn.
  - exists st. now rewrite app_nil_r.
  - cbn [forallb] in Hi. apply andb_true_iff in Hi as [Hit His].
    destruct it as [| | | | | qs]; try discriminate.
    cbn [item_cond] in Hit. apply andb_true_iff in Hit as [Hl Hcan].
    unfold item_lines. cbn [flat_map body_of]. fold (item_lines k items).
    rewrite parse_lines_app. cbn [parse_lines]. rewrite parse_line_blank. cbn [bind].
    rewrite (parse_line_array st P k es Hr Hk Hp). cbn [bind].
    cbn [length] in Hn.
    erewrite (parse_entries qs _ _ (fun c => VObj (define k (VArr (es ++ [Some c])%list []) P)) []);
      [| apply focus_item; lia | reflexivity | reflexivity | exact Hl]. cbn [bind].
    rewrite object_of_flat by exact Hcan.
    destruct (IH (set_result {| result := VObj (define k (VArr (es ++ [Some (VObj [])])%list []) P);
                                currentSection := [k; index_key (length es)];
                                currentPath := currentPath st;
                                currentArray := Some [k; index_key (length es)] |}
                  (VObj (define k (VArr (es ++ [Some (of_json (JObj qs))])%list []) P)))
                 (es ++ [Some (of_json (JObj qs))])%list)
      as (st' & E & R); [now rewrite with_array_snoc | exact Hk | exact Hp | exact His
                         | rewrite length_app; cbn [length]; lia |].
    exists st'. split; [exact E|]. rewrite R, <- app_assoc. reflexivity.
Qed.

Definition array_cond (a : TomlArray) : bool :=
  array_key_ok (ta_key a) && forallb item_cond (ta_value a) &&
  negb (Nat.eqb (length (ta_value a)) 0) && (Z.of_nat (length (ta_value a)) <? max_index)%Z.

Lemma parse_arrays (arrays : list TomlArray) :
  forall st P, result st = VObj P ->
  forallb array_cond arrays = true -> fresh_in P (map ta_key arrays) = true ->
  exists st', parse_lines st (array_lines arrays) = Ok st' /\
              result st' = VObj (define_all (map_snd of_json (map array_entry arrays)) P).
Proof.
  induction arrays as [|[k items] arrays IH]; intros st P Hr Hc Hf; [now exists st|].
  cbn [forallb] in Hc. apply andb_true_iff in Hc as [Ha Has].
  unfold array_cond, array_key_ok in Ha. cbn [ta_key ta_value] in Ha.
  apply andb_true_iff in Ha as [Ha Hbound]. apply andb_true_iff in Ha as [Ha Hne].
  apply andb_true_iff in Ha as [Ha Hitems]. apply andb_true_iff in Ha as [_ Hp].
  apply negb_true_iff in Hp, Hne. apply Z.ltb_lt in Hbound.
  destruct (fresh_in_cons P k (map ta_key arrays) (of_json (JArr items)) Hf) as [Hk Hf'].
  unfold array_lines. cbn [flat_map ta_key ta_value]. fold (array_lines arrays).
  rewrite parse_lines_app.
  destruct (parse_items k P items st [] Hr Hk Hp Hitems ltac:(cbn [length Nat.add]; lia))
    as (st1 & E1 & R1).
  rewrite E1. cbn [bind].
  destruct items as [|it items]; [discriminate|].
  apply (IH st1 (define k (of_json (JArr (it :: items))) P)); [exact R1 | exact Has | exact Hf'].
Qed.

(** ** The printed text has no stray line feed *)

Definition no_lf (l : string) : bool := negb (has_char lf l).

Lemma forallb_flat_map {X : Type} (p : string -> bool) (f : X -> list string) (l : list X) :
  forallb p (flat_map f l) = forallb (fun x => forallb p (f x)) l.
Proof. induction l as [|x l IH]; cbn; [reflexivity|]. now rewrite forallb_app, IH. Qed.

Lemma forallb_map {X Y : Type} (p : Y -> bool) (f : X -> Y) (l : list X) :
  forallb p (map f l) = forallb (fun x => p (f x)) l.
Proof. induction l as [|x l IH]; cbn; [reflexivity|]. now rewrite IH. Qed.

Lemma entry_text_no_lf (kv : string * json) : line_entry kv = true -> no_lf (entry_text kv) = true.
Proof.
  destruct kv as [k v]. unfold line_entry, no_lf, entry_text. cbn [fst snd]. intros H.
  apply andb_true_iff in H as [H Hw]. apply andb_true_iff in H as [Hk Hs].
  destruct (key_ok_spec k Hk) as (_ & Hl & _).
  now rewrite !has_char_app, Hl, value_text_no_lf.
Qed.

Lemma body_no_lf (v : json) : item_cond v = true -> forallb no_lf (map entry_text (body_of v)) = true.
Proof.
  destruct v; try discriminate. cbn [item_cond body_of]. intros H.
  apply andb_true_iff in H as [H _]. rewrite forallb_map, forallb_forall in *.
  intros kv Hkv. exact (entry_text_no_lf kv (H kv Hkv)).
Qed.

Lemma bracket_no_lf (a k b : string) :
  has_char lf a = false -> has_char lf b = false -> has_char lf k = false ->
  no_lf (a ++ k ++ b) = true.
Proof. intros Ha Hb Hk. unfold no_lf. now rewrite !has_char_app, Ha, Hb, Hk. Qed.

Lemma toml_lines_no_lf (ps : list (string * json)) :
  no_proto ps = true ->
  forallb line_entry (b_simple (partition ps)) = true ->
  forallb table_cond (b_tables (partition ps)) = true ->
  forallb array_cond (b_arrays (partition ps)) = true ->
  forallb no_lf (toml_lines ps) = true.
Proof.
  intros Hp HS HT HA. unfold toml_lines. cbv zeta. rewrite !forallb_app.
  unfold table_lines, array_lines, item_lines. rewrite !forallb_flat_map, forallb_map.
  rewrite forallb_forall in HS, HT, HA. repeat (apply andb_true_intro; split);
    rewrite forallb_forall.
  - intros kv Hkv. exact (entry_text_no_lf kv (HS kv Hkv)).
  - intros [k v] Hkv. specialize (HT _ Hkv). unfold table_cond, header_ok in HT.
    cbn [fst snd] in *. apply andb_true_iff in HT as [Hh Hi].
    apply andb_true_iff in Hh as [Hh _]. apply andb_true_iff in Hh as [Hh _].
    apply andb_true_iff in Hh as [_ Hlf]. apply negb_true_iff in Hlf.
    cbn [forallb]. rewrite (body_no_lf v Hi), (bracket_no_lf "[" k "]") by easy. reflexivity.
  - intros a Ha. specialize (HA a Ha). unfold array_cond, array_key_ok in HA.
    apply andb_true_iff in HA as [HA _]. apply andb_true_iff in HA as [HA _].
    apply andb_true_iff in HA as [HA Hits]. apply andb_true_iff in HA as [Hlf _].
    apply negb_true_iff in Hlf. rewrite forallb_flat_map, forallb_forall. intros it Hit.
    cbn [forallb]. rewrite (bracket_no_lf "[[" (ta_key a) "]]") by easy.
    rewrite forallb_forall in Hits. now rewrite (body_no_lf it (Hits it Hit)).
Qed.

(** ** The round trip *)

Lemma define_all_groups {X Y : Type} (f : X -> Y) (a b c : list (string * X)) :
  map_snd f (define_all (a ++ b ++ c)%list []) =
  define_all (map_snd f c) (define_all (map_snd f b) (define_all (map_snd f a) [])).
Proof. now rewrite define_all_map_snd, !map_snd_app, !define_all_app. Qed.

Lemma of_json_obj (ps : list (string * json)) : of_json (JObj ps) = VObj (map_snd of_json ps).
Proof. reflexivity. Qed.

Lemma in_keys_existsb (k : string) (l : list string) : In k l -> existsb (String.eqb k) l = true.
Proof. intros H. apply existsb_exists. exists k. now rewrite String.eqb_refl. Qed.

Lemma has_own_groups (k : string) (es : list (string * json)) (P : list (string * jsval)) :
  has_own k (define_all (map_snd of_json es) P) = existsb (String.eqb k) (map fst es) || has_own k P.
Proof. now rewrite has_own_define_all, map_fst_map_snd. Qed.

(** Two buckets have no key in common. *)
Lemma bucket_keys_disjoint (p q : string * json -> bool) (ps : list (string * json)) (k : string) :
  nodup_keys (map fst ps) = true -> (forall kv, q kv = true -> p kv = false) ->
  In k (map fst (filter q ps)) ->
  existsb (String.eqb k) (map fst (define_all (filter p ps) [])) = false.
Proof.
  intros Hn Hqp Hq. rewrite keys_define_all.
  exact (filter_disjoint_keys q p ps k Hn Hqp (in_keys_existsb k _ Hq)).
Qed.

Lemma in_keys_define_all (k : string) (es : list (string * json)) :
  In k (map fst (define_all es [])) -> In k (map fst es).
Proof.
  intros H. apply in_map_iff in H as (kv & <- & Hkv).
  destruct (In_define_all _ _ _ Hkv) as [Hin | []]. now apply in_map.
Qed.

Lemma tbl_not_simple (kv : string * json) : is_tbl kv = true -> is_simple kv = false.
Proof. unfold is_tbl, is_simple. now destruct (is_table_array (snd kv)), (is_table (snd kv)). Qed.

Lemma arr_not_simple (kv : string * json) : is_arr kv = true -> is_simple kv = false.
Proof. unfold is_arr, is_simple. now intros ->. Qed.

Lemma arr_not_tbl (kv : string * json) : is_arr kv = true -> is_tbl kv = false.
Proof. unfold is_arr, is_tbl. now intros ->. Qed.

Lemma good_header (kv : string * json) :
  good kv = true -> is_tbl kv = true -> header_ok (fst kv) = true.
Proof.
  destruct kv as [k [| | | | xs | qs]]; unfold good, is_tbl; cbn [snd is_table];
    rewrite ?andb_false_r; try discriminate.
  cbn [entry_ok fst]. intros H _. now split_andb.
Qed.

Lemma good_array_cond (kv : string * json) :
  good kv = true -> is_arr kv = true -> array_cond (to_toml_array kv) = true.
Proof.
  intros Hg Ha. pose proof (good_arr kv Hg Ha) as Hi.
  destruct kv as [k v]. unfold good, is_arr in *. cbn [snd] in *.
  destruct v as [| | | | xs | qs]; try (cbn in Ha; discriminate).
  unfold array_cond. cbn [entry_ok ta_key ta_value to_toml_array fst snd] in *. rewrite Ha in Hg.
  apply andb_true_iff in Hg as [Hg _]. apply andb_true_iff in Hg as [Hg Hb].
  apply andb_true_iff in Hg as [Hk _]. rewrite Hk, Hi, Hb.
  destruct xs; [cbn in Ha; discriminate | reflexivity].
Qed.

Section RoundTrip.
Variable ps : list (string * json).
Hypothesis Hok : toml_ok ps = true.

Let S := define_all (filter is_simple ps) [].
Let T := define_all (filter is_tbl ps) [].
Let A := map to_toml_array (filter is_arr ps).

Lemma rt_good : forall kv, In kv ps -> good kv = true.
Proof. destruct (toml_ok_good ps Hok) as [_ Hg]. now rewrite forallb_forall in Hg. Qed.

Lemma rt_nodup : nodup_keys (map fst ps) = true.
Proof.
  destruct (toml_ok_good ps Hok) as [Hc _]. unfold canonical in Hc.
  now apply andb_true_iff in Hc as [_ Hc].
Qed.

Lemma rt_partition : partition ps = {| b_simple := S; b_tables := T; b_arrays := A |}.
Proof.
  apply partition_spec, good_no_proto. rewrite forallb_forall. exact rt_good.
Qed.

Lemma rt_simple : forallb line_entry S = true.
Proof.
  apply forallb_define_all. rewrite forallb_forall. intros kv Hkv.
  apply filter_In in Hkv as [Hin Hs]. exact (good_simple kv (rt_good kv Hin) Hs).
Qed.

Lemma rt_tables : forallb table_cond T = true.
Proof.
  apply forallb_define_all. rewrite forallb_forall. intros kv Hkv.
  apply filter_In in Hkv as [Hin Ht]. unfold table_cond.
  now rewrite (good_header kv (rt_good kv Hin) Ht), (good_tbl kv (rt_good kv Hin) Ht).
Qed.

Lemma rt_arrays : forallb array_cond A = true.
Proof.
  rewrite forallb_forall. intros a Ha. apply in_map_iff in Ha as (kv & <- & Hkv).
  apply filter_In in Hkv as [Hin Ha]. exact (good_array_cond kv (rt_good kv Hin) Ha).
Qed.

Lemma rt_fresh_tables :
  fresh_in (define_all (map_snd of_json S) []) (map fst T) = true.
Proof.
  unfold fresh_in. apply andb_true_intro. split.
  - pose proof (canonical_define_all (filter is_tbl ps)) as Hc.
    unfold canonical in Hc. now apply andb_true_iff in Hc as [_ Hc].
  - rewrite forallb_forall. intros k Hk. rewrite has_own_groups. cbn. rewrite orb_false_r.
    apply negb_true_iff, (bucket_keys_disjoint is_simple is_tbl); [exact rt_nodup | |].
    + exact tbl_not_simple.
    + now apply in_keys_define_all.
Qed.

Lemma rt_fresh_arrays :
  fresh_in (define_all (map_snd of_json T) (define_all (map_snd of_json S) [])) (map ta_key A) = true.
Proof.
  assert (Hk : map ta_key A = map fst (filter is_arr ps))
    by (unfold A; rewrite map_map; reflexivity).
  unfold fresh_in. rewrite Hk. apply andb_true_intro. split.
  - exact (nodup_keys_filter is_arr ps rt_nodup).
  - rewrite forallb_forall. intros k Hin. rewrite !has_own_groups. cbn. rewrite orb_false_r.
    apply negb_true_iff. apply orb_false_intro.
    + exact (bucket_keys_disjoint is_tbl is_arr ps k rt_nodup arr_not_tbl Hin).
    + exact (bucket_keys_disjoint is_simple is_arr ps k rt_nodup arr_not_simple Hin).
Qed.
End RoundTrip.

(** The parser's half: the lines of the serializer read back to the
    object, regrouped. *)
Lemma parseToml_toml_lines (ps : list (string * json)) :
  toml_ok ps = true -> parseToml (unlines (toml_lines ps)) = Ok (of_json (JObj (regroup ps))).
Proof.
  intros H. pose proof (rt_partition ps H) as Hpart. unfold parseToml.
  rewrite split_unlines
    by (apply toml_lines_no_lf; rewrite ?Hpart;
        [apply good_no_proto; rewrite forallb_forall; exact (rt_good ps H)
        | exact (rt_simple ps H) | exact (rt_tables ps H) | exact (rt_arrays ps H)]).
  unfold toml_lines. cbv zeta. rewrite Hpart. cbn [b_simple b_tables b_arrays].
  rewrite !parse_lines_app.
  rewrite (parse_entries _ initial_state [] (fun c => c) [] focus_root eq_refl eq_refl
             (rt_simple ps H)). cbn [bind]. rewrite parse_lines_app.
  destruct (parse_tables _ (set_result initial_state
             (VObj (define_all (map_snd of_json (define_all (filter is_simple ps) [])) [])))
             _ eq_refl (rt_tables ps H) (rt_fresh_tables ps H))
    as (st2 & E2 & R2).
  rewrite E2. cbn [bind].
  destruct (parse_arrays _ st2 _ R2 (rt_arrays ps H) (rt_fresh_arrays ps H)) as (st3 & E3 & R3).
  rewrite E3. cbn [bind parse_lines]. rewrite parse_line_blank. cbn [bind]. rewrite R3.
  unfold regroup. cbv zeta. rewrite Hpart. cbn [b_simple b_tables b_arrays].
  now rewrite of_json_obj, define_all_groups.
Qed.

(** C1: The parser reads the text of [toToml] back to the object, its
    entries regrouped as the text lists them. *)
Theorem toToml_parseToml (ps : list (string * json)) (ind : string) :
  toml_ok ps = true ->
  (text <- toToml (JObj ps) ind ;; parseToml text) = Ok (of_json (JObj (regroup ps))).
Proof.
  intros H. rewrite (toToml_lines ps ind H). exact (parseToml_toml_lines ps H).
Qed.

(** ** A header on a scalar *)

(** C15: [parseToml] is said never to fail, but a section header on a
    key that holds a scalar makes the next assignment throw: for every
    run of [key = value] lines as [toToml] prints them, one of which
    gives the key [k] a number, a boolean, a string or [null], a
    header [[k]] followed by any such line makes [parseToml] throw a
    [TypeError]. The header moves the cursor to the primitive, the
    assignment to it throws in strict mode, and so does the fallback of
    the [catch]. *)
Theorem parseToml_scalar_section (es : list (string * json)) (k : string) (v : json)
    (kv : string * json) :
  forallb line_entry es = true -> nodup_keys (map fst es) = true ->
  lookup k es = Some v -> primitive (of_json v) = true ->
  header_ok k = true -> line_entry kv = true ->
  parseToml (unlines (map entry_text es ++ ["[" ++ k ++ "]"; entry_text kv])) = Throw TypeError.
Proof.
  intros Hes Hnd Hk Hv Hh Hkv. unfold header_ok in Hh. split_andb.
  apply negb_true_iff in Hh, Hh0, Hh1, Hh2.
  unfold parseToml. rewrite split_unlines.
  2: { rewrite forallb_app. apply andb_true_iff. split.
       - rewrite forallb_map, forallb_forall. intros e He.
         apply (entry_text_no_lf e). rewrite forallb_forall in Hes. exact (Hes e He).
       - cbn [forallb]. fold (no_lf ("[" ++ k ++ "]")) (no_lf (entry_text kv)).
         rewrite bracket_no_lf, entry_text_no_lf by easy. reflexivity. }
  rewrite <- app_assoc, parse_lines_app.
  rewrite (parse_entries es initial_state [] (fun c => c) [] focus_root eq_refl eq_refl Hes).
  cbn [bind app parse_lines].
  rewrite (parse_line_table_own (set_result initial_state (VObj (define_all (map_snd of_json es) [])))
             (define_all (map_snd of_json es) []) k (of_json v) eq_refl)
    by (try rewrite lookup_define_all, lookup_map_snd, Hk by (now rewrite map_fst_map_snd);
        easy).
  cbn [bind].
  match goal with |- context [parse_line ?st (entry_text kv)] =>
    destruct (entry_line_parts kv st Hkv) as (-> & Hk' & Hv') end.
  rewrite assignment_throws; [reflexivity| |].
  - intros x. cbn [result currentSection]. rewrite Hk'.
    apply (update_path_primitive _ k _ (of_json v)); [|exact Hv].
    now rewrite lookup_define_all, lookup_map_snd, Hk by (now rewrite map_fst_map_snd).
  - intros u. rewrite Hv'. destruct kv as [x y]. unfold line_entry in Hkv. split_andb.
    pose proof (value_text_parses y Hkv1 Hkv0) as Hp. cbn [snd].
    destruct (json_parse (value_text y)); [discriminate | discriminate | contradiction].
Qed.

(** A configuration with [port = 8080] opened as a section. *)
Lemma parseToml_scalar_section_witness :
  parseToml (unlines (map entry_text [("port", JNum 8080)] ++
                      ["[" ++ "port" ++ "]"; entry_text ("host", JStr "example.org")])) =
  Throw TypeError.
Proof.
  apply (parseToml_scalar_section [("port", JNum 8080)] "port" (JNum 8080)); vm_compute; reflexivity.
Defined.

(** ** A table inside a table *)

Lemma header_ok_not_proto (k : string) : header_ok k = true -> String.eqb k proto_key = false.
Proof. unfold header_ok. intros H. split_andb. apply proto_name_not_proto. now apply negb_true_iff. Qed.

(** The table [b] inside the table [a] is printed under its own header
    only: the text is that of the tables [a] and [b] side by side. *)
Lemma toToml_nested (a b : string) (sa qs : list (string * json)) (ind : string) :
  header_ok a = true -> header_ok b = true -> item_cond (JObj sa) = true ->
  item_cond (JObj qs) = true ->
  toToml (JObj [(a, JObj (sa ++ [(b, JObj qs)]))]) ind =
  Ok (unlines (table_lines [(a, JObj sa); (b, JObj qs)])).
Proof.
  intros Ha Hb Hsa Hqs. pose proof Hsa as Hsa'. cbn [item_cond] in Hsa'.
  apply andb_true_iff in Hsa' as [Hl Hc]. destruct (flat_filters sa Hl) as (Hp & Hs & Ht & Har).
  unfold toToml. cbn [json_depth]. rewrite toToml_fuel_S. cbn [object_entries bind].
  rewrite partition_spec by (cbn; now rewrite header_ok_not_proto).
  cbn [filter is_simple is_tbl is_arr snd is_table_array is_table negb andb define_all fold_left
       fst b_simple b_tables b_arrays map].
  rewrite define_nil. cbn [emit_tables map list_max snd].
  rewrite toToml_fuel_S. cbn [object_entries bind].
  rewrite partition_spec
    by (unfold no_proto in *; rewrite forallb_app, Hp; cbn; now rewrite header_ok_not_proto).
  rewrite !filter_app, Hs, Ht, Har. cbn [filter is_simple is_tbl is_arr snd is_table_array
       is_table negb andb app define_all fold_left fst b_simple b_tables b_arrays map].
  rewrite define_nil, app_nil_r, (define_all_canonical sa Hc).
  cbn [list_max fold_right json_depth Nat.max].
  rewrite (emit_tables_flat _ _ [(b, JObj qs)]) by (cbn [forallb snd]; now rewrite Hqs). cbn [emit_arrays bind].
  unfold table_lines. cbn [flat_map fst snd body_of]. rewrite !unlines_app, !simple_lines_unlines.
  cbn [unlines map]. rewrite !sapp_nil_l, !sapp_nil_r, !sapp_assoc. reflexivity.
Qed.

Lemma table_lines_no_lf (ts : list (string * json)) :
  forallb table_cond ts = true -> forallb no_lf (table_lines ts) = true.
Proof.
  induction ts as [|[k v] ts IH]; [reflexivity|]. cbn [forallb]. intros H.
  apply andb_true_iff in H as [Hkv Hts]. unfold table_cond, header_ok in Hkv. cbn [fst snd] in Hkv.
  split_andb. apply negb_true_iff in Hkv3.
  unfold table_lines. cbn [flat_map fst snd]. fold (table_lines ts).
  rewrite forallb_app. cbn [forallb]. rewrite bracket_no_lf, (body_no_lf v), (IH Hts) by easy.
  reflexivity.
Qed.

(** C18: a table nested in a table does not come back where it was: for
    every table [a] of scalar entries holding a table [b] of scalar
    entries, [toToml] prints [b] under its own header, and [parseToml]
    reads it back as a table of the root, beside [a] and no longer in
    it. *)
Theorem nested_table_hoisted (a b : string) (sa qs : list (string * json)) (ind : string) :
  header_ok a = true -> header_ok b = true -> a <> b ->
  item_cond (JObj sa) = true -> item_cond (JObj qs) = true ->
  (text <- toToml (JObj [(a, JObj (sa ++ [(b, JObj qs)]))]) ind ;; parseToml text) =
  Ok (VObj (define_all [(a, of_json (JObj sa)); (b, of_json (JObj qs))] [])).
Proof.
  intros Ha Hb Hab Hsa Hqs. rewrite toToml_nested by assumption. cbn [bind].
  assert (Hc : forallb table_cond [(a, JObj sa); (b, JObj qs)] = true)
    by (cbn; unfold table_cond; cbn [fst snd]; now rewrite Ha, Hb, Hsa, Hqs).
  unfold parseToml. rewrite split_unlines by exact (table_lines_no_lf _ Hc).
  rewrite parse_lines_app.
  destruct (parse_tables [(a, JObj sa); (b, JObj qs)] initial_state [] eq_refl Hc)
    as (st' & E & R).
  - unfold fresh_in. cbn. apply String.eqb_neq in Hab. now rewrite Hab.
  - rewrite E. cbn [bind parse_lines]. rewrite parse_line_blank. cbn [bind]. now rewrite R.
Qed.

(** [{server: {port: 80, tls: {enabled: true}}}] reads back as
    [{server: {port: 80}, tls: {enabled: true}}]. *)
Lemma nested_table_hoisted_witness :
  (text <- toToml (JObj [("server", JObj ([("port", JNum 80)] ++
                                           [("tls", JObj [("enabled", JBool true)])]))]) "" ;;
   parseToml text) =
  Ok (VObj (define_all [("server", of_json (JObj [("port", JNum 80)]));
                        ("tls", of_json (JObj [("enabled", JBool true)]))] [])).
Proof.
  apply nested_table_hoisted; [vm_compute; reflexivity | vm_compute; reflexivity | discriminate
                               | vm_compute; reflexivity | vm_compute; reflexivity].
Defined.

(** ** Strings are read back as JSON string literals *)

Lemma quoted_trimmed (s : string) : text_trimmed (str1 dq ++ s ++ str1 dq).
Proof.
  split; [eexists _, _; split; reflexivity|].
  change (str1 dq ++ s ++ str1 dq) with (String dq s ++ str1 dq).
  now apply trim_end_last_nonspace.
Qed.

(** A table with one entry that is neither a table nor a table array:
    [toToml] prints its one line. *)
Lemma toToml_scalar_entry (k : string) (v : json) (ind : string) :
  String.eqb k proto_key = false -> is_table_array v = false -> is_table v = false ->
  toToml (JObj [(k, v)]) ind = Ok (simple_line k v).
Proof.
  intros Hk Ha Ht. unfold toToml. rewrite toToml_fuel_S. cbn [object_entries bind].
  unfold partition, empty_buckets. cbn [fold_left]. unfold bucket_entry. rewrite Ha, Ht.
  cbn [b_simple b_tables b_arrays]. unfold assign_fresh. rewrite Hk, define_nil.
  cbn. now rewrite !sapp_nil_r.
Qed.

(** C16: [toToml] prints a string without escaping it and [parseToml]
    reads it back with [JSON.parse], so a string comes back decoded as a
    JSON string literal: for every key of the domain and every string
    [t], the configuration string whose text is the JSON escape of [t]
    reads back as [t]. A string with a backslash sequence such as [\n]
    or [\\] therefore changes on the round trip. *)
Theorem string_escapes_decoded (k t ind : string) :
  key_ok k = true ->
  (text <- toToml (JObj [(k, JStr (escape_string t))]) ind ;; parseToml text) =
  Ok (VObj [(k, VStr t)]).
Proof.
  intros Hk. rewrite toToml_scalar_entry by (try apply key_ok_not_proto; easy).
  cbn [bind simple_line].
  replace (k ++ " = " ++ str1 dq ++ escape_string t ++ str1 dq ++ nl)
    with (unlines [k ++ " = " ++ (str1 dq ++ escape_string t ++ str1 dq)])
    by (cbn [unlines]; now rewrite sapp_nil_r, !sapp_assoc).
  unfold parseToml. rewrite split_unlines.
  2: { destruct (key_ok_spec k Hk) as (_ & Hl & _). cbn [forallb].
       now rewrite !has_char_app, Hl, escape_string_no_lf. }
  cbn [app parse_lines].
  destruct (assign_line_parts k _ initial_state Hk (quoted_trimmed (escape_string t)))
    as (-> & Hk' & Hv').
  rewrite (assignment_focus initial_state [] (fun c => c) [] _ k _ (VStr t) focus_root
             eq_refl eq_refl Hk' Hv' (key_ok_not_proto k Hk)).
  - now rewrite define_nil.
  - change (str1 dq ++ escape_string t ++ str1 dq) with (json_stringify (JStr t)).
    now rewrite json_parse_stringify.
Qed.

(** The value [C:\new] of a configuration comes back as [C:], a line
    feed and [ew]. *)
Lemma string_escapes_decoded_witness :
  escape_string ("C:" ++ str1 lf ++ "ew") = "C:" ++ str1 bslash ++ "new" /\
  (text <- toToml (JObj [("path", JStr (escape_string ("C:" ++ str1 lf ++ "ew")))]) "" ;;
   parseToml text) = Ok (VObj [("path", VStr ("C:" ++ str1 lf ++ "ew"))]).
Proof.
  split; [vm_compute; reflexivity|].
  apply (string_escapes_decoded "path" ("C:" ++ str1 lf ++ "ew") ""). vm_compute. reflexivity.
Defined.

(** ** A key with [=] *)

(** C19: a key containing [=] is printed as it is and split at its first
    [=] on reading: for every entry whose key is [a=b], with [a] a key
    of the domain and [b] a text without [=] that no JSON text starts
    with, and whose value is a scalar, the round trip gives the entry
    [a] whose value is the text [b = value], stripped of a trailing
    double quote. The entry changes name and value. *)
Theorem key_with_equals (a b : string) (v : json) (ind : string) :
  key_ok a = true -> a <> EmptyString ->
  (exists c r, b = String c r /\ json_start c = false /\ is_js_space c = false) ->
  has_char "=" b = false -> has_char lf b = false ->
  scalar_ok v = true -> json_wf v = true ->
  (text <- toToml (JObj [(a ++ "=" ++ b, v)]) ind ;; parseToml text) =
  Ok (VObj [(a, VStr (strip_quotes (b ++ " = " ++ value_text v)))]).
Proof.
  intros Ha Hne (c & r & -> & Hc & Hsp) Heq Hlf Hs Hw.
  destruct (key_ok_spec a Ha) as (He & Hal & Ht & Hh & Hb & Hp).
  destruct (value_text_ends v Hs Hw) as [(c' & r' & Hv & Hsp') Hve].
  destruct (scalar_ok_shape v Hs) as [Hta Htb].
  rewrite toToml_scalar_entry; [| | exact Hta | exact Htb].
  2: { destruct (String.eqb_spec (a ++ "=" ++ String c r) proto_key) as [E|]; [|reflexivity].
       apply (f_equal (has_char "=")) in E. rewrite has_char_app in E. cbn in E.
       now rewrite orb_true_r in E. }
  cbn [bind]. rewrite simple_line_text. unfold entry_text. cbn [fst snd].
  set (rest := String c r ++ " = " ++ value_text v).
  assert (Hre : trim_end rest = rest).
  { unfold rest. assert (Hvt : trim_end (" = " ++ value_text v) = " = " ++ value_text v)
      by (rewrite trim_end_app_r, Hve; [reflexivity | rewrite Hve, Hv; discriminate]).
    rewrite trim_end_app_r, Hvt; [reflexivity | rewrite Hvt; discriminate]. }
  assert (Hl : (a ++ "=" ++ String c r) ++ " = " ++ value_text v = a ++ "=" ++ rest)
    by (unfold rest; now rewrite !sapp_assoc).
  rewrite Hl. change ((a ++ "=" ++ rest) ++ nl) with (unlines [a ++ "=" ++ rest]).
  unfold parseToml. rewrite split_unlines
    by (cbn [forallb]; unfold rest; now rewrite !has_char_app, Hal, Hlf, value_text_no_lf).
  cbn [app parse_lines].
  destruct a as [|ca ra]; [contradiction|].
  rewrite (parse_line_assignment initial_state _ (String ca ra ++ "=" ++ rest)).
  - rewrite (assignment_focus initial_state [] (fun x => x) [] _ (String ca ra) rest
               (VStr (strip_quotes rest)) focus_root eq_refl eq_refl); [| | | exact Hp |].
    + now rewrite define_nil.
    + change ("=" ++ rest) with (String "=" rest).
      rewrite (split_app_sep "=" (String ca ra)) by exact He. exact Ht.
    + change ("=" ++ rest) with (String "=" rest).
      rewrite (split_app_sep "=" (String ca ra)) by exact He. cbn [tl].
      replace (join "=" (split "=" rest)) with rest by (symmetry; apply join_split).
      unfold trim. unfold rest at 1. cbn [append].
      rewrite trim_start_nonspace by exact Hsp. exact Hre.
    + unfold rest. cbn [append]. now rewrite json_parse_bad_start by exact Hc.
  - pose proof (trim_fixed_head ca ra Ht) as Hca. unfold trim.
    cbn [append]. rewrite trim_start_nonspace by exact Hca.
    change (String ca (ra ++ String "=" rest)) with (String ca ra ++ String "=" rest).
    rewrite trim_end_app_r; [|rewrite (trim_end_cons "=" rest eq_refl Hre); discriminate].
    now rewrite (trim_end_cons "=" rest eq_refl Hre).
  - exists ca, (ra ++ "=" ++ rest). split; [reflexivity|].
    split; [rewrite <- (starts_with_char "#" ca ra); exact Hh|].
    rewrite <- (starts_with_char "[" ca ra); exact Hb.
  - exact (includes_app "=" (String ca ra) rest).
Qed.

(** The entry [a=b = 1] comes back as the entry [a] with the text
    [b = 1]. *)
Lemma key_with_equals_witness :
  (text <- toToml (JObj [("a" ++ "=" ++ "b", JNum 1)]) "" ;; parseToml text) =
  Ok (VObj [("a", VStr (strip_quotes ("b" ++ " = " ++ value_text (JNum 1))))]).
Proof.
  apply key_with_equals; [vm_compute; reflexivity | discriminate | | vm_compute; reflexivity
                          | vm_compute; reflexivity | vm_compute; reflexivity
                          | vm_compute; reflexivity].
  exists "b"%char, "". split; [reflexivity|]. split; vm_compute; reflexivity.
Defined.

(** ** The items of a table array *)

(** The keys [Object.entries] gives the positions of a string or an
    array are ascending indices, each once. *)
Lemma indexed_keys {X : Type} (l : list X) (i : nat) (k : string) :
  In k (map fst (indexed i l)) -> exists m, k = index_key m /\ i <= m < i + length l.
Proof.
  revert i. induction l as [|x l IH]; intros i; cbn; [easy|].
  intros [<- | H]; [exists i; split; [reflexivity | lia]|].
  destruct (IH (S i) H) as (m & -> & Hm). exists m. split; [reflexivity | lia].
Qed.

Lemma indexed_canonical {X : Type} (l : list X) :
  forall i last, opt_lt last (Z.of_nat i) -> (Z.of_nat (i + length l) <= max_index)%Z ->
  ordered_from last false (map fst (indexed i l)) = true /\
  nodup_keys (map fst (indexed i l)) = true.
Proof.
  induction l as [|x l IH]; intros i last Hl Hn; [split; reflexivity|].
  cbn [indexed map fst length] in *.
  assert (Hi : (Z.of_nat i < max_index)%Z) by lia.
  destruct (IH (S i) (Some (Z.of_nat i))) as [Ho Hd]; [cbn; lia | lia |].
  cbn [ordered_from nodup_keys]. rewrite (array_index_key i Hi), Ho, Hd.
  split.
  - destruct last as [j|]; cbn in Hl |- *; [|reflexivity]. now apply Z.ltb_lt in Hl as ->.
  - rewrite andb_true_r. apply negb_true_iff.
    destruct (existsb (String.eqb (index_key i)) _) eqn:E; [|reflexivity].
    apply existsb_exists in E as (k & Hk & Ek). apply String.eqb_eq in Ek as <-.
    destruct (indexed_keys l (S i) _ Hk) as (m & Hm & Hr).
    assert (Hm' : (Z.of_nat m < max_index)%Z) by lia.
    pose proof (array_index_key m Hm') as Em. rewrite <- Hm, (array_index_key i Hi) in Em.
    injection Em as Em. lia.
Qed.

(** A string is printed as the table of its characters, from [0]. *)
Lemma toToml_string (s ind : string) (f : nat) :
  (Z.of_nat (String.length s) <= max_index)%Z ->
  toToml_fuel (S f) (JStr s) ind = Ok (simple_lines (indexed 0 (string_chars s))).
Proof.
  intros Hn. rewrite toToml_fuel_S. cbn [object_entries bind].
  assert (Hc : forall i kv, In kv (indexed i (string_chars s)) ->
                 is_simple kv = true /\ is_tbl kv = false /\ is_arr kv = false /\
                 String.eqb (fst kv) proto_key = false).
  { intros i kv Hin. destruct (string_chars_shallow s (snd kv) (indexed_values _ _ _ Hin))
      as [c Hc]. unfold is_simple, is_tbl, is_arr. rewrite Hc. cbn.
    split; [reflexivity | split; [reflexivity | split; [reflexivity|]]].
    apply (in_map fst) in Hin. destruct (indexed_keys _ _ _ Hin) as (m & -> & _).
    destruct (String.eqb_spec (index_key m) proto_key) as [E|]; [|reflexivity].
    pose proof (index_key_not_length m) as Hl. exfalso.
    unfold index_key in E. destruct (number_to_string_start (Z.of_nat m)) as (c' & r & Er & H);
      rewrite Er in E; injection E as Ec _. subst c'.
    destruct H as [H | H]; [vm_compute in H; discriminate H | discriminate H]. }
  rewrite partition_spec.
  2: { unfold no_proto. rewrite forallb_forall. intros kv Hin.
       apply negb_true_iff. exact (proj2 (proj2 (proj2 (Hc 0 kv Hin)))). }
  assert (Hl : String.length s = length (string_chars s))
    by (clear; induction s as [|c s IH]; cbn; [reflexivity | now rewrite IH]).
  rewrite (filter_all _ _ (fun kv H => proj1 (Hc 0 kv H))).
  rewrite (filter_none_all _ _ (fun kv H => proj1 (proj2 (Hc 0 kv H)))).
  rewrite (filter_none_all _ _ (fun kv H => proj1 (proj2 (proj2 (Hc 0 kv H))))).
  rewrite define_all_canonical.
  - cbn. now rewrite !sapp_nil_r.
  - unfold canonical. apply andb_true_iff.
    apply (indexed_canonical (string_chars s) 0 None I). cbn. lia.
Qed.

(** The block of a string item: the header, then its characters. *)
Lemma emit_string_items (f : nat) (k ind : string) (ss : list string) :
  Forall (fun s => (Z.of_nat (String.length s) <= max_index)%Z) ss ->
  emit_items (fun v => toToml_fuel (S f) v ind) k (map JStr ss) =
  Ok (fold_right append "" (map (fun s => nl ++ "[[" ++ k ++ "]]" ++ nl ++
                                          simple_lines (indexed 0 (string_chars s))) ss)).
Proof.
  induction 1 as [|s ss Hs _ IH]; [reflexivity|]. cbn [map emit_items].
  rewrite toToml_string, IH by exact Hs. cbn [bind fold_right]. now rewrite !sapp_assoc.
Qed.

(** C21: only the first item decides that an array is a table array: for
    every array whose first item is an object, an array or [null],
    [toToml] prints every later item as a [[[k]]] block of
    [Object.entries] of that item, so a string item comes out as the
    table of its characters, [0 = "c"], [1 = "c"], and so on. *)
Theorem string_items_as_tables (k : string) (x : json) (ss : list string) (ind : string) :
  typeof_object x = true ->
  Forall (fun s => (Z.of_nat (String.length s) <= max_index)%Z) ss ->
  toToml (JObj [(k, JArr (x :: map JStr ss))]) ind =
  (first <- toToml x (ind ++ "  ") ;;
   Ok (nl ++ "[[" ++ k ++ "]]" ++ nl ++ first ++
       fold_right append "" (map (fun s => nl ++ "[[" ++ k ++ "]]" ++ nl ++
                                           simple_lines (indexed 0 (string_chars s))) ss))).
Proof.
  intros Hx Hss. unfold toToml at 1. rewrite toToml_fuel_S. cbn [object_entries bind].
  unfold partition, empty_buckets. cbn [fold_left]. unfold bucket_entry.
  cbn [is_table_array]. rewrite Hx.
  cbn [b_simple b_tables b_arrays emit_tables emit_arrays app ta_key ta_value bind json_depth
       map list_max fold_right snd].
  cbn [emit_items]. rewrite (toToml_fuel_stable _ x) by lia.
  rewrite (emit_string_items _ k _ ss Hss).
  destruct (toToml x (ind ++ "  ")) as [t| |]; cbn [bind]; [|reflexivity|reflexivity].
  cbn [simple_lines]. rewrite ?sapp_nil_r, ?sapp_nil_l, ?sapp_assoc. reflexivity.
Qed.

(** [{a: [{}, "xy"]}]: the string prints as the table [0 = "x"],
    [1 = "y"]. *)
Lemma string_items_as_tables_witness :
  toToml (JObj [("a", JArr (JObj [] :: map JStr ["xy"]))]) "" =
  Ok (nl ++ "[[a]]" ++ nl ++ nl ++ "[[a]]" ++ nl ++
      "0 = " ++ str1 dq ++ "x" ++ str1 dq ++ nl ++ "1 = " ++ str1 dq ++ "y" ++ str1 dq ++ nl).
Proof.
  assert (Hb : Forall (fun s => (Z.of_nat (String.length s) <= max_index)%Z) ["xy"])
    by (constructor; [apply Z.leb_le; vm_compute; reflexivity | constructor]).
  rewrite (string_items_as_tables "a" (JObj []) ["xy"] "" eq_refl Hb).
  vm_compute. reflexivity.
Defined.

(** The round trip on a configuration with every kind of entry. *)
Definition sample_config : list (string * json) :=
  [("name", JStr "homelab"); ("port", JNum 8080); ("debug", JBool false);
   ("tags", JArr [JStr "a"; JStr "b"]);
   ("network", JObj [("ssid", JStr "home"); ("dhcp", JBool true)]);
   ("services", JArr [JObj [("name", JStr "web")]; JObj [("name", JStr "db")]])].

Lemma toToml_parseToml_witness :
  toml_ok sample_config = true /\
  (text <- toToml (JObj sample_config) "" ;; parseToml text) =
  Ok (of_json (JObj (regroup sample_config))).
Proof.
  split; [vm_compute; reflexivity|].
  apply toToml_parseToml. vm_compute. reflexivity.
Defined.
