(* ===== verification/Ui.v ===== *)
(** * The React components: what they share

    The components of the two frontends are asynchronous handlers around
    [fetch]. Each is modelled as a record of its [useState] variables and
    one function per handler segment between two [await]s: a user action
    or a network response is an event, and a step returns the new state
    and its outputs: the [showMessage] calls it makes, the requests it
    sends and whether it calls the callback its parent gave it
    ([onSuccess], [onConnected]). This file holds the pieces they share:
    messages and their 5-second timers ([showMessage] of both [App.tsx]
    files), the result of a [fetch] followed by [response.json()], and
    the reads of properties of the JSON values the server sends. *)

From Stdlib Require Import String Ascii List ZArith Lia Bool.
From S2P Require Import Prelude JsString JsNumber JsObject Json.
Import ListNotations.
Open Scope string_scope.
Open Scope yolab_scope.

(** ** Messages *)

(** [type MessageType = 'success' | 'error' | 'warning' | 'info'] *)
Inductive msg_type : Type :=
| MSuccess
| MError
| MWarning
| MInfo.

(** [interface Message { text: string; type: MessageType }] *)
Record message : Type := mkMessage { text : string; mtype : msg_type }.

(** The banner: the message state of [App] and the timers that
    [showMessage] has started, by the time they fire (ms). *)
Record banner : Type := mkBanner { current : option message; timers : list nat }.

Definition no_banner : banner := mkBanner None [].

(** [showMessage(text, type)]: [setMessage({ text, type })] and
    [setTimeout(() => setMessage(null), 5000)]. *)
Definition show_message (now : nat) (b : banner) (t : string) (ty : msg_type) : banner :=
  mkBanner (Some (mkMessage t ty)) (timers b ++ [now + 5000]).

(** Time passes until [now]: every timer due runs [setMessage(null)]. *)
Definition fire_timers (now : nat) (b : banner) : banner :=
  let due := filter (fun t => Nat.leb t now) (timers b) in
  mkBanner (match due with [] => current b | _ => None end)
           (filter (fun t => negb (Nat.leb t now)) (timers b)).

(** The [showMessage] calls of a step, in order, at the current time. *)
Definition show_all (t : nat) (b : banner) (msgs : list (string * msg_type)) : banner :=
  fold_left (fun b m => show_message t b (fst m) (snd m)) msgs b.

(** ** Requests, responses, outputs *)

(** A [fetch] call: method, path and body. *)
Record request : Type := mkRequest { method : string; url : string; payload : option string }.

(** The result of [await fetch(...)], with the body as [response.json()]
    reads it: [None] when the body is not JSON ([response.json()] then
    rejects with a [SyntaxError]). A failed request rejects with a
    [TypeError]. *)
Inductive http_result : Type :=
| NetworkError
| Response (ok : bool) (json_body : option json).

(** What one step of a component asks of its parent and of the browser.
    A request is sent with the continuation that its [await] suspends:
    the rest of the handler, with the closure's variables. *)
Record outputs (K : Type) : Type := mkOutputs {
  shown : list (string * msg_type);  (* showMessage calls, in order *)
  sent : list (request * K);          (* fetch calls, in order *)
  callback : bool                     (* the parent's callback was called *)
}.
Arguments mkOutputs {K}.
Arguments shown {K}.
Arguments sent {K}.
Arguments callback {K}.

Definition no_outputs {K} : outputs K := mkOutputs [] [] false.
Definition show {K} (t : string) (ty : msg_type) : outputs K := mkOutputs [(t, ty)] [] false.
Definition send {K} (r : request) (k : K) : outputs K := mkOutputs [] [(r, k)] false.
Definition call_back {K} : outputs K := mkOutputs [] [] true.

Definition out_app {K} (a b : outputs K) : outputs K :=
  mkOutputs (shown a ++ shown b)%list (sent a ++ sent b)%list (callback a || callback b).

Notation "a +++ b" := (out_app a b) (at level 60, right associativity) : yolab_scope.

(** ** Components and their runs *)

(** A component as the browser runs it: its state after mounting and the
    effects of its [useEffect], which user events its render offers, and
    the step of a handler on a user event or when an awaited request
    settles. A step is [Unmodelled] where the code reaches a behaviour
    the model leaves out. *)
Record component (S U K : Type) : Type := mkComponent {
  mount : S * outputs K;
  enabled : S -> U -> bool;
  on_user : S -> U -> js_result (S * outputs K);
  on_answer : S -> K -> http_result -> js_result (S * outputs K)
}.
Arguments mkComponent {S U K}.
Arguments mount {S U K}.
Arguments enabled {S U K}.
Arguments on_user {S U K}.
Arguments on_answer {S U K}.

(** The component with the requests in flight, the messages it has shown
    and how often it has called its parent back. *)
Record world (S K : Type) : Type := mkWorld {
  wstate : S;
  in_flight : list (request * K);
  log : list (string * msg_type);
  callbacks : nat
}.
Arguments mkWorld {S K}.
Arguments wstate {S K}.
Arguments in_flight {S K}.
Arguments log {S K}.
Arguments callbacks {S K}.

Section Runs.
Context {St U K : Type} (C : component St U K).

Definition emit (w : world St K) (s : St) (o : outputs K) (rest : list (request * K)) : world St K :=
  mkWorld s (rest ++ sent o) (log w ++ shown o) (callbacks w + if callback o then 1 else 0).

Definition initial_world : world St K :=
  emit (mkWorld (fst (mount C)) [] [] 0) (fst (mount C)) (snd (mount C)) [].

(** One step: a user event the render offers, or the settling of the
    request in flight at position [i] with the result [res]. *)
Inductive event : Type :=
| User (u : U)
| Answer (i : nat) (res : http_result).

Definition remove_nth {A} (i : nat) (l : list A) : list A := firstn i l ++ skipn (S i) l.

Definition step (w : world St K) (e : event) : option (world St K) :=
  match e with
  | User u =>
      if enabled C (wstate w) u then
        match on_user C (wstate w) u with
        | Ok (s, o) => Some (emit w s o (in_flight w))
        | _ => None
        end
      else None
  | Answer i res =>
      match nth_error (in_flight w) i with
      | Some (_, k) =>
          match on_answer C (wstate w) k res with
          | Ok (s, o) => Some (emit w s o (remove_nth i (in_flight w)))
          | _ => None
          end
      | None => None
      end
  end.

Fixpoint run (w : world St K) (es : list event) : option (world St K) :=
  match es with
  | [] => Some w
  | e :: es' => match step w e with Some w' => run w' es' | None => None end
  end.

(** The worlds a component can reach from its mount. *)
Inductive reachable : world St K -> Prop :=
| reach_init : reachable initial_world
| reach_step w e w' : reachable w -> step w e = Some w' -> reachable w'.

End Runs.

(** ** Errors as the handlers see them *)

(** A value thrown inside a handler: an exception of the language or of
    the browser (its message is the engine's), or [new Error(msg)]. *)
Inductive ui_error : Type :=
| FetchFailed              (* TypeError of a failed fetch *)
| BadJson                  (* SyntaxError of response.json() *)
| JsError (e : js_error)   (* thrown by the code, e.g. Object.entries(null) *)
| NewError (msg : string). (* throw new Error(msg) *)

(** The texts the JavaScript engine gives its own errors. They differ
    between browsers; the model takes them as parameters. *)
Record engine_texts : Type := mkEngine {
  fetch_failed_text : string;
  bad_json_text : string;
  js_error_text : js_error -> string
}.

Section Errors.
Context (E : engine_texts).

(** [error instanceof Error ? error.message : 'Unknown error']: every
    value these handlers throw is an [Error]. *)
Definition error_message (e : ui_error) : string :=
  match e with
  | FetchFailed => fetch_failed_text E
  | BadJson => bad_json_text E
  | JsError j => js_error_text E j
  | NewError m => m
  end.

(** [`${error}`]: [Error.prototype.toString], name and message. *)
Definition error_string (e : ui_error) : string :=
  match e with
  | FetchFailed => "TypeError: " ++ fetch_failed_text E
  | BadJson => "SyntaxError: " ++ bad_json_text E
  | JsError TypeError => "TypeError: " ++ js_error_text E TypeError
  | JsError SyntaxError => "SyntaxError: " ++ js_error_text E SyntaxError
  | JsError RangeError => "RangeError: " ++ js_error_text E RangeError
  | NewError m => "Error: " ++ m
  end.
End Errors.

(** The texts of one browser engine, for the examples. *)
Definition sample_engine : engine_texts :=
  mkEngine "Failed to fetch" "Unexpected end of JSON input"
    (fun e => match e with
              | TypeError => "Cannot convert undefined or null to object"
              | SyntaxError => "Unexpected token"
              | RangeError => "Invalid array length"
              end).

(** ** Reading the JSON the server sends *)

(** [v.k] on a JSON value: [undefined] is [None]; reading a property of
    [null] throws a [TypeError]. *)
Definition get_prop (v : json) (k : string) : js_result (option json) :=
  match v with
  | JNull => Throw TypeError
  | JObj ps => Ok (lookup k ps)
  | JArr xs =>
      if String.eqb k "length" then Ok (Some (JNum (Z.of_nat (length xs))))
      else match array_index k with
           | Some i => Ok (nth_error xs (Z.to_nat i))
           | None => Ok None
           end
  | JStr s =>
      if String.eqb k "length" then Ok (Some (JNum (Z.of_nat (String.length s))))
      else match array_index k with
           | Some i => Ok (option_map (fun c => JStr (str1 c)) (String.get (Z.to_nat i) s))
           | None => Ok None
           end
  | _ => Ok None
  end.

(** Truthiness of a value ([undefined] is [None]). *)
Definition truthy (v : option json) : bool :=
  match v with
  | None | Some JNull => false
  | Some (JBool b) => b
  | Some (JNum z) => negb (Z.eqb z 0)
  | Some (JStr s) => negb (String.eqb s "")
  | Some (JArr _) | Some (JObj _) => true
  end.

(** [`${v}`] of a value read from JSON ([undefined] is [None]). *)
Fixpoint js_string (v : json) : string :=
  match v with
  | JNull => "null"
  | JBool true => "true"
  | JBool false => "false"
  | JNum z => number_to_string z
  | JStr s => s
  | JArr xs => join "," (map (fun x => match x with JNull => "" | _ => js_string x end) xs)
  | JObj _ => "[object Object]"
  end.

Definition template (v : option json) : string :=
  match v with None => "undefined" | Some x => js_string x end.

(** ** Lemmas *)

Lemma out_app_nil_l {K} (o : outputs K) : no_outputs +++ o = o.
Proof. destruct o. reflexivity. Qed.

Lemma out_app_nil_r {K} (o : outputs K) : o +++ no_outputs = o.
Proof. destruct o as [s r c]. unfold out_app. cbn. now rewrite !app_nil_r, orb_false_r. Qed.

Lemma sent_app {K} (a b : outputs K) : sent (a +++ b) = (sent a ++ sent b)%list.
Proof. reflexivity. Qed.

Lemma shown_app {K} (a b : outputs K) : shown (a +++ b) = (shown a ++ shown b)%list.
Proof. reflexivity. Qed.

#[export] Hint Rewrite @out_app_nil_l @out_app_nil_r @sent_app @shown_app : yolab_rw.

Section RunLemmas.
Context {St U K : Type} (C : component St U K).

Lemma run_reachable (w w' : world St K) (es : list (event (U:=U))) :
  reachable C w -> run C w es = Some w' -> reachable C w'.
Proof.
  revert w. induction es as [|e es IH]; cbn; intros w Hw Hrun.
  - now inv Hrun.
  - destruct (step C w e) as [w1|] eqn:E; [|discriminate].
    exact (IH w1 (reach_step C w e w1 Hw E) Hrun).
Qed.

(** Rule induction: a property of the world that holds after mounting and
    that every step keeps holds in every reachable world. *)
Lemma reachable_invariant (P : world St K -> Prop) :
  P (initial_world C) ->
  (forall w e w', P w -> step C w e = Some w' -> P w') ->
  forall w, reachable C w -> P w.
Proof. intros H0 Hs w Hw. induction Hw; eauto. Qed.

Lemma in_remove_nth {A} (i : nat) (l : list A) (x : A) :
  In x (remove_nth i l) -> In x l.
Proof.
  unfold remove_nth. rewrite in_app_iff. intros [H|H].
  - rewrite <- (firstn_skipn i l). apply in_or_app. now left.
  - rewrite <- (firstn_skipn (S i) l). apply in_or_app. now right.
Qed.

Lemma remove_nth_cons {A} (i : nat) (y : A) (l : list A) :
  remove_nth (S i) (y :: l) = y :: remove_nth i l.
Proof. reflexivity. Qed.

(** Counting the requests of a kind in flight after one settles. *)
Lemma filter_remove_nth {A} (f : A -> bool) (i : nat) (l : list A) (x : A) :
  nth_error l i = Some x ->
  length (filter f l) = length (filter f (remove_nth i l)) + (if f x then 1 else 0).
Proof.
  revert i. induction l as [|y l IH]; intros [|i] H; cbn in H; try discriminate.
  - inv H. unfold remove_nth. cbn [firstn skipn app filter]. destruct (f x); cbn [length]; lia.
  - rewrite remove_nth_cons. specialize (IH i H). cbn [filter].
    destruct (f y); cbn [length]; lia.
Qed.

Lemma filter_length_app {A} (f : A -> bool) (l m : list A) :
  length (filter f (l ++ m)) = length (filter f l) + length (filter f m).
Proof. now rewrite filter_app, length_app. Qed.

Lemma step_cases (w w' : world St K) (e : event (U:=U)) :
  step C w e = Some w' ->
  (exists u s o, e = User u /\ enabled C (wstate w) u = true /\
     on_user C (wstate w) u = Ok (s, o) /\ w' = emit w s o (in_flight w)) \/
  (exists i r k res s o, e = Answer i res /\ nth_error (in_flight w) i = Some (r, k) /\
     on_answer C (wstate w) k res = Ok (s, o) /\ w' = emit w s o (remove_nth i (in_flight w))).
Proof.
  destruct e as [u|i res]; cbn.
  - destruct (enabled C (wstate w) u) eqn:He; [|discriminate].
    destruct (on_user C (wstate w) u) as [[s o]| |] eqn:Hu; try discriminate.
    intros [= <-]. left. eauto 7.
  - destruct (nth_error (in_flight w) i) as [[r k]|] eqn:Hn; [|discriminate].
    destruct (on_answer C (wstate w) k res) as [[s o]| |] eqn:Ha; try discriminate.
    intros [= <-]. right. eauto 10.
Qed.

End RunLemmas.

(** ** A parent and its children *)

Section Lift.
Context {K K' : Type}.

(** The outputs of a child as its parent passes them on: its requests
    carry the parent's continuation [f k]. *)
Definition lift_outputs (f : K -> K') (o : outputs K) : outputs K' :=
  mkOutputs (shown o) (map (fun rk => (fst rk, f (snd rk))) (sent o)) (callback o).

Lemma in_sent_lift (f : K -> K') (o : outputs K) (r : request) (k' : K') :
  In (r, k') (sent (lift_outputs f o)) -> exists k, k' = f k /\ In (r, k) (sent o).
Proof.
  destruct o as [sh se cb]. cbn. rewrite in_map_iff.
  intros [[r0 k] [Heq Hin]]. inv Heq. eauto.
Qed.

End Lift.

(** ** The banner over time *)

(** The timers of [showMessage]: a message on show has a timer pending,
    and every pending timer fires within 5000 ms and after [t]. *)
Definition banner_ok (t : nat) (b : banner) : Prop :=
  (current b <> None -> timers b <> []) /\ Forall (fun x => t < x <= t + 5000) (timers b).

Lemma show_all_ok (t : nat) (b : banner) (msgs : list (string * msg_type)) :
  banner_ok t b -> banner_ok t (show_all t b msgs).
Proof.
  unfold show_all. revert b. induction msgs as [|[txt ty] msgs IH]; intros b [H1 H2]; cbn;
    [now split|].
  apply IH. split; cbn.
  - intros _. destruct (timers b); discriminate.
  - apply Forall_app. split; [exact H2|]. constructor; [lia | constructor].
Qed.

Lemma filter_none {A} (f : A -> bool) (l : list A) :
  filter f l = [] -> filter (fun x => negb (f x)) l = l.
Proof.
  induction l as [|x l IH]; cbn; [reflexivity|].
  destruct (f x); cbn; [discriminate|]. intros H. now rewrite IH.
Qed.

Lemma fire_timers_ok (t t' : nat) (b : banner) :
  t <= t' -> banner_ok t b -> banner_ok t' (fire_timers t' b).
Proof.
  intros Ht [H1 H2]. unfold fire_timers, banner_ok. cbn. split.
  - destruct (filter (fun x => Nat.leb x t') (timers b)) eqn:Hd; [|congruence].
    pose proof (filter_none _ _ Hd) as Hf. cbn beta in Hf. rewrite Hf. exact H1.
  - rewrite Forall_forall in *. intros x Hx. apply filter_In in Hx as [Hx Hn].
    specialize (H2 x Hx). apply negb_true_iff, Nat.leb_gt in Hn. lia.
Qed.

(** All timers are due by [t]: the banner is cleared. *)
Lemma fire_timers_all (t : nat) (b : banner) :
  timers b <> [] -> Forall (fun x => x <= t) (timers b) -> current (fire_timers t b) = None.
Proof.
  intros Hne Hall. unfold fire_timers. cbn.
  destruct (timers b) as [|x l]; [contradiction|]. inv Hall. cbn.
  apply Nat.leb_le in H1. now rewrite H1.
Qed.


(** Any timer due by [t] clears the message, whichever [showMessage]
    started it. *)
Lemma fire_timers_due (t x : nat) (b : banner) :
  In x (timers b) -> x <= t -> current (fire_timers t b) = None.
Proof.
  intros Hx Hle. unfold fire_timers. cbn.
  destruct (filter (fun y => Nat.leb y t) (timers b)) eqn:Hd; [|reflexivity].
  assert (Hin : In x (filter (fun y => Nat.leb y t) (timers b)))
    by (apply filter_In; split; [exact Hx | now apply Nat.leb_le]).
  rewrite Hd in Hin. contradiction.
Qed.

(** A timer not yet due stays pending. *)
Lemma fire_timers_pending (t y : nat) (b : banner) :
  In y (timers b) -> t < y -> In y (timers (fire_timers t b)).
Proof.
  intros Hy Hlt. cbn. apply filter_In. split; [exact Hy|].
  apply negb_true_iff, Nat.leb_gt. exact Hlt.
Qed.

(** ** A flag raised while a request is in flight *)

Definition b2n (b : bool) : nat := if b then 1 else 0.

(** The requests in flight whose continuation is of the kind [isk]. *)
Definition count_k {K : Type} (isk : K -> bool) (fl : list (request * K)) : nat :=
  length (filter (fun rk => isk (snd rk)) fl).

Lemma count_k_app {K : Type} (isk : K -> bool) (l m : list (request * K)) :
  count_k isk (l ++ m) = count_k isk l + count_k isk m.
Proof. apply filter_length_app. Qed.

Section FlagCount.
Context {St U K : Type} (C : component St U K) (isk : K -> bool) (f : St -> bool).

(** The pattern of a button disabled while its request is in flight:
    when mounting starts as many requests of kind [isk] as the flag
    says, every user step that raises the flag sends one, and the
    continuation of such a request lowers it, exactly one request of
    kind [isk] is in flight while the flag is set, and none otherwise. *)
Lemma flag_count_invariant :
  count_k isk (in_flight (initial_world C)) = b2n (f (wstate (initial_world C))) ->
  (forall s u s' o, enabled C s u = true -> on_user C s u = Ok (s', o) ->
     b2n (f s) + count_k isk (sent o) = b2n (f s')) ->
  (forall s k res s' o, on_answer C s k res = Ok (s', o) -> (isk k = true -> f s = true) ->
     b2n (f s) + count_k isk (sent o) = b2n (f s') + b2n (isk k)) ->
  forall w, reachable C w -> count_k isk (in_flight w) = b2n (f (wstate w)).
Proof.
  intros H0 Hu Ha. apply reachable_invariant; [exact H0|].
  intros w e w' IH Hstep.
  destruct (step_cases _ _ _ _ Hstep) as
    [(u & s & o & -> & Hen & Hus & ->) | (i & r & k & res & s & o & -> & Hn & Has & ->)];
    cbn [emit wstate in_flight]; rewrite count_k_app.
  - specialize (Hu _ _ _ _ Hen Hus). lia.
  - pose proof (filter_remove_nth (fun rk => isk (snd rk)) i _ _ Hn) as Hr. cbn in Hr.
    fold (count_k isk (in_flight w)) (count_k isk (remove_nth i (in_flight w))) in Hr.
    assert (Hf : isk k = true -> f (wstate w) = true).
    { intros Hk. rewrite Hk in Hr. destruct (f (wstate w)); [reflexivity|]. cbn in IH. lia. }
    specialize (Ha _ _ _ _ _ Has Hf). unfold b2n in *. destruct (isk k); lia.
Qed.

End FlagCount.

