(* ===== verification/TsTypes.v ===== *)
(** * The TypeScript types of the server's JSON

    The components read the JSON the servers send through the types
    their TypeScript declares: [interface Disk { name: string; ... }],
    [useState<Network[]>], [useState<AvailableService[]>]. The servers
    are not in the repository, and TypeScript checks none of this at
    run time. This file gives the types a meaning on [json] values, as
    structural (open) interface types: an object conforms to an
    interface when each required field is present with a value of its
    type, each optional field is absent or of its type, and other
    fields are ignored. It then restricts the runs of a component to
    the answers that conform to the types the code expects
    ([reachable_typed]), the setting of the type-safety theorems of the
    component files. *)

From Stdlib Require Import String Ascii List ZArith Lia Bool.
From S2P Require Import Prelude JsString JsNumber JsObject Json Ui.
Import ListNotations.
Open Scope string_scope.
Open Scope yolab_scope.

(** ** Types and conformance *)

(** The TypeScript types the frontends give the server's JSON. A field
    of an interface carries its name, whether it is optional ([?]) and
    its type. *)
#[warnings="-register-all"]
Inductive ts_type : Type :=
| TBoolean
| TNumber
| TString
| TArray (t : ts_type)
| TInterface (fields : list (string * bool * ts_type)).

(** A value of a type, checked as [JSON.parse] leaves it. *)
Fixpoint has_type (t : ts_type) (v : json) : bool :=
  match t, v with
  | TBoolean, JBool _ => true
  | TNumber, JNum _ => true
  | TString, JStr _ => true
  | TArray t', JArr xs => forallb (has_type t') xs
  | TInterface fs, JObj ps =>
      forallb (fun f => match f with
                        | (k, optional, t') =>
                            match lookup k ps with
                            | Some x => has_type t' x
                            | None => optional
                            end
                        end) fs
  | _, _ => false
  end.

(** ** Reading typed values *)

Lemma has_type_string (v : json) : has_type TString v = true -> exists s, v = JStr s.
Proof. destruct v; cbn; try discriminate. eauto. Qed.

Lemma has_type_array (t : ts_type) (v : json) :
  has_type (TArray t) v = true -> exists xs, v = JArr xs /\ forallb (has_type t) xs = true.
Proof. destruct v; cbn; try discriminate. eauto. Qed.

Lemma has_type_interface (fs : list (string * bool * ts_type)) (v : json) :
  has_type (TInterface fs) v = true -> exists ps, v = JObj ps.
Proof. destruct v; cbn; try discriminate. eauto. Qed.

(** A property read on a value of an interface type does not throw. *)
Lemma get_prop_interface (fs : list (string * bool * ts_type)) (v : json) (k : string) :
  has_type (TInterface fs) v = true -> exists x, get_prop v k = Ok x.
Proof. intros H. destruct (has_type_interface _ _ H) as [ps ->]. cbn. eauto. Qed.

(** A required field is there, with a value of its type. *)
Lemma get_prop_field (fs : list (string * bool * ts_type)) (v : json) (k : string) (t : ts_type) :
  has_type (TInterface fs) v = true -> In (k, false, t) fs ->
  exists x, get_prop v k = Ok (Some x) /\ has_type t x = true.
Proof.
  intros H Hin. destruct (has_type_interface _ _ H) as [ps ->]. cbn in H |- *.
  apply forallb_forall with (x := (k, false, t)) in H; [|exact Hin].
  destruct (lookup k ps) as [x|]; [eauto | discriminate].
Qed.

(** A property read that gives a string, as a card or a label shows it. *)
Definition string_value (n : option json) : Prop := exists t, n = Some (JStr t).

Lemma get_prop_string (fs : list (string * bool * ts_type)) (v : json) (k : string) :
  has_type (TInterface fs) v = true -> In (k, false, TString) fs ->
  exists n, get_prop v k = Ok n /\ string_value n.
Proof.
  intros H Hin. destruct (get_prop_field _ _ _ _ H Hin) as (x & Hx & Ht).
  destruct (has_type_string _ Ht) as [t ->]. exists (Some (JStr t)). split; [exact Hx | exists t; reflexivity].
Qed.

(** ** Runs under typed answers

    [typed k res] says that the answer [res] to a request suspended on
    [k] conforms to the type the code gives it. A typed run settles
    requests with typed answers only; user events are unrestricted. *)

Section Typed.
Context {St U K : Type} (C : component St U K) (typed : K -> http_result -> bool).

Definition answer_typed (w : world St K) (e : event (U:=U)) : bool :=
  match e with
  | User _ => true
  | Answer i res =>
      match nth_error (in_flight w) i with
      | Some (_, k) => typed k res
      | None => true
      end
  end.

Inductive reachable_typed : world St K -> Prop :=
| typed_init : reachable_typed (initial_world C)
| typed_step w e w' :
    reachable_typed w -> answer_typed w e = true -> step C w e = Some w' -> reachable_typed w'.

(** [run], refusing an untyped answer. *)
Fixpoint run_typed (w : world St K) (es : list (event (U:=U))) : option (world St K) :=
  match es with
  | [] => Some w
  | e :: es' =>
      if answer_typed w e then
        match step C w e with Some w' => run_typed w' es' | None => None end
      else None
  end.

Lemma reachable_typed_reachable (w : world St K) : reachable_typed w -> reachable C w.
Proof. induction 1; [constructor | econstructor; eauto]. Qed.

Lemma run_typed_reachable (w w' : world St K) (es : list (event (U:=U))) :
  reachable_typed w -> run_typed w es = Some w' -> reachable_typed w'.
Proof.
  revert w. induction es as [|e es IH]; cbn; intros w Hw Hrun; [congruence|].
  destruct (answer_typed w e) eqn:Ht; [|discriminate].
  destruct (step C w e) as [w1|] eqn:Hs; [|discriminate].
  exact (IH w1 (typed_step _ _ _ Hw Ht Hs) Hrun).
Qed.

(** A property of the state that the mount establishes, that every
    offered user event keeps and that every typed answer keeps holds in
    every typed run. *)
Lemma typed_state_invariant (I : St -> Prop) :
  I (fst (mount C)) ->
  (forall s u s' o, I s -> enabled C s u = true -> on_user C s u = Ok (s', o) -> I s') ->
  (forall s k res s' o, I s -> typed k res = true -> on_answer C s k res = Ok (s', o) -> I s') ->
  forall w, reachable_typed w -> I (wstate w).
Proof.
  intros Hi Hu Ha w Hw. induction Hw as [|w e w' Hw IH Ht Hs]; [exact Hi|].
  destruct (step_cases C _ _ _ Hs) as
    [(u & s & o & -> & Hen & Hon & ->) | (i & r & k & res & s & o & -> & Hn & Hon & ->)];
    cbn [emit wstate].
  - exact (Hu _ _ _ _ IH Hen Hon).
  - cbn in Ht. rewrite Hn in Ht. exact (Ha _ _ _ _ _ IH Ht Hon).
Qed.

End Typed.
