(* ===== verification/ConfigEditor.v ===== *)
(** * The configuration editor: the [ConfigTab] component

    [ConfigTab] ([components/ConfigTab.tsx], lines 107-178) holds the
    TOML text of the configuration in a textarea. At mount it fetches
    [GET /config] and shows [toToml] of the JSON it receives; the Save
    button posts [JSON.stringify(parseToml(config))] to [POST /config].
    The model is an instance of [Ui.component]: the three [useState]
    variables are [config_state], the two suspended [await]s are
    [config_k], and the render decides which user events exist. *)

From Stdlib Require Import String Ascii List ZArith Lia Bool.
From S2P Require Import Prelude JsString JsNumber JsObject Json Serializer Parser Codec Ui.
Import ListNotations.
Open Scope string_scope.
Open Scope yolab_scope.

(** [useState('')], [useState(true)], [useState(false)] *)
Record config_state : Type := mkConfig { config : string; loading : bool; saving : bool }.

(** The handler suspended on a request: [loadConfig] or [saveConfig]. *)
Inductive config_k : Type :=
| KLoadConfig
| KSaveConfig.

(** The user events the render offers: typing in the textarea
    ([onChange]) and the Save button ([onClick={saveConfig}]). *)
Inductive config_event : Type :=
| EditConfig (text : string)
| ClickSave.

(** What the component renders: the spinner while loading, else the
    editor with the button's [disabled] flag and label. *)
Inductive config_view : Type :=
| ConfigSpinner
| ConfigEditorView (text : string) (save_disabled : bool) (label : string).

Definition config_k_eqb (a b : config_k) : bool :=
  match a, b with
  | KLoadConfig, KLoadConfig | KSaveConfig, KSaveConfig => true
  | _, _ => false
  end.

Section ConfigTab.
Context (E : engine_texts).

(** [loadConfig], up to its [await fetch]. *)
Definition loadConfig (s : config_state) : config_state * outputs config_k :=
  (mkConfig (config s) true (saving s),
   send (mkRequest "GET" "/config" None) KLoadConfig).

(** [loadConfig] after [fetch] and [response.json()] settle: the
    [catch] shows the error, the [finally] clears [loading]. The
    [ok] flag of the response is not read. *)
Definition loadConfig_then (s : config_state) (res : http_result)
  : js_result (config_state * outputs config_k) :=
  let fail e := Ok (mkConfig (config s) false (saving s),
                    show ("Failed to load configuration: " ++ error_message E e) MError) in
  match res with
  | NetworkError => fail FetchFailed
  | Response _ None => fail BadJson
  | Response _ (Some data) =>
      match toToml data "" with
      | Ok text => Ok (mkConfig text false (saving s), no_outputs)
      | Throw e => fail (JsError e)
      | Unmodelled u => Unmodelled u
      end
  end.

(** [saveConfig], up to its [await fetch]: [parseToml] runs first; when
    it throws, the [catch] and the [finally] run at once. *)
Definition saveConfig (s : config_state) : js_result (config_state * outputs config_k) :=
  match parseToml (config s) with
  | Ok parsed =>
      Ok (mkConfig (config s) (loading s) true,
          send (mkRequest "POST" "/config" (Some (json_stringify (to_json parsed)))) KSaveConfig)
  | Throw e =>
      Ok (mkConfig (config s) (loading s) false,
          show ("Failed to save configuration: " ++ error_message E (JsError e)) MError)
  | Unmodelled u => Unmodelled u
  end.

(** [saveConfig] after its [fetch] settles. *)
Definition saveConfig_then (s : config_state) (res : http_result)
  : config_state * outputs config_k :=
  let s' := mkConfig (config s) (loading s) false in
  match res with
  | Response true _ => (s', show "Configuration saved successfully" MSuccess)
  | Response false _ =>
      (s', show ("Failed to save configuration: " ++ error_message E (NewError "Failed to save")) MError)
  | NetworkError =>
      (s', show ("Failed to save configuration: " ++ error_message E FetchFailed) MError)
  end.

(** The render of lines 153-177. *)
Definition render_config (s : config_state) : config_view :=
  if loading s then ConfigSpinner
  else ConfigEditorView (config s) (saving s)
         (if saving s then "Saving..." else "Save Configuration").

Definition config_enabled (s : config_state) (e : config_event) : bool :=
  match render_config s, e with
  | ConfigSpinner, _ => false
  | ConfigEditorView _ _ _, EditConfig _ => true
  | ConfigEditorView _ disabled _, ClickSave => negb disabled
  end.

Definition config_user (s : config_state) (e : config_event)
  : js_result (config_state * outputs config_k) :=
  match e with
  | EditConfig t => Ok (mkConfig t (loading s) (saving s), no_outputs)
  | ClickSave => saveConfig s
  end.

Definition config_answer (s : config_state) (k : config_k) (res : http_result)
  : js_result (config_state * outputs config_k) :=
  match k with
  | KLoadConfig => loadConfig_then s res
  | KSaveConfig => Ok (saveConfig_then s res)
  end.

(** Mounting: the initial state, then [useEffect(() => loadConfig(), [])]. *)
Definition config_tab : component config_state config_event config_k :=
  mkComponent (loadConfig (mkConfig "" true false)) config_enabled config_user config_answer.

End ConfigTab.

(** ** What each handler does to the flags and the requests *)

Section Shapes.
Context (E : engine_texts).

Lemma loadConfig_then_shape (s s' : config_state) (res : http_result) (o : outputs config_k) :
  loadConfig_then E s res = Ok (s', o) ->
  loading s' = false /\ saving s' = saving s /\ sent o = [].
Proof.
  unfold loadConfig_then.
  destruct res as [|ok [d|]]; [| destruct (toToml d "") |]; intros H; inv H; auto.
Qed.

Lemma saveConfig_shape (s s' : config_state) (o : outputs config_k) :
  saveConfig E s = Ok (s', o) ->
  loading s' = loading s /\
  ((saving s' = true /\ exists r, sent o = [(r, KSaveConfig)]) \/
   (saving s' = false /\ sent o = [])).
Proof.
  unfold saveConfig. destruct (parseToml (config s)); intros H; inv H; cbn; eauto 6.
Qed.

Lemma saveConfig_then_shape (s : config_state) (res : http_result) :
  loading (fst (saveConfig_then E s res)) = loading s /\
  saving (fst (saveConfig_then E s res)) = false /\
  sent (snd (saveConfig_then E s res)) = [].
Proof. destruct res as [|[] ?]; auto. Qed.

End Shapes.

(** The requests of kind [k] in flight. *)
Definition in_flight_count (k : config_k) (fl : list (request * config_k)) : nat :=
  count_k (fun k' => config_k_eqb k' k) fl.

Section Claims.
Context (E : engine_texts).

Lemma config_user_counts (s s' : config_state) (u : config_event) (o : outputs config_k) :
  config_enabled s u = true -> config_user E s u = Ok (s', o) ->
  b2n (loading s) + in_flight_count KLoadConfig (sent o) = b2n (loading s') /\
  b2n (saving s) + in_flight_count KSaveConfig (sent o) = b2n (saving s').
Proof.
  intros Hen Hu. destruct u as [t|]; cbn in Hu; [inv Hu; cbn; lia|].
  unfold config_enabled, render_config in Hen.
  destruct (saveConfig_shape E _ _ _ Hu) as [-> [[-> [r' ->]] | [-> ->]]];
    destruct (loading s), (saving s); try discriminate; cbn; lia.
Qed.

Lemma config_answer_counts (s s' : config_state) (k : config_k) (res : http_result)
    (o : outputs config_k) :
  config_answer E s k res = Ok (s', o) ->
  sent o = [] /\ loading s' = (if config_k_eqb k KLoadConfig then false else loading s) /\
  saving s' = (if config_k_eqb k KSaveConfig then false else saving s).
Proof.
  destruct k; cbn; intros Ha.
  - destruct (loadConfig_then_shape E _ _ _ _ Ha) as (-> & -> & ->). auto.
  - injection Ha as Ha. pose proof (saveConfig_then_shape E s res) as Hsh.
    rewrite Ha in Hsh. cbn in Hsh. destruct Hsh as (-> & -> & ->). auto.
Qed.

(** C7: in every run of the editor, exactly one [GET /config] is in
    flight while [loading] is set and none otherwise, and exactly one
    [POST /config] while [saving] is set and none otherwise: the render
    offers no Save while a save is in flight, so saves never overlap. *)
Theorem config_requests_in_flight (w : world config_state config_k) :
  reachable (config_tab E) w ->
  in_flight_count KLoadConfig (in_flight w) = b2n (loading (wstate w)) /\
  in_flight_count KSaveConfig (in_flight w) = b2n (saving (wstate w)).
Proof.
  intros Hw. split.
  - refine (flag_count_invariant (config_tab E) (fun k => config_k_eqb k KLoadConfig) loading
              eq_refl _ _ w Hw).
    + intros s u s' o Hen Hu. exact (proj1 (config_user_counts _ _ _ _ Hen Hu)).
    + intros s k res s' o Ha Hk. destruct (config_answer_counts _ _ _ _ _ Ha) as (-> & -> & _).
      destruct k; cbn in *; [rewrite (Hk eq_refl)|]; reflexivity.
  - refine (flag_count_invariant (config_tab E) (fun k => config_k_eqb k KSaveConfig) saving
              eq_refl _ _ w Hw).
    + intros s u s' o Hen Hu. exact (proj2 (config_user_counts _ _ _ _ Hen Hu)).
    + intros s k res s' o Ha Hk. destruct (config_answer_counts _ _ _ _ _ Ha) as (-> & _ & ->).
      destruct k; cbn in *; [|rewrite (Hk eq_refl)]; reflexivity.
Qed.

(** C2: loading the configuration and saving it unedited posts the
    configuration the server sent, with its keys regrouped as [toToml]
    writes them, whatever the response's [ok] flag: for every
    configuration in the domain of [toToml], the POST body is
    [JSON.stringify] of [regroup]. *)
Theorem save_unedited_config (ok : bool) (ps : list (string * json)) :
  toml_ok ps = true ->
  exists w, run (config_tab E) (initial_world (config_tab E))
              [Answer 0 (Response ok (Some (JObj ps))); User ClickSave] = Some w /\
            in_flight w = [(mkRequest "POST" "/config" (Some (json_stringify (JObj (regroup ps)))),
                            KSaveConfig)].
Proof.
  intros Hok. eexists. split.
  - cbn -[toToml parseToml json_stringify]. rewrite (toToml_lines ps "" Hok).
    cbn -[parseToml json_stringify unlines toml_lines]. unfold saveConfig.
    cbn -[parseToml json_stringify unlines toml_lines].
    rewrite (parseToml_toml_lines ps Hok), to_json_of_json. reflexivity.
  - reflexivity.
Qed.

(** C3: when loading fails (the request fails, the body is not JSON, or
    [toToml] throws on it) the editor is left empty, and Save then posts
    the empty object: the configuration on the server is replaced by
    [{}]. *)
Theorem failed_load_save_posts_empty (res : http_result) :
  res = NetworkError \/ (exists ok, res = Response ok None) \/
  (exists ok d e, res = Response ok (Some d) /\ toToml d "" = Throw e) ->
  exists w, run (config_tab E) (initial_world (config_tab E)) [Answer 0 res; User ClickSave]
            = Some w /\
            in_flight w = [(mkRequest "POST" "/config" (Some "{}"), KSaveConfig)].
Proof.
  intros [-> | [[ok ->] | (ok & d & e & -> & Ht)]]; eexists; split.
  1-4: reflexivity.
  - cbn -[toToml]. rewrite Ht. reflexivity.
  - reflexivity.
Qed.

End Claims.

Lemma config_requests_in_flight_witness :
  in_flight_count KSaveConfig (in_flight (initial_world (config_tab sample_engine))) = 0.
Proof.
  destruct (config_requests_in_flight sample_engine (initial_world (config_tab sample_engine))
              (reach_init _)) as [_ H].
  exact H.
Defined.

(** A server error whose JSON body is read as the configuration and
    posted back by Save. *)
Definition error_body : list (string * json) := [("detail", JStr "Internal Server Error")].

Lemma save_unedited_config_witness :
  toml_ok error_body = true /\
  exists w, run (config_tab sample_engine) (initial_world (config_tab sample_engine))
              [Answer 0 (Response false (Some (JObj error_body))); User ClickSave] = Some w /\
            in_flight w = [(mkRequest "POST" "/config"
                              (Some (json_stringify (JObj (regroup error_body)))), KSaveConfig)].
Proof.
  split; [vm_compute; reflexivity|].
  apply (save_unedited_config sample_engine false error_body). vm_compute. reflexivity.
Defined.

Lemma failed_load_save_posts_empty_witness :
  exists w, run (config_tab sample_engine) (initial_world (config_tab sample_engine))
              [Answer 0 NetworkError; User ClickSave] = Some w /\
            in_flight w = [(mkRequest "POST" "/config" (Some "{}"), KSaveConfig)].
Proof.
  apply (failed_load_save_posts_empty sample_engine NetworkError). left. reflexivity.
Defined.

(** ** What Save posts *)

(** A body [JSON.stringify] prints for an object whose keys are in
    JavaScript's order. *)
Definition config_post_ok (r : request) : Prop :=
  exists ps, payload r = Some (json_stringify (JObj ps)) /\ canonical ps = true.

Section Bodies.
Context (E : engine_texts).

Lemma saveConfig_posts (s s' : config_state) (o : outputs config_k) :
  saveConfig E s = Ok (s', o) -> forall r k, In (r, k) (sent o) -> config_post_ok r.
Proof.
  unfold saveConfig. destruct (parseToml (config s)) as [v| |] eqn:Hp; intros H; inv H;
    cbn; intros r k Hin; [|contradiction].
  destruct Hin as [Hr|[]]. inv Hr.
  unfold parseToml in Hp. apply bind_ok_inv in Hp as (st & Hl & Hv). inv Hv.
  assert (H0 : canon_obj (result initial_state)) by (exists []; split; reflexivity).
  destruct (parse_lines_canon _ _ _ H0 Hl) as (ps & Hps & Hc).
  rewrite Hps. exists (map (fun kv => (fst kv, to_json (snd kv))) ps). split; [reflexivity|].
  unfold canonical in *. rewrite map_map. exact Hc.
Qed.

Lemma config_answer_quiet (s s' : config_state) (k : config_k) (res : http_result)
    (o : outputs config_k) :
  config_answer E s k res = Ok (s', o) -> sent o = [].
Proof.
  destruct k; cbn; [unfold loadConfig_then | unfold saveConfig_then];
    destruct res as [|[] [d|]]; try destruct (toToml d ""); intros H; inv H; reflexivity.
Qed.

(** C4: whatever the user types, Save posts a JSON object: in every run
    of ConfigTab, every [POST /config] in flight carries
    [JSON.stringify] of an object, never an array, a scalar or the raw
    text, with its integer-like keys first. A text [parseToml] cannot
    read posts nothing. *)
Theorem save_posts_object (w : world config_state config_k) :
  reachable (config_tab E) w -> forall r, In (r, KSaveConfig) (in_flight w) -> config_post_ok r.
Proof.
  revert w.
  apply (reachable_invariant (config_tab E)
           (fun w => forall r, In (r, KSaveConfig) (in_flight w) -> config_post_ok r)).
  - intros r [H|[]]. discriminate.
  - intros w e w' Hinv Hstep.
    destruct (step_cases _ _ _ _ Hstep) as
      [(u & s & o & -> & _ & Hu & ->) | (i & r0 & k & res & s & o & -> & _ & Ha & ->)];
      cbn [emit in_flight]; intros r Hin; apply in_app_or in Hin as [Hin|Hin].
    + exact (Hinv r Hin).
    + destruct u; cbn in Hu; [inv Hu; contradiction | exact (saveConfig_posts _ _ _ Hu r _ Hin)].
    + exact (Hinv r (in_remove_nth _ _ _ Hin)).
    + rewrite (config_answer_quiet _ _ _ _ _ Ha) in Hin. contradiction.
Qed.

End Bodies.

(** The server sends [{b: 1}]; the user adds [2 = 2] and saves. *)
Definition edited_save : world config_state config_k :=
  match run (config_tab sample_engine) (initial_world (config_tab sample_engine))
            [Answer 0 (Response true (Some (JObj [("b", JNum 1)])));
             User (EditConfig ("b = 1" ++ nl ++ "2 = 2")); User ClickSave] with
  | Some w => w
  | None => initial_world (config_tab sample_engine)
  end.

Lemma save_posts_object_witness :
  In (mkRequest "POST" "/config" (Some (json_stringify (JObj [("2", JNum 2); ("b", JNum 1)]))),
      KSaveConfig) (in_flight edited_save) /\
  config_post_ok (mkRequest "POST" "/config"
                    (Some (json_stringify (JObj [("2", JNum 2); ("b", JNum 1)])))).
Proof.
  assert (Hr : run (config_tab sample_engine) (initial_world (config_tab sample_engine))
                 [Answer 0 (Response true (Some (JObj [("b", JNum 1)])));
                  User (EditConfig ("b = 1" ++ nl ++ "2 = 2")); User ClickSave] = Some edited_save)
    by (vm_compute; reflexivity).
  assert (Hin : In (mkRequest "POST" "/config"
                      (Some (json_stringify (JObj [("2", JNum 2); ("b", JNum 1)]))), KSaveConfig)
                  (in_flight edited_save)) by (vm_compute; left; reflexivity).
  exact (conj Hin (save_posts_object sample_engine edited_save
                     (run_reachable _ _ _ _ (reach_init _) Hr) _ Hin)).
Defined.
