(* ===== verification/Services.v ===== *)
(** * The services tab: the [ServicesTab] component

    [ServicesTab] ([components/ServicesTab.tsx]) lists the services the
    platform offers and those already downloaded. [loadServices] fetches
    both lists with [Promise.all]; Download and Delete post to the
    server and, on success, start [loadServices] again without awaiting
    it. Two reloads can therefore be in flight at once. Each
    [Promise.all] is a cell of the component's store ([batch]) that the
    two fetches of the reload fill, and the reload settles on the first
    rejection or when both values are in. The lists are whatever JSON
    the server sent: the render reads [.length] and [.map] of them. *)

From Stdlib Require Import String Ascii List ZArith Lia Bool.
From S2P Require Import Prelude JsString JsNumber JsObject Json Ui TsTypes.
Import ListNotations.
Open Scope string_scope.
Open Scope yolab_scope.

(** The state of one [Promise.all] of [loadServices]: the values of the
    two fetches that have resolved, and whether it has settled. *)
Record batch : Type := mkBatch { got_available : option json; got_downloaded : option json;
                                 settled : bool }.

(** [useState([])], [useState([])], [useState(true)], and the reloads. *)
Record services_state : Type := mkServices {
  availableServices : json;
  downloadedServices : json;
  services_loading : bool;
  batches : list batch
}.

(** The handler suspended on a request: one of the two fetches of the
    reload [b] ([true] for the available list), [handleDownload] or
    [handleDelete] with the [name] of its closure. *)
Inductive services_k : Type :=
| KList (b : nat) (available : bool)
| KDownload (name : option json)
| KDelete (name : option json).

(** The buttons of the cards, by their position in the rendered list;
    Delete carries the user's answer to [confirm]. *)
Inductive services_event : Type :=
| ClickDownload (i : nat)
| ClickDelete (i : nat) (confirmed : bool).

(** What the render shows: the spinner, or the [name] of each card of
    the two lists. *)
Inductive services_view : Type :=
| ServicesSpinner
| ServicesLists (available : list (option json)) (downloaded : list (option json)).

Section ServicesTab.
Context (E : engine_texts).

Definition set_batch (bs : list batch) (b : nat) (x : batch) : list batch :=
  firstn b bs ++ [x] ++ skipn (S b) bs.

(** [loadServices], up to its [await Promise.all]. *)
Definition loadServices (s : services_state) : services_state * outputs services_k :=
  let b := length (batches s) in
  (mkServices (availableServices s) (downloadedServices s) true
              (batches s ++ [mkBatch None None false]),
   send (mkRequest "GET" "/services/available" None) (KList b true) +++
   send (mkRequest "GET" "/services/downloaded" None) (KList b false)).

(** [fetch(url).then(r => r.json())]: the value, or the rejection. *)
Definition fetch_json (res : http_result) : ui_error + json :=
  match res with
  | NetworkError => inl FetchFailed
  | Response _ None => inl BadJson
  | Response _ (Some d) => inr d
  end.

(** One fetch of reload [b] settles. The [Promise.all] rejects on the
    first rejection ([catch], [finally]); it resolves when both values
    are in ([setAvailableServices], [setDownloadedServices], [finally]);
    once settled it ignores the other fetch. *)
Definition loadServices_then (s : services_state) (b : nat) (available : bool)
    (res : http_result) : services_state * outputs services_k :=
  match nth_error (batches s) b with
  | None => (s, no_outputs)
  | Some bt =>
      if settled bt then (s, no_outputs) else
      match fetch_json res with
      | inl e =>
          (mkServices (availableServices s) (downloadedServices s) false
             (set_batch (batches s) b (mkBatch (got_available bt) (got_downloaded bt) true)),
           show ("Failed to load services: " ++ error_message E e) MError)
      | inr d =>
          let bt' := if available then mkBatch (Some d) (got_downloaded bt) false
                     else mkBatch (got_available bt) (Some d) false in
          match got_available bt', got_downloaded bt' with
          | Some a, Some dl =>
              (mkServices a dl false
                 (set_batch (batches s) b (mkBatch (Some a) (Some dl) true)), no_outputs)
          | _, _ =>
              (mkServices (availableServices s) (downloadedServices s) (services_loading s)
                 (set_batch (batches s) b bt'), no_outputs)
          end
      end
  end.

(** [handleDownload(name)], up to its [await fetch]. *)
Definition handleDownload (s : services_state) (name : option json)
    : services_state * outputs services_k :=
  (s, send (mkRequest "POST" ("/services/download/" ++ template name) None) (KDownload name)).

Definition handleDownload_then (s : services_state) (name : option json) (res : http_result)
    : services_state * outputs services_k :=
  match res with
  | Response true _ =>
      let (s', o) := loadServices s in
      (s', show ("Service " ++ template name ++ " downloaded successfully") MSuccess +++ o)
  | Response false _ =>
      (s, show ("Failed to download service: " ++ error_message E (NewError "Download failed")) MError)
  | NetworkError =>
      (s, show ("Failed to download service: " ++ error_message E FetchFailed) MError)
  end.

(** [handleDelete(name)]: nothing unless the user confirms. *)
Definition handleDelete (s : services_state) (name : option json) (confirmed : bool)
    : services_state * outputs services_k :=
  if confirmed
  then (s, send (mkRequest "POST" ("/services/delete/" ++ template name) None) (KDelete name))
  else (s, no_outputs).

Definition handleDelete_then (s : services_state) (name : option json) (res : http_result)
    : services_state * outputs services_k :=
  match res with
  | Response true _ =>
      let (s', o) := loadServices s in
      (s', show ("Service " ++ template name ++ " deleted successfully") MSuccess +++ o)
  | Response false _ =>
      (s, show ("Failed to delete service: " ++ error_message E (NewError "Delete failed")) MError)
  | NetworkError =>
      (s, show ("Failed to delete service: " ++ error_message E FetchFailed) MError)
  end.

(** [list.map(service => ... service.name ...)] on the value of a list. *)
Fixpoint card_names (xs : list json) : js_result (list (option json)) :=
  match xs with
  | [] => Ok []
  | x :: xs' => n <- get_prop x "name" ;; ns <- card_names xs' ;; Ok (n :: ns)
  end.

(** [list.length === 0 ? <empty/> : list.map(...)]: reading [.length]
    of [null] throws, and a value that is not an array and whose
    [length] is not [0] has no [map] to call. *)
Definition render_list (v : json) : js_result (list (option json)) :=
  len <- get_prop v "length" ;;
  if match len with Some (JNum 0) => true | _ => false end then Ok []
  else match v with
       | JArr xs => card_names xs
       | _ => Throw TypeError
       end.

(** The render of lines 84-142. *)
Definition render_services (s : services_state) : js_result services_view :=
  if services_loading s then Ok ServicesSpinner
  else a <- render_list (availableServices s) ;;
       d <- render_list (downloadedServices s) ;;
       Ok (ServicesLists a d).

Definition card (s : services_state) (downloaded : bool) (i : nat) : option (option json) :=
  match render_services s with
  | Ok (ServicesLists a d) => nth_error (if downloaded then d else a) i
  | _ => None
  end.

Definition services_enabled (s : services_state) (e : services_event) : bool :=
  match e with
  | ClickDownload i => match card s false i with Some _ => true | None => false end
  | ClickDelete i _ => match card s true i with Some _ => true | None => false end
  end.

Definition services_user (s : services_state) (e : services_event)
    : js_result (services_state * outputs services_k) :=
  match e with
  | ClickDownload i =>
      match card s false i with Some n => Ok (handleDownload s n) | None => Ok (s, no_outputs) end
  | ClickDelete i c =>
      match card s true i with Some n => Ok (handleDelete s n c) | None => Ok (s, no_outputs) end
  end.

Definition services_answer (s : services_state) (k : services_k) (res : http_result)
    : js_result (services_state * outputs services_k) :=
  match k with
  | KList b av => Ok (loadServices_then s b av res)
  | KDownload n => Ok (handleDownload_then s n res)
  | KDelete n => Ok (handleDelete_then s n res)
  end.

(** Mounting: the initial state, then [useEffect(() => loadServices(), [])]. *)
Definition services_tab : component services_state services_event services_k :=
  mkComponent (loadServices (mkServices (JArr []) (JArr []) true []))
              services_enabled services_user services_answer.

End ServicesTab.

(** ** The reloads in flight *)

Lemma set_batch_length (bs : list batch) (b : nat) (x : batch) :
  b < length bs -> length (set_batch bs b x) = length bs.
Proof.
  intros H. unfold set_batch. rewrite !length_app, length_firstn, length_skipn. cbn. lia.
Qed.

Lemma nth_set_batch (bs : list batch) (b b' : nat) (x : batch) :
  b < length bs ->
  nth_error (set_batch bs b x) b' = if Nat.eqb b' b then Some x else nth_error bs b'.
Proof.
  intros H. unfold set_batch.
  destruct (Nat.ltb_spec b' b) as [Hlt|Hge].
  - rewrite nth_error_app1 by (rewrite length_firstn; lia).
    rewrite nth_error_firstn. destruct (Nat.ltb_spec b' b); [|lia].
    destruct (Nat.eqb_spec b' b); [lia|reflexivity].
  - rewrite nth_error_app2 by (rewrite length_firstn; lia).
    rewrite length_firstn, Nat.min_l by lia.
    destruct (Nat.eqb_spec b' b) as [->|Hne].
    + now rewrite Nat.sub_diag.
    + replace (b' - b) with (S (b' - S b)) by lia. cbn [app nth_error].
      rewrite nth_error_skipn. f_equal. lia.
Qed.

(** The fetches of reload [b] for the list [av] in flight. *)
Definition list_count (b : nat) (av : bool) (fl : list (request * services_k)) : nat :=
  length (filter (fun rk => match snd rk with
                            | KList b' av' => Nat.eqb b' b && Bool.eqb av' av
                            | _ => false
                            end) fl).

Definition got (bt : batch) (av : bool) : option json :=
  if av then got_available bt else got_downloaded bt.

(** The invariant of the reloads: no fetch refers to a reload not yet
    started; a reload that has not settled awaits exactly the fetches
    whose value is missing, and misses one at least; while the spinner
    shows, some reload has not settled. *)
Definition reloads_ok (s : services_state) (fl : list (request * services_k)) : Prop :=
  (forall b av, length (batches s) <= b -> list_count b av fl = 0) /\
  (forall b bt, nth_error (batches s) b = Some bt -> settled bt = false ->
     (forall av, list_count b av fl = match got bt av with Some _ => 0 | None => 1 end) /\
     (got_available bt = None \/ got_downloaded bt = None)) /\
  (services_loading s = true -> exists b bt, nth_error (batches s) b = Some bt /\ settled bt = false).

Lemma list_count_app (b : nat) (av : bool) (l m : list (request * services_k)) :
  list_count b av (l ++ m) = list_count b av l + list_count b av m.
Proof. apply filter_length_app. Qed.

Lemma list_count_remove (b : nat) (av : bool) (fl : list (request * services_k))
    (i : nat) (r : request) (b0 : nat) (av0 : bool) :
  nth_error fl i = Some (r, KList b0 av0) ->
  list_count b av fl =
  list_count b av (remove_nth i fl) + (if Nat.eqb b0 b && Bool.eqb av0 av then 1 else 0).
Proof. intros H. exact (filter_remove_nth _ i fl _ H). Qed.

Lemma list_count_other (b : nat) (av : bool) (fl : list (request * services_k))
    (i : nat) (r : request) (k : services_k) :
  nth_error fl i = Some (r, k) -> (forall b' av', k <> KList b' av') ->
  list_count b av (remove_nth i fl) = list_count b av fl.
Proof.
  intros H Hk. unfold list_count. rewrite (filter_remove_nth _ i fl _ H). cbn.
  destruct k; [exfalso; eapply Hk; reflexivity | |]; lia.
Qed.

Lemma list_count_load (b n : nat) (av : bool) (r1 r2 : request) :
  list_count b av [(r1, KList n true); (r2, KList n false)] = if Nat.eqb n b then 1 else 0.
Proof. unfold list_count. cbn. destruct (Nat.eqb n b), av; reflexivity. Qed.

Lemma list_count_pos (b : nat) (av : bool) (fl : list (request * services_k)) :
  0 < list_count b av fl -> exists i r, nth_error fl i = Some (r, KList b av).
Proof.
  unfold list_count. induction fl as [|[r k] fl IH]; cbn; [lia|].
  destruct k as [b' av'| |]; [destruct (Nat.eqb_spec b' b), (Bool.eqb_spec av' av)|..];
    cbn; intros H; subst;
    try (destruct (IH H) as (i & r' & Hi); now exists (S i), r').
  now exists 0, r.
Qed.

Section Reloads.
Context (E : engine_texts).

Lemma loadServices_ok (s : services_state) (fl : list (request * services_k)) :
  reloads_ok s fl ->
  reloads_ok (fst (loadServices s)) (fl ++ sent (snd (loadServices s))).
Proof.
  intros (H1 & H2 & _). cbn. set (n := length (batches s)).
  split; [|split].
  - intros b av Hb. cbn [batches] in Hb. rewrite length_app in Hb. cbn in Hb.
    rewrite list_count_app, list_count_load, H1 by lia.
    destruct (Nat.eqb_spec n b); lia.
  - intros b bt Hbt Hs. cbn [batches] in Hbt.
    destruct (Nat.ltb_spec b n) as [Hlt|Hge].
    + rewrite nth_error_app1 in Hbt by exact Hlt.
      destruct (H2 b bt Hbt Hs) as [Hc Hn]. split; [|exact Hn].
      intros av. rewrite list_count_app, list_count_load, Hc. destruct (Nat.eqb_spec n b); [lia|].
      now rewrite Nat.add_0_r.
    + rewrite nth_error_app2 in Hbt by exact Hge. fold n in Hbt.
      destruct (b - n) as [|m] eqn:Hm; [|destruct m; cbn in Hbt; discriminate].
      cbn in Hbt. inv Hbt. split; [|now left].
      intros av. rewrite list_count_app, list_count_load, H1 by lia.
      destruct (Nat.eqb_spec n b); [|lia]. now destruct av.
  - intros _. exists n, (mkBatch None None false). split; [|reflexivity].
    cbn [batches]. rewrite nth_error_app2 by (unfold n; lia). unfold n. now rewrite Nat.sub_diag.
Qed.

(** A fetch of a reload that has settled changes nothing but the
    requests in flight. *)
Lemma reloads_settled (s : services_state) (fl : list (request * services_k))
    (i : nat) (r : request) (b : nat) (av : bool) (bt : batch) :
  reloads_ok s fl -> nth_error fl i = Some (r, KList b av) ->
  nth_error (batches s) b = Some bt -> settled bt = true ->
  reloads_ok s (remove_nth i fl).
Proof.
  intros (H1 & H2 & H3) Hi Hb Hs. split; [|split; [|exact H3]].
  - intros b' av' Hb'. pose proof (list_count_remove b' av' fl i r b av Hi). specialize (H1 b' av' Hb'). lia.
  - intros b' bt' Hb' Hs'. destruct (H2 b' bt' Hb' Hs') as [Hc Hn]. split; [|exact Hn].
    intros av'. rewrite <- Hc. rewrite (list_count_remove b' av' fl i r b av Hi).
    destruct (Nat.eqb_spec b b'); [subst; congruence|]. cbn. lia.
Qed.

(** Replacing the reload [b] keeps the invariant when the fetches of
    the other reloads are untouched, the new reload awaits what it
    misses, and the spinner shows only if the new reload is pending. *)
Lemma reloads_set (s s' : services_state) (fl fl' : list (request * services_k))
    (b : nat) (x : batch) :
  reloads_ok s fl -> b < length (batches s) ->
  batches s' = set_batch (batches s) b x ->
  (forall b' av, b' <> b -> list_count b' av fl' = list_count b' av fl) ->
  (settled x = false ->
     (forall av, list_count b av fl' = match got x av with Some _ => 0 | None => 1 end) /\
     (got_available x = None \/ got_downloaded x = None)) ->
  (services_loading s' = true -> settled x = false) ->
  reloads_ok s' fl'.
Proof.
  intros (H1 & H2 & _) Hb Hbs Hother Hx Hl. split; [|split].
  - intros b' av Hb'. rewrite Hbs, set_batch_length in Hb' by exact Hb.
    rewrite Hother by lia. exact (H1 b' av Hb').
  - intros b' bt Hbt Hs. rewrite Hbs, nth_set_batch in Hbt by exact Hb.
    destruct (Nat.eqb_spec b' b) as [->|Hne]; [inv Hbt; exact (Hx Hs)|].
    destruct (H2 b' bt Hbt Hs) as [Hc Hn]. split; [|exact Hn].
    intros av. rewrite Hother by exact Hne. apply Hc.
  - intros HL. exists b, x. rewrite Hbs, nth_set_batch by exact Hb.
    rewrite Nat.eqb_refl. auto.
Qed.

Lemma loadServices_then_ok (s : services_state) (fl : list (request * services_k))
    (i : nat) (r : request) (b : nat) (av : bool) (res : http_result) :
  reloads_ok s fl -> nth_error fl i = Some (r, KList b av) ->
  reloads_ok (fst (loadServices_then E s b av res))
             (remove_nth i fl ++ sent (snd (loadServices_then E s b av res))).
Proof.
  intros Hok Hi. pose proof Hok as (H1 & H2 & _).
  pose proof (fun b' av' => list_count_remove b' av' fl i r b av Hi) as Hr.
  assert (Hb : b < length (batches s)).
  { destruct (Nat.ltb_spec b (length (batches s))) as [|Hge]; [assumption|].
    specialize (H1 b av Hge). specialize (Hr b av). rewrite Nat.eqb_refl, eqb_reflx in Hr.
    cbn in Hr. lia. }
  destruct (nth_error (batches s) b) as [bt|] eqn:Hbt; [|apply nth_error_None in Hbt; lia].
  unfold loadServices_then. rewrite Hbt.
  destruct (settled bt) eqn:Hs.
  { cbn. rewrite app_nil_r. exact (reloads_settled s fl i r b av bt Hok Hi Hbt Hs). }
  destruct (H2 b bt Hbt Hs) as [Hc Hn].
  assert (Hoth : forall b' av', b' <> b ->
            list_count b' av' (remove_nth i fl ++ []) = list_count b' av' fl).
  { intros b' av' Hne. rewrite app_nil_r, (Hr b' av').
    destruct (Nat.eqb_spec b b'); [congruence|]. cbn. lia. }
  assert (Hself : forall av', list_count b av' (remove_nth i fl ++ []) =
                              if Bool.eqb av av' then 0 else list_count b av' fl).
  { intros av'. pose proof (Hc av). specialize (Hr b av'). rewrite app_nil_r.
    rewrite Nat.eqb_refl in Hr. cbn in Hr.
    destruct (Bool.eqb_spec av av') as [Eq|]; [subst av'; destruct (got bt av); lia | lia]. }
  destruct (fetch_json res) as [e|d]; cbn [fst snd].
  - cbn [sent show]. eapply reloads_set; [exact Hok | exact Hb | reflexivity | exact Hoth
                                         | discriminate | discriminate].
  - destruct bt as [ga gd st]; cbn in Hc, Hn, Hs |- *. subst st.
    destruct av, ga, gd; cbn; try (destruct Hn as [Hn|Hn]; discriminate);
      eapply reloads_set; try solve [exact Hok | exact Hb | reflexivity | exact Hoth
                                     | discriminate | auto];
      intros _; (split; [|auto]); intros []; rewrite Hself; cbn; auto.
Qed.

Lemma reloads_keep (s : services_state) (fl fl' : list (request * services_k)) :
  (forall b av, list_count b av fl' = list_count b av fl) ->
  reloads_ok s fl -> reloads_ok s fl'.
Proof.
  intros Hc (H1 & H2 & H3). split; [|split; [|exact H3]].
  - intros b av Hb. rewrite Hc. auto.
  - intros b bt Hb Hs. destruct (H2 b bt Hb Hs) as [Hb' Hn]. split; [|exact Hn].
    intros av. rewrite Hc. auto.
Qed.

Lemma services_user_ok (s s' : services_state) (o : outputs services_k)
    (fl : list (request * services_k)) (e : services_event) :
  reloads_ok s fl -> services_user s e = Ok (s', o) -> reloads_ok s' (fl ++ sent o).
Proof.
  intros Hok Hu. destruct e as [i|i [|]]; cbn in Hu;
    [destruct (card s false i) | destruct (card s true i) | destruct (card s true i)];
    injection Hu as <- <-; cbn;
    apply (reloads_keep s fl); auto; intros b av; rewrite list_count_app; cbn; lia.
Qed.

(** A [handleDownload] or [handleDelete] settles: on success it starts a
    reload. *)
Lemma handler_then_ok (s : services_state) (fl : list (request * services_k))
    (i : nat) (r : request) (k : services_k)
    (s' : services_state) (o : outputs services_k) (t : string) :
  reloads_ok s fl -> nth_error fl i = Some (r, k) -> (forall b av, k <> KList b av) ->
  (s', o) = (s, show t MError) \/
  (s', o) = (fst (loadServices s), show t MSuccess +++ snd (loadServices s)) ->
  reloads_ok s' (remove_nth i fl ++ sent o).
Proof.
  intros Hok Hi Hk [Ho|Ho]; injection Ho as -> ->.
  - cbn. rewrite app_nil_r.
    apply (reloads_keep s fl); auto. intros b av. exact (list_count_other b av fl i r k Hi Hk).
  - apply loadServices_ok. apply (reloads_keep s fl); auto.
    intros b av. exact (list_count_other b av fl i r k Hi Hk).
Qed.

Lemma services_answer_ok (s s' : services_state) (o : outputs services_k)
    (fl : list (request * services_k)) (i : nat) (r : request) (k : services_k)
    (res : http_result) :
  reloads_ok s fl -> nth_error fl i = Some (r, k) ->
  services_answer E s k res = Ok (s', o) -> reloads_ok s' (remove_nth i fl ++ sent o).
Proof.
  intros Hok Hi Ha. destruct k as [b av|n|n]; unfold services_answer in Ha; injection Ha as Ha.
  - replace s' with (fst (loadServices_then E s b av res)) by now rewrite Ha.
    replace o with (snd (loadServices_then E s b av res)) by now rewrite Ha.
    exact (loadServices_then_ok s fl i r b av res Hok Hi).
  - unfold handleDownload_then in Ha.
    assert (Hk : forall b av, KDownload n <> KList b av) by discriminate.
    destruct res as [|[] ?]; eapply (handler_then_ok s fl i r _ s' o _ Hok Hi Hk);
      rewrite <- Ha; [left | right | left]; reflexivity.
  - unfold handleDelete_then in Ha.
    assert (Hk : forall b av, KDelete n <> KList b av) by discriminate.
    destruct res as [|[] ?]; eapply (handler_then_ok s fl i r _ s' o _ Hok Hi Hk);
      rewrite <- Ha; [left | right | left]; reflexivity.
Qed.

Lemma services_reloads_ok (w : world services_state services_k) :
  reachable (services_tab E) w -> reloads_ok (wstate w) (in_flight w).
Proof.
  revert w. apply reachable_invariant.
  - apply (loadServices_ok (mkServices (JArr []) (JArr []) false []) []).
    split; [|split]; [intros; reflexivity | intros [] ? H; discriminate | discriminate].
  - intros w e w' Hw Hstep.
    destruct (step_cases _ _ _ _ Hstep) as
      [(u & s & o & -> & _ & Hu & ->) | (i & r & k & res & s & o & -> & Hn & Ha & ->)];
      cbn [emit wstate in_flight].
    + exact (services_user_ok _ _ _ _ _ Hw Hu).
    + exact (services_answer_ok _ _ _ _ _ _ _ _ Hw Hn Ha).
Qed.

End Reloads.

Section Claims.
Context (E : engine_texts).

(** C22: in every run of the services tab, while the spinner shows, a
    fetch of a reload that has not settled is in flight: the spinner
    always waits on a request, and once the network has answered every
    request the spinner is gone. *)
Theorem services_spinner_awaits (w : world services_state services_k) :
  reachable (services_tab E) w -> services_loading (wstate w) = true ->
  exists i r b av, nth_error (in_flight w) i = Some (r, KList b av) /\
    exists bt, nth_error (batches (wstate w)) b = Some bt /\ settled bt = false.
Proof.
  intros Hw Hl. destruct (services_reloads_ok E w Hw) as (_ & H2 & H3).
  destruct (H3 Hl) as (b & bt & Hb & Hs).
  destruct (H2 b bt Hb Hs) as [Hc Hn].
  assert (Hav : exists av, got bt av = None) by (destruct Hn; [exists true | exists false]; auto).
  destruct Hav as [av Hav]. specialize (Hc av). rewrite Hav in Hc.
  destruct (list_count_pos b av (in_flight w) ltac:(lia)) as (i & r & Hi).
  exists i, r, b, av. eauto.
Qed.

(** C23: when [/services/available] answers with an object, such as the
    JSON error body of a failed request (its [ok] flag is not read), and
    the other list loads, the render of the tab throws a [TypeError]:
    it calls [availableServices.map] on whatever JSON the server sent.
    With no error boundary, React then unmounts the whole client UI. *)
Theorem services_render_throws (ok : bool) (ps : list (string * json)) (res : http_result) :
  lookup "length" ps = None -> (exists d, fetch_json res = inr d) ->
  exists w, run (services_tab E) (initial_world (services_tab E))
              [Answer 0 (Response ok (Some (JObj ps))); Answer 0 res] = Some w /\
            render_services (wstate w) = Throw TypeError.
Proof.
  intros Hl [d Hd]. destruct res as [|ok' [d'|]]; cbn in Hd; try discriminate.
  injection Hd as <-. eexists. split; [reflexivity|].
  cbn. rewrite Hl. reflexivity.
Qed.

End Claims.

Lemma services_spinner_awaits_witness :
  exists i r b av, nth_error (in_flight (initial_world (services_tab sample_engine))) i =
                   Some (r, KList b av) /\
    exists bt, nth_error (batches (wstate (initial_world (services_tab sample_engine)))) b =
               Some bt /\ settled bt = false.
Proof.
  apply (services_spinner_awaits sample_engine); [apply reach_init | reflexivity].
Defined.

Lemma services_render_throws_witness :
  exists w, run (services_tab sample_engine) (initial_world (services_tab sample_engine))
              [Answer 0 (Response false (Some (JObj [("detail", JStr "Not Found")])));
               Answer 0 (Response true (Some (JArr [])))] = Some w /\
            render_services (wstate w) = Throw TypeError.
Proof.
  apply (services_render_throws sample_engine false [("detail", JStr "Not Found")]
           (Response true (Some (JArr [])))); [reflexivity | eexists; reflexivity].
Defined.

(** Two services, and the downloaded lists the server reports after the
    first and after both downloads. *)
Definition svc (n : string) : json := JObj [("name", JStr n)].
Definition dsvc (n : string) : json :=
  JObj [("name", JStr n); ("has_compose", JBool true); ("has_caddy", JBool true)].

Definition two_downloads : list (event (U:=services_event)) :=
  [Answer 0 (Response true (Some (JArr [svc "a"; svc "b"])));
   Answer 0 (Response true (Some (JArr [])));
   User (ClickDownload 0); User (ClickDownload 1);
   Answer 0 (Response true None);
   Answer 0 (Response true None);
   Answer 2 (Response true (Some (JArr [svc "a"; svc "b"])));
   Answer 2 (Response true (Some (JArr [dsvc "a"; dsvc "b"])))].

(** C24: the lists show the reload that settles last, not the one
    started last. In any world of the tab, when a fetch of a reload
    [b] that has not settled answers with a value and the other list of
    that reload is in, the step sets both lists to the values of [b]
    and hides the spinner, whatever later reloads have already
    settled: [loadServices] neither awaits nor cancels older reloads. *)
Theorem last_reload_wins (E : engine_texts) (w : world services_state services_k) (i b : nat) (av : bool)
    (r : request) (bt : batch) (x d : json) (res : http_result) :
  nth_error (in_flight w) i = Some (r, KList b av) ->
  nth_error (batches (wstate w)) b = Some bt -> settled bt = false ->
  got bt (negb av) = Some x -> fetch_json res = inr d ->
  exists w', step (services_tab E) w (Answer i res) = Some w' /\
    (availableServices (wstate w'), downloadedServices (wstate w')) =
      (if av then (d, x) else (x, d)) /\
    services_loading (wstate w') = false.
Proof.
  intros Hi Hb Hs Hx Hd. cbn. rewrite Hi. cbn. unfold loadServices_then.
  rewrite Hb, Hs, Hd. destruct av; cbn in Hx |- *; rewrite Hx; eexists; split; eauto.
Qed.

(** Reload 1 (after downloading [a]) has its available list in; reload
    2 (after downloading [b]) has settled with both services listed. *)
Definition stale_world : world services_state services_k :=
  match run (services_tab sample_engine) (initial_world (services_tab sample_engine))
            (two_downloads ++ [Answer 0 (Response true (Some (JArr [svc "a"; svc "b"])))]) with
  | Some w => w
  | None => initial_world (services_tab sample_engine)
  end.

Lemma last_reload_wins_witness :
  nth_error (batches (wstate stale_world)) 2 =
    Some (mkBatch (Some (JArr [svc "a"; svc "b"])) (Some (JArr [dsvc "a"; dsvc "b"])) true) /\
  exists w', step (services_tab sample_engine) stale_world
               (Answer 0 (Response true (Some (JArr [dsvc "a"])))) = Some w' /\
    (availableServices (wstate w'), downloadedServices (wstate w')) =
      (JArr [svc "a"; svc "b"], JArr [dsvc "a"]) /\
    services_loading (wstate w') = false.
Proof.
  split; [vm_compute; reflexivity|].
  apply (last_reload_wins sample_engine stale_world 0 1 false
           (mkRequest "GET" "/services/downloaded" None)
           (mkBatch (Some (JArr [svc "a"; svc "b"])) None false) (JArr [svc "a"; svc "b"]));
    vm_compute; reflexivity.
Defined.

(** ** Typed answers

    The code keeps what the two list fetches send in
    [useState<AvailableService[]>] and [useState<DownloadedService[]>],
    without reading [response.ok]. When every body the list fetches
    parse conforms to these types, the render never throws and each
    card shows a string [name]; [services_render_throws] is what an
    error body does instead. *)

(** [interface AvailableService { name: string; description?: string }] *)
Definition AvailableService : ts_type :=
  TInterface [("name", false, TString); ("description", true, TString)].

(** [interface DownloadedService { name: string; has_compose: boolean; has_caddy: boolean }] *)
Definition DownloadedService : ts_type :=
  TInterface [("name", false, TString); ("has_compose", false, TBoolean); ("has_caddy", false, TBoolean)].

Definition list_type (available : bool) : ts_type :=
  TArray (if available then AvailableService else DownloadedService).

Definition services_typed (k : services_k) (res : http_result) : bool :=
  match k, res with
  | KList _ av, Response _ (Some d) => has_type (list_type av) d
  | _, _ => true
  end.

Definition opt_typed (t : ts_type) (v : option json) : bool :=
  match v with Some x => has_type t x | None => true end.

Definition batch_typed (bt : batch) : bool :=
  opt_typed (list_type true) (got_available bt) && opt_typed (list_type false) (got_downloaded bt).

(** Both lists, and the values a pending reload has received, are typed. *)
Definition lists_typed (s : services_state) : bool :=
  has_type (list_type true) (availableServices s) && has_type (list_type false) (downloadedServices s) &&
  forallb batch_typed (batches s).

Section TypedServices.
Context (E : engine_texts).

Lemma card_names_typed (fs : list (string * bool * ts_type)) (xs : list json) :
  In ("name", false, TString) fs -> forallb (has_type (TInterface fs)) xs = true ->
  exists ns, card_names xs = Ok ns /\ Forall string_value ns.
Proof.
  intros Hin. induction xs as [|x xs IH]; cbn [card_names forallb]; [eauto|].
  intros H. apply andb_true_iff in H as [Hx Hxs].
  destruct (get_prop_string _ x "name" Hx Hin) as (n & -> & Hn).
  destruct (IH Hxs) as (ns & -> & Hns). cbn. eauto.
Qed.

Lemma render_list_typed (av : bool) (v : json) :
  has_type (list_type av) v = true -> exists ns, render_list v = Ok ns /\ Forall string_value ns.
Proof.
  intros H. destruct (has_type_array _ _ H) as (xs & -> & Hxs). unfold render_list. cbn.
  destruct (Z.of_nat (length xs)) as [|p|p]; cbn; [eauto| |];
    destruct av; refine (card_names_typed _ xs _ Hxs); left; reflexivity.
Qed.

Lemma render_services_typed (s : services_state) :
  lists_typed s = true ->
  exists v, render_services s = Ok v /\
            forall a d, v = ServicesLists a d -> Forall string_value a /\ Forall string_value d.
Proof.
  unfold lists_typed. intros H. apply andb_true_iff in H as [H _]. apply andb_true_iff in H as [Ha Hd].
  unfold render_services. destruct (services_loading s); [eexists; split; [reflexivity | discriminate]|].
  destruct (render_list_typed true _ Ha) as (a & -> & Hav).
  destruct (render_list_typed false _ Hd) as (d & -> & Hdv). cbn.
  eexists. split; [reflexivity|]. intros a' d' Heq. inv Heq. auto.
Qed.

Lemma loadServices_typed (s : services_state) :
  lists_typed s = true -> lists_typed (fst (loadServices s)) = true.
Proof.
  unfold lists_typed, loadServices. cbn [fst availableServices downloadedServices batches].
  rewrite forallb_app. intros H. apply andb_true_iff in H as [H ->]. rewrite H. reflexivity.
Qed.

Lemma lists_typed_intro (a d : json) (l : bool) (bs : list batch) :
  has_type (list_type true) a = true -> has_type (list_type false) d = true ->
  forallb batch_typed bs = true -> lists_typed (mkServices a d l bs) = true.
Proof. intros Ha Hd Hb. unfold lists_typed. cbn [availableServices downloadedServices batches].
  rewrite Ha, Hd, Hb. reflexivity. Qed.

Lemma lists_typed_elim (s : services_state) :
  lists_typed s = true ->
  has_type (list_type true) (availableServices s) = true /\
  has_type (list_type false) (downloadedServices s) = true /\ forallb batch_typed (batches s) = true.
Proof. unfold lists_typed. intros H. apply andb_true_iff in H as [H Hb].
  apply andb_true_iff in H as [Ha Hd]. auto. Qed.

Lemma batch_add_typed (bt : batch) (av : bool) (d : json) :
  batch_typed bt = true -> has_type (list_type av) d = true ->
  batch_typed (if av then mkBatch (Some d) (got_downloaded bt) false
               else mkBatch (got_available bt) (Some d) false) = true.
Proof.
  unfold batch_typed. intros H Hd. apply andb_true_iff in H as [Ha Hdl].
  destruct av; cbn [got_available got_downloaded opt_typed]; rewrite ?Hd, ?Ha, ?Hdl; reflexivity.
Qed.

Lemma loadServices_then_typed (s : services_state) (b : nat) (av : bool) (res : http_result) :
  lists_typed s = true -> services_typed (KList b av) res = true ->
  lists_typed (fst (loadServices_then E s b av res)) = true.
Proof.
  intros Hs Ht. destruct (lists_typed_elim s Hs) as (Ha & Hd & Hb).
  unfold loadServices_then.
  destruct (nth_error (batches s) b) as [bt|] eqn:Hn; [|exact Hs].
  destruct (settled bt); [exact Hs|].
  pose proof (forallb_nth_error _ _ _ _ Hb Hn) as Hbt.
  destruct (fetch_json res) as [e|d] eqn:Hf.
  - apply lists_typed_intro; [exact Ha | exact Hd | apply forallb_splice; [exact Hb | exact Hbt]].
  - assert (Hdt : has_type (list_type av) d = true)
      by (destruct res as [|ok [d'|]]; cbn in Hf; inv Hf; exact Ht).
    pose proof (batch_add_typed bt av d Hbt Hdt) as Hbt'.
    set (bt' := if av then _ else _) in *.
    destruct (got_available bt') as [a|] eqn:Hga, (got_downloaded bt') as [dl|] eqn:Hgd;
      apply lists_typed_intro; try exact Ha; try exact Hd;
      try (apply forallb_splice; [exact Hb | try exact Hbt']).
    all: unfold batch_typed in Hbt' |- *; rewrite Hga, Hgd in Hbt';
      cbn [opt_typed got_available got_downloaded] in Hbt' |- *;
      apply andb_true_iff in Hbt' as [H1 H2]; rewrite ?H1, ?H2; reflexivity.
Qed.

Lemma handler_then_typed (s : services_state) (res : http_result)
    (f : services_state -> http_result -> services_state * outputs services_k) :
  (forall r, fst (f s r) = s \/ fst (f s r) = fst (loadServices s)) ->
  lists_typed s = true -> lists_typed (fst (f s res)) = true.
Proof.
  intros Hf Hs. destruct (Hf res) as [-> | ->]; [exact Hs | exact (loadServices_typed s Hs)].
Qed.

Lemma services_answer_typed (s s' : services_state) (k : services_k) (res : http_result)
    (o : outputs services_k) :
  lists_typed s = true -> services_typed k res = true -> services_answer E s k res = Ok (s', o) ->
  lists_typed s' = true.
Proof.
  intros Hs Ht Ha. destruct k as [b av|n|n]; cbn in Ha; injection Ha as Ha;
    assert (Hs' : s' = fst (s', o)) by reflexivity; rewrite Hs', <- Ha.
  - exact (loadServices_then_typed s b av res Hs Ht).
  - apply (handler_then_typed s res (fun s r => handleDownload_then E s n r)); [|exact Hs].
    intros r. unfold handleDownload_then. destruct r as [|[] ?]; cbn; auto;
      destruct (loadServices s); auto.
  - apply (handler_then_typed s res (fun s r => handleDelete_then E s n r)); [|exact Hs].
    intros r. unfold handleDelete_then. destruct r as [|[] ?]; cbn; auto;
      destruct (loadServices s); auto.
Qed.

Lemma services_user_same (s s' : services_state) (e : services_event) (o : outputs services_k) :
  services_user s e = Ok (s', o) -> s' = s.
Proof.
  destruct e as [i|i c]; cbn; [destruct (card s false i) | destruct (card s true i)];
    try unfold handleDownload; try unfold handleDelete; try destruct c; intros H; inv H; reflexivity.
Qed.

(** C12: when every body the list fetches parse has the type the code
    declares ([AvailableService[]], [DownloadedService[]]), whatever the
    status code, the services tab never crashes: in every typed run its
    render succeeds, and each card of both lists shows a string [name]. *)
Theorem services_render_safe (w : world services_state services_k) :
  reachable_typed (services_tab E) services_typed w ->
  exists v, render_services (wstate w) = Ok v /\
            forall a d, v = ServicesLists a d -> Forall string_value a /\ Forall string_value d.
Proof.
  intros Hw. apply render_services_typed.
  revert w Hw. apply (typed_state_invariant (services_tab E) services_typed (fun s => lists_typed s = true)).
  - reflexivity.
  - intros s u s' o Hs _ Hu. rewrite (services_user_same _ _ _ _ Hu). exact Hs.
  - intros s k res s' o. exact (services_answer_typed s s' k res o).
Qed.

End TypedServices.

(** Both lists answer with bodies of their declared types. *)
Definition typed_lists_events : list (event (U:=services_event)) :=
  [Answer 0 (Response true (Some (JArr [JObj [("name", JStr "jellyfin")]])));
   Answer 0 (Response true (Some (JArr [JObj [("name", JStr "caddy"); ("has_compose", JBool true);
                                              ("has_caddy", JBool false)]])))].

Definition services_loaded : world services_state services_k :=
  match run_typed (services_tab sample_engine) services_typed
          (initial_world (services_tab sample_engine)) typed_lists_events with
  | Some w => w
  | None => initial_world (services_tab sample_engine)
  end.

Lemma services_render_safe_witness :
  services_loading (wstate services_loaded) = false /\
  exists v, render_services (wstate services_loaded) = Ok v /\
            forall a d, v = ServicesLists a d -> Forall string_value a /\ Forall string_value d.
Proof.
  assert (Hr : run_typed (services_tab sample_engine) services_typed
                 (initial_world (services_tab sample_engine)) typed_lists_events
               = Some services_loaded) by (vm_compute; reflexivity).
  split; [vm_compute; reflexivity|].
  exact (services_render_safe sample_engine services_loaded
           (run_typed_reachable _ _ _ _ _ (typed_init _ _) Hr)).
Defined.
