(* ===== verification/ClientApp.v ===== *)
(** * The client frontend: its [App] component

    [App] ([client-ui/frontend/src/App.tsx]) holds the message banner,
    the active tab and the [rebuilding] flag, offers the Rebuild button
    ([handleRebuild]), and renders both tabs, [ServicesTab] and
    [ConfigTab], giving them its [showMessage]. The model is again a
    [Ui.component]: its state holds the states of the two children, its
    continuations wrap theirs, and the passing of time is an event that
    fires the timers of [showMessage]. The theorems here are about the
    App's own part: the Rebuild button and the banner. *)

From Stdlib Require Import String Ascii List ZArith Lia Bool.
From S2P Require Import Prelude JsString JsNumber JsObject Json Ui ConfigEditor Services.
Import ListNotations.
Open Scope string_scope.
Open Scope yolab_scope.

(** [useState<'services' | 'config'>('services')] *)
Inductive tab : Type :=
| TabServices
| TabConfig.

Record app_state : Type := mkApp {
  now : nat;                      (* the clock, in ms *)
  activeTab : tab;
  banner_of : banner;             (* message, and the timers of showMessage *)
  rebuilding : bool;
  config_part : config_state;     (* the ConfigTab child *)
  services_part : services_state  (* the ServicesTab child *)
}.

(** The handler suspended on a request: [handleRebuild] or one of a
    child's. *)
Inductive app_k : Type :=
| KRebuild
| KConfig (k : config_k)
| KServices (k : services_k).

(** The Rebuild button (with the user's answer to [confirm]), the two
    tab buttons, time passing, and the events of the children. *)
Inductive app_event : Type :=
| ClickRebuild (confirmed : bool)
| ClickTab (t : tab)
| Wait (ms : nat)
| ConfigUser (e : config_event)
| ServicesUser (e : services_event).

(** What the App renders: the banner, the Rebuild button's [disabled]
    flag and label, the class of each tab button, and the children. *)
Record app_view : Type := mkAppView {
  shown_message : option message;
  rebuild_disabled : bool;
  rebuild_label : string;
  services_tab_class : string;
  config_tab_class : string;
  services_view_of : services_view;
  config_view_of : config_view
}.

Section App.
Context (E : engine_texts).

(** [handleRebuild], up to its [await fetch]. *)
Definition handleRebuild (s : app_state) (confirmed : bool) : app_state * outputs app_k :=
  if negb confirmed then (s, no_outputs) else
  (mkApp (now s) (activeTab s) (banner_of s) true (config_part s) (services_part s),
   show "Rebuilding system..." MSuccess +++ send (mkRequest "POST" "/rebuild" None) KRebuild).

(** [v === 'success'] *)
Definition is_success (v : option json) : bool :=
  match v with Some (JStr t) => String.eqb t "success" | _ => false end.

(** [handleRebuild] after [fetch] and [response.json()] settle; the
    [finally] clears [rebuilding]. *)
Definition handleRebuild_then (s : app_state) (res : http_result)
    : js_result (app_state * outputs app_k) :=
  let s' := mkApp (now s) (activeTab s) (banner_of s) false (config_part s) (services_part s) in
  let fail e := Ok (s', show ("Failed to rebuild: " ++ error_message E e) MError) in
  match res with
  | NetworkError => fail FetchFailed
  | Response _ None => fail BadJson
  | Response _ (Some result) =>
      match get_prop result "status" with
      | Ok status =>
          if is_success status then Ok (s', show "System rebuilt successfully" MSuccess)
          else stderr <- get_prop result "stderr" ;;
               Ok (s', show ("Rebuild failed: " ++ template stderr) MError)
      | Throw e => fail (JsError e)
      | Unmodelled u => Unmodelled u
      end
  end.

(** The render of lines 47-98. When a child's render throws, React
    unmounts the whole tree. *)
Definition render_app (s : app_state) : js_result app_view :=
  sv <- render_services (services_part s) ;;
  Ok (mkAppView (current (banner_of s)) (rebuilding s)
        (if rebuilding s then "Rebuilding..." else "Rebuild System")
        (match activeTab s with TabServices => "tab active" | TabConfig => "tab " end)
        (match activeTab s with TabConfig => "tab active" | TabServices => "tab " end)
        sv (render_config (config_part s))).

Definition app_enabled (s : app_state) (e : app_event) : bool :=
  match e with
  | Wait _ => true
  | _ =>
      match render_app s with
      | Ok v =>
          match e with
          | ClickRebuild _ => negb (rebuild_disabled v)
          | ClickTab _ | Wait _ => true
          | ConfigUser ce => config_enabled (config_part s) ce
          | ServicesUser se => services_enabled (services_part s) se
          end
      | _ => false
      end
  end.

(** A step of a child inside the App: its [showMessage] calls go to the
    banner, its requests carry the App's continuation. *)
Definition with_config (s : app_state) (r : js_result (config_state * outputs config_k))
    : js_result (app_state * outputs app_k) :=
  match r with
  | Ok (c, o) =>
      Ok (mkApp (now s) (activeTab s) (banner_of s) (rebuilding s) c (services_part s),
          lift_outputs KConfig o)
  | Throw e => Throw e
  | Unmodelled u => Unmodelled u
  end.

Definition with_services (s : app_state) (r : js_result (services_state * outputs services_k))
    : js_result (app_state * outputs app_k) :=
  match r with
  | Ok (c, o) =>
      Ok (mkApp (now s) (activeTab s) (banner_of s) (rebuilding s) (config_part s) c,
          lift_outputs KServices o)
  | Throw e => Throw e
  | Unmodelled u => Unmodelled u
  end.

(** The banner takes the step's messages. *)
Definition to_banner (r : js_result (app_state * outputs app_k)) : js_result (app_state * outputs app_k) :=
  match r with
  | Ok (s, o) =>
      Ok (mkApp (now s) (activeTab s) (show_all (now s) (banner_of s) (shown o)) (rebuilding s)
                (config_part s) (services_part s), o)
  | other => other
  end.

Definition app_user (s : app_state) (e : app_event) : js_result (app_state * outputs app_k) :=
  to_banner
    match e with
    | ClickRebuild c => Ok (handleRebuild s c)
    | ClickTab t =>
        Ok (mkApp (now s) t (banner_of s) (rebuilding s) (config_part s) (services_part s),
            no_outputs)
    | Wait d =>
        Ok (mkApp (now s + d) (activeTab s) (fire_timers (now s + d) (banner_of s))
                  (rebuilding s) (config_part s) (services_part s), no_outputs)
    | ConfigUser ce => with_config s (config_user E (config_part s) ce)
    | ServicesUser se => with_services s (services_user (services_part s) se)
    end.

Definition app_answer (s : app_state) (k : app_k) (res : http_result)
    : js_result (app_state * outputs app_k) :=
  to_banner
    match k with
    | KRebuild => handleRebuild_then s res
    | KConfig ck => with_config s (config_answer E (config_part s) ck res)
    | KServices sk => with_services s (services_answer E (services_part s) sk res)
    end.

(** Mounting: the children mount, in the order of the render, and their
    effects start their loads. *)
Definition app_mount : app_state * outputs app_k :=
  let (sv, so) := mount (services_tab E) in
  let (cv, co) := mount (config_tab E) in
  let o := lift_outputs KServices so +++ lift_outputs KConfig co in
  (mkApp 0 TabServices (show_all 0 no_banner (shown o)) false cv sv, o).

Definition client_app : component app_state app_event app_k :=
  mkComponent app_mount app_enabled app_user app_answer.


(** ** The steps of the App *)

Lemma to_banner_ok (r : js_result (app_state * outputs app_k)) (s : app_state)
    (o : outputs app_k) :
  to_banner r = Ok (s, o) ->
  exists s0, r = Ok (s0, o) /\ now s = now s0 /\ config_part s = config_part s0 /\
             services_part s = services_part s0 /\ rebuilding s = rebuilding s0 /\
             banner_of s = show_all (now s0) (banner_of s0) (shown o).
Proof. destruct r as [[s0 o0]| |]; cbn; intros H; inv H; eauto 10. Qed.

Lemma handleRebuild_then_sent (s s' : app_state) (res : http_result) (o : outputs app_k) :
  handleRebuild_then s res = Ok (s', o) ->
  config_part s' = config_part s /\ services_part s' = services_part s /\
  rebuilding s' = false /\ sent o = [] /\ now s' = now s /\ banner_of s' = banner_of s.
Proof.
  unfold handleRebuild_then.
  destruct res as [|ok [result|]]; cbn; [intros H; inv H; repeat split | | intros H; inv H; repeat split].
  destruct (get_prop result "status") as [st| |]; cbn; [|intros H; inv H; repeat split|discriminate].
  destruct (is_success st); [intros H; inv H; repeat split|].
  destruct (get_prop result "stderr"); cbn; intros H; inv H; repeat split.
Qed.

End App.

Section Banner.
Context (E : engine_texts).

Lemma app_user_banner (s s' : app_state) (o : outputs app_k) (e : app_event) :
  app_user E s e = Ok (s', o) -> banner_ok (now s) (banner_of s) ->
  banner_ok (now s') (banner_of s').
Proof.
  intros Hu Hb. unfold app_user in Hu. apply to_banner_ok in Hu as (s0 & Hu & -> & _ & _ & _ & ->).
  apply show_all_ok. destruct e as [c|t|d|ce|se].
  - injection Hu as Hu. unfold handleRebuild in Hu. destruct c; cbn in Hu; inv Hu; exact Hb.
  - inv Hu. exact Hb.
  - inv Hu. apply (fire_timers_ok (now s)); [cbn; lia | exact Hb].
  - destruct (config_user E (config_part s) ce) as [[c oc]| |]; cbn in Hu; inv Hu; exact Hb.
  - destruct (services_user (services_part s) se) as [[c oc]| |]; cbn in Hu; inv Hu; exact Hb.
Qed.

Lemma app_answer_banner (s s' : app_state) (o : outputs app_k) (k : app_k) (res : http_result) :
  app_answer E s k res = Ok (s', o) -> banner_ok (now s) (banner_of s) ->
  banner_ok (now s') (banner_of s').
Proof.
  intros Ha Hb. unfold app_answer in Ha. apply to_banner_ok in Ha as (s0 & Ha & -> & _ & _ & _ & ->).
  apply show_all_ok. destruct k as [|ck|sk].
  - destruct (handleRebuild_then_sent E _ _ _ _ Ha) as (_ & _ & _ & _ & -> & ->). exact Hb.
  - destruct (config_answer E (config_part s) ck res) as [[c oc]| |]; cbn in Ha; inv Ha; exact Hb.
  - destruct (services_answer E (services_part s) sk res) as [[c oc]| |]; cbn in Ha; inv Ha;
      exact Hb.
Qed.

Lemma app_banner_ok (w : world app_state app_k) :
  reachable (client_app E) w -> banner_ok (now (wstate w)) (banner_of (wstate w)).
Proof.
  revert w. apply reachable_invariant.
  - split; [intros H; contradiction H; reflexivity | constructor].
  - intros w e w' Hb Hstep.
    destruct (step_cases _ _ _ _ Hstep) as
      [(u & s & o & -> & _ & Hu & ->) | (i & r & k & res & s & o & -> & _ & Ha & ->)];
      cbn [emit wstate].
    + exact (app_user_banner _ _ _ _ Hu Hb).
    + exact (app_answer_banner _ _ _ _ _ Ha Hb).
Qed.

(** C25: no message stays on screen longer than five seconds: in every
    run of the client App, when the banner shows a message, five
    seconds later the timer of [showMessage] has cleared it, whatever
    else happened before. *)
Theorem message_cleared_within_5s (w : world app_state app_k) :
  reachable (client_app E) w -> current (banner_of (wstate w)) <> None ->
  exists w', step (client_app E) w (User (Wait 5000)) = Some w' /\
             current (banner_of (wstate w')) = None.
Proof.
  intros Hw Hc. destruct (app_banner_ok w Hw) as [H1 H2].
  eexists. split; [reflexivity|]. cbn.
  apply fire_timers_all; [exact (H1 Hc)|].
  eapply Forall_impl; [|exact H2]. cbn. intros x Hx. lia.
Qed.

(** C27: a message can vanish long before its five seconds. The timers
    of [showMessage] are never cancelled, so in every run of the client
    App, when two timers [x < y] are pending, waiting until [x] clears
    the message on show while the timer [y] of a later [showMessage] is
    still pending: the message on show was shown at [y - 5000] or
    later, and is cleared less than five seconds after it appeared. *)
Theorem older_timer_clears (w : world app_state app_k) (x y : nat) :
  reachable (client_app E) w ->
  In x (timers (banner_of (wstate w))) -> In y (timers (banner_of (wstate w))) -> x < y ->
  exists w', step (client_app E) w (User (Wait (x - now (wstate w)))) = Some w' /\
    now (wstate w') = x /\ current (banner_of (wstate w')) = None /\
    In y (timers (banner_of (wstate w'))).
Proof.
  intros Hw Hx Hy Hlt. destruct (app_banner_ok w Hw) as [_ Hf].
  rewrite Forall_forall in Hf. pose proof (Hf x Hx) as Hxb.
  eexists. split; [reflexivity|]. cbn.
  replace (now (wstate w) + (x - now (wstate w))) with x by lia.
  split; [reflexivity|]. split.
  - exact (fire_timers_due x x _ Hx (le_n x)).
  - exact (fire_timers_pending x y _ Hy Hlt).
Qed.

End Banner.

(** The client App after Rebuild is confirmed. *)
Definition after_rebuild_click : world app_state app_k :=
  match run (client_app sample_engine) (initial_world (client_app sample_engine))
            [User (ClickRebuild true)] with
  | Some w => w
  | None => initial_world (client_app sample_engine)
  end.

Lemma message_cleared_within_5s_witness :
  current (banner_of (wstate after_rebuild_click)) <> None /\
  exists w', step (client_app sample_engine) after_rebuild_click (User (Wait 5000)) = Some w' /\
             current (banner_of (wstate w')) = None.
Proof.
  split; [vm_compute; discriminate|].
  apply message_cleared_within_5s; [|vm_compute; discriminate].
  apply (run_reachable _ (initial_world _) _ [User (ClickRebuild true)] (reach_init _)).
  reflexivity.
Defined.

(** Rebuild confirmed at 0 ms; the server answers success at 4000 ms,
    while the timer of "Rebuilding system..." is pending. *)
Definition rebuild_answered : world app_state app_k :=
  match run (client_app sample_engine) (initial_world (client_app sample_engine))
            [User (ClickRebuild true); User (Wait 4000);
             Answer 3 (Response true (Some (JObj [("status", JStr "success")])))] with
  | Some w => w
  | None => initial_world (client_app sample_engine)
  end.

Lemma older_timer_clears_witness :
  current (banner_of (wstate rebuild_answered)) =
    Some (mkMessage "System rebuilt successfully" MSuccess) /\
  exists w', step (client_app sample_engine) rebuild_answered (User (Wait 1000)) = Some w' /\
    now (wstate w') = 5000 /\ current (banner_of (wstate w')) = None /\
    In 9000 (timers (banner_of (wstate w'))).
Proof.
  assert (Hr : run (client_app sample_engine) (initial_world (client_app sample_engine))
                 [User (ClickRebuild true); User (Wait 4000);
                  Answer 3 (Response true (Some (JObj [("status", JStr "success")])))]
               = Some rebuild_answered) by (vm_compute; reflexivity).
  split; [vm_compute; reflexivity|].
  exact (older_timer_clears sample_engine rebuild_answered 5000 9000
           (run_reachable _ _ _ _ (reach_init _) Hr)
           ltac:(vm_compute; left; reflexivity) ltac:(vm_compute; right; left; reflexivity)
           ltac:(apply Nat.ltb_lt; vm_compute; reflexivity)).
Defined.

(** ** The Rebuild button *)

Definition is_rebuild (k : app_k) : bool := match k with KRebuild => true | _ => false end.

Definition rebuild_count (fl : list (request * app_k)) : nat := count_k is_rebuild fl.

Lemma rebuild_count_lift {K : Type} (f : K -> app_k) (o : outputs K) :
  (forall k, f k <> KRebuild) -> rebuild_count (sent (lift_outputs f o)) = 0.
Proof.
  intros Hf. destruct o as [sh se cb]. unfold rebuild_count, count_k. cbn.
  induction se as [|[r k] se IH]; cbn; [reflexivity|].
  destruct (f k) eqn:Hk; [exfalso; exact (Hf k Hk) | exact IH | exact IH].
Qed.

Lemma with_config_rebuilding (s s' : app_state) (r : js_result (config_state * outputs config_k))
    (o : outputs app_k) :
  with_config s r = Ok (s', o) -> rebuilding s' = rebuilding s /\ rebuild_count (sent o) = 0.
Proof.
  destruct r as [[c oc]| |]; cbn; intros H; inv H.
  split; [reflexivity | apply rebuild_count_lift; discriminate].
Qed.

Lemma with_services_rebuilding (s s' : app_state)
    (r : js_result (services_state * outputs services_k)) (o : outputs app_k) :
  with_services s r = Ok (s', o) -> rebuilding s' = rebuilding s /\ rebuild_count (sent o) = 0.
Proof.
  destruct r as [[c oc]| |]; cbn; intros H; inv H.
  split; [reflexivity | apply rebuild_count_lift; discriminate].
Qed.

Section Rebuild.
Context (E : engine_texts).

(** A user event sends a rebuild exactly when it raises [rebuilding]. *)
Lemma app_user_rebuild (s : app_state) (u : app_event) (s' : app_state) (o : outputs app_k) :
  app_enabled s u = true -> app_user E s u = Ok (s', o) ->
  b2n (rebuilding s) + rebuild_count (sent o) = b2n (rebuilding s').
Proof.
  intros Hen Hu. cbn in Hu. apply to_banner_ok in Hu as (s0 & Hu & _ & _ & _ & -> & _).
  destruct u as [c|t|d|ce|se].
  - unfold app_enabled in Hen. destruct (render_app s) as [v| |] eqn:Hr; try discriminate.
    unfold render_app in Hr. destruct (render_services (services_part s));
      cbn in Hr; inv Hr. cbn in Hen.
    injection Hu as Hu. unfold handleRebuild in Hu.
    destruct c; cbn in Hu; injection Hu as <- <-; cbn; destruct (rebuilding s); cbn in *; try discriminate; lia.
  - inv Hu. cbn. lia.
  - inv Hu. cbn. lia.
  - destruct (with_config_rebuilding _ _ _ _ Hu) as [-> ->]. lia.
  - destruct (with_services_rebuilding _ _ _ _ Hu) as [-> ->]. lia.
Qed.

(** An answer lowers [rebuilding] exactly when it settles the rebuild. *)
Lemma app_answer_rebuild (s : app_state) (k : app_k) (res : http_result) (s' : app_state)
    (o : outputs app_k) :
  app_answer E s k res = Ok (s', o) -> (is_rebuild k = true -> rebuilding s = true) ->
  b2n (rebuilding s) + rebuild_count (sent o) = b2n (rebuilding s') + b2n (is_rebuild k).
Proof.
  intros Ha Hk. cbn in Ha. apply to_banner_ok in Ha as (s0 & Ha & _ & _ & _ & -> & _).
  destruct k as [|ck|sk]; cbn in Hk |- *.
  - destruct (handleRebuild_then_sent E _ _ _ _ Ha) as (_ & _ & -> & Ho & _).
    unfold rebuild_count. rewrite Ho, (Hk eq_refl). reflexivity.
  - destruct (with_config_rebuilding _ _ _ _ Ha) as [-> ->]. lia.
  - destruct (with_services_rebuilding _ _ _ _ Ha) as [-> ->]. lia.
Qed.

(** C6: the system is never rebuilt twice at once from one page: in
    every run of the client App, exactly one [POST /rebuild] is in
    flight while [rebuilding] is set and none otherwise, since the
    button is disabled while [rebuilding] holds and the [finally] of
    [handleRebuild] clears it whatever the answer. *)
Theorem rebuild_in_flight (w : world app_state app_k) :
  reachable (client_app E) w ->
  rebuild_count (in_flight w) = b2n (rebuilding (wstate w)).
Proof.
  apply (flag_count_invariant (client_app E) is_rebuild rebuilding eq_refl).
  - exact app_user_rebuild.
  - exact app_answer_rebuild.
Qed.

End Rebuild.

Lemma rebuild_in_flight_witness :
  rebuild_count (in_flight after_rebuild_click) = 1.
Proof.
  exact (rebuild_in_flight sample_engine after_rebuild_click
           (run_reachable (client_app sample_engine) (initial_world _) after_rebuild_click
              [User (ClickRebuild true)] (reach_init _) eq_refl)).
Defined.
