(* ===== verification/InstallForm.v ===== *)
(** * The installation form: the [InstallForm] component

    [InstallForm] ([installer/frontend/src/components/InstallForm.tsx])
    lets the user pick a disk among the [disks] of the status, edit the
    hostname, timezone, root SSH key and git remote, and submit the
    form, which posts them to [/api/install]. The browser validates the
    form before [onSubmit] runs: the [required] fields and the
    [type="url"] of the git remote; the [pattern] of the hostname is not
    a valid pattern under the [v] flag browsers compile it with, so it
    checks nothing. [handleInstall] then checks the disk, the key and
    the remote itself. The disk list
    is a prop: each function takes the [disks] of the current render. *)

From Stdlib Require Import String Ascii List ZArith Lia Bool.
From S2P Require Import Prelude JsString JsNumber JsObject Json Ui TsTypes.
Import ListNotations.
Open Scope string_scope.
Open Scope yolab_scope.

(** The state: [selectedDisk] holds whatever [disk.name] was clicked
    ([None] is [undefined]). *)
Record form_state : Type := mkForm {
  selectedDisk : option json;
  hostname : string;
  timezone : string;
  rootSshKey : string;
  gitRemote : string;
  installing : bool;
  installComplete : bool
}.

Definition form_init : form_state := mkForm (Some (JStr "")) "homelab" "UTC" "" "" false false.

(** The handler suspended on [POST /api/install]. *)
Inductive form_k : Type :=
| KInstall.

(** Clicking the disk at position [i], typing in a field, submitting. *)
Inductive form_event : Type :=
| ClickDisk (i : nat)
| EditHostname (v : string)
| EditTimezone (v : string)
| EditSshKey (v : string)
| EditGitRemote (v : string)
| SubmitInstall.

(** A disk as the render reads it: [disk.name] and [disk.mounted]. *)
Record disk_view : Type := mkDiskView { disk_name : option json; disk_mounted : option json }.

Inductive form_view : Type :=
| FormComplete
| FormFields (disks : list disk_view) (install_disabled : bool) (label : string).

Section InstallForm.
Context (E : engine_texts) (valid_url : string -> bool).

(** The browser's constraint validation of lines 117-157: every field
    [required] and the remote a [url]. The hostname's
    [pattern="[a-z0-9-]+"] (line 121) constrains nothing: browsers
    compile a [pattern] with the [v] flag, under which the unescaped [-]
    in the class is a syntax error, and an invalid pattern is ignored. *)
Definition form_valid (s : form_state) : bool :=
  negb (String.eqb (hostname s) "") && negb (String.eqb (timezone s) "") &&
  negb (String.eqb (rootSshKey s) "") &&
  negb (String.eqb (gitRemote s) "") && valid_url (gitRemote s).

(** The body of the request, [JSON.stringify({ disk, hostname, ... })]. *)
Definition install_body (s : form_state) : list (string * json) :=
  (match selectedDisk s with Some d => [("disk", d)] | None => [] end ++
   [("hostname", JStr (hostname s)); ("timezone", JStr (timezone s));
    ("root_ssh_key", JStr (rootSshKey s)); ("git_remote", JStr (gitRemote s))])%list.

(** [handleInstall], up to its [await fetch]. *)
Definition handleInstall (s : form_state) : form_state * outputs form_k :=
  if negb (truthy (selectedDisk s)) then (s, show "Please select a disk" MWarning)
  else if String.eqb (rootSshKey s) "" then (s, show "Root SSH key is required" MWarning)
  else if String.eqb (gitRemote s) "" then (s, show "Git remote URL is required" MWarning)
  else (mkForm (selectedDisk s) (hostname s) (timezone s) (rootSshKey s) (gitRemote s)
               true (installComplete s),
        send (mkRequest "POST" "/api/install" (Some (json_stringify (JObj (install_body s)))))
             KInstall).

Definition with_installing (s : form_state) (b : bool) (c : bool) : form_state :=
  mkForm (selectedDisk s) (hostname s) (timezone s) (rootSshKey s) (gitRemote s) b c.

(** [handleInstall] after the request settles: the [catch] prints the
    error with [`${error}`]; the [finally] clears [installing]. On
    success [setInstallComplete(true)] runs before the message reads
    [data.hostname] and [data.disk]. *)
Definition handleInstall_then (s : form_state) (res : http_result)
    : js_result (form_state * outputs form_k) :=
  let fail c e :=
    Ok (with_installing s false c, show ("Installation failed: " ++ error_string E e) MError) in
  match res with
  | NetworkError => fail (installComplete s) FetchFailed
  | Response _ None => fail (installComplete s) BadJson
  | Response false (Some err) =>
      match get_prop err "detail" with
      | Ok detail =>
          fail (installComplete s)
               (NewError (if truthy detail then template detail else "Installation failed"))
      | Throw e => fail (installComplete s) (JsError e)
      | Unmodelled u => Unmodelled u
      end
  | Response true (Some data) =>
      match get_prop data "hostname" with
      | Ok h =>
          match get_prop data "disk" with
          | Ok d =>
              Ok (with_installing s false true,
                  show ("Installation complete! Hostname: " ++ template h ++ ", Disk: " ++
                        template d ++ ". You can now reboot the system.") MSuccess +++ call_back)
          | Throw e => fail true (JsError e)
          | Unmodelled u => Unmodelled u
          end
      | Throw e => fail true (JsError e)
      | Unmodelled u => Unmodelled u
      end
  end.

(** [disks.map(disk => ... disk.name ... disk.mounted ...)] *)
Fixpoint disk_views (xs : list json) : js_result (list disk_view) :=
  match xs with
  | [] => Ok []
  | x :: xs' =>
      n <- get_prop x "name" ;; m <- get_prop x "mounted" ;;
      vs <- disk_views xs' ;; Ok (mkDiskView n m :: vs)
  end.

(** The render of lines 75-180, with the [disks] prop ([None] when the
    status has no [disks]). *)
Definition render_form (disks : option json) (s : form_state) : js_result form_view :=
  if installComplete s then Ok FormComplete
  else match disks with
       | Some (JArr xs) =>
           ds <- disk_views xs ;;
           Ok (FormFields ds (installing s)
                 (if installing s then "Installing..." else "Install NixOS"))
       | _ => Throw TypeError
       end.

(** [onClick={() => !disk.mounted && setSelectedDisk(disk.name)}] *)
Definition click_disk (s : form_state) (d : disk_view) : form_state :=
  if truthy (disk_mounted d) then s
  else mkForm (disk_name d) (hostname s) (timezone s) (rootSshKey s) (gitRemote s)
              (installing s) (installComplete s).

Definition form_enabled (disks : option json) (s : form_state) (e : form_event) : bool :=
  match render_form disks s with
  | Ok (FormFields ds disabled _) =>
      match e with
      | ClickDisk i => match nth_error ds i with Some _ => true | None => false end
      | SubmitInstall => negb disabled && form_valid s
      | _ => true
      end
  | _ => false
  end.

Definition form_user (disks : option json) (s : form_state) (e : form_event)
    : js_result (form_state * outputs form_k) :=
  match e with
  | ClickDisk i =>
      match render_form disks s with
      | Ok (FormFields ds _ _) =>
          match nth_error ds i with
          | Some d => Ok (click_disk s d, no_outputs)
          | None => Ok (s, no_outputs)
          end
      | _ => Ok (s, no_outputs)
      end
  | EditHostname v =>
      Ok (mkForm (selectedDisk s) v (timezone s) (rootSshKey s) (gitRemote s)
                 (installing s) (installComplete s), no_outputs)
  | EditTimezone v =>
      Ok (mkForm (selectedDisk s) (hostname s) v (rootSshKey s) (gitRemote s)
                 (installing s) (installComplete s), no_outputs)
  | EditSshKey v =>
      Ok (mkForm (selectedDisk s) (hostname s) (timezone s) v (gitRemote s)
                 (installing s) (installComplete s), no_outputs)
  | EditGitRemote v =>
      Ok (mkForm (selectedDisk s) (hostname s) (timezone s) (rootSshKey s) v
                 (installing s) (installComplete s), no_outputs)
  | SubmitInstall => Ok (handleInstall s)
  end.

Definition form_answer (s : form_state) (k : form_k) (res : http_result)
    : js_result (form_state * outputs form_k) :=
  match k with KInstall => handleInstall_then s res end.

(** The form alone, with a fixed disk list. *)
Definition install_form (disks : option json) : component form_state form_event form_k :=
  mkComponent (form_init, no_outputs) (form_enabled disks) (form_user disks) form_answer.

End InstallForm.

(** ** What the browser's validation lets through *)

(** A form the browser lets submit has a hostname, a timezone and a
    remote the browser takes for a URL; nothing more is known of the
    hostname. *)
Lemma form_valid_required (valid_url : string -> bool) (s : form_state) :
  form_valid valid_url s = true ->
  hostname s <> "" /\ timezone s <> "" /\ valid_url (gitRemote s) = true.
Proof.
  unfold form_valid. rewrite !andb_true_iff, !negb_true_iff, !String.eqb_neq. tauto.
Qed.

(** ** The selected disk *)

(** [name] is the [name] of a disk of the list that is not mounted, as
    the render reads them. *)
Definition listed_unmounted (disks : option json) (name : option json) : Prop :=
  exists xs x m, disks = Some (JArr xs) /\ In x xs /\ get_prop x "name" = Ok name /\
                 get_prop x "mounted" = Ok m /\ truthy m = false.

Lemma disk_views_in (xs : list json) (ds : list disk_view) (d : disk_view) :
  disk_views xs = Ok ds -> In d ds ->
  exists x, In x xs /\ get_prop x "name" = Ok (disk_name d) /\
            get_prop x "mounted" = Ok (disk_mounted d).
Proof.
  revert ds. induction xs as [|x xs IH]; cbn; intros ds H Hin; [inv H; contradiction|].
  destruct (get_prop x "name") as [n| |] eqn:Hn; cbn in H; try discriminate.
  destruct (get_prop x "mounted") as [m| |] eqn:Hm; cbn in H; try discriminate.
  destruct (disk_views xs) as [vs| |] eqn:Hv; cbn in H; try discriminate.
  inv H. destruct Hin as [<-|Hin]; [exists x; auto|].
  destruct (IH vs eq_refl Hin) as (y & Hy & Hy1 & Hy2). exists y. auto.
Qed.

Lemma render_form_fields (disks : option json) (s : form_state) (ds : list disk_view)
    (b : bool) (l : string) :
  render_form disks s = Ok (FormFields ds b l) ->
  exists xs, disks = Some (JArr xs) /\ disk_views xs = Ok ds.
Proof.
  unfold render_form. destruct (installComplete s); [discriminate|].
  destruct disks as [j|]; [|discriminate]. destruct j as [| | | |xs|]; try discriminate.
  destruct (disk_views xs) as [vs| |] eqn:Hv; cbn; intros H; inv H. eauto.
Qed.

Lemma handleInstall_selected (s : form_state) :
  selectedDisk (fst (handleInstall s)) = selectedDisk s.
Proof.
  unfold handleInstall.
  destruct (negb (truthy (selectedDisk s))), (String.eqb (rootSshKey s) ""),
    (String.eqb (gitRemote s) ""); reflexivity.
Qed.

Lemma handleInstall_then_selected (E : engine_texts) (s s' : form_state) (res : http_result)
    (o : outputs form_k) :
  handleInstall_then E s res = Ok (s', o) -> selectedDisk s' = selectedDisk s.
Proof.
  unfold handleInstall_then.
  destruct res as [|[] [d|]]; cbn;
    repeat match goal with
           | |- context [match get_prop ?d ?p with _ => _ end] => destruct (get_prop d p)
           end; intros H; inv H; reflexivity.
Qed.

Section Disks.
Context (E : engine_texts) (valid_url : string -> bool) (disks : option json).

(** C9: the installer never selects a mounted disk: in every run of the
    form, the selected disk is the initial empty string or the [name]
    of a disk of the list whose [mounted] is falsy, since a click on a
    mounted disk does nothing. *)
Theorem selected_disk_unmounted (w : world form_state form_k) :
  reachable (install_form E valid_url disks) w ->
  selectedDisk (wstate w) = Some (JStr "") \/ listed_unmounted disks (selectedDisk (wstate w)).
Proof.
  revert w. apply reachable_invariant; [now left|].
  intros w e w' IH Hstep.
  destruct (step_cases _ _ _ _ Hstep) as
    [(u & s & o & -> & _ & Hu & ->) | (i & r & k & res & s & o & -> & _ & Ha & ->)];
    cbn [emit wstate].
  - destruct u as [i|v|v|v|v|]; cbn in Hu; try (inv Hu; exact IH).
    + destruct (render_form disks (wstate w)) as [[|ds b l]| |] eqn:Hr; try (inv Hu; exact IH).
      destruct (nth_error ds i) as [d|] eqn:Hd; inv Hu; [|exact IH].
      unfold click_disk. destruct (truthy (disk_mounted d)) eqn:Hm; [exact IH|].
      right. cbn. destruct (render_form_fields _ _ _ _ _ Hr) as (xs & -> & Hv).
      destruct (disk_views_in xs ds d Hv (nth_error_In _ _ Hd)) as (x & Hx & Hn & Hmt).
      exists xs, x, (disk_mounted d). auto.
    + injection Hu as Hu.
      replace (selectedDisk s) with (selectedDisk (wstate w)); [exact IH|].
      rewrite <- (handleInstall_selected (wstate w)), Hu. reflexivity.
  - destruct k. cbn in Ha. rewrite (handleInstall_then_selected E _ _ _ _ Ha). exact IH.
Qed.

End Disks.

(** Two disks, the first mounted. *)
Definition sample_disks : option json :=
  Some (JArr [JObj [("name", JStr "sdb"); ("size", JStr "64G"); ("mounted", JBool true)];
              JObj [("name", JStr "sda"); ("size", JStr "500G"); ("mounted", JBool false)]]).

Definition disk_clicks : list (event (U:=form_event)) := [User (ClickDisk 0); User (ClickDisk 1)].

Definition after_disk_clicks : world form_state form_k :=
  match run (install_form sample_engine (fun _ => true) sample_disks)
            (initial_world (install_form sample_engine (fun _ => true) sample_disks))
            disk_clicks with
  | Some w => w
  | None => initial_world (install_form sample_engine (fun _ => true) sample_disks)
  end.

Lemma selected_disk_unmounted_witness :
  selectedDisk (wstate after_disk_clicks) = Some (JStr "sda") /\
  (selectedDisk (wstate after_disk_clicks) = Some (JStr "") \/
   listed_unmounted sample_disks (selectedDisk (wstate after_disk_clicks))).
Proof.
  assert (Hr : run (install_form sample_engine (fun _ => true) sample_disks)
                 (initial_world (install_form sample_engine (fun _ => true) sample_disks))
                 disk_clicks = Some after_disk_clicks) by (vm_compute; reflexivity).
  split; [vm_compute; reflexivity|].
  exact (selected_disk_unmounted sample_engine (fun _ => true) sample_disks after_disk_clicks
           (run_reachable _ _ _ disk_clicks (reach_init _) Hr)).
Defined.

(** ** Typed disks *)

(** [interface Disk { name: string; size: string; mounted: boolean }] *)
Definition Disk : ts_type :=
  TInterface [("name", false, TString); ("size", false, TString); ("mounted", false, TBoolean)].

(** A disk as the card shows it: a string name and a boolean [mounted]. *)
Definition disk_view_typed (d : disk_view) : Prop :=
  string_value (disk_name d) /\ (exists b, disk_mounted d = Some (JBool b)).

Lemma has_type_boolean (v : json) : has_type TBoolean v = true -> exists b, v = JBool b.
Proof. destruct v; cbn; try discriminate. eauto. Qed.

Lemma disk_views_typed (xs : list json) :
  forallb (has_type Disk) xs = true ->
  exists ds, disk_views xs = Ok ds /\ Forall disk_view_typed ds.
Proof.
  induction xs as [|x xs IH]; cbn [disk_views forallb]; [eauto|].
  intros H. apply andb_true_iff in H as [Hx Hxs].
  destruct (get_prop_string _ x "name" Hx (or_introl eq_refl)) as (n & -> & Hn).
  destruct (get_prop_field _ x "mounted" TBoolean Hx (or_intror (or_intror (or_introl eq_refl))))
    as (m & -> & Hm).
  destruct (has_type_boolean _ Hm) as [b ->].
  destruct (IH Hxs) as (ds & -> & Hds). cbn. eexists. split; [reflexivity|].
  constructor; [split; [exact Hn | exists b; reflexivity] | exact Hds].
Qed.

(** With a [disks] prop of type [Disk[]] the form renders, whatever its
    state, and each disk shows a string name and a boolean [mounted]. *)
Lemma render_form_typed (v : json) (s : form_state) :
  has_type (TArray Disk) v = true ->
  exists fv, render_form (Some v) s = Ok fv /\
             forall ds b l, fv = FormFields ds b l -> Forall disk_view_typed ds.
Proof.
  intros H. destruct (has_type_array _ _ H) as (xs & -> & Hxs). unfold render_form.
  destruct (installComplete s); [eexists; split; [reflexivity | discriminate]|].
  destruct (disk_views_typed xs Hxs) as (ds & -> & Hds). cbn.
  eexists. split; [reflexivity|]. intros ds' b l Heq. inv Heq. exact Hds.
Qed.
