(* ===== verification/WifiSetup.v ===== *)
(** * The WiFi setup: the [WifiSetup] component

    [WifiSetup] ([installer/frontend/src/components/WifiSetup.tsx])
    scans the networks at mount ([scanNetworks] on [/api/wifi/scan]),
    lets the user pick one and type its password, and posts them to
    [/api/wifi/connect] ([handleConnect]). On success it calls the
    [onConnected] callback of the App. The network list is whatever the
    server sent as [data.networks]. *)

From Stdlib Require Import String Ascii List ZArith Lia Bool.
From S2P Require Import Prelude JsString JsNumber JsObject Json Ui TsTypes.
Import ListNotations.
Open Scope string_scope.
Open Scope yolab_scope.

(** [networks] is the value of [data.networks] ([None] is [undefined]);
    [selectedNetwork] the [network.ssid] clicked. *)
Record wifi_state : Type := mkWifi {
  networks : option json;
  selectedNetwork : option json;
  password : string;
  connecting : bool;
  scanning : bool
}.

Definition wifi_init : wifi_state := mkWifi (Some (JArr [])) (Some (JStr "")) "" false false.

(** The handler suspended on a request: [scanNetworks] or [handleConnect]. *)
Inductive wifi_k : Type :=
| KScan
| KConnect.

Inductive wifi_event : Type :=
| ClickNetwork (i : nat)
| EditPassword (v : string)
| SubmitConnect
| ClickRescan.

(** The render: the [ssid] of each network, whether the password field
    shows, and the [disabled] flags of the two buttons. *)
Record wifi_view : Type := mkWifiView {
  ssids : list (option json);
  password_shown : bool;
  connect_disabled : bool;
  rescan_disabled : bool
}.

Section WifiSetup.
Context (E : engine_texts).

Definition set_scanning (s : wifi_state) (b : bool) : wifi_state :=
  mkWifi (networks s) (selectedNetwork s) (password s) (connecting s) b.

Definition set_connecting (s : wifi_state) (b : bool) : wifi_state :=
  mkWifi (networks s) (selectedNetwork s) (password s) b (scanning s).

(** [scanNetworks], up to its [await fetch]. *)
Definition scanNetworks (s : wifi_state) : wifi_state * outputs wifi_k :=
  (set_scanning s true, send (mkRequest "GET" "/api/wifi/scan" None) KScan).

(** [scanNetworks] after the request settles. *)
Definition scanNetworks_then (s : wifi_state) (res : http_result)
    : js_result (wifi_state * outputs wifi_k) :=
  let fail e := Ok (set_scanning s false,
                    show ("Failed to scan networks: " ++ error_string E e) MError) in
  match res with
  | NetworkError => fail FetchFailed
  | Response false _ => fail (NewError "Failed to scan networks")
  | Response true None => fail BadJson
  | Response true (Some data) =>
      match get_prop data "networks" with
      | Ok ns => Ok (mkWifi ns (selectedNetwork s) (password s) (connecting s) false, no_outputs)
      | Throw e => fail (JsError e)
      | Unmodelled u => Unmodelled u
      end
  end.

(** [handleConnect], up to its [await fetch]. *)
Definition handleConnect (s : wifi_state) : wifi_state * outputs wifi_k :=
  if negb (truthy (selectedNetwork s)) then (s, show "Please select a network" MWarning)
  else (set_connecting s true,
        send (mkRequest "POST" "/api/wifi/connect"
                (Some (json_stringify
                         (JObj ((match selectedNetwork s with
                                 | Some n => [("ssid", n)] | None => [] end) ++
                                [("password", JStr (password s))])%list))))
             KConnect).

(** [handleConnect] after the request settles. *)
Definition handleConnect_then (s : wifi_state) (res : http_result)
    : js_result (wifi_state * outputs wifi_k) :=
  let fail e := Ok (set_connecting s false,
                    show ("Connection failed: " ++ error_string E e) MError) in
  match res with
  | NetworkError => fail FetchFailed
  | Response true _ => Ok (set_connecting s false, call_back)
  | Response false None => fail BadJson
  | Response false (Some err) =>
      match get_prop err "detail" with
      | Ok detail => fail (NewError (if truthy detail then template detail else "Failed to connect"))
      | Throw e => fail (JsError e)
      | Unmodelled u => Unmodelled u
      end
  end.

(** [networks.map(network => ... network.ssid ...)] *)
Fixpoint network_ssids (xs : list json) : js_result (list (option json)) :=
  match xs with
  | [] => Ok []
  | x :: xs' => n <- get_prop x "ssid" ;; ns <- network_ssids xs' ;; Ok (n :: ns)
  end.

(** The render of lines 70-128. *)
Definition render_wifi (s : wifi_state) : js_result wifi_view :=
  match networks s with
  | Some (JArr xs) =>
      ns <- network_ssids xs ;;
      Ok (mkWifiView ns (truthy (selectedNetwork s))
            (connecting s || negb (truthy (selectedNetwork s))) (scanning s))
  | _ => Throw TypeError
  end.

Definition wifi_enabled (s : wifi_state) (e : wifi_event) : bool :=
  match render_wifi s with
  | Ok v =>
      match e with
      | ClickNetwork i => match nth_error (ssids v) i with Some _ => true | None => false end
      | EditPassword _ => password_shown v
      | SubmitConnect => negb (connect_disabled v)
      | ClickRescan => negb (rescan_disabled v)
      end
  | _ => false
  end.

Definition wifi_user (s : wifi_state) (e : wifi_event) : js_result (wifi_state * outputs wifi_k) :=
  match e with
  | ClickNetwork i =>
      match render_wifi s with
      | Ok v =>
          match nth_error (ssids v) i with
          | Some n => Ok (mkWifi (networks s) n (password s) (connecting s) (scanning s), no_outputs)
          | None => Ok (s, no_outputs)
          end
      | _ => Ok (s, no_outputs)
      end
  | EditPassword v =>
      Ok (mkWifi (networks s) (selectedNetwork s) v (connecting s) (scanning s), no_outputs)
  | SubmitConnect => Ok (handleConnect s)
  | ClickRescan => Ok (scanNetworks s)
  end.

Definition wifi_answer (s : wifi_state) (k : wifi_k) (res : http_result)
    : js_result (wifi_state * outputs wifi_k) :=
  match k with
  | KScan => scanNetworks_then s res
  | KConnect => handleConnect_then s res
  end.

(** Mounting: the initial state, then [useEffect(() => scanNetworks(), [])]. *)
Definition wifi_setup : component wifi_state wifi_event wifi_k :=
  mkComponent (scanNetworks wifi_init) wifi_enabled wifi_user wifi_answer.

End WifiSetup.

(** ** The requests in flight *)

Definition is_scan (k : wifi_k) : bool := match k with KScan => true | KConnect => false end.
Definition is_connect (k : wifi_k) : bool := match k with KConnect => true | KScan => false end.

Section Flags.
Context (E : engine_texts).

(** A continuation lowers its own flag, leaves the other one, and sends
    nothing. *)
Lemma wifi_answer_shape (s s' : wifi_state) (k : wifi_k) (res : http_result) (o : outputs wifi_k) :
  wifi_answer E s k res = Ok (s', o) ->
  sent o = [] /\
  scanning s' = (if is_scan k then false else scanning s) /\
  connecting s' = (if is_connect k then false else connecting s).
Proof.
  destruct k; cbn; [unfold scanNetworks_then | unfold handleConnect_then];
    destruct res as [|[] [d|]]; cbn;
    repeat match goal with
           | |- context [match get_prop ?d ?p with _ => _ end] => destruct (get_prop d p)
           end; intros H; inv H; auto.
Qed.

Lemma render_wifi_ok (s : wifi_state) (v : wifi_view) :
  render_wifi s = Ok v ->
  connect_disabled v = connecting s || negb (truthy (selectedNetwork s)) /\
  rescan_disabled v = scanning s.
Proof.
  unfold render_wifi. destruct (networks s) as [[| | | |xs|]|]; try discriminate.
  destruct (network_ssids xs); cbn; intros H; inv H; auto.
Qed.

Lemma wifi_user_shape (s s' : wifi_state) (e : wifi_event) (o : outputs wifi_k) :
  wifi_enabled s e = true -> wifi_user s e = Ok (s', o) ->
  b2n (scanning s) + count_k is_scan (sent o) = b2n (scanning s') /\
  b2n (connecting s) + count_k is_connect (sent o) = b2n (connecting s').
Proof.
  unfold wifi_enabled, wifi_user. intros Hen Hu.
  destruct (render_wifi s) as [v| |] eqn:Hr; try discriminate.
  destruct (render_wifi_ok _ _ Hr) as [Hc Hs].
  destruct e as [i|p| |].
  - destruct (nth_error (ssids v) i); inv Hu; cbn; lia.
  - inv Hu. cbn. lia.
  - rewrite Hc in Hen. unfold handleConnect in Hu.
    destruct (connecting s), (truthy (selectedNetwork s)); cbn in Hen, Hu; try discriminate.
    inv Hu. cbn. split; lia.
  - rewrite Hs in Hen. unfold scanNetworks in Hu. destruct (scanning s) eqn:Hsc; cbn in Hen;
      try discriminate.
    inv Hu. cbn. split; cbn; lia.
Qed.

(** C8: in every run of the WiFi setup, exactly one scan is in flight
    while [scanning] is set and none otherwise, and exactly one connect
    while [connecting] is set: the disabled buttons keep two scans or
    two connects from overlapping, and every [finally] clears its flag. *)
Theorem wifi_requests_in_flight (w : world wifi_state wifi_k) :
  reachable (wifi_setup E) w ->
  count_k is_scan (in_flight w) = b2n (scanning (wstate w)) /\
  count_k is_connect (in_flight w) = b2n (connecting (wstate w)).
Proof.
  intros Hw. split; revert w Hw; apply flag_count_invariant; try reflexivity.
  - intros s u s' o Hen Hu. exact (proj1 (wifi_user_shape _ _ _ _ Hen Hu)).
  - intros s k res s' o Ha Hk. destruct (wifi_answer_shape _ _ _ _ _ Ha) as (-> & -> & _).
    destruct k; cbn in *; [rewrite (Hk eq_refl) |]; reflexivity.
  - intros s u s' o Hen Hu. exact (proj2 (wifi_user_shape _ _ _ _ Hen Hu)).
  - intros s k res s' o Ha Hk. destruct (wifi_answer_shape _ _ _ _ _ Ha) as (-> & _ & ->).
    destruct k; cbn in *; [| rewrite (Hk eq_refl)]; reflexivity.
Qed.

End Flags.

(** A scan that lists one network, a click on it and a submit: the
    connect request is the one request in flight. *)
Definition home_scan : http_result :=
  Response true (Some (JObj [("networks", JArr [JObj [("ssid", JStr "home")]])])).

Definition connect_events : list (event (U:=wifi_event)) :=
  [Answer 0 home_scan; User (ClickNetwork 0); User SubmitConnect].

Definition after_connect : world wifi_state wifi_k :=
  match run (wifi_setup sample_engine) (initial_world (wifi_setup sample_engine)) connect_events with
  | Some w => w
  | None => initial_world (wifi_setup sample_engine)
  end.

Lemma wifi_requests_in_flight_witness :
  connecting (wstate after_connect) = true /\ count_k is_connect (in_flight after_connect) = 1.
Proof.
  assert (Hr : run (wifi_setup sample_engine) (initial_world (wifi_setup sample_engine))
                 connect_events = Some after_connect) by (vm_compute; reflexivity).
  pose proof (wifi_requests_in_flight sample_engine after_connect
                (run_reachable _ _ _ _ (reach_init _) Hr)) as [_ H].
  assert (Hc : connecting (wstate after_connect) = true) by (vm_compute; reflexivity).
  rewrite Hc in H. exact (conj Hc H).
Defined.

(** ** Typed answers

    The code keeps what [/api/wifi/scan] sends as [data.networks] in
    [useState<Network[]>]. When the scan answers conform to that type,
    the render never throws and shows a string [ssid] per network. *)

(** [interface Network { ssid: string; signal: string; security: string }] *)
Definition Network : ts_type :=
  TInterface [("ssid", false, TString); ("signal", false, TString); ("security", false, TString)].

(** The body of a successful scan, as [setNetworks(data.networks)] reads it. *)
Definition ScanResponse : ts_type := TInterface [("networks", false, TArray Network)].

(** The answers the code's types promise: a successful scan carries a
    [ScanResponse]; the other answers are read defensively. *)
Definition wifi_typed (k : wifi_k) (res : http_result) : bool :=
  match k, res with
  | KScan, Response true (Some data) => has_type ScanResponse data
  | _, _ => true
  end.

Definition networks_typed (s : wifi_state) : bool :=
  match networks s with Some v => has_type (TArray Network) v | None => false end.

Section TypedWifi.
Context (E : engine_texts).

Lemma network_ssids_typed (xs : list json) :
  forallb (has_type Network) xs = true ->
  exists ns, network_ssids xs = Ok ns /\ Forall string_value ns.
Proof.
  induction xs as [|x xs IH]; cbn [network_ssids forallb]; [eauto|].
  intros H. apply andb_true_iff in H as [Hx Hxs].
  destruct (get_prop_string _ x "ssid" Hx (or_introl eq_refl)) as (n & -> & Hn).
  destruct (IH Hxs) as (ns & -> & Hns). cbn. eauto.
Qed.

Lemma render_wifi_typed (s : wifi_state) :
  networks_typed s = true ->
  exists v, render_wifi s = Ok v /\ Forall string_value (ssids v).
Proof.
  unfold networks_typed, render_wifi. destruct (networks s) as [v|]; [|discriminate].
  intros H. destruct (has_type_array _ _ H) as (xs & -> & Hxs).
  destruct (network_ssids_typed xs Hxs) as (ns & -> & Hns). cbn. eauto.
Qed.

Lemma wifi_user_typed (s s' : wifi_state) (e : wifi_event) (o : outputs wifi_k) :
  networks_typed s = true -> wifi_user s e = Ok (s', o) -> networks_typed s' = true.
Proof.
  intros Hs. destruct e as [i|p| |]; cbn.
  - destruct (render_wifi s); try destruct (nth_error _ i); intros H; inv H; exact Hs.
  - intros H. inv H. exact Hs.
  - unfold handleConnect. destruct (negb _); intros H; inv H; exact Hs.
  - intros H. inv H. exact Hs.
Qed.

Lemma wifi_answer_typed (s s' : wifi_state) (k : wifi_k) (res : http_result) (o : outputs wifi_k) :
  networks_typed s = true -> wifi_typed k res = true -> wifi_answer E s k res = Ok (s', o) ->
  networks_typed s' = true.
Proof.
  intros Hs Ht. destruct k; cbn; [unfold scanNetworks_then | unfold handleConnect_then].
  - destruct res as [|[] [data|]]; cbn; try (intros H; inv H; exact Hs).
    change (has_type ScanResponse data = true) in Ht.
    destruct (get_prop_field _ data "networks" _ Ht (or_introl eq_refl)) as (x & -> & Hx).
    intros H. inv H. exact Hx.
  - destruct res as [|[] [d|]]; cbn;
      repeat match goal with
             | |- context [match get_prop ?d ?p with _ => _ end] => destruct (get_prop d p)
             end; intros H; inv H; exact Hs.
Qed.

(** C13: when every successful scan answers with the type the code
    declares, the WiFi setup never crashes: in every typed run its
    render succeeds and each network it lists shows a string [ssid]. *)
Theorem wifi_render_safe (w : world wifi_state wifi_k) :
  reachable_typed (wifi_setup E) wifi_typed w ->
  exists v, render_wifi (wstate w) = Ok v /\ Forall string_value (ssids v).
Proof.
  intros Hw. apply render_wifi_typed.
  revert w Hw. apply (typed_state_invariant (wifi_setup E) wifi_typed (fun s => networks_typed s = true)).
  - reflexivity.
  - intros s u s' o Hs _ Hu. exact (wifi_user_typed _ _ _ _ Hs Hu).
  - intros s k res s' o Hs Ht Ha. exact (wifi_answer_typed _ _ _ _ _ Hs Ht Ha).
Qed.

End TypedWifi.

(** A scan that lists one network with the three fields of [Network]. *)
Definition typed_scan : http_result :=
  Response true (Some (JObj [("networks", JArr [JObj [("ssid", JStr "home"); ("signal", JStr "80");
                                                       ("security", JStr "WPA2")]])])).

Definition after_typed_scan : world wifi_state wifi_k :=
  match run_typed (wifi_setup sample_engine) wifi_typed (initial_world (wifi_setup sample_engine))
          [Answer 0 typed_scan; User (ClickNetwork 0)] with
  | Some w => w
  | None => initial_world (wifi_setup sample_engine)
  end.

Lemma wifi_render_safe_witness :
  exists v, render_wifi (wstate after_typed_scan) = Ok v /\
            Forall string_value (ssids v).
Proof.
  assert (Hr : run_typed (wifi_setup sample_engine) wifi_typed (initial_world (wifi_setup sample_engine))
                 [Answer 0 typed_scan; User (ClickNetwork 0)] = Some after_typed_scan)
    by (vm_compute; reflexivity).
  exact (wifi_render_safe sample_engine after_typed_scan
           (run_typed_reachable _ _ _ _ _ (typed_init _ _) Hr)).
Defined.
