(* ===== verification/Installer.v ===== *)
(** * The installer frontend: its [App] component

    [App] ([installer/frontend/src/App.tsx]) fetches [/api/status] at
    mount and renders, once loaded, [WifiSetup] when the status says
    there is no internet and [InstallForm] (with the status's [disks])
    when there is. The child shown can change when the status is
    fetched again ([onConnected], [onSuccess]): React then unmounts the
    old child and mounts a fresh one, whose effects run. A request of
    an unmounted child still settles: its [setState] calls are lost but
    it still calls [showMessage] and the callbacks of the App. So the
    model keeps every instance of each child in a store indexed by its
    mount order, continuations carry the instance, and [child] is the
    instance the render shows. *)

From Stdlib Require Import String Ascii List ZArith Lia Bool.
From S2P Require Import Prelude JsString JsNumber JsObject Json Ui InstallForm WifiSetup.
Import ListNotations.
Open Scope string_scope.
Open Scope yolab_scope.

(** The child instance the render shows. *)
Inductive child_ref : Type :=
| NoChild
| CWifi (id : nat)
| CForm (id : nat).

Record installer_state : Type := mkInstaller {
  inow : nat;                 (* the clock, in ms *)
  status : json;              (* useState<Status | null>(null) *)
  ibanner : banner;           (* message, and the timers of showMessage *)
  iloading : bool;            (* useState(true) *)
  wifis : list wifi_state;    (* the WifiSetup instances, by mount order *)
  forms : list form_state;    (* the InstallForm instances, by mount order *)
  child : child_ref
}.

(** The handler suspended on a request: [fetchStatus], or a handler of
    the child instance [id]. *)
Inductive installer_k : Type :=
| KStatus
| KWifi (id : nat) (k : wifi_k)
| KForm (id : nat) (k : form_k).

(** Time passing, and the events of the child on show. *)
Inductive installer_event : Type :=
| IWait (ms : nat)
| WifiUser (e : wifi_event)
| FormUser (e : form_event).

(** What lines 50-83 render below the banner. *)
Inductive screen : Type :=
| SLoading
| SNone
| SWifi
| SForm.

Section Installer.
Context (E : engine_texts) (valid_url : string -> bool).

Definition with_status (s : installer_state) (st : json) (l : bool) : installer_state :=
  mkInstaller (inow s) st (ibanner s) l (wifis s) (forms s) (child s).

(** [fetchStatus], up to its [await fetch]. *)
Definition fetchStatus : outputs installer_k :=
  send (mkRequest "GET" "/api/status" None) KStatus.

(** [fetchStatus] after the request settles; the [finally] clears
    [loading]. *)
Definition fetchStatus_then (s : installer_state) (res : http_result)
    : installer_state * outputs installer_k :=
  let fail e := (with_status s (status s) false,
                 show ("Failed to fetch status: " ++ error_string E e) MError) in
  match res with
  | NetworkError => fail FetchFailed
  | Response false _ => fail (NewError "Failed to fetch status")
  | Response true None => fail BadJson
  | Response true (Some data) => (with_status s data false, no_outputs)
  end.

(** [loading ? ... : status && !status.internet ? <WifiSetup/> :
    status && <InstallForm/>] *)
Definition installer_screen (s : installer_state) : js_result screen :=
  if iloading s then Ok SLoading
  else if truthy (Some (status s)) then
    internet <- get_prop (status s) "internet" ;;
    Ok (if truthy internet then SForm else SWifi)
  else Ok SNone.

(** [disks={status.disks}]: the form shows only when [status] is
    truthy, where reading [disks] does not throw. *)
Definition disks_of (s : installer_state) : option json :=
  match get_prop (status s) "disks" with Ok v => v | _ => None end.

(** React's reconciliation after a render: the child on show is kept
    when its kind is unchanged, else unmounted and a fresh instance
    mounted, with the effects of its mount. *)
Definition reconcile (s : installer_state) : js_result (installer_state * outputs installer_k) :=
  scr <- installer_screen s ;;
  match scr, child s with
  | SWifi, CWifi _ | SForm, CForm _ => Ok (s, no_outputs)
  | SWifi, _ =>
      let id := length (wifis s) in
      let (w0, o) := mount (wifi_setup E) in
      Ok (mkInstaller (inow s) (status s) (ibanner s) (iloading s) (wifis s ++ [w0]) (forms s)
                      (CWifi id), lift_outputs (KWifi id) o)
  | SForm, _ =>
      let id := length (forms s) in
      Ok (mkInstaller (inow s) (status s) (ibanner s) (iloading s) (wifis s)
                      (forms s ++ [form_init]) (CForm id), no_outputs)
  | _, _ =>
      Ok (mkInstaller (inow s) (status s) (ibanner s) (iloading s) (wifis s) (forms s) NoChild,
          no_outputs)
  end.

Definition set_nth {A} (l : list A) (i : nat) (x : A) : list A :=
  firstn i l ++ [x] ++ skipn (S i) l.

(** A step of the WifiSetup instance [id]: its callback is
    [onConnected], which runs [fetchStatus()] and then shows its
    message. *)
Definition wifi_step (s : installer_state) (id : nat)
    (r : js_result (wifi_state * outputs wifi_k)) : js_result (installer_state * outputs installer_k) :=
  match r with
  | Ok (w, o) =>
      Ok (mkInstaller (inow s) (status s) (ibanner s) (iloading s) (set_nth (wifis s) id w)
                      (forms s) (child s),
          lift_outputs (KWifi id) o +++
          (if callback o then fetchStatus +++ show "WiFi connected successfully!" MSuccess
           else no_outputs))
  | Throw e => Throw e
  | Unmodelled u => Unmodelled u
  end.

(** A step of the InstallForm instance [id]: its callback is
    [onSuccess], that is [fetchStatus]. *)
Definition form_step (s : installer_state) (id : nat)
    (r : js_result (form_state * outputs form_k)) : js_result (installer_state * outputs installer_k) :=
  match r with
  | Ok (f, o) =>
      Ok (mkInstaller (inow s) (status s) (ibanner s) (iloading s) (wifis s)
                      (set_nth (forms s) id f) (child s),
          lift_outputs (KForm id) o +++ (if callback o then fetchStatus else no_outputs))
  | Throw e => Throw e
  | Unmodelled u => Unmodelled u
  end.

(** The banner takes the step's messages, then React renders and
    reconciles the child. *)
Definition settle (r : js_result (installer_state * outputs installer_k))
    : js_result (installer_state * outputs installer_k) :=
  '(s, o) <- r ;;
  let s1 := mkInstaller (inow s) (status s) (show_all (inow s) (ibanner s) (shown o))
                        (iloading s) (wifis s) (forms s) (child s) in
  '(s2, o2) <- reconcile s1 ;;
  Ok (s2, o +++ o2).

Definition installer_enabled (s : installer_state) (e : installer_event) : bool :=
  match e with
  | IWait _ => true
  | WifiUser we =>
      match child s with
      | CWifi id =>
          match nth_error (wifis s) id with
          | Some w => wifi_enabled w we
          | None => false
          end
      | _ => false
      end
  | FormUser fe =>
      match child s with
      | CForm id =>
          match nth_error (forms s) id with
          | Some f => form_enabled valid_url (disks_of s) f fe
          | None => false
          end
      | _ => false
      end
  end.

Definition installer_user (s : installer_state) (e : installer_event)
    : js_result (installer_state * outputs installer_k) :=
  settle
    match e with
    | IWait d =>
        Ok (mkInstaller (inow s + d) (status s) (fire_timers (inow s + d) (ibanner s))
                        (iloading s) (wifis s) (forms s) (child s), no_outputs)
    | WifiUser we =>
        match child s with
        | CWifi id =>
            match nth_error (wifis s) id with
            | Some w => wifi_step s id (wifi_user w we)
            | None => Ok (s, no_outputs)
            end
        | _ => Ok (s, no_outputs)
        end
    | FormUser fe =>
        match child s with
        | CForm id =>
            match nth_error (forms s) id with
            | Some f => form_step s id (form_user (disks_of s) f fe)
            | None => Ok (s, no_outputs)
            end
        | _ => Ok (s, no_outputs)
        end
    end.

Definition installer_answer (s : installer_state) (k : installer_k) (res : http_result)
    : js_result (installer_state * outputs installer_k) :=
  settle
    match k with
    | KStatus => Ok (fetchStatus_then s res)
    | KWifi id wk =>
        match nth_error (wifis s) id with
        | Some w => wifi_step s id (wifi_answer E w wk res)
        | None => Ok (s, no_outputs)
        end
    | KForm id fk =>
        match nth_error (forms s) id with
        | Some f => form_step s id (form_answer E f fk res)
        | None => Ok (s, no_outputs)
        end
    end.

(** Mounting: the initial state, then [useEffect(() => fetchStatus(), [])]. *)
Definition installer_mount : installer_state * outputs installer_k :=
  (mkInstaller 0 JNull no_banner true [] [] NoChild, fetchStatus).

Definition installer : component installer_state installer_event installer_k :=
  mkComponent installer_mount installer_enabled installer_user installer_answer.

End Installer.

(** ** The install requests *)

Section InstallRequests.
Context (E : engine_texts) (valid_url : string -> bool).

(** What the form's validation promises of a form it lets submit
    ([InstallForm.form_valid_required] discharges it). *)
Hypothesis form_valid_spec : forall f, form_valid valid_url f = true ->
  hostname f <> "" /\ timezone f <> "" /\ valid_url (gitRemote f) = true.

(** An install request as the form and the browser let it go: a
    selected disk, a root SSH key, a hostname, a timezone and a git
    remote that is a URL, in the body [handleInstall] writes. *)
Definition install_request_ok (r : request) : Prop :=
  method r = "POST" /\ url r = "/api/install" /\
  exists f, payload r = Some (json_stringify (JObj (install_body f))) /\
            truthy (selectedDisk f) = true /\ rootSshKey f <> "" /\ gitRemote f <> "" /\
            hostname f <> "" /\ timezone f <> "" /\ valid_url (gitRemote f) = true.

Definition outputs_ok (o : outputs installer_k) : Prop :=
  forall r id, In (r, KForm id KInstall) (sent o) -> install_request_ok r.

Lemma outputs_ok_app (a b : outputs installer_k) :
  outputs_ok a -> outputs_ok b -> outputs_ok (a +++ b).
Proof. intros Ha Hb r id. cbn. rewrite in_app_iff. intros [H|H]; eauto. Qed.

Lemma outputs_ok_quiet (o : outputs installer_k) :
  (forall r k, ~ In (r, k) (sent o)) -> outputs_ok o.
Proof. intros H r id Hin. exfalso. exact (H _ _ Hin). Qed.

Lemma outputs_ok_wifi (id : nat) (o : outputs wifi_k) : outputs_ok (lift_outputs (KWifi id) o).
Proof. intros r id' Hin. apply in_sent_lift in Hin as (k & Hk & _). discriminate. Qed.

Lemma outputs_ok_status : outputs_ok fetchStatus.
Proof. intros r id [H|[]]. discriminate. Qed.

Lemma outputs_ok_none : outputs_ok no_outputs.
Proof. intros r id []. Qed.

Lemma outputs_ok_show (t : string) (ty : msg_type) : outputs_ok (show t ty).
Proof. intros r id []. Qed.

#[local] Hint Resolve outputs_ok_app outputs_ok_wifi outputs_ok_status outputs_ok_none
  outputs_ok_show : yolab.

Lemma reconcile_ok (s s' : installer_state) (o : outputs installer_k) :
  reconcile E s = Ok (s', o) -> outputs_ok o.
Proof.
  unfold reconcile. destruct (installer_screen s) as [scr| |]; cbn; try discriminate.
  destruct scr, (child s); cbn; intros H; inv H; auto with yolab.
Qed.

Lemma settle_ok (r : js_result (installer_state * outputs installer_k))
    (s' : installer_state) (o : outputs installer_k) :
  (forall s0 o0, r = Ok (s0, o0) -> outputs_ok o0) ->
  settle E r = Ok (s', o) -> outputs_ok o.
Proof.
  intros Hr. unfold settle. destruct r as [[s0 o0]| |]; cbn; try discriminate.
  destruct (reconcile E _) as [[s2 o2]| |] eqn:Hc; cbn; try discriminate.
  intros H. inv H. apply outputs_ok_app; [exact (Hr _ _ eq_refl) | exact (reconcile_ok _ _ _ Hc)].
Qed.

Lemma wifi_step_ok (s : installer_state) (id : nat) (r : js_result (wifi_state * outputs wifi_k))
    (s' : installer_state) (o : outputs installer_k) :
  wifi_step s id r = Ok (s', o) -> outputs_ok o.
Proof.
  destruct r as [[w ow]| |]; cbn; intros H; inv H.
  destruct (callback ow); auto with yolab.
Qed.

Lemma form_step_ok (s : installer_state) (id : nat) (r : js_result (form_state * outputs form_k))
    (s' : installer_state) (o : outputs installer_k) :
  (forall f fo, r = Ok (f, fo) -> forall rq k, In (rq, k) (sent fo) -> install_request_ok rq) ->
  form_step s id r = Ok (s', o) -> outputs_ok o.
Proof.
  intros Hr. destruct r as [[f fo]| |]; cbn; intros H; inv H.
  apply outputs_ok_app; [|destruct (callback fo); auto with yolab].
  intros rq id' Hin. apply in_sent_lift in Hin as (k & _ & Hin). exact (Hr _ _ eq_refl _ _ Hin).
Qed.

(** The requests of a form step: only a submission sends one. *)
Lemma form_user_requests (disks : option json) (f f' : form_state) (e : form_event)
    (o : outputs form_k) :
  form_enabled valid_url disks f e = true -> form_user disks f e = Ok (f', o) ->
  forall rq k, In (rq, k) (sent o) -> install_request_ok rq.
Proof.
  intros Hen Hu rq k Hin. destruct e as [i|v|v|v|v|].
  1: { cbn in Hu. destruct (render_form disks f) as [[|ds ? ?]| |];
       try destruct (nth_error ds i); inv Hu; cbn in Hin; contradiction. }
  1-4: inv Hu; cbn in Hin; contradiction.
  cbn in Hu. injection Hu as Hu.
  assert (Ho : o = snd (handleInstall f)) by (rewrite Hu; reflexivity). subst o.
  unfold form_enabled in Hen.
  destruct (render_form disks f) as [[|ds dis lab]| |]; try discriminate.
  apply andb_true_iff in Hen as [_ Hv]. destruct (form_valid_spec f Hv) as (Hh & Ht & Hurl).
  unfold handleInstall in Hin.
  destruct (truthy (selectedDisk f)) eqn:Hd; cbn in Hin; [|contradiction].
  destruct (String.eqb_spec (rootSshKey f) ""); cbn in Hin; [contradiction|].
  destruct (String.eqb_spec (gitRemote f) ""); cbn in Hin; [contradiction|].
  destruct Hin as [Hin|[]]. inv Hin.
  split; [reflexivity|]. split; [reflexivity|]. exists f. repeat split; assumption.
Qed.

Lemma form_answer_requests (f f' : form_state) (k : form_k) (res : http_result)
    (o : outputs form_k) :
  form_answer E f k res = Ok (f', o) -> sent o = [].
Proof.
  destruct k. cbn. unfold handleInstall_then.
  destruct res as [|[] [d|]]; cbn;
    repeat match goal with
           | |- context [match get_prop ?d ?p with _ => _ end] => destruct (get_prop d p)
           end; intros H; inv H; reflexivity.
Qed.

Lemma installer_user_ok (s s' : installer_state) (e : installer_event) (o : outputs installer_k) :
  installer_enabled valid_url s e = true -> installer_user E s e = Ok (s', o) ->
  outputs_ok o.
Proof.
  intros Hen. unfold installer_user. apply settle_ok. intros s0 o0 Hr.
  destruct e as [d|we|fe]; cbn in Hen, Hr.
  - inv Hr. apply outputs_ok_none.
  - destruct (child s); try (inv Hr; apply outputs_ok_none).
    destruct (nth_error (wifis s) id); [exact (wifi_step_ok _ _ _ _ _ Hr) | inv Hr].
    apply outputs_ok_none.
  - destruct (child s); try (inv Hr; apply outputs_ok_none).
    destruct (nth_error (forms s) id) as [f|]; [|inv Hr; apply outputs_ok_none].
    refine (form_step_ok s id _ s0 o0 _ Hr).
    intros f' fo Hu. exact (form_user_requests _ _ _ _ _ Hen Hu).
Qed.

Lemma installer_answer_ok (s s' : installer_state) (k : installer_k) (res : http_result)
    (o : outputs installer_k) :
  installer_answer E s k res = Ok (s', o) -> outputs_ok o.
Proof.
  unfold installer_answer. apply settle_ok. intros s0 o0 Hr. destruct k as [|id wk|id fk].
  - injection Hr as Hr.
    assert (o0 = snd (fetchStatus_then E s res)) as -> by (rewrite Hr; reflexivity).
    unfold fetchStatus_then.
    destruct res as [|[] [?|]]; cbn; first [apply outputs_ok_none | apply outputs_ok_show].
  - destruct (nth_error (wifis s) id); [exact (wifi_step_ok _ _ _ _ _ Hr) | inv Hr].
    apply outputs_ok_none.
  - destruct (nth_error (forms s) id) as [f|]; [|inv Hr; apply outputs_ok_none].
    refine (form_step_ok s id _ s0 o0 _ Hr).
    intros f' fo Ha rq k' Hin. rewrite (form_answer_requests _ _ _ _ _ Ha) in Hin. contradiction.
Qed.

(** Every install request in flight in a run is one the form lets go. *)
Lemma in_flight_install_ok (w : world installer_state installer_k) :
  reachable (installer E valid_url) w ->
  forall r id, In (r, KForm id KInstall) (in_flight w) -> install_request_ok r.
Proof.
  revert w.
  apply (reachable_invariant (installer E valid_url)
           (fun w => forall r id, In (r, KForm id KInstall) (in_flight w) ->
                                  install_request_ok r)).
  - intros r id [H|[]]. discriminate.
  - intros w e w' Hinv Hstep.
    destruct (step_cases _ _ _ _ Hstep) as
      [(u & s & o & -> & Hen & Hu & ->) | (i & r0 & k & res & s & o & -> & _ & Ha & ->)];
      cbn [emit in_flight]; intros r id Hin; apply in_app_or in Hin as [Hin|Hin].
    + exact (Hinv r id Hin).
    + exact (installer_user_ok _ _ _ _ Hen Hu r id Hin).
    + exact (Hinv r id (in_remove_nth _ _ _ Hin)).
    + exact (installer_answer_ok _ _ _ _ _ Ha r id Hin).
Qed.

End InstallRequests.

(** C5: the installer never asks to install without what the form
    requires: in every run of the installer, every [POST /api/install]
    in flight carries, in the body [handleInstall] writes, a selected
    disk, a non-empty root SSH key, a non-empty hostname and timezone,
    and a non-empty git remote that the browser accepts as a URL. The
    browser's validation and the guards of [handleInstall] together
    ensure it, whatever child instances the status changes mount; the
    hostname's [pattern] plays no part (see [form_valid]). *)
Theorem install_requests_valid (E : engine_texts) (valid_url : string -> bool)
    (w : world installer_state installer_k) :
  reachable (installer E valid_url) w ->
  forall r id, In (r, KForm id KInstall) (in_flight w) -> install_request_ok valid_url r.
Proof. exact (in_flight_install_ok E valid_url (form_valid_required valid_url) w). Qed.


(** ** A failed status request *)

Section Stuck.
Context (E : engine_texts) (valid_url : string -> bool).

(** Nothing in flight, no child, and a status that shows nothing. *)
Definition stuck (w : world installer_state installer_k) : Prop :=
  in_flight w = [] /\ child (wstate w) = NoChild /\ iloading (wstate w) = false /\
  truthy (Some (status (wstate w))) = false.

Lemma reconcile_stuck (s : installer_state) :
  iloading s = false -> truthy (Some (status s)) = false ->
  reconcile E s = Ok (mkInstaller (inow s) (status s) (ibanner s) (iloading s) (wifis s) (forms s)
                                  NoChild, no_outputs).
Proof. intros Hl Ht. unfold reconcile, installer_screen. rewrite Hl, Ht. reflexivity. Qed.

Lemma stuck_step (w w' : world installer_state installer_k) (e : event (U:=installer_event)) :
  stuck w -> step (installer E valid_url) w e = Some w' -> stuck w'.
Proof.
  intros (Hf & Hc & Hl & Ht) Hs. destruct e as [[d|we|fe]|i res]; cbn in Hs.
  - unfold installer_user, settle in Hs. cbn [bind] in Hs.
    rewrite reconcile_stuck in Hs by assumption. cbn in Hs. inv Hs.
    unfold stuck. cbn. rewrite Hf. auto.
  - rewrite Hc in Hs. discriminate.
  - rewrite Hc in Hs. discriminate.
  - rewrite Hf in Hs. destruct i; discriminate.
Qed.

Lemma stuck_run (w w' : world installer_state installer_k) (es : list (event (U:=installer_event))) :
  stuck w -> run (installer E valid_url) w es = Some w' -> stuck w'.
Proof.
  revert w. induction es as [|e es IH]; cbn; intros w Hw Hr; [now inv Hr|].
  destruct (step (installer E valid_url) w e) as [w1|] eqn:Hs; [|discriminate].
  exact (IH w1 (stuck_step w w1 e Hw Hs) Hr).
Qed.

(** C28: when the first status request fails (the request fails, the
    answer is not [ok] or not JSON, or the status is [null]), the
    installer is stuck for good: nothing is in flight, no child is
    mounted, and whatever the user does afterwards only time passes;
    no button is left to retry, only reloading the page helps. *)
Theorem failed_status_stuck (res : http_result) :
  res = NetworkError \/ (exists b, res = Response false b) \/
  res = Response true None \/ res = Response true (Some JNull) ->
  exists w, run (installer E valid_url) (initial_world (installer E valid_url)) [Answer 0 res]
              = Some w /\
    forall es w', run (installer E valid_url) w es = Some w' ->
                  in_flight w' = [] /\ child (wstate w') = NoChild.
Proof.
  intros Hres.
  assert (Hw : exists w, run (installer E valid_url) (initial_world (installer E valid_url))
                           [Answer 0 res] = Some w /\ stuck w).
  { destruct Hres as [-> | [[b ->] | [-> | ->]]];
      (eexists; split; [reflexivity | unfold stuck; repeat split]). }
  destruct Hw as (w & Hr & Hs). exists w. split; [exact Hr|].
  intros es w' Hr'. destruct (stuck_run w w' es Hs Hr') as (Hf & Hc & _). auto.
Qed.

End Stuck.

(** ** A status refresh keeps the form *)

(** C29: the selection of the form outlives the status it was made in.
    In any world where an InstallForm instance is on show and a status
    request is in flight, an answer whose body reports internet
    replaces the status, and with it the disk list the form renders,
    but keeps the same form instance, its selected disk included:
    nothing checks the selection against the new list, which may report
    that disk as mounted or not list it. *)
Theorem status_keeps_selection (E : engine_texts) (valid_url : string -> bool)
    (w : world installer_state installer_k) (i id : nat) (r : request) (f : form_state)
    (data : json) (internet : option json) :
  nth_error (in_flight w) i = Some (r, KStatus) ->
  child (wstate w) = CForm id -> nth_error (forms (wstate w)) id = Some f ->
  truthy (Some data) = true -> get_prop data "internet" = Ok internet -> truthy internet = true ->
  exists w', step (installer E valid_url) w (Answer i (Response true (Some data))) = Some w' /\
    status (wstate w') = data /\ child (wstate w') = CForm id /\
    nth_error (forms (wstate w')) id = Some f.
Proof.
  intros Hi Hc Hf Hd Hg Ht. cbn. rewrite Hi. cbn.
  unfold reconcile, installer_screen. cbn [iloading status]. rewrite Hd, Hg. cbn. rewrite Ht. cbn. rewrite Hc.
  eexists. split; [reflexivity|]. cbn. auto.
Qed.

(** ** The message banner

    The installer's [showMessage] (App.tsx lines 28-31) is the one of
    the client App: each message starts a 5-second timer and no timer
    is ever cancelled. Its children call it too, also after React has
    unmounted them, through [settle]. Every message still goes within
    five seconds. *)

Section Banner.
Context (E : engine_texts) (valid_url : string -> bool).

(** React's reconciliation leaves the clock and the banner alone. *)
Lemma reconcile_banner (s s' : installer_state) (o : outputs installer_k) :
  reconcile E s = Ok (s', o) -> inow s' = inow s /\ ibanner s' = ibanner s.
Proof.
  unfold reconcile. destruct (installer_screen s) as [scr| |]; cbn; try discriminate.
  destruct scr, (child s); cbn; intros H; injection H as <- <-; auto.
Qed.

(** [settle] shows the step's messages at the step's time. *)
Lemma settle_banner (r : js_result (installer_state * outputs installer_k))
    (s' : installer_state) (o : outputs installer_k) :
  (forall s0 o0, r = Ok (s0, o0) -> banner_ok (inow s0) (ibanner s0)) ->
  settle E r = Ok (s', o) -> banner_ok (inow s') (ibanner s').
Proof.
  intros Hr. unfold settle. destruct r as [[s0 o0]| |]; cbn; try discriminate.
  destruct (reconcile E _) as [[s2 o2]| |] eqn:Hrc; cbn; try discriminate.
  intros H. inv H. destruct (reconcile_banner _ _ _ Hrc) as [-> ->]. cbn.
  apply show_all_ok. exact (Hr _ _ eq_refl).
Qed.

(** Reading a property throws on [null] only. *)
Lemma get_prop_total (v : json) (k : string) : v <> JNull -> exists x, get_prop v k = Ok x.
Proof.
  intros Hv. destruct v; cbn; [contradiction Hv; reflexivity| eauto | eauto | | | eauto].
  - destruct (String.eqb k "length"); [eauto|]. destruct (array_index k); eauto.
  - destruct (String.eqb k "length"); [eauto|]. destruct (array_index k); eauto.
Qed.

(** The render never throws before the status is typed, so React's
    reconciliation always succeeds. *)
Lemma reconcile_total (s : installer_state) : exists s' o, reconcile E s = Ok (s', o).
Proof.
  assert (Hs : exists scr, installer_screen s = Ok scr).
  { unfold installer_screen. destruct (iloading s); [eauto|].
    destruct (truthy (Some (status s))) eqn:Ht; [|eauto].
    assert (Hn : status s <> JNull) by (intros Hn; rewrite Hn in Ht; discriminate).
    destruct (get_prop_total _ "internet" Hn) as [x ->]. cbn. eauto. }
  destruct Hs as [scr Hs]. unfold reconcile. rewrite Hs. cbn.
  destruct scr, (child s); cbn; eauto.
Qed.

(** The handlers of the App and of its children keep the clock and the
    banner; only [IWait] moves the clock, and it fires the timers due. *)
Lemma installer_step_banner (s s' : installer_state) (o : outputs installer_k)
    (r : js_result (installer_state * outputs installer_k)) :
  banner_ok (inow s) (ibanner s) ->
  (forall s0 o0, r = Ok (s0, o0) -> (inow s0 = inow s /\ ibanner s0 = ibanner s) \/
                                   (exists d, inow s0 = inow s + d /\
                                              ibanner s0 = fire_timers (inow s + d) (ibanner s))) ->
  settle E r = Ok (s', o) -> banner_ok (inow s') (ibanner s').
Proof.
  intros Hb Hr. apply settle_banner. intros s0 o0 H0.
  destruct (Hr _ _ H0) as [[-> ->] | (d & -> & ->)]; [exact Hb|].
  apply (fire_timers_ok (inow s)); [lia | exact Hb].
Qed.

Lemma wifi_step_clock (s s0 : installer_state) (id : nat) (r : js_result (wifi_state * outputs wifi_k))
    (o0 : outputs installer_k) :
  wifi_step s id r = Ok (s0, o0) -> inow s0 = inow s /\ ibanner s0 = ibanner s.
Proof. destruct r as [[w ow]| |]; cbn; intros H; inv H; auto. Qed.

Lemma form_step_clock (s s0 : installer_state) (id : nat) (r : js_result (form_state * outputs form_k))
    (o0 : outputs installer_k) :
  form_step s id r = Ok (s0, o0) -> inow s0 = inow s /\ ibanner s0 = ibanner s.
Proof. destruct r as [[f fo]| |]; cbn; intros H; inv H; auto. Qed.

Lemma installer_banner_ok (w : world installer_state installer_k) :
  reachable (installer E valid_url) w -> banner_ok (inow (wstate w)) (ibanner (wstate w)).
Proof.
  revert w. apply reachable_invariant.
  - split; [intros H; contradiction H; reflexivity | constructor].
  - intros w e w' Hb Hstep.
    destruct (step_cases _ _ _ _ Hstep) as
      [(u & s & o & -> & _ & Hu & ->) | (i & r & k & res & s & o & -> & _ & Ha & ->)];
      cbn [emit wstate]; [refine (installer_step_banner _ _ _ _ Hb _ Hu)
                         |refine (installer_step_banner _ _ _ _ Hb _ Ha)];
      intros s0 o0 Hr.
    + destruct u as [d|we|fe]; cbn in Hr.
      * inv Hr. right. exists d. split; reflexivity.
      * destruct (child (wstate w)) as [|id|id]; try (inv Hr; left; split; reflexivity).
        destruct (nth_error (wifis (wstate w)) id); [left; exact (wifi_step_clock _ _ _ _ _ Hr)|].
        inv Hr. left. split; reflexivity.
      * destruct (child (wstate w)) as [|id|id]; try (inv Hr; left; split; reflexivity).
        destruct (nth_error (forms (wstate w)) id); [left; exact (form_step_clock _ _ _ _ _ Hr)|].
        inv Hr. left. split; reflexivity.
    + left. destruct k as [|id wk|id fk]; cbn in Hr.
      * injection Hr as Hr.
        assert (Hs : s0 = fst (fetchStatus_then E (wstate w) res)) by (rewrite Hr; reflexivity).
        subst s0. unfold fetchStatus_then. destruct res as [|[] [?|]]; cbn; auto.
      * destruct (nth_error (wifis (wstate w)) id); [exact (wifi_step_clock _ _ _ _ _ Hr)|].
        inv Hr. split; reflexivity.
      * destruct (nth_error (forms (wstate w)) id); [exact (form_step_clock _ _ _ _ _ Hr)|].
        inv Hr. split; reflexivity.
Qed.

(** C26: no message of the installer stays longer than five seconds: in
    every run, when the banner shows a message (of the App or of a
    child, mounted or not), waiting five seconds clears it. *)
Theorem installer_message_cleared (w : world installer_state installer_k) :
  reachable (installer E valid_url) w -> current (ibanner (wstate w)) <> None ->
  exists w', step (installer E valid_url) w (User (IWait 5000)) = Some w' /\
             current (ibanner (wstate w')) = None.
Proof.
  intros Hw Hc. destruct (installer_banner_ok w Hw) as [H1 H2].
  unfold step. cbn [enabled installer installer_enabled]. unfold installer_user, settle. cbn.
  match goal with |- context [reconcile E ?x] => destruct (reconcile_total x) as (s2 & o2 & Hrc) end.
  rewrite Hrc. cbn. eexists. split; [reflexivity|]. cbn.
  destruct (reconcile_banner _ _ _ Hrc) as [_ ->]. cbn.
  apply fire_timers_all; [exact (H1 Hc)|].
  eapply Forall_impl; [|exact H2]. cbn. intros x Hx. lia.
Qed.

End Banner.

(** ** A run of the installer *)

(** A URL check of the browser for the examples: [https] URLs. *)
Definition sample_url_ok (u : string) : bool := String.prefix "https://" u.

Definition sample_status : json :=
  JObj [("internet", JBool true);
        ("disks", JArr [JObj [("name", JStr "sdb"); ("size", JStr "64G"); ("mounted", JBool true)];
                        JObj [("name", JStr "sda"); ("size", JStr "500G");
                              ("mounted", JBool false)]])].

(** The status loads; the user clicks the mounted disk (nothing
    happens), then the other, fills in the key and the remote and
    submits. *)
Definition install_events : list (event (U:=installer_event)) :=
  [Answer 0 (Response true (Some sample_status));
   User (FormUser (ClickDisk 0)); User (FormUser (ClickDisk 1));
   User (FormUser (EditSshKey "ssh-ed25519 AAAA"));
   User (FormUser (EditGitRemote "https://example.org/homelab.git"));
   User (FormUser SubmitInstall)].

Definition install_run : world installer_state installer_k :=
  match run (installer sample_engine sample_url_ok)
            (initial_world (installer sample_engine sample_url_ok)) install_events with
  | Some w => w
  | None => initial_world (installer sample_engine sample_url_ok)
  end.

Definition install_request : request :=
  mkRequest "POST" "/api/install"
    (Some (json_stringify
             (JObj [("disk", JStr "sda"); ("hostname", JStr "homelab"); ("timezone", JStr "UTC");
                    ("root_ssh_key", JStr "ssh-ed25519 AAAA");
                    ("git_remote", JStr "https://example.org/homelab.git")]))).

Lemma install_requests_valid_witness :
  In (install_request, KForm 0 KInstall) (in_flight install_run) /\
  install_request_ok sample_url_ok install_request.
Proof.
  assert (Hin : In (install_request, KForm 0 KInstall) (in_flight install_run))
    by (vm_compute; left; reflexivity).
  assert (Hr : run (installer sample_engine sample_url_ok)
                 (initial_world (installer sample_engine sample_url_ok)) install_events
               = Some install_run) by (vm_compute; reflexivity).
  split; [exact Hin|].
  exact (install_requests_valid sample_engine sample_url_ok install_run
           (run_reachable _ _ install_run install_events (reach_init _) Hr) _ 0 Hin).
Defined.

Lemma failed_status_stuck_witness :
  exists w, run (installer sample_engine sample_url_ok)
              (initial_world (installer sample_engine sample_url_ok)) [Answer 0 NetworkError]
              = Some w /\
    forall es w', run (installer sample_engine sample_url_ok) w es = Some w' ->
                  in_flight w' = [] /\ child (wstate w') = NoChild.
Proof. apply (failed_status_stuck sample_engine sample_url_ok NetworkError). left. reflexivity. Defined.

(** ** A selection that outlives its status *)

Definition net_status (disks : list json) : json :=
  JObj [("internet", JBool true); ("disks", JArr disks)].

Definition sda (mounted : bool) : json :=
  JObj [("name", JStr "sda"); ("size", JStr "500G"); ("mounted", JBool mounted)].

(** No internet at first; the user connects to WiFi twice before the
    first status refresh answers, so two refreshes are in flight. The
    first shows [sda] unmounted, the user selects it and fills in the
    form; the second refresh is still in flight. *)
Definition stale_disk_events : list (event (U:=installer_event)) :=
  [Answer 0 (Response true (Some (JObj [("internet", JBool false); ("disks", JArr [])])));
   Answer 0 (Response true (Some (JObj [("networks", JArr [JObj [("ssid", JStr "home")]])])));
   User (WifiUser (ClickNetwork 0)); User (WifiUser SubmitConnect);
   Answer 0 (Response true None);
   User (WifiUser SubmitConnect);
   Answer 1 (Response true None);
   Answer 0 (Response true (Some (net_status [sda false])));
   User (FormUser (ClickDisk 0));
   User (FormUser (EditSshKey "ssh-ed25519 AAAA"));
   User (FormUser (EditGitRemote "https://example.org/homelab.git"))].

Definition stale_disk_world : world installer_state installer_k :=
  match run (installer sample_engine sample_url_ok)
            (initial_world (installer sample_engine sample_url_ok)) stale_disk_events with
  | Some w => w
  | None => initial_world (installer sample_engine sample_url_ok)
  end.

Definition stale_disk_form : form_state :=
  match nth_error (forms (wstate stale_disk_world)) 0 with Some f => f | None => form_init end.

(** The refresh reports [sda] mounted: the form keeps it selected, and
    its Install button posts it. *)
Lemma status_keeps_selection_witness :
  selectedDisk stale_disk_form = Some (JStr "sda") /\
  exists w', step (installer sample_engine sample_url_ok) stale_disk_world
               (Answer 0 (Response true (Some (net_status [sda true])))) = Some w' /\
    status (wstate w') = net_status [sda true] /\ child (wstate w') = CForm 0 /\
    nth_error (forms (wstate w')) 0 = Some stale_disk_form.
Proof.
  split; [vm_compute; reflexivity|].
  apply (status_keeps_selection sample_engine sample_url_ok stale_disk_world 0 0
           (mkRequest "GET" "/api/status" None) stale_disk_form (net_status [sda true])
           (Some (JBool true))); vm_compute; reflexivity.
Defined.

(** The first status request fails: "Failed to fetch status" shows, and
    five seconds later it is gone. *)
Definition failed_status_world : world installer_state installer_k :=
  match run (installer sample_engine sample_url_ok)
            (initial_world (installer sample_engine sample_url_ok)) [Answer 0 NetworkError] with
  | Some w => w
  | None => initial_world (installer sample_engine sample_url_ok)
  end.

Lemma installer_message_cleared_witness :
  current (ibanner (wstate failed_status_world)) <> None /\
  exists w', step (installer sample_engine sample_url_ok) failed_status_world (User (IWait 5000))
             = Some w' /\ current (ibanner (wstate w')) = None.
Proof.
  assert (Hr : run (installer sample_engine sample_url_ok)
                 (initial_world (installer sample_engine sample_url_ok)) [Answer 0 NetworkError]
               = Some failed_status_world) by (vm_compute; reflexivity).
  assert (Hc : current (ibanner (wstate failed_status_world)) <> None) by (vm_compute; discriminate).
  exact (conj Hc (installer_message_cleared sample_engine sample_url_ok failed_status_world
                    (run_reachable _ _ _ _ (reach_init _) Hr) Hc)).
Defined.
