(* ===== verification/InstallerTypes.v ===== *)
(** * The installer under typed answers

    [fetchStatus] keeps what [/api/status] sends in
    [useState<Status | null>] ([interface Status] of
    [installer/frontend/src/App.tsx]), and its WifiSetup child keeps its
    scans in [useState<Network[]>]. This file states what the installer
    App does when the servers answer with these types: the invariant of
    its state over typed runs, and the type safety of its render with
    whichever children it has mounted. *)

From Stdlib Require Import String Ascii List ZArith Lia Bool.
From S2P Require Import Prelude JsString JsNumber JsObject Json Ui TsTypes InstallForm WifiSetup Installer.
Import ListNotations.
Open Scope string_scope.
Open Scope yolab_scope.

(** ** Typed answers

    [fetchStatus] keeps what [/api/status] sends in
    [useState<Status | null>], and the WifiSetup child keeps its scans in
    [useState<Network[]>]. When the answers conform to these types, the
    installer never crashes: its screen, the WifiSetup on show and the
    InstallForm on show all render, whatever children the status
    changes mount and unmount. *)

(** [interface Status { internet: boolean; disks: Disk[] }] *)
Definition Status : ts_type :=
  TInterface [("internet", false, TBoolean); ("disks", false, TArray Disk)].

Definition installer_typed (k : installer_k) (res : http_result) : bool :=
  match k with
  | KStatus => match res with Response true (Some data) => has_type Status data | _ => true end
  | KWifi _ wk => wifi_typed wk res
  | KForm _ _ => true
  end.

Section TypedInstaller.
Context (E : engine_texts) (valid_url : string -> bool).

(** The status is [null] (before it loads) or a [Status], and each
    WifiSetup instance holds a typed network list. *)
Definition data_typed (s : installer_state) : Prop :=
  (status s = JNull \/ has_type Status (status s) = true) /\ forallb networks_typed (wifis s) = true.

(** Moreover the form shows only over a [Status]. *)
Definition installer_typed_state (s : installer_state) : Prop :=
  data_typed s /\ (forall id, child s = CForm id -> has_type Status (status s) = true).

(** A truthy status is a [Status]. *)
Lemma status_truthy_typed (s : installer_state) :
  data_typed s -> truthy (Some (status s)) = true -> has_type Status (status s) = true.
Proof. intros [[Hn|Ht] _]; [rewrite Hn; discriminate | intros _; exact Ht]. Qed.

Lemma screen_form_typed (s : installer_state) :
  data_typed s -> installer_screen s = Ok SForm -> has_type Status (status s) = true.
Proof.
  intros Hd. unfold installer_screen. destruct (iloading s); [discriminate|].
  destruct (truthy (Some (status s))) eqn:Ht; [|discriminate].
  intros _. exact (status_truthy_typed s Hd Ht).
Qed.

Lemma reconcile_typed (s s' : installer_state) (o : outputs installer_k) :
  data_typed s -> reconcile E s = Ok (s', o) -> installer_typed_state s'.
Proof.
  intros Hd. pose proof (screen_form_typed s Hd) as Hf. destruct Hd as [Hst Hw].
  unfold reconcile. destruct (installer_screen s) as [scr| |]; cbn; try discriminate.
  destruct scr, (child s) eqn:Hch; cbn; intros H; injection H as <- <-;
    (split; [split; [exact Hst | cbn; rewrite ?forallb_app, Hw; reflexivity] |]);
    cbn; intros id' Hid; rewrite ?Hch in Hid; try discriminate; exact (Hf eq_refl).
Qed.

Lemma settle_typed (r : js_result (installer_state * outputs installer_k))
    (s' : installer_state) (o : outputs installer_k) :
  (forall s0 o0, r = Ok (s0, o0) -> data_typed s0) ->
  settle E r = Ok (s', o) -> installer_typed_state s'.
Proof.
  intros Hr. unfold settle. destruct r as [[s0 o0]| |]; cbn; try discriminate.
  destruct (reconcile E _) as [[s2 o2]| |] eqn:Hrc; cbn; try discriminate.
  intros H. inv H. exact ((fun Hd => reconcile_typed _ _ _ Hd Hrc) (Hr _ _ eq_refl)).
Qed.

Lemma wifi_step_typed (s s0 : installer_state) (id : nat) (w : wifi_state)
    (r : js_result (wifi_state * outputs wifi_k)) (o0 : outputs installer_k) :
  data_typed s -> (forall w' o', r = Ok (w', o') -> networks_typed w' = true) ->
  wifi_step s id r = Ok (s0, o0) -> data_typed s0.
Proof.
  intros [Hst Hw] Hr. destruct r as [[w' o']| |]; cbn; intros H; inv H.
  split; [exact Hst|]. cbn. exact (forallb_splice _ _ _ _ Hw (Hr _ _ eq_refl)).
Qed.

Lemma form_step_typed (s s0 : installer_state) (id : nat)
    (r : js_result (form_state * outputs form_k)) (o0 : outputs installer_k) :
  data_typed s -> form_step s id r = Ok (s0, o0) -> data_typed s0.
Proof. intros Hd. destruct r as [[f fo]| |]; cbn; intros H; inv H. exact Hd. Qed.

Lemma installer_user_typed (s s' : installer_state) (e : installer_event) (o : outputs installer_k) :
  data_typed s -> installer_user E s e = Ok (s', o) -> installer_typed_state s'.
Proof.
  intros Hd. unfold installer_user. apply settle_typed. intros s0 o0 Hr.
  destruct e as [d|we|fe]; cbn in Hr.
  - inv Hr. exact Hd.
  - destruct (child s); try (inv Hr; exact Hd).
    destruct (nth_error (wifis s) id) as [ws|] eqn:Hn; [|inv Hr; exact Hd].
    refine (wifi_step_typed _ _ _ ws _ _ Hd _ Hr). intros w' o' Hu.
    exact (wifi_user_typed _ _ _ _ (forallb_nth_error _ _ _ _ (proj2 Hd) Hn) Hu).
  - destruct (child s); try (inv Hr; exact Hd).
    destruct (nth_error (forms s) id); [exact (form_step_typed _ _ _ _ _ Hd Hr) | inv Hr; exact Hd].
Qed.

Lemma installer_answer_typed (s s' : installer_state) (k : installer_k) (res : http_result)
    (o : outputs installer_k) :
  data_typed s -> installer_typed k res = true -> installer_answer E s k res = Ok (s', o) ->
  installer_typed_state s'.
Proof.
  intros Hd Ht. unfold installer_answer. apply settle_typed. intros s0 o0 Hr.
  destruct k as [|id wk|id fk]; cbn in Ht.
  - injection Hr as Hr.
    assert (Hs : s0 = fst (fetchStatus_then E s res)) by (rewrite Hr; reflexivity).
    subst s0. destruct Hd as [Hst Hw]. unfold fetchStatus_then.
    destruct res as [|[] [data|]]; cbn; split; auto.
  - destruct (nth_error (wifis s) id) as [ws|] eqn:Hn; [|inv Hr; exact Hd].
    refine (wifi_step_typed _ _ _ ws _ _ Hd _ Hr). intros w' o' Ha.
    exact (wifi_answer_typed E _ _ _ _ _ (forallb_nth_error _ _ _ _ (proj2 Hd) Hn) Ht Ha).
  - destruct (nth_error (forms s) id); [exact (form_step_typed _ _ _ _ _ Hd Hr) | inv Hr; exact Hd].
Qed.

Lemma installer_typed_invariant (w : world installer_state installer_k) :
  reachable_typed (installer E valid_url) installer_typed w -> installer_typed_state (wstate w).
Proof.
  apply typed_state_invariant.
  - split; [split; [left; reflexivity | reflexivity] | discriminate].
  - intros s u s' o [Hd _] _ Hu. exact (installer_user_typed _ _ _ _ Hd Hu).
  - intros s k res s' o [Hd _] Ht Ha. exact (installer_answer_typed _ _ _ _ _ Hd Ht Ha).
Qed.

(** C11: when the status and the scans answer with the types the code
    declares, the installer never crashes: in every typed run its screen
    renders, the WifiSetup instance on show renders, and the InstallForm
    on show renders, each of its disks showing a string name and a
    boolean [mounted], whatever children the status changes mounted. *)
Theorem installer_render_safe (w : world installer_state installer_k) :
  reachable_typed (installer E valid_url) installer_typed w ->
  (exists scr, installer_screen (wstate w) = Ok scr) /\
  (forall id ws, child (wstate w) = CWifi id -> nth_error (wifis (wstate w)) id = Some ws ->
     exists v, render_wifi ws = Ok v) /\
  (forall id f, child (wstate w) = CForm id -> nth_error (forms (wstate w)) id = Some f ->
     exists fv, render_form (disks_of (wstate w)) f = Ok fv /\
                forall ds b l, fv = FormFields ds b l -> Forall disk_view_typed ds).
Proof.
  intros Hw. destruct (installer_typed_invariant w Hw) as [Hd Hf]. set (s := wstate w) in *.
  split; [|split].
  - unfold installer_screen. destruct (iloading s); [eauto|].
    destruct (truthy (Some (status s))) eqn:Ht; [|eauto].
    destruct (get_prop_interface _ _ "internet" (status_truthy_typed s Hd Ht)) as [x ->]. cbn. eauto.
  - intros id ws _ Hn. destruct (render_wifi_typed ws (forallb_nth_error _ _ _ _ (proj2 Hd) Hn))
      as (v & Hv & _). eauto.
  - intros id f Hc _. unfold disks_of.
    destruct (get_prop_field _ _ "disks" _ (Hf id Hc) (or_intror (or_introl eq_refl)))
      as (x & -> & Hx).
    exact (render_form_typed x f Hx).
Qed.

End TypedInstaller.

(** The status loads with two typed disks, the user picks the
    unmounted one: the typed run ends on the form. *)
Definition typed_status_events : list (event (U:=installer_event)) :=
  [Answer 0 (Response true (Some sample_status)); User (FormUser (ClickDisk 1))].

Definition typed_status_world : world installer_state installer_k :=
  match run_typed (installer sample_engine sample_url_ok) installer_typed
          (initial_world (installer sample_engine sample_url_ok)) typed_status_events with
  | Some w => w
  | None => initial_world (installer sample_engine sample_url_ok)
  end.

Lemma installer_render_safe_witness :
  child (wstate typed_status_world) = CForm 0 /\
  exists f fv, nth_error (forms (wstate typed_status_world)) 0 = Some f /\
               render_form (disks_of (wstate typed_status_world)) f = Ok fv.
Proof.
  assert (Hr : run_typed (installer sample_engine sample_url_ok) installer_typed
                 (initial_world (installer sample_engine sample_url_ok)) typed_status_events
               = Some typed_status_world) by (vm_compute; reflexivity).
  destruct (installer_render_safe sample_engine sample_url_ok typed_status_world
              (run_typed_reachable _ _ _ _ _ (typed_init _ _) Hr)) as (_ & _ & Hform).
  assert (Hc : child (wstate typed_status_world) = CForm 0) by (vm_compute; reflexivity).
  destruct (nth_error (forms (wstate typed_status_world)) 0) as [f|] eqn:Hn;
    [|vm_compute in Hn; discriminate].
  destruct (Hform 0 f Hc Hn) as (fv & Hfv & _).
  split; [exact Hc | exists f, fv; split; [reflexivity | exact Hfv]].
Defined.
